(** * Code Guardian: the agent/session runtime, embedded and verified

    A shallow embedding of the chat session store ([ChatSessionManager]),
    the chat controller, the provider abstraction (OpenAI, Anthropic and
    local providers) and the fix orchestrator ([FixAgent]) of the
    extension, with the properties its specification states about them,
    and further properties of this code, of the fix agent without review
    and of two functions of the analyzers.

    Conventions of the embedding.
    - A JavaScript string is a Rocq [string], the bytes of its UTF-8
      form.  [trim] strips the white space and the line terminators of
      ECMAScript, in the ASCII range and beyond it (U+00A0, U+FEFF, the
      space separators, U+2028 and U+2029, in their UTF-8 forms).
      [toLowerCase] changes the ASCII capitals only; the code compares
      its result with the words [approve] and [reject] only, and no
      letter outside ASCII has a lower case with a letter of these
      words.  The class [\w] is the ASCII one, as in a pattern without
      the [u] and [i] flags.  Lengths and positions count bytes.
    - [undefined] is [None]; a thrown exception is the [Threw] case of a
      result type.
    - [Date.now()] and [randomId()] are inputs: the store operations take
      the values these calls return as arguments. *)

From Stdlib Require Import String Ascii List Bool Arith ZArith Lia.
From Stdlib Require Import Permutation Sorted.
Import ListNotations.
Local Open Scope string_scope.
Set Warnings "-register-all".

(** ** JavaScript strings *)

Module Js.

Definition chr (n : nat) : string := String (ascii_of_nat n) EmptyString.
Definition nl : string := chr 10.
Definition dq : string := chr 34.

(** Writes a literal that contains double quotes with single quotes. *)
Fixpoint q (s : string) : string :=
  match s with
  | EmptyString => EmptyString
  | String c r => String (if Ascii.eqb c "'"%char then ascii_of_nat 34 else c) (q r)
  end.

Fixpoint take (n : nat) (s : string) : string :=
  match n, s with
  | S k, String c r => String c (take k r)
  | _, _ => EmptyString
  end.

Fixpoint drop (n : nat) (s : string) : string :=
  match n, s with
  | S k, String _ r => drop k r
  | _, _ => s
  end.

(** [s.slice(i, j)] for indices [0 <= i], [0 <= j]. *)
Definition slice (s : string) (i j : nat) : string := take (j - i) (drop i s).

(** [s.slice(i)] for [0 <= i]. *)
Definition sliceFrom (s : string) (i : nat) : string := drop i s.

Fixpoint startsWith (s p : string) : bool :=
  match p, s with
  | EmptyString, _ => true
  | String a p', String b s' => Ascii.eqb a b && startsWith s' p'
  | String _ _, EmptyString => false
  end.

(** [s.indexOf(p)]: [None] stands for -1. *)
Fixpoint indexOf (s p : string) : option nat :=
  if startsWith s p then Some 0
  else match s with
       | EmptyString => None
       | String _ r => option_map S (indexOf r p)
       end.

(** [s.lastIndexOf(p)]: [None] stands for -1. *)
Fixpoint lastIndexOf (s p : string) : option nat :=
  match s with
  | EmptyString => if startsWith s p then Some 0 else None
  | String _ r =>
      match lastIndexOf r p with
      | Some i => Some (S i)
      | None => if startsWith s p then Some 0 else None
      end
  end.

Definition includes (s p : string) : bool :=
  match indexOf s p with Some _ => true | None => false end.

(** The bytes of code point [n < 65536] in UTF-8. *)
Definition utf8 (n : nat) : string :=
  if Nat.ltb n 128 then chr n
  else if Nat.ltb n 2048 then chr (192 + n / 64) ++ chr (128 + n mod 64)
  else chr (224 + n / 4096) ++ chr (128 + (n / 64) mod 64) ++ chr (128 + n mod 64).

Fixpoint bytes (codes : list nat) : string :=
  match codes with
  | [] => EmptyString
  | n :: r => String (ascii_of_nat n) (bytes r)
  end.

(** What [String.prototype.trim] strips: the characters of WhiteSpace
    (tab, vertical tab, form feed, space, U+00A0, U+FEFF and the space
    separators U+1680, U+2000 to U+200A, U+202F, U+205F, U+3000) and of
    LineTerminator (line feed, carriage return, U+2028, U+2029), each in
    its UTF-8 form. *)
Definition spaces : list string :=
  [ chr 9; chr 10; chr 11; chr 12; chr 13; chr 32;
    bytes [194; 160];
    bytes [225; 154; 128];
    bytes [226; 128; 128]; bytes [226; 128; 129]; bytes [226; 128; 130];
    bytes [226; 128; 131]; bytes [226; 128; 132]; bytes [226; 128; 133];
    bytes [226; 128; 134]; bytes [226; 128; 135]; bytes [226; 128; 136];
    bytes [226; 128; 137]; bytes [226; 128; 138];
    bytes [226; 128; 168]; bytes [226; 128; 169];
    bytes [226; 128; 175];
    bytes [226; 129; 159];
    bytes [227; 128; 128];
    bytes [239; 187; 191] ].

(** [t] is one character that [trim] strips. *)
Definition isSpace (t : string) : bool := existsb (String.eqb t) spaces.

(** Such a character takes one, two or three bytes. *)
Fixpoint trimStart (s : string) : string :=
  match s with
  | EmptyString => EmptyString
  | String a r =>
      if isSpace (String a EmptyString) then trimStart r
      else
        match r with
        | EmptyString => s
        | String b r1 =>
            if isSpace (String a (String b EmptyString)) then trimStart r1
            else
              match r1 with
              | EmptyString => s
              | String c r2 =>
                  if isSpace (String a (String b (String c EmptyString)))
                  then trimStart r2 else s
              end
        end
  end.

(** What is left of [String c r] once the end of [r] is stripped is
    stripped as a whole when it is one such character. *)
Fixpoint trimEnd (s : string) : string :=
  match s with
  | EmptyString => EmptyString
  | String c r =>
      let kept := String c (trimEnd r) in
      if isSpace kept then EmptyString else kept
  end.

Definition trim (s : string) : string := trimEnd (trimStart s).

Definition lowerChar (c : ascii) : ascii :=
  let n := nat_of_ascii c in
  if Nat.leb 65 n && Nat.leb n 90 then ascii_of_nat (n + 32) else c.

Fixpoint toLowerCase (s : string) : string :=
  match s with
  | EmptyString => EmptyString
  | String c r => String (lowerChar c) (toLowerCase r)
  end.

(** Truthiness of a string: [!s] is [isEmpty s]. *)
Definition isEmpty (s : string) : bool :=
  match s with EmptyString => true | _ => false end.

(** [a || b] on strings. *)
Definition orElse (a b : string) : string := if isEmpty a then b else a.

(** [s.split('\n')]: never empty; the last element is the text after the
    last line feed. *)
Fixpoint splitLines (s : string) : list string :=
  match s with
  | EmptyString => [EmptyString]
  | String c r =>
      if Ascii.eqb c (ascii_of_nat 10) then EmptyString :: splitLines r
      else match splitLines r with
           | l :: ls => String c l :: ls
           | [] => [String c EmptyString]
           end
  end.

(** [xs.join(sep)]. *)
Fixpoint join (sep : string) (xs : list string) : string :=
  match xs with
  | [] => EmptyString
  | [x] => x
  | x :: r => x ++ sep ++ join sep r
  end.

(** The concatenation of strings in order. *)
Fixpoint concatAll (xs : list string) : string :=
  match xs with
  | [] => EmptyString
  | x :: r => x ++ concatAll r
  end.

(** Decimal rendering of a natural number, as template literals do it. *)
Definition digitChar (d : nat) : ascii := ascii_of_nat (48 + d).

Fixpoint natToStringAux (fuel n : nat) (acc : string) : string :=
  match fuel with
  | 0 => acc
  | S f =>
      let acc' := String (digitChar (n mod 10)) acc in
      if Nat.eqb (n / 10) 0 then acc' else natToStringAux f (n / 10) acc'
  end.

Definition natToString (n : nat) : string := natToStringAux (S n) n EmptyString.

Definition intToString (z : Z) : string :=
  if (z <? 0)%Z then "-" ++ natToString (Z.to_nat (- z)) else natToString (Z.to_nat z).

End Js.


(** ** JSON values and [JSON.parse] *)

Module Json.

(** A number keeps its lexeme: its value is a double, which is outside
    this development.  What the code needs of a number is taken from a
    [NumberModel]. *)
Inductive JValue : Type :=
| JNull
| JBool (b : bool)
| JNumber (lexeme : string)
| JString (s : string)
| JArray (items : list JValue)
| JObject (members : list (string * JValue)).

Record NumberModel : Type := {
  (** [String(n)] for the number written [lexeme]. *)
  numberToString : string -> string;
  (** [!n]: the number written [lexeme] is zero. *)
  numberFalsy : string -> bool
}.

Definition isCode (c : ascii) (n : nat) : bool := Nat.eqb (nat_of_ascii c) n.

Definition isJsonSpace (c : ascii) : bool :=
  existsb (isCode c) [32; 9; 10; 13].

Fixpoint skipWs (s : string) : string :=
  match s with
  | String c r => if isJsonSpace c then skipWs r else s
  | EmptyString => EmptyString
  end.

Definition isDigit (c : ascii) : bool :=
  Nat.leb 48 (nat_of_ascii c) && Nat.leb (nat_of_ascii c) 57.

Definition hexValue (c : ascii) : option nat :=
  let n := nat_of_ascii c in
  if Nat.leb 48 n && Nat.leb n 57 then Some (n - 48)
  else if Nat.leb 65 n && Nat.leb n 70 then Some (n - 55)
  else if Nat.leb 97 n && Nat.leb n 102 then Some (n - 87)
  else None.

Definition hex4 (s : string) : option (nat * string) :=
  match s with
  | String a (String b (String c (String d r))) =>
      match hexValue a, hexValue b, hexValue c, hexValue d with
      | Some x, Some y, Some z, Some w => Some (((x * 16 + y) * 16 + z) * 16 + w, r)
      | _, _, _, _ => None
      end
  | _ => None
  end.

(** The text of a string literal after its opening quote, with the escapes
    resolved, and what follows the closing quote.  The recursion is on a
    bound [fuel] of the characters left, since an escape [\uXXXX] skips
    five of them. *)
Fixpoint stringBody (fuel : nat) (s : string) : option (string * string) :=
  match fuel with
  | 0 => None
  | S f =>
      match s with
      | EmptyString => None
      | String c r =>
          if isCode c 34 then Some (EmptyString, r)
          else if isCode c 92 then
            match r with
            | EmptyString => None
            | String e r' =>
                let continue (lit : string) (rest : string) :=
                  match stringBody f rest with
                  | Some (t, k) => Some (lit ++ t, k)
                  | None => None
                  end in
                if isCode e 34 then continue (Js.chr 34) r'
                else if isCode e 92 then continue (Js.chr 92) r'
                else if isCode e 47 then continue "/" r'
                else if Ascii.eqb e "b" then continue (Js.chr 8) r'
                else if Ascii.eqb e "f" then continue (Js.chr 12) r'
                else if Ascii.eqb e "n" then continue (Js.chr 10) r'
                else if Ascii.eqb e "r" then continue (Js.chr 13) r'
                else if Ascii.eqb e "t" then continue (Js.chr 9) r'
                else if Ascii.eqb e "u" then
                  match hex4 r' with
                  | Some (n, r'') => continue (Js.utf8 n) r''
                  | None => None
                  end
                else None
            end
          else if Nat.ltb (nat_of_ascii c) 32 then None
          else match stringBody f r with
               | Some (t, k) => Some (String c t, k)
               | None => None
               end
      end
  end.

Fixpoint spanDigits (s : string) : string * string :=
  match s with
  | String c r =>
      if isDigit c then let (d, k) := spanDigits r in (String c d, k)
      else (EmptyString, s)
  | EmptyString => (EmptyString, EmptyString)
  end.

(** A JSON number: an optional minus, then 0 or a digit sequence without
    leading zero, an optional fraction and an optional exponent.  Returns
    the lexeme and the rest. *)
Definition numberLexeme (s : string) : option (string * string) :=
  let (sign, s1) :=
    match s with
    | String c r => if Ascii.eqb c "-" then ("-", r) else (EmptyString, s)
    | EmptyString => (EmptyString, s)
    end in
  let intPart :=
    match s1 with
    | String c r =>
        if Ascii.eqb c "0" then Some ("0", r)
        else if isDigit c then Some (spanDigits s1)
        else None
    | EmptyString => None
    end in
  match intPart with
  | None => None
  | Some (ip, s2) =>
      let fracPart :=
        match s2 with
        | String c r =>
            if Ascii.eqb c "." then
              match spanDigits r with
              | (EmptyString, _) => None
              | (d, k) => Some ("." ++ d, k)
              end
            else Some (EmptyString, s2)
        | EmptyString => Some (EmptyString, s2)
        end in
      match fracPart with
      | None => None
      | Some (fp, s3) =>
          let expPart :=
            match s3 with
            | String c r =>
                if Ascii.eqb c "e" || Ascii.eqb c "E" then
                  let (sg, r1) :=
                    match r with
                    | String g r' =>
                        if Ascii.eqb g "+" || Ascii.eqb g "-"
                        then (String g EmptyString, r') else (EmptyString, r)
                    | EmptyString => (EmptyString, r)
                    end in
                  match spanDigits r1 with
                  | (EmptyString, _) => None
                  | (d, k) => Some (String c sg ++ d, k)
                  end
                else Some (EmptyString, s3)
            | EmptyString => Some (EmptyString, s3)
            end in
          match expPart with
          | None => None
          | Some (ep, s4) => Some (sign ++ ip ++ fp ++ ep, s4)
          end
      end
  end.

(** Recursive descent.  The three parsers call each other; each is
    written as a step over the parsers it calls, and the recursion is on a
    bound [fuel] of the nested calls, two for each character at most.

    A value, after optional white space. *)
Definition valueStep
  (parseElements : string -> list JValue -> option (JValue * string))
  (parseMembers : string -> list (string * JValue) -> option (JValue * string))
  (s : string) : option (JValue * string) :=
  match skipWs s with
  | EmptyString => None
  | String c r as t =>
      if Ascii.eqb c "{" then
        match skipWs r with
        | String d r' =>
            if Ascii.eqb d "}" then Some (JObject [], r') else parseMembers r []
        | EmptyString => None
        end
      else if Ascii.eqb c "[" then
        match skipWs r with
        | String d r' =>
            if Ascii.eqb d "]" then Some (JArray [], r') else parseElements r []
        | EmptyString => None
        end
      else if isCode c 34 then
        match stringBody (S (String.length r)) r with
        | Some (str, k) => Some (JString str, k)
        | None => None
        end
      else if Js.startsWith t "true" then Some (JBool true, Js.drop 4 t)
      else if Js.startsWith t "false" then Some (JBool false, Js.drop 5 t)
      else if Js.startsWith t "null" then Some (JNull, Js.drop 4 t)
      else match numberLexeme t with
           | Some (lx, k) => Some (JNumber lx, k)
           | None => None
           end
  end.

(** The elements of an array after the first bracket, up to the closing
    one; [acc] holds the elements read so far, the last first. *)
Definition elementsStep
  (parseValue : string -> option (JValue * string))
  (parseElements : string -> list JValue -> option (JValue * string))
  (s : string) (acc : list JValue) : option (JValue * string) :=
  match parseValue s with
  | None => None
  | Some (v, r) =>
      match skipWs r with
      | String c r' =>
          if Ascii.eqb c "," then parseElements r' (v :: acc)
          else if Ascii.eqb c "]" then Some (JArray (rev (v :: acc)), r')
          else None
      | EmptyString => None
      end
  end.

(** The members of an object after the first brace, up to the closing
    one. *)
Definition membersStep
  (parseValue : string -> option (JValue * string))
  (parseMembers : string -> list (string * JValue) -> option (JValue * string))
  (s : string) (acc : list (string * JValue)) : option (JValue * string) :=
  match skipWs s with
  | String c r =>
      if isCode c 34 then
        match stringBody (S (String.length r)) r with
        | None => None
        | Some (key, r1) =>
            match skipWs r1 with
            | String d r2 =>
                if Ascii.eqb d ":" then
                  match parseValue r2 with
                  | None => None
                  | Some (v, r3) =>
                      match skipWs r3 with
                      | String e r4 =>
                          if Ascii.eqb e "," then parseMembers r4 ((key, v) :: acc)
                          else if Ascii.eqb e "}"
                          then Some (JObject (rev ((key, v) :: acc)), r4)
                          else None
                      | EmptyString => None
                      end
                  end
                else None
            | EmptyString => None
            end
        end
      else None
  | EmptyString => None
  end.

Fixpoint parseValue (fuel : nat) (s : string) : option (JValue * string) :=
  match fuel with
  | 0 => None
  | S f => valueStep (parseElements f) (parseMembers f) s
  end

with parseElements (fuel : nat) (s : string) (acc : list JValue)
  : option (JValue * string) :=
  match fuel with
  | 0 => None
  | S f => elementsStep (parseValue f) (parseElements f) s acc
  end

with parseMembers (fuel : nat) (s : string) (acc : list (string * JValue))
  : option (JValue * string) :=
  match fuel with
  | 0 => None
  | S f => membersStep (parseValue f) (parseMembers f) s acc
  end.

(** [JSON.parse(s)]; [None] when it throws a [SyntaxError]. *)
Definition parse (s : string) : option JValue :=
  match parseValue (2 * String.length s + 2) s with
  | Some (v, r) => if Js.isEmpty (skipWs r) then Some v else None
  | None => None
  end.

(** The own property [name] of an object as [JSON.parse] builds it: the
    last member of that name. *)
Fixpoint lookup (name : string) (ms : list (string * JValue)) : option JValue :=
  match ms with
  | [] => None
  | (k, v) :: r =>
      match lookup name r with
      | Some w => Some w
      | None => if String.eqb k name then Some v else None
      end
  end.

(** [v.name] for a name that no prototype defines ([decision], [notes],
    [choices], [delta], [content]): [None] is the outer [TypeError] on
    [null], [Some None] is [undefined]. *)
Definition getProp (v : JValue) (name : string) : option (option JValue) :=
  match v with
  | JNull => None
  | JObject ms => Some (lookup name ms)
  | _ => Some None
  end.

(** [v?.name], for [v] possibly [undefined]. *)
Definition optProp (v : option JValue) (name : string) : option JValue :=
  match v with
  | Some (JObject ms) => lookup name ms
  | _ => None
  end.

(** [v?.[0]], for [v] possibly [undefined]. *)
Definition optIndex0 (v : option JValue) : option JValue :=
  match v with
  | Some (JArray (x :: _)) => Some x
  | Some (JObject ms) => lookup "0" ms
  | Some (JString (String c _)) => Some (JString (String c EmptyString))
  | _ => None
  end.

Section Coercions.

Variable nm : NumberModel.

(** Truthiness of a value that may be [undefined]. *)
Definition truthy (v : option JValue) : bool :=
  match v with
  | None => false
  | Some JNull => false
  | Some (JBool b) => b
  | Some (JNumber lx) => negb (numberFalsy nm lx)
  | Some (JString s) => negb (Js.isEmpty s)
  | Some (JArray _) => true
  | Some (JObject _) => true
  end.

(** [String(v)], which is also what [+] with a string does to [v];
    [None] when it throws a [TypeError].  An object of [JSON.parse]
    inherits [toString] and [valueOf] of [Object.prototype]; an own member
    [toString] hides the first and is never a function, and [valueOf]
    gives the object back, so such an object has no primitive form.  An
    array joins the forms of its elements, [null] counting as the empty
    string. *)
Fixpoint toStr (v : JValue) : option string :=
  match v with
  | JNull => Some "null"
  | JBool true => Some "true"
  | JBool false => Some "false"
  | JNumber lx => Some (numberToString nm lx)
  | JString s => Some s
  | JArray items =>
      let fix forms (xs : list JValue) : option (list string) :=
        match xs with
        | [] => Some []
        | x :: r =>
            match (match x with JNull => Some EmptyString | _ => toStr x end) with
            | None => None
            | Some t =>
                match forms r with
                | None => None
                | Some ts => Some (t :: ts)
                end
            end
        end in
      option_map (Js.join ",") (forms items)
  | JObject members =>
      match lookup "toString" members with
      | Some _ => None
      | None => Some "[object Object]"
      end
  end.

End Coercions.

End Json.

(** ** Approval parsing (fix agent) *)

Module Approval.

Import Json.

Inductive Decision : Type := approve | reject.

Record ApprovalResult : Type := {
  decision : Decision;
  notes : string
}.

(** The class [[\w-]] of the fence pattern. *)
Definition isWordOrDash (c : ascii) : bool :=
  let n := nat_of_ascii c in
  (Nat.leb 48 n && Nat.leb n 57) || (Nat.leb 65 n && Nat.leb n 90)
  || (Nat.leb 97 n && Nat.leb n 122) || Nat.eqb n 95 || Nat.eqb n 45.

Fixpoint skipWordOrDash (s : string) : string :=
  match s with
  | String c r => if isWordOrDash c then skipWordOrDash r else s
  | EmptyString => EmptyString
  end.

Definition fence : string := "```".

(** The pattern of [extractCodeBlock] anchored at the start of [s]: three
    backquotes, a run of word characters or dashes, a line feed, then the
    shortest text up to three backquotes, which is the captured group. *)
Definition fenceMatchAt (s : string) : option string :=
  if Js.startsWith s fence then
    match skipWordOrDash (Js.drop 3 s) with
    | String c body =>
        if Json.isCode c 10 then
          match Js.indexOf body fence with
          | Some i => Some (Js.take i body)
          | None => None
          end
        else None
    | EmptyString => None
    end
  else None.

(** [response.match(...)]: the leftmost position where the pattern matches;
    the result is the captured group. *)
Fixpoint fenceMatch (s : string) : option string :=
  match fenceMatchAt s with
  | Some g => Some g
  | None =>
      match s with
      | String _ r => fenceMatch r
      | EmptyString => None
      end
  end.

Definition extractCodeBlock (response : string) : option string :=
  match fenceMatch response with
  | Some g => Some (Js.trim g)
  | None => None
  end.

Definition extractJsonCandidate (response : string) : option string :=
  let fromBraces :=
    match Js.indexOf response "{", Js.lastIndexOf response "}" with
    | Some firstBrace, Some lastBrace =>
        if Nat.ltb firstBrace lastBrace
        then Some (Js.trim (Js.slice response firstBrace (lastBrace + 1)))
        else None
    | _, _ => None
    end in
  match extractCodeBlock response with
  | Some codeBlock =>
      if negb (Js.isEmpty codeBlock) && Js.startsWith (Js.trim codeBlock) "{"
      then Some (Js.trim codeBlock)
      else fromBraces
  | None => fromBraces
  end.

Section Parse.

Variable nm : NumberModel.

(** [String(parsed.decision || '').toLowerCase()]; [None] when reading the
    property throws ([parsed] is [null]) or when [String] throws. *)
Definition decisionText (parsed : JValue) : option string :=
  match getProp parsed "decision" with
  | None => None
  | Some d =>
      option_map Js.toLowerCase
        (match d with
         | Some v => if truthy nm d then toStr nm v else Some EmptyString
         | None => Some EmptyString
         end)
  end.

(** The body of the [try] block: [None] when it throws. *)
Definition parseJsonApproval (jsonCandidate : string) : option ApprovalResult :=
  match Json.parse jsonCandidate with
  | None => None
  | Some parsed =>
      match decisionText parsed with
      | None => None
      | Some d =>
          Some {| decision := if String.eqb d "approve" then approve else reject;
                  notes := match getProp parsed "notes" with
                           | Some (Some (JString n)) => Js.trim n
                           | _ => EmptyString
                           end |}
      end
  end.

Definition emptyResponseNote : string := "Approval agent returned an empty response.".

(** The fallback after the [try] block: the heuristic on the lower-cased
    text. *)
Definition heuristicApproval (trimmed : string) : ApprovalResult :=
  let normalized := Js.toLowerCase trimmed in
  if Js.includes normalized "approve" && negb (Js.includes normalized "reject")
  then {| decision := approve; notes := trimmed |}
  else {| decision := reject; notes := Js.orElse trimmed emptyResponseNote |}.

(** [parseApprovalResponse]; the [console.warn] of the [catch] block is
    not recorded. *)
Definition parseApprovalResponse (response : string) : ApprovalResult :=
  let trimmed := Js.trim response in
  let fallback := heuristicApproval trimmed in
  match extractJsonCandidate trimmed with
  | Some jsonCandidate =>
      if Js.isEmpty jsonCandidate then fallback
      else match parseJsonApproval jsonCandidate with
           | Some result => result
           | None => fallback
           end
  | None => fallback
  end.

End Parse.

End Approval.

(** ** The session store ([ChatSessionManager]) *)

Module Store.

(** ['qa' | 'fix']; [fix] is a keyword of Rocq, hence the capitals. *)
Inductive ChatSessionType : Type := QA | FIX.

Inductive ChatMessageRole : Type := system | user | assistant | tool | agent.

Inductive ChatSessionStatus : Type := idle | running | completed | error.

(** A metadata object: its own properties in insertion order; a property
    may hold [undefined]. *)
Definition Metadata : Type := list (string * option string).

Record StoredChatMessage : Type := {
  msg_id : string;
  msg_role : ChatMessageRole;
  msg_content : string;
  msg_createdAt : Z;
  msg_pending : option bool;
  msg_metadata : option Metadata
}.

Record ChatSession : Type := {
  sess_id : string;
  sess_type : ChatSessionType;
  sess_title : string;
  sess_createdAt : Z;
  sess_updatedAt : Z;
  sess_allowUserInput : bool;
  sess_status : ChatSessionStatus;
  sess_messages : list StoredChatMessage;
  sess_metadata : option Metadata
}.

Record ResolvedChatState : Type := {
  rs_sessions : list ChatSession;
  rs_activeSessionId : option string
}.

(** The manager: its two fields, what [persist] last wrote to the memento
    ([None] before the first write) with the number of writes, and the
    states fired to the observers, the latest first, each as an observer
    reads it when it is called. *)
Record Manager : Type := {
  sessions : list ChatSession;
  activeSessionId : option string;
  stored : option (list ChatSession);
  persistCount : nat;
  fired : list ResolvedChatState
}.

Definition typeIsQa (t : ChatSessionType) : bool :=
  match t with QA => true | FIX => false end.

Definition getState (m : Manager) : ResolvedChatState :=
  {| rs_sessions := sessions m; rs_activeSessionId := activeSessionId m |}.

Definition persist (m : Manager) : Manager :=
  {| sessions := sessions m; activeSessionId := activeSessionId m;
     stored := Some (sessions m); persistCount := S (persistCount m);
     fired := fired m |}.

Definition emitState (m : Manager) : Manager :=
  {| sessions := sessions m; activeSessionId := activeSessionId m;
     stored := stored m; persistCount := persistCount m;
     fired := getState m :: fired m |}.

Definition withSessions (m : Manager) (ss : list ChatSession) : Manager :=
  {| sessions := ss; activeSessionId := activeSessionId m;
     stored := stored m; persistCount := persistCount m; fired := fired m |}.

Definition withActive (m : Manager) (a : option string) : Manager :=
  {| sessions := sessions m; activeSessionId := a;
     stored := stored m; persistCount := persistCount m; fired := fired m |}.

(** [xs.findIndex(p)]: [None] stands for -1. *)
Fixpoint findIndex {A : Type} (p : A -> bool) (xs : list A) : option nat :=
  match xs with
  | [] => None
  | x :: r => if p x then Some 0 else option_map S (findIndex p r)
  end.

Definition hasId (sessionId : string) (s : ChatSession) : bool :=
  String.eqb (sess_id s) sessionId.

Definition msgHasId (messageId : string) (m : StoredChatMessage) : bool :=
  String.eqb (msg_id m) messageId.

Definition getSession (m : Manager) (sessionId : string) : option ChatSession :=
  find (hasId sessionId) (sessions m).

Definition getActiveSession (m : Manager) : option ChatSession :=
  match activeSessionId m with
  | Some a => find (hasId a) (sessions m)
  | None => None
  end.

(** The sessions are objects that the code changes in place: [updateFirst]
    is the list after the first session of that id was changed by [f]. *)
Fixpoint updateFirst (sessionId : string) (f : ChatSession -> ChatSession)
  (ss : list ChatSession) : list ChatSession :=
  match ss with
  | [] => []
  | s :: r => if hasId sessionId s then f s :: r else s :: updateFirst sessionId f r
  end.

Definition setActiveSession (m : Manager) (sessionId : option string) : Manager :=
  let truthyId := match sessionId with
                  | Some i => negb (Js.isEmpty i)
                  | None => false
                  end in
  if truthyId && negb (existsb (fun s => match sessionId with
                                         | Some i => hasId i s
                                         | None => false
                                         end) (sessions m))
  then m
  else emitState (persist (withActive m sessionId)).

Section Create.

(** [new Date(timestamp).toLocaleString()], which depends on the locale. *)
Variable toLocaleString : Z -> string.

Definition defaultTitleForType (type : ChatSessionType) (timestamp : Z) : string :=
  let label := toLocaleString timestamp in
  if typeIsQa type then "Security Q&A (" ++ label ++ ")" else "AI Fix (" ++ label ++ ")".

(** [rid] is what [randomId()] returns and [timestamp] what [Date.now()]
    returns. *)
Definition createSession (m : Manager) (rid : string) (timestamp : Z)
  (type : ChatSessionType) (title : option string) (metadata : option Metadata)
  : Manager * ChatSession :=
  let newSession :=
    {| sess_id := rid;
       sess_type := type;
       sess_title := match title with
                     | Some t => t
                     | None => defaultTitleForType type timestamp
                     end;
       sess_createdAt := timestamp;
       sess_updatedAt := timestamp;
       sess_allowUserInput := typeIsQa type;
       sess_status := idle;
       sess_messages := [];
       sess_metadata := metadata |} in
  (emitState (persist (withActive (withSessions m (newSession :: sessions m))
                                  (Some (sess_id newSession)))),
   newSession).

End Create.

(** [xs.splice(index, 1)]. *)
Definition removeAt {A : Type} (index : nat) (xs : list A) : list A :=
  firstn index xs ++ skipn (S index) xs.

Definition optEqb (a b : option string) : bool :=
  match a, b with
  | Some x, Some y => String.eqb x y
  | None, None => true
  | _, _ => false
  end.

Definition deleteSession (m : Manager) (sessionId : string) : Manager :=
  match findIndex (hasId sessionId) (sessions m) with
  | None => m
  | Some index =>
      let m1 := withSessions m (removeAt index (sessions m)) in
      let m2 := if optEqb (activeSessionId m1) (Some sessionId)
                then withActive m1 (option_map sess_id (hd_error (sessions m1)))
                else m1 in
      emitState (persist m2)
  end.

(** The argument of [addMessage]: [id] and [createdAt] are optional. *)
Record NewMessage : Type := {
  new_id : option string;
  new_createdAt : option Z;
  new_role : ChatMessageRole;
  new_content : string;
  new_pending : option bool;
  new_metadata : option Metadata
}.

Definition plainMessage (role : ChatMessageRole) (content : string) : NewMessage :=
  {| new_id := None; new_createdAt := None; new_role := role;
     new_content := content; new_pending := None; new_metadata := None |}.

Definition pendingMessage (role : ChatMessageRole) (content : string) : NewMessage :=
  {| new_id := None; new_createdAt := None; new_role := role;
     new_content := content; new_pending := Some true; new_metadata := None |}.

Definition setMessages (msgs : list StoredChatMessage) (updatedAt : Z)
  (s : ChatSession) : ChatSession :=
  {| sess_id := sess_id s; sess_type := sess_type s; sess_title := sess_title s;
     sess_createdAt := sess_createdAt s; sess_updatedAt := updatedAt;
     sess_allowUserInput := sess_allowUserInput s; sess_status := sess_status s;
     sess_messages := msgs; sess_metadata := sess_metadata s |}.

(** [rid] is what [randomId()] returns, [nowCreated] and [nowUpdated] what
    the two calls of [Date.now()] return. *)
Definition addMessage (m : Manager) (rid : string) (nowCreated nowUpdated : Z)
  (sessionId : string) (message : NewMessage)
  : Manager * option StoredChatMessage :=
  match find (hasId sessionId) (sessions m) with
  | None => (m, None)
  | Some session =>
      let storedMsg :=
        {| msg_id := match new_id message with Some i => i | None => rid end;
           msg_createdAt := match new_createdAt message with
                            | Some t => t
                            | None => nowCreated
                            end;
           msg_role := new_role message;
           msg_content := new_content message;
           msg_pending := new_pending message;
           msg_metadata := new_metadata message |} in
      let change := setMessages (sess_messages session ++ [storedMsg]) nowUpdated in
      (emitState (persist (withSessions m (updateFirst sessionId change (sessions m)))),
       Some storedMsg)
  end.

(** The [updates] of [updateMessage]: a field that is absent is [None]; a
    field that is present may hold [undefined] where its type allows it. *)
Record MessageUpdates : Type := {
  upd_content : option string;
  upd_pending : option (option bool);
  upd_metadata : option (option Metadata)
}.

Definition clearPending : MessageUpdates :=
  {| upd_content := None; upd_pending := Some (Some false); upd_metadata := None |}.

(** [{ ...existing, ...updates }]. *)
Definition applyUpdates (existing : StoredChatMessage) (updates : MessageUpdates)
  : StoredChatMessage :=
  {| msg_id := msg_id existing;
     msg_role := msg_role existing;
     msg_content := match upd_content updates with
                    | Some c => c
                    | None => msg_content existing
                    end;
     msg_createdAt := msg_createdAt existing;
     msg_pending := match upd_pending updates with
                    | Some p => p
                    | None => msg_pending existing
                    end;
     msg_metadata := match upd_metadata updates with
                     | Some md => md
                     | None => msg_metadata existing
                     end |}.

(** [[...xs.slice(0, index), updated, ...xs.slice(index + 1)]]. *)
Definition replaceAt {A : Type} (index : nat) (updated : A) (xs : list A) : list A :=
  firstn index xs ++ updated :: skipn (S index) xs.

Definition updateMessage (m : Manager) (now : Z) (sessionId messageId : string)
  (updates : MessageUpdates) : Manager * option StoredChatMessage :=
  match find (hasId sessionId) (sessions m) with
  | None => (m, None)
  | Some session =>
      match findIndex (msgHasId messageId) (sess_messages session) with
      | None => (m, None)
      | Some index =>
          match nth_error (sess_messages session) index with
          | None => (m, None)
          | Some existing =>
              let updated := applyUpdates existing updates in
              let change := setMessages (replaceAt index updated (sess_messages session)) now in
              (emitState (persist (withSessions m (updateFirst sessionId change (sessions m)))),
               Some updated)
          end
      end
  end.

Definition appendContent (existing : StoredChatMessage) (fragment : string)
  : StoredChatMessage :=
  {| msg_id := msg_id existing;
     msg_role := msg_role existing;
     msg_content := msg_content existing ++ fragment;
     msg_createdAt := msg_createdAt existing;
     msg_pending := msg_pending existing;
     msg_metadata := msg_metadata existing |}.

(** Fires the state and does not persist. *)
Definition appendToMessage (m : Manager) (now : Z) (sessionId messageId : string)
  (fragment : string) : Manager * option StoredChatMessage :=
  match find (hasId sessionId) (sessions m) with
  | None => (m, None)
  | Some session =>
      match findIndex (msgHasId messageId) (sess_messages session) with
      | None => (m, None)
      | Some index =>
          match nth_error (sess_messages session) index with
          | None => (m, None)
          | Some existing =>
              let updated := appendContent existing fragment in
              let change := setMessages (replaceAt index updated (sess_messages session)) now in
              (emitState (withSessions m (updateFirst sessionId change (sessions m))),
               Some updated)
          end
      end
  end.

Definition setStatus (status : ChatSessionStatus) (updatedAt : Z) (s : ChatSession)
  : ChatSession :=
  {| sess_id := sess_id s; sess_type := sess_type s; sess_title := sess_title s;
     sess_createdAt := sess_createdAt s; sess_updatedAt := updatedAt;
     sess_allowUserInput := sess_allowUserInput s; sess_status := status;
     sess_messages := sess_messages s; sess_metadata := sess_metadata s |}.

Definition updateSessionStatus (m : Manager) (now : Z) (sessionId : string)
  (status : ChatSessionStatus) : Manager :=
  match find (hasId sessionId) (sessions m) with
  | None => m
  | Some _ =>
      emitState (persist (withSessions m
        (updateFirst sessionId (setStatus status now) (sessions m))))
  end.

(** One property written into a metadata object: an existing key keeps
    its place, a new key goes last. *)
Fixpoint setKey (k : string) (v : option string) (md : Metadata) : Metadata :=
  match md with
  | [] => [(k, v)]
  | (k', v') :: r => if String.eqb k' k then (k, v) :: r else (k', v') :: setKey k v r
  end.

(** [{ ...a, ...b }] on metadata objects; [a] may be [undefined]. *)
Definition mergeMetadata (a : option Metadata) (b : Metadata) : Metadata :=
  fold_left (fun acc kv => setKey (fst kv) (snd kv) acc) b
            (match a with Some md => md | None => [] end).

Definition setMetadata (md : Metadata) (updatedAt : Z) (s : ChatSession) : ChatSession :=
  {| sess_id := sess_id s; sess_type := sess_type s; sess_title := sess_title s;
     sess_createdAt := sess_createdAt s; sess_updatedAt := updatedAt;
     sess_allowUserInput := sess_allowUserInput s; sess_status := sess_status s;
     sess_messages := sess_messages s;
     sess_metadata := Some (mergeMetadata (sess_metadata s) md) |}.

Definition updateSessionMetadata (m : Manager) (now : Z) (sessionId : string)
  (metadata : Metadata) : Manager :=
  match find (hasId sessionId) (sessions m) with
  | None => m
  | Some _ =>
      emitState (persist (withSessions m
        (updateFirst sessionId (setMetadata metadata now) (sessions m))))
  end.

Definition setTitle (title : string) (updatedAt : Z) (s : ChatSession) : ChatSession :=
  {| sess_id := sess_id s; sess_type := sess_type s;
     sess_title := Js.orElse (Js.trim title) (sess_title s);
     sess_createdAt := sess_createdAt s; sess_updatedAt := updatedAt;
     sess_allowUserInput := sess_allowUserInput s; sess_status := sess_status s;
     sess_messages := sess_messages s; sess_metadata := sess_metadata s |}.

Definition renameSession (m : Manager) (now : Z) (sessionId title : string) : Manager :=
  match find (hasId sessionId) (sessions m) with
  | None => m
  | Some _ =>
      emitState (persist (withSessions m
        (updateFirst sessionId (setTitle title now) (sessions m))))
  end.

Definition clearAll (m : Manager) : Manager :=
  emitState (persist (withActive (withSessions m []) None)).

(** A session as the memento returns it: the three fields that
    [loadSessions] fills in may be missing. *)
Record StoredSession : Type := {
  raw_id : string;
  raw_type : ChatSessionType;
  raw_title : string;
  raw_createdAt : Z;
  raw_updatedAt : Z;
  raw_allowUserInput : option bool;
  raw_status : option ChatSessionStatus;
  raw_messages : option (list StoredChatMessage);
  raw_metadata : option Metadata
}.

Definition loadSessions (memento : option (list StoredSession)) : list ChatSession :=
  match memento with
  | None => []
  | Some storedSessions =>
      map (fun session =>
             {| sess_id := raw_id session;
                sess_type := raw_type session;
                sess_title := raw_title session;
                sess_createdAt := raw_createdAt session;
                sess_updatedAt := raw_updatedAt session;
                sess_allowUserInput :=
                  match raw_allowUserInput session with
                  | Some b => b
                  | None => typeIsQa (raw_type session)
                  end;
                sess_status :=
                  match raw_status session with Some st => st | None => idle end;
                sess_messages :=
                  match raw_messages session with Some ms => ms | None => [] end;
                sess_metadata := raw_metadata session |})
          storedSessions
  end.

(** The constructor; nothing is written or fired. *)
Definition newManager (memento : option (list StoredSession)) : Manager :=
  let loaded := loadSessions memento in
  {| sessions := loaded;
     activeSessionId := option_map sess_id (hd_error loaded);
     stored := None;
     persistCount := 0;
     fired := [] |}.

End Store.

(** ** The provider abstraction ([aiService]) *)

Module Ai.

Import Json.

Inductive ChatRole : Type := system | user | assistant | tool.

Record ChatMessage : Type := {
  role : ChatRole;
  content : string;
  name : option string
}.

(** [temperature] is a decimal literal: it only travels to the request. *)
Record ChatRequestOptions : Type := {
  temperature : option string;
  maxTokens : option nat;
  systemPrompt : option string
}.

(** Which of the three callbacks the caller supplies. *)
Record ChatStreamCallbacks : Type := {
  onToken : bool;
  onStart : bool;
  onComplete : bool
}.

Definition noCallbacks : ChatStreamCallbacks :=
  {| onToken := false; onStart := false; onComplete := false |}.

(** A call of a callback, with its argument.  A streamed delta that is not
    a string is recorded in its string form, which is what its consumers
    append. *)
Inductive CallbackEvent : Type :=
| Started
| Token (fragment : string)
| Completed (fullText : string).

Inductive Outcome (A : Type) : Type :=
| Returned (value : A)
| Threw (message : string).

Arguments Returned {A} value.
Arguments Threw {A} message.

(** The body of a request to a cloud provider. *)
Record Request : Type := {
  req_url : string;
  req_model : string;
  req_messages : list ChatMessage;
  req_system : option string;
  req_maxTokens : option nat;
  req_temperature : option string;
  req_stream : bool
}.

(** What [fetch] resolves to.  [resp_text] is [response.text()];
    [resp_reply] is the reply text that the provider takes out of
    [response.json()], a string by the provider's API (the empty string
    when the field is missing), or the error of [response.json()] when it
    rejects; [resp_reads] are the decoded chunks that the body reader
    yields before it reports [done], and [resp_readError] is the error of
    the read after them, if it fails instead. *)
Record Response : Type := {
  resp_ok : bool;
  resp_text : string;
  resp_reply : Outcome string;
  resp_hasBody : bool;
  resp_reads : list string;
  resp_readError : option string
}.

(** What a call of [chat] did: the callbacks it called, in order, what it
    wrote with [console.error], and how it ended. *)
Record ChatRun : Type := {
  events : list CallbackEvent;
  logged : list string;
  outcome : Outcome string
}.

Definition threw (message : string) : ChatRun :=
  {| events := []; logged := []; outcome := Threw message |}.

Definition truthyOpt (s : option string) : bool :=
  match s with Some t => negb (Js.isEmpty t) | None => false end.

Fixpoint chunkLoop (fuel : nat) (text : string) (chunkSize i : nat) : list string :=
  match fuel with
  | 0 => []
  | S f =>
      if Nat.ltb i (String.length text)
      then Js.slice text i (i + chunkSize) :: chunkLoop f text chunkSize (i + chunkSize)
      else []
  end.

(** [chunkText(text, chunkSize)]; the loop runs at most [text.length]
    times for a positive [chunkSize]. *)
Definition chunkTextBy (text : string) (chunkSize : nat) : list string :=
  chunkLoop (String.length text) text chunkSize 0.

Definition chunkText (text : string) : list string := chunkTextBy text 20.

(** The delivery of a complete text through the callbacks.  [guardText]
    tells whether the tokens are only sent for a non-empty text (the
    cloud providers) or always (the local provider). *)
Definition deliver (guardText : bool) (callbacks : ChatStreamCallbacks) (text : string)
  : list CallbackEvent :=
  (if onStart callbacks then [Started] else [])
  ++ (if (if guardText then negb (Js.isEmpty text) else true) && onToken callbacks
      then map Token (chunkText text) else [])
  ++ (if onComplete callbacks then [Completed text] else []).

(** *** The streaming read loop of the OpenAI provider *)

Record StreamState : Type := {
  buffer : string;
  fullText : string;
  tokens : list CallbackEvent;
  errors : list string
}.

Definition initialStream : StreamState :=
  {| buffer := EmptyString; fullText := EmptyString; tokens := []; errors := [] |}.

Definition parseErrorLog : string := "Failed to parse OpenAI stream payload".

Section Stream.

Variable nm : NumberModel.
Variable callbacks : ChatStreamCallbacks.

(** The body of the [try] block for one payload: [None] when it throws
    ([JSON.parse] fails, the parsed value is [null], or the delta has no
    string form to add to the text; the text is then as it was and
    [onToken] is not called). *)
Definition handlePayload (st : StreamState) (payload : string) : option StreamState :=
  match Json.parse payload with
  | None => None
  | Some json =>
      match getProp json "choices" with
      | None => None
      | Some choices =>
          let delta := optProp (optProp (optIndex0 choices) "delta") "content" in
          match delta with
          | Some d =>
              if truthy nm delta then
                match toStr nm d with
                | None => None
                | Some text =>
                    Some {| buffer := buffer st;
                            fullText := fullText st ++ text;
                            tokens := tokens st ++ (if onToken callbacks
                                                    then [Token text] else []);
                            errors := errors st |}
                end
              else Some st
          | None => Some st
          end
      end
  end.

(** One iteration of [for (const line of lines)]. *)
Definition processLine (st : StreamState) (line : string) : StreamState :=
  let trimmed := Js.trim line in
  if Js.isEmpty trimmed || negb (Js.startsWith trimmed "data:") then st
  else
    let payload := Js.trim (Js.sliceFrom trimmed 5) in
    if Js.isEmpty payload || String.eqb payload "[DONE]" then st
    else match handlePayload st payload with
         | Some st' => st'
         | None => {| buffer := buffer st; fullText := fullText st;
                      tokens := tokens st; errors := errors st ++ [parseErrorLog] |}
         end.

Definition processLines (st : StreamState) (lines : list string) : StreamState :=
  fold_left processLine lines st.

(** One iteration of [while (true)] for a chunk that the reader yields:
    the last element of the split stays in the buffer. *)
Definition processChunk (st : StreamState) (chunk : string) : StreamState :=
  let lines := Js.splitLines (buffer st ++ chunk) in
  let st1 := {| buffer := last lines EmptyString; fullText := fullText st;
                tokens := tokens st; errors := errors st |} in
  processLines st1 (removelast lines).

Definition readLoop (reads : list string) : StreamState :=
  fold_left processChunk reads initialStream.

End Stream.

Section Providers.

Variable nm : NumberModel.

(** The network: the response that [fetch] resolves to for a request. *)
Variable fetch : Request -> Response.

Definition withSystem (options : ChatRequestOptions) (messages : list ChatMessage)
  : list ChatMessage :=
  match systemPrompt options with
  | Some p =>
      if negb (Js.isEmpty p)
      then {| role := system; content := p; name := None |} :: messages
      else messages
  | None => messages
  end.

Definition openaiKeyError : string :=
  Js.q "OpenAI API key not set. Use 'Code Guardian: Set API Key' to store your key securely.".

Definition anthropicKeyError : string :=
  Js.q "Anthropic API key not set. Use 'Code Guardian: Set API Key' to store your key securely.".

(** The non-streaming end of a cloud provider's [chat], shared in shape by
    both: read the reply, deliver it, return it. *)
Definition replyRun (callbacks : ChatStreamCallbacks) (response : Response) : ChatRun :=
  match resp_reply response with
  | Threw e => threw e
  | Returned text =>
      {| events := deliver true callbacks text; logged := []; outcome := Returned text |}
  end.

Definition openaiChat (apiKey model : string) (messages : list ChatMessage)
  (options : ChatRequestOptions) (callbacks : ChatStreamCallbacks) : ChatRun :=
  if Js.isEmpty apiKey then threw openaiKeyError
  else
    let body :=
      {| req_url := "https://api.openai.com/v1/chat/completions";
         req_model := model;
         req_messages := withSystem options messages;
         req_system := None;
         req_maxTokens := None;
         req_temperature := None;
         req_stream := onToken callbacks |} in
    let response := fetch body in
    if negb (resp_ok response) then threw ("OpenAI chat failed: " ++ resp_text response)
    else
      let shouldStream := req_stream body && resp_hasBody response && onToken callbacks in
      if negb shouldStream then replyRun callbacks response
      else
        let st := readLoop nm callbacks (resp_reads response) in
        let started := if onStart callbacks then [Started] else [] in
        match resp_readError response with
        | Some e =>
            {| events := started ++ tokens st; logged := errors st; outcome := Threw e |}
        | None =>
            {| events := started ++ tokens st
                         ++ (if onComplete callbacks then [Completed (fullText st)] else []);
               logged := errors st;
               outcome := Returned (fullText st) |}
        end.

Definition anthropicRole (r : ChatRole) : ChatRole :=
  match r with assistant => assistant | _ => user end.

Definition anthropicChat (apiKey : string) (messages : list ChatMessage)
  (options : ChatRequestOptions) (callbacks : ChatStreamCallbacks) : ChatRun :=
  if Js.isEmpty apiKey then threw anthropicKeyError
  else
    let payloadMessages :=
      map (fun message => {| role := anthropicRole (role message);
                             content := content message; name := None |}) messages in
    let payloadMessages' :=
      if truthyOpt (systemPrompt options)
      then {| role := user;
              content := match systemPrompt options with Some p => p | None => EmptyString end;
              name := None |} :: payloadMessages
      else payloadMessages in
    let response :=
      fetch {| req_url := "https://api.anthropic.com/v1/messages";
               req_model := "claude-3-opus-20240229";
               req_messages := payloadMessages';
               req_system := systemPrompt options;
               req_maxTokens := Some (match maxTokens options with Some n => n | None => 800 end);
               req_temperature := Some (match temperature options with
                                        | Some t => t
                                        | None => "0.2"
                                        end);
               req_stream := false |} in
    if negb (resp_ok response) then threw ("Anthropic chat failed: " ++ resp_text response)
    else replyRun callbacks response.

Definition localReply (messages : list ChatMessage) : string :=
  "Local mode placeholder. Provider is offline. Messages received: "
  ++ Js.natToString (List.length messages).

Definition localChat (messages : list ChatMessage) (options : ChatRequestOptions)
  (callbacks : ChatStreamCallbacks) : ChatRun :=
  let reply := localReply messages in
  {| events := deliver false callbacks reply; logged := []; outcome := Returned reply |}.

Inductive Provider : Type :=
| OpenAIProvider (apiKey model : string)
| AnthropicProvider (apiKey : string)
| LocalProvider.

Definition createProvider (providerName apiKey model : string) : Provider :=
  if String.eqb providerName "openai" then OpenAIProvider apiKey model
  else if String.eqb providerName "anthropic" then AnthropicProvider apiKey
  else LocalProvider.

Definition providerChat (p : Provider) (messages : list ChatMessage)
  (options : ChatRequestOptions) (callbacks : ChatStreamCallbacks) : ChatRun :=
  match p with
  | OpenAIProvider apiKey model => openaiChat apiKey model messages options callbacks
  | AnthropicProvider apiKey => anthropicChat apiKey messages options callbacks
  | LocalProvider => localChat messages options callbacks
  end.

(** [AIService.chat]: logs the error of the provider and throws it again. *)
Definition serviceChat (p : Provider) (messages : list ChatMessage)
  (options : ChatRequestOptions) (callbacks : ChatStreamCallbacks) : ChatRun :=
  let run := providerChat p messages options callbacks in
  match outcome run with
  | Returned _ => run
  | Threw e =>
      {| events := events run;
         logged := logged run ++ ["Chat interaction failed: " ++ e];
         outcome := Threw e |}
  end.

End Providers.

End Ai.

(** ** The runtime around the store: controller and fix agent *)

Module Runtime.

Import Ai.

(** The surroundings of a run: the network, the random identifiers, the
    clock, the locale, the user and the editor.  [env_fetch n] answers the
    call of [chat] that follows [n] earlier ones; [env_randomId n] and
    [env_now n] are the results of call number [n] of [randomId()] and of
    [Date.now()]. *)
Record Env : Type := {
  env_nm : Json.NumberModel;
  env_provider : Provider;
  env_fetch : nat -> Request -> Response;
  env_randomId : nat -> string;
  env_now : nat -> Z;
  env_toLocaleString : Z -> string;
  (** What [showInformationMessage] resolves to. *)
  env_userChoice : option string;
  (** What [workspace.applyEdit] resolves to. *)
  env_applyEdit : bool
}.

Inductive NoticeKind : Type := InfoNotice | WarningNotice | ErrorNotice.

Record WorkspaceEdit : Type := {
  edit_path : string;
  edit_startLine : Z;
  edit_endLine : Z;
  edit_text : string
}.

(** A call of [aiService.chat]. *)
Record ChatCall : Type := {
  call_messages : list ChatMessage;
  call_options : ChatRequestOptions;
  call_callbacks : ChatStreamCallbacks
}.

(** The state that a run reads and writes: the session manager, how many
    identifiers and clock readings were drawn, the calls of the provider,
    the notices shown to the user, the workspace edits applied, the saves
    of the document, the reveals of the chat view and the console. *)
Record World : Type := {
  manager : Store.Manager;
  ids : nat;
  ticks : nat;
  chats : list ChatCall;
  notices : list (NoticeKind * string);
  edits : list WorkspaceEdit;
  saves : nat;
  reveals : nat;
  console : list string
}.

Definition initialWorld (m : Store.Manager) : World :=
  {| manager := m; ids := 0; ticks := 0; chats := []; notices := [];
     edits := []; saves := 0; reveals := 0; console := [] |}.

Definition withManager (w : World) (m : Store.Manager) (ids' ticks' : nat) : World :=
  {| manager := m; ids := ids'; ticks := ticks'; chats := chats w;
     notices := notices w; edits := edits w; saves := saves w;
     reveals := reveals w; console := console w |}.

Definition notify (w : World) (kind : NoticeKind) (text : string) : World :=
  {| manager := manager w; ids := ids w; ticks := ticks w; chats := chats w;
     notices := notices w ++ [(kind, text)]; edits := edits w; saves := saves w;
     reveals := reveals w; console := console w |}.

Definition logError (w : World) (text : string) : World :=
  {| manager := manager w; ids := ids w; ticks := ticks w; chats := chats w;
     notices := notices w; edits := edits w; saves := saves w;
     reveals := reveals w; console := console w ++ [text] |}.

Definition reveal (w : World) : World :=
  {| manager := manager w; ids := ids w; ticks := ticks w; chats := chats w;
     notices := notices w; edits := edits w; saves := saves w;
     reveals := S (reveals w); console := console w |}.

Definition found (w : World) (sessionId : string) : bool :=
  match Store.getSession (manager w) sessionId with Some _ => true | None => false end.

Section Operations.

Variable env : Env.

Definition createSession (w : World) (type : Store.ChatSessionType)
  (title : option string) (metadata : option Store.Metadata)
  : World * Store.ChatSession :=
  let '(m, session) :=
    Store.createSession (env_toLocaleString env) (manager w)
      (env_randomId env (ids w)) (env_now env (ticks w)) type title metadata in
  (withManager w m (S (ids w)) (S (ticks w)), session).

Definition addMessage (w : World) (sessionId : string) (message : Store.NewMessage)
  : World * option Store.StoredChatMessage :=
  let usedId := match Store.new_id message with None => 1 | Some _ => 0 end in
  let usedTick := match Store.new_createdAt message with None => 1 | Some _ => 0 end in
  let '(m, result) :=
    Store.addMessage (manager w) (env_randomId env (ids w))
      (env_now env (ticks w)) (env_now env (ticks w + usedTick)) sessionId message in
  match result with
  | Some _ => (withManager w m (ids w + usedId) (ticks w + usedTick + 1), result)
  | None => (withManager w m (ids w) (ticks w), result)
  end.

Definition updateMessage (w : World) (sessionId messageId : string)
  (updates : Store.MessageUpdates) : World :=
  let '(m, result) :=
    Store.updateMessage (manager w) (env_now env (ticks w)) sessionId messageId updates in
  withManager w m (ids w) (match result with Some _ => S (ticks w) | None => ticks w end).

Definition appendToMessage (w : World) (sessionId messageId fragment : string) : World :=
  let '(m, result) :=
    Store.appendToMessage (manager w) (env_now env (ticks w)) sessionId messageId fragment in
  withManager w m (ids w) (match result with Some _ => S (ticks w) | None => ticks w end).

Definition updateSessionStatus (w : World) (sessionId : string)
  (status : Store.ChatSessionStatus) : World :=
  withManager w
    (Store.updateSessionStatus (manager w) (env_now env (ticks w)) sessionId status)
    (ids w) (if found w sessionId then S (ticks w) else ticks w).

Definition updateSessionMetadata (w : World) (sessionId : string)
  (metadata : Store.Metadata) : World :=
  withManager w
    (Store.updateSessionMetadata (manager w) (env_now env (ticks w)) sessionId metadata)
    (ids w) (if found w sessionId then S (ticks w) else ticks w).

(** A call of [aiService.chat]: the call is recorded, and what the service
    logs goes to the console.  The callbacks that it called are in the
    result, for the caller to run. *)
Definition callChat (w : World) (messages : list ChatMessage)
  (options : ChatRequestOptions) (callbacks : ChatStreamCallbacks) : World * ChatRun :=
  let run := serviceChat (env_nm env) (env_fetch env (List.length (chats w)))
               (env_provider env) messages options callbacks in
  ({| manager := manager w; ids := ids w; ticks := ticks w;
      chats := chats w ++ [{| call_messages := messages; call_options := options;
                              call_callbacks := callbacks |}];
      notices := notices w; edits := edits w; saves := saves w;
      reveals := reveals w; console := console w ++ logged run |},
   run).

End Operations.

End Runtime.

(** ** The chat controller *)

Module ChatController.

Import Ai.
Import Runtime.

Definition basePrompt : string :=
  "You are Code Guardian, a security expert assistant embedded in VS Code. Provide concise, actionable answers about vulnerabilities and secure coding. Where appropriate, include code samples. Maintain a collaborative tone.".

Definition failureText : string :=
  "I ran into an issue answering that question. Please check your provider configuration and try again.".

(** The roles that are replayed to the provider. *)
Definition replayRole (r : Store.ChatMessageRole) : option ChatRole :=
  match r with
  | Store.user => Some user
  | Store.assistant => Some assistant
  | _ => None
  end.

Definition buildChatHistory (session : option Store.ChatSession) : list ChatMessage :=
  match session with
  | None => []
  | Some s =>
      flat_map (fun message =>
                  match replayRole (Store.msg_role message) with
                  | Some r => [{| role := r; content := Store.msg_content message;
                                  name := None |}]
                  | None => []
                  end)
               (Store.sess_messages s)
  end.

(** [metadata?.key] as a string that may be missing. *)
Definition metadataValue (md : option Store.Metadata) (key : string) : option string :=
  match md with
  | None => None
  | Some l =>
      match find (fun kv => String.eqb (fst kv) key) l with
      | Some (_, v) => v
      | None => None
      end
  end.

Definition buildSystemPrompt (session : Store.ChatSession) : string :=
  match metadataValue (Store.sess_metadata session) "vulnerabilityMessage" with
  | Some v =>
      if Js.isEmpty v then basePrompt
      else basePrompt ++ Js.nl ++ "Current issue: " ++ v
  | None => basePrompt
  end.

Section Controller.

Variable env : Env.

(** The callbacks of [handleUserMessage], run on what the provider called. *)
Definition onEvent (sessionId placeholderId : string) (w : World) (e : CallbackEvent)
  : World :=
  match e with
  | Started => w
  | Token token => appendToMessage env w sessionId placeholderId token
  | Completed _ =>
      updateSessionStatus env
        (updateMessage env w sessionId placeholderId Store.clearPending)
        sessionId Store.idle
  end.

(** [session] is the object that [getSession] returned at the start: the
    store changes it in place, so the system prompt is built from its
    current state. *)
Definition handleUserMessage (w : World) (sessionId content : string) : World :=
  match Store.getSession (manager w) sessionId with
  | None => notify w ErrorNotice "Chat session not found."
  | Some session =>
      if negb (Store.sess_allowUserInput session)
      then notify w WarningNotice "This session is read-only."
      else
        let trimmed := Js.trim content in
        if Js.isEmpty trimmed then w
        else
          let '(w1, _) := addMessage env w sessionId (Store.plainMessage Store.user trimmed) in
          let '(w2, assistantPlaceholder) :=
            addMessage env w1 sessionId (Store.pendingMessage Store.assistant EmptyString) in
          match assistantPlaceholder with
          | None => w2
          | Some placeholder =>
              let w3 := updateSessionStatus env w2 sessionId Store.running in
              let chatHistory := buildChatHistory (Store.getSession (manager w3) sessionId) in
              let systemText :=
                match Store.getSession (manager w3) sessionId with
                | Some current => buildSystemPrompt current
                | None => buildSystemPrompt session
                end in
              let '(w4, run) :=
                callChat env w3 chatHistory
                  {| temperature := None; maxTokens := None;
                     systemPrompt := Some systemText |}
                  {| onToken := true; onStart := false; onComplete := true |} in
              let w5 := fold_left (onEvent sessionId (Store.msg_id placeholder))
                                  (events run) w4 in
              match outcome run with
              | Returned _ => w5
              | Threw _ =>
                  let w6 := logError w5 "Failed to handle user message" in
                  let w7 := updateMessage env w6 sessionId (Store.msg_id placeholder)
                              {| Store.upd_content := Some failureText;
                                 Store.upd_pending := Some (Some false);
                                 Store.upd_metadata := None |} in
                  let w8 := updateSessionStatus env w7 sessionId Store.error in
                  notify w8 ErrorNotice "Code Guardian chat failed. See logs for details."
              end
          end
  end.

End Controller.

End ChatController.

(** ** The fix agent *)

Module FixAgent.

Import Ai.
Import Runtime.
Import Approval.

(** What the agent reads of the text document.  [doc_baseName] is
    [path.basename(document.fileName)]; [doc_getText a b] is the text of
    the range from the start of line [a] to the end of line [b]. *)
Record TextDocument : Type := {
  doc_fileName : string;
  doc_fsPath : string;
  doc_baseName : string;
  doc_languageId : string;
  doc_lineCount : Z;
  doc_getText : Z -> Z -> string
}.

(** [diag_code] is [diagnostic.code?.toString()]. *)
Record Diagnostic : Type := {
  diag_message : string;
  diag_code : option string;
  diag_startLine : Z;
  diag_endLine : Z
}.

(** The snippet range runs from the start of [startLine] to the end of
    [endLine]. *)
Record FixContext : Type := {
  snippet : string;
  languageId : string;
  startLine : Z;
  endLine : Z
}.

Record Proposal : Type := {
  raw : string;
  replacement : string
}.

Definition APPLY_ACTION : string := "Apply Fix".

Definition maxAttempts : nat := 1.

Definition fixSystemPrompt : string :=
  "You are a senior security engineer. Return only the corrected code snippet that should replace the provided block. Maintain formatting and indentation. If no changes are necessary, echo the original snippet.".

Definition approvalSystemPrompt : string :=
  Js.q "You are the approval agent for a secure coding assistant. Evaluate the proposed fix conservatively but fairly. Respond ONLY with a compact JSON object: {'decision':'approve'|'reject','notes':'short actionable feedback'}. Approve when the fix resolves the issue without introducing problems. Reject only for correctness, security, or serious quality concerns.".

Definition requestingText (attempt : nat) : string :=
  "🤖 Requesting secure fix from provider"
  ++ (if Nat.ltb 1 attempt then " (attempt " ++ Js.natToString attempt ++ ")" else EmptyString)
  ++ "...".

Definition reviewingText : string := "🧪 Approval agent reviewing proposed fix...".

Definition signOffText : string :=
  "🚫 Approval agent could not sign off on a safe fix after 3 attempts. Please review the issue manually.".

Definition defaultFeedback : string :=
  "Approval agent requires improvements but did not provide specific notes.".

Definition buildSessionTitle (document : TextDocument) (diagnostic : Diagnostic) : string :=
  "Fix " ++ doc_baseName document ++ ":" ++ Js.intToString (diag_startLine diagnostic + 1).

Definition buildContext (document : TextDocument) (diagnostic : Diagnostic) : FixContext :=
  let startLine := Z.max 0 (diag_startLine diagnostic - 5) in
  let endLine := Z.min (doc_lineCount document - 1) (diag_endLine diagnostic + 5) in
  {| snippet := doc_getText document startLine endLine;
     languageId := doc_languageId document;
     startLine := startLine;
     endLine := endLine |}.

Definition renderToolMessage (tool target payload : string) : string :=
  let truncated :=
    if Nat.ltb 3000 (String.length payload)
    then Js.slice payload 0 3000 ++ Js.nl ++ "... (truncated)"
    else payload in
  "`" ++ tool ++ "` → " ++ target ++ Js.nl ++ Js.nl ++ "【content】" ++ Js.nl ++ truncated.

(** [xs.map((x, index) => f(index + 1, x))]. *)
Fixpoint mapNumbered (f : nat -> string -> string) (from : nat) (xs : list string)
  : list string :=
  match xs with
  | [] => []
  | x :: r => f from x :: mapNumbered f (S from) r
  end.

Definition buildFixPrompt (document : TextDocument) (diagnostic : Diagnostic)
  (context : FixContext) (attempt : nat) (revisionFeedback : list string) : string :=
  let feedbackSection :=
    match revisionFeedback with
    | [] => EmptyString
    | _ =>
        Js.nl ++ Js.nl ++ "【approval_feedback】" ++ Js.nl
        ++ Js.join (Js.nl ++ Js.nl)
             (mapNumbered (fun i feedback => "Feedback " ++ Js.natToString i ++ ": " ++ feedback)
                          1 revisionFeedback)
        ++ Js.nl ++ Js.nl
        ++ "Incorporate every item above while keeping the fix correct and secure."
    end in
  "File: " ++ doc_fileName document ++ Js.nl
  ++ "Language: " ++ doc_languageId document ++ Js.nl
  ++ "Issue: " ++ diag_message diagnostic ++ Js.nl
  ++ "Attempt: " ++ Js.natToString attempt ++ Js.nl
  ++ "Lines " ++ Js.intToString (startLine context + 1) ++ "-"
  ++ Js.intToString (endLine context + 1) ++ ":" ++ Js.nl
  ++ Js.nl ++ Js.nl ++ "【original_snippet】" ++ Js.nl
  ++ snippet context ++ feedbackSection ++ Js.nl
  ++ Js.nl ++ Js.nl ++ "Provide only the secure updated snippet that resolves the issue.".

Definition buildApprovalPrompt (document : TextDocument) (diagnostic : Diagnostic)
  (context : FixContext) (proposal : Proposal) (attempt : nat)
  (revisionFeedback : list string) : string :=
  let priorFeedback :=
    match revisionFeedback with
    | [] => EmptyString
    | _ =>
        Js.nl ++ Js.nl ++ "Previous approval feedback:" ++ Js.nl
        ++ Js.join Js.nl
             (mapNumbered (fun i feedback => Js.natToString i ++ ". " ++ feedback)
                          1 revisionFeedback)
    end in
  "You will review a proposed fix for a security issue." ++ Js.nl
  ++ "File: " ++ doc_fileName document ++ Js.nl
  ++ "Language: " ++ doc_languageId document ++ Js.nl
  ++ "Issue: " ++ diag_message diagnostic ++ Js.nl
  ++ "Attempt: " ++ Js.natToString attempt ++ priorFeedback ++ Js.nl
  ++ Js.nl ++ Js.nl ++ "Original snippet:" ++ Js.nl ++ snippet context ++ Js.nl
  ++ Js.nl ++ Js.nl ++ "Proposed replacement:" ++ Js.nl ++ replacement proposal ++ Js.nl
  ++ Js.nl ++ Js.nl
  ++ "Decide whether to approve the fix. Approve when the change resolves the issue without introducing new risks or regressions. Reject only when important fixes are still missing, the change is unsafe, or quality issues are severe. Provide concise notes explaining your decision.".

Definition userPrompt (text : string) : list ChatMessage :=
  [{| role := user; content := text; name := None |}].

Definition onlySystem (text : string) : ChatRequestOptions :=
  {| temperature := None; maxTokens := None; systemPrompt := Some text |}.

Section Agent.

Variable env : Env.

Definition say (w : World) (sessionId : string) (role : Store.ChatMessageRole)
  (text : string) : World :=
  fst (addMessage env w sessionId (Store.plainMessage role text)).

(** The callbacks of [requestFix], run on what the provider called: the
    state is the world and [fullText]. *)
Definition onFixEvent (sessionId messageId : string) (acc : World * string)
  (e : CallbackEvent) : World * string :=
  let '(w, fullText) := acc in
  match e with
  | Started => acc
  | Token token => (appendToMessage env w sessionId messageId token, fullText ++ token)
  | Completed _ => (updateMessage env w sessionId messageId Store.clearPending, fullText)
  end.

Definition requestFix (w : World) (sessionId : string) (document : TextDocument)
  (diagnostic : Diagnostic) (context : FixContext) (attempt : nat)
  (revisionFeedback : list string) : World * Outcome Proposal :=
  let w1 := say w sessionId Store.agent (requestingText attempt) in
  let '(w2, assistantMessage) :=
    addMessage env w1 sessionId (Store.pendingMessage Store.assistant EmptyString) in
  match assistantMessage with
  | None => (w2, Threw "Failed to append provider response message.")
  | Some message =>
      let '(w3, run) :=
        callChat env w2
          (userPrompt (buildFixPrompt document diagnostic context attempt revisionFeedback))
          (onlySystem fixSystemPrompt)
          {| onToken := true; onStart := false; onComplete := true |} in
      let '(w4, fullText) :=
        fold_left (onFixEvent sessionId (Store.msg_id message)) (events run)
                  (w3, EmptyString) in
      match outcome run with
      | Threw e => (w4, Threw e)
      | Returned _ =>
          let replacement :=
            match extractCodeBlock fullText with
            | Some block => block
            | None => Js.trim fullText
            end in
          if Js.isEmpty replacement then (w4, Threw "Provider returned an empty fix.")
          else (w4, Returned {| raw := fullText; replacement := replacement |})
      end
  end.

Definition displayMessage (approval : ApprovalResult) : string :=
  match decision approval with
  | approve =>
      "✅ Approval agent: "
      ++ Js.orElse (notes approval) "The fix looks good. Ready to apply."
  | reject =>
      "⚠️ Approval agent requested changes: "
      ++ Js.orElse (notes approval) "Please adjust the fix before applying."
  end.

Definition reviewFix (w : World) (sessionId : string) (document : TextDocument)
  (diagnostic : Diagnostic) (context : FixContext) (proposal : Proposal)
  (attempt : nat) (revisionFeedback : list string) : World * Outcome ApprovalResult :=
  let w1 := say w sessionId Store.agent reviewingText in
  let reviewPrompt :=
    buildApprovalPrompt document diagnostic context proposal attempt revisionFeedback in
  let '(w2, run) :=
    callChat env w1 (userPrompt reviewPrompt) (onlySystem approvalSystemPrompt)
             noCallbacks in
  match outcome run with
  | Threw e => (w2, Threw e)
  | Returned response =>
      let approval := parseApprovalResponse (env_nm env) response in
      (say w2 sessionId Store.assistant (displayMessage approval), Returned approval)
  end.

(** The variables of the revision loop. *)
Record LoopState : Type := {
  attempt : nat;
  revisionFeedback : list string;
  proposal : option Proposal;
  approval : option ApprovalResult
}.

(** [while (attempt < bound)], with [fuel] iterations left at most; the
    loop is entered with [fuel = bound] and [attempt = 0], and [attempt]
    grows by one in each iteration. *)
Fixpoint revisionLoop (bound fuel : nat) (w : World) (sessionId : string)
  (document : TextDocument) (diagnostic : Diagnostic) (context : FixContext)
  (st : LoopState) : World * Outcome LoopState :=
  match fuel with
  | 0 => (w, Returned st)
  | S fuel' =>
      if negb (Nat.ltb (attempt st) bound) then (w, Returned st)
      else
        let attempt' := attempt st + 1 in
        let w1 :=
          if Nat.ltb 1 attempt'
          then say w sessionId Store.agent
                 ("🔁 Revision attempt " ++ Js.natToString attempt'
                  ++ " requested based on approval feedback.")
          else w in
        match requestFix w1 sessionId document diagnostic context attempt'
                (revisionFeedback st) with
        | (w2, Threw e) => (w2, Threw e)
        | (w2, Returned proposal') =>
            match reviewFix w2 sessionId document diagnostic context proposal' attempt'
                    (revisionFeedback st) with
            | (w3, Threw e) => (w3, Threw e)
            | (w3, Returned approval') =>
                match decision approval' with
                | approve =>
                    (w3, Returned {| attempt := attempt';
                                     revisionFeedback := revisionFeedback st;
                                     proposal := Some proposal';
                                     approval := Some approval' |})
                | reject =>
                    let st' :=
                      {| attempt := attempt';
                         revisionFeedback :=
                           revisionFeedback st
                           ++ [Js.orElse (notes approval') defaultFeedback];
                         proposal := Some proposal';
                         approval := Some approval' |} in
                    if Nat.leb bound attempt' then (w3, Returned st')
                    else
                      revisionLoop bound fuel'
                        (say w3 sessionId Store.agent
                           "🔄 Approval agent requested changes. Updating instructions for the fix provider.")
                        sessionId document diagnostic context st'
                end
            end
        end
  end.

Definition applyFix (w : World) (document : TextDocument) (context : FixContext)
  (replacement : string) : World * Outcome unit :=
  if env_applyEdit env then
    ({| manager := manager w; ids := ids w; ticks := ticks w; chats := chats w;
        notices := notices w;
        edits := edits w ++ [{| edit_path := doc_fsPath document;
                                edit_startLine := startLine context;
                                edit_endLine := endLine context;
                                edit_text := replacement |}];
        saves := S (saves w); reveals := reveals w; console := console w |},
     Returned tt)
  else (w, Threw "VS Code rejected the workspace edit.").

(** The [try] block of [run], for the revision bound [bound]. *)
Definition tryRun (bound : nat) (w : World) (sessionId : string)
  (document : TextDocument) (diagnostic : Diagnostic) : World * Outcome unit :=
  let context := buildContext document diagnostic in
  let w1 := say w sessionId Store.agent "🔍 Gathering code context with `read_file` tool..." in
  let w2 := say w1 sessionId Store.tool
              (renderToolMessage "read_file" (doc_fsPath document) (snippet context)) in
  match revisionLoop bound bound w2 sessionId document diagnostic context
          {| attempt := 0; revisionFeedback := []; proposal := None; approval := None |} with
  | (w3, Threw e) => (w3, Threw e)
  | (w3, Returned st) =>
      match proposal st with
      | None => (w3, Threw "No fix proposal was generated.")
      | Some proposal =>
          match approval st with
          | Some {| decision := approve; notes := approvalNotes |} =>
              let w4 := updateSessionStatus env w3 sessionId Store.idle in
              let w5 := updateSessionMetadata env w4 sessionId
                          [("fixProposal", Some (raw proposal));
                           ("approvalNotes", Some approvalNotes)] in
              let w6 := notify w5 InfoNotice
                          "Code Guardian generated an approved fix. Do you want to apply it?" in
              if negb (Store.optEqb (env_userChoice env) (Some APPLY_ACTION)) then
                (updateSessionStatus env
                   (say w6 sessionId Store.agent "⏸️ Fix application cancelled by user.")
                   sessionId Store.completed,
                 Returned tt)
              else
                let w7 := say w6 sessionId Store.agent
                            "✍️ Applying changes with `write_file` tool..." in
                match applyFix w7 document context (replacement proposal) with
                | (w8, Threw e) => (w8, Threw e)
                | (w8, Returned _) =>
                    let w9 := say w8 sessionId Store.tool
                                (renderToolMessage "write_file" (doc_fsPath document)
                                                   (replacement proposal)) in
                    let w10 := say w9 sessionId Store.agent
                                 "✅ Fix applied. Please review and run your tests." in
                    (updateSessionStatus env w10 sessionId Store.completed, Returned tt)
                end
          | _ =>
              (updateSessionStatus env (say w3 sessionId Store.agent signOffText)
                 sessionId Store.completed,
               Returned tt)
          end
      end
  end.

(** [FixAgent.run] for the revision bound [bound]; the whole run, with
    the session it created. *)
Definition runWith (bound : nat) (w : World) (document : TextDocument)
  (diagnostic : Diagnostic) : World * Store.ChatSession :=
  let '(w1, session) :=
    createSession env w Store.FIX (Some (buildSessionTitle document diagnostic))
      (Some [("filePath", Some (doc_fsPath document));
             ("diagnosticCode", diag_code diagnostic);
             ("vulnerabilityMessage", Some (diag_message diagnostic))]) in
  let sessionId := Store.sess_id session in
  let w2 := updateSessionStatus env (reveal w1) sessionId Store.running in
  let w3 := say w2 sessionId Store.agent
              ("🚀 Starting AI-assisted fix for **" ++ doc_baseName document
               ++ "** at line " ++ Js.intToString (diag_startLine diagnostic + 1) ++ ".") in
  let w4 := say w3 sessionId Store.agent ("⚠️ Issue detected: " ++ diag_message diagnostic) in
  match tryRun bound w4 sessionId document diagnostic with
  | (w5, Returned _) => (w5, session)
  | (w5, Threw e) =>
      let w6 := logError w5 "FixAgent failed" in
      let w7 := say w6 sessionId Store.agent ("❌ Failed to complete the fix: " ++ e) in
      (updateSessionStatus env w7 sessionId Store.error, session)
  end.

(** [FixAgent.run], with the bound that the source fixes. *)
Definition run (w : World) (document : TextDocument) (diagnostic : Diagnostic)
  : World * Store.ChatSession :=
  runWith maxAttempts w document diagnostic.

End Agent.

(** The calls of the provider that propose a fix, and those that review
    one, told apart by their system prompt. *)
Definition isCallWith (prompt : string) (c : ChatCall) : bool :=
  match systemPrompt (call_options c) with
  | Some p => String.eqb p prompt
  | None => false
  end.

Definition proposeCalls (w : World) : nat :=
  List.length (filter (isCallWith fixSystemPrompt) (chats w)).

Definition reviewCalls (w : World) : nat :=
  List.length (filter (isCallWith approvalSystemPrompt) (chats w)).

End FixAgent.

(** ** The fix agent without review

    The agent of [src/chat/fixAgent.ts]: it proposes a fix once and asks
    the user directly, without an approval agent.  It shares the context,
    the tool messages, the title and [applyFix] with the agent above. *)

Module FixAgentDirect.

Import Ai.
Import Runtime.
Import Approval.
Import FixAgent.

Definition requestingText : string := "🤖 Requesting secure fix from provider...".

Definition consentText : string :=
  "Code Guardian generated a fix. Do you want to apply it?".

Definition buildFixPrompt (document : TextDocument) (diagnostic : Diagnostic)
  (context : FixContext) : string :=
  "File: " ++ doc_fileName document ++ Js.nl
  ++ "Language: " ++ doc_languageId document ++ Js.nl
  ++ "Issue: " ++ diag_message diagnostic ++ Js.nl
  ++ "Lines " ++ Js.intToString (startLine context + 1) ++ "-"
  ++ Js.intToString (endLine context + 1) ++ ":" ++ Js.nl
  ++ Js.nl ++ Js.nl ++ "【original_snippet】" ++ Js.nl
  ++ snippet context ++ Js.nl
  ++ Js.nl ++ Js.nl ++ "Provide the secure updated snippet that resolves the issue.".

Section Agent.

Variable env : Env.

Definition requestFix (w : World) (sessionId : string) (document : TextDocument)
  (diagnostic : Diagnostic) (context : FixContext) : World * Outcome Proposal :=
  let w1 := say env w sessionId Store.agent requestingText in
  let '(w2, assistantMessage) :=
    addMessage env w1 sessionId (Store.pendingMessage Store.assistant EmptyString) in
  match assistantMessage with
  | None => (w2, Threw "Failed to append provider response message.")
  | Some message =>
      let '(w3, run) :=
        callChat env w2
          (userPrompt (buildFixPrompt document diagnostic context))
          (onlySystem fixSystemPrompt)
          {| onToken := true; onStart := false; onComplete := true |} in
      let '(w4, fullText) :=
        fold_left (onFixEvent env sessionId (Store.msg_id message)) (events run)
                  (w3, EmptyString) in
      match outcome run with
      | Threw e => (w4, Threw e)
      | Returned _ =>
          let replacement :=
            match extractCodeBlock fullText with
            | Some block => block
            | None => Js.trim fullText
            end in
          if Js.isEmpty replacement then (w4, Threw "Provider returned an empty fix.")
          else (w4, Returned {| raw := fullText; replacement := replacement |})
      end
  end.

(** The [try] block of [run]. *)
Definition tryRun (w : World) (sessionId : string) (document : TextDocument)
  (diagnostic : Diagnostic) : World * Outcome unit :=
  let context := buildContext document diagnostic in
  let w1 := say env w sessionId Store.agent
              "🔍 Gathering code context with `read_file` tool..." in
  let w2 := say env w1 sessionId Store.tool
              (renderToolMessage "read_file" (doc_fsPath document) (snippet context)) in
  match requestFix w2 sessionId document diagnostic context with
  | (w3, Threw e) => (w3, Threw e)
  | (w3, Returned proposal) =>
      let w4 := updateSessionStatus env w3 sessionId Store.idle in
      let w5 := updateSessionMetadata env w4 sessionId
                  [("fixProposal", Some (raw proposal))] in
      let w6 := notify w5 InfoNotice consentText in
      if negb (Store.optEqb (env_userChoice env) (Some APPLY_ACTION)) then
        (updateSessionStatus env
           (say env w6 sessionId Store.agent "⏸️ Fix application cancelled by user.")
           sessionId Store.completed,
         Returned tt)
      else
        let w7 := say env w6 sessionId Store.agent
                    "✍️ Applying changes with `write_file` tool..." in
        match applyFix env w7 document context (replacement proposal) with
        | (w8, Threw e) => (w8, Threw e)
        | (w8, Returned _) =>
            let w9 := say env w8 sessionId Store.tool
                        (renderToolMessage "write_file" (doc_fsPath document)
                                           (replacement proposal)) in
            let w10 := say env w9 sessionId Store.agent
                         "✅ Fix applied. Please review and run your tests." in
            (updateSessionStatus env w10 sessionId Store.completed, Returned tt)
        end
  end.

(** [FixAgent.run]; the whole run, with the session it created. *)
Definition run (w : World) (document : TextDocument) (diagnostic : Diagnostic)
  : World * Store.ChatSession :=
  let '(w1, session) :=
    createSession env w Store.FIX (Some (buildSessionTitle document diagnostic))
      (Some [("filePath", Some (doc_fsPath document));
             ("diagnosticCode", diag_code diagnostic);
             ("vulnerabilityMessage", Some (diag_message diagnostic))]) in
  let sessionId := Store.sess_id session in
  let w2 := updateSessionStatus env (reveal w1) sessionId Store.running in
  let w3 := say env w2 sessionId Store.agent
              ("🚀 Starting AI-assisted fix for **" ++ doc_baseName document
               ++ "** at line " ++ Js.intToString (diag_startLine diagnostic + 1) ++ ".") in
  let w4 := say env w3 sessionId Store.agent ("⚠️ Issue detected: " ++ diag_message diagnostic) in
  match tryRun w4 sessionId document diagnostic with
  | (w5, Returned _) => (w5, session)
  | (w5, Threw e) =>
      let w6 := logError w5 "FixAgent failed" in
      let w7 := say env w6 sessionId Store.agent ("❌ Failed to complete the fix: " ++ e) in
      (updateSessionStatus env w7 sessionId Store.error, session)
  end.

End Agent.

End FixAgentDirect.

(** ** The analyzer: duplicates, priorities and line numbers

    [deduplicateAndPrioritize] of the code analyzer and [getLineNumber] of
    the static analyzers.  A number that is a line or a column is an
    integer; a confidence is kept in thousandths, the code only compares
    confidences and takes the sign of their difference. *)

Module Analyzer.

Record Vulnerability : Type := {
  vtype : string;
  severity : string;
  line : Z;
  column : Z;
  message : string;
  suggestion : option string;
  cwe : option string;
  confidence : Z
}.

(** A [Map] with string keys: its entries in the order of insertion.
    [set] on a key that is present replaces the value and keeps the
    place of the entry. *)
Definition JsMap (V : Type) : Type := list (string * V).

Fixpoint mapGet {V : Type} (key : string) (m : JsMap V) : option V :=
  match m with
  | [] => None
  | (k, v) :: r => if String.eqb k key then Some v else mapGet key r
  end.

Fixpoint mapSet {V : Type} (key : string) (value : V) (m : JsMap V) : JsMap V :=
  match m with
  | [] => [(key, value)]
  | (k, v) :: r =>
      if String.eqb k key then (k, value) :: r else (k, v) :: mapSet key value r
  end.

Definition mapValues {V : Type} (m : JsMap V) : list V := map snd m.

Definition keyOf (vuln : Vulnerability) : string :=
  Js.intToString (line vuln) ++ "-" ++ Js.intToString (column vuln) ++ "-" ++ vtype vuln.

(** The body of the [forEach]. *)
Definition remember (unique : JsMap Vulnerability) (vuln : Vulnerability)
  : JsMap Vulnerability :=
  let key := keyOf vuln in
  match mapGet key unique with
  | Some existing =>
      if (confidence existing <? confidence vuln)%Z then mapSet key vuln unique
      else unique
  | None => mapSet key vuln unique
  end.

(** The names that an object literal inherits: looking one of them up in
    [severityOrder] gives a member of [Object.prototype], not a number and
    not [undefined]. *)
Definition inheritedName (s : string) : bool :=
  existsb (String.eqb s)
    ["constructor"; "__defineGetter__"; "__defineSetter__"; "hasOwnProperty";
     "__lookupGetter__"; "__lookupSetter__"; "isPrototypeOf"; "propertyIsEnumerable";
     "toString"; "valueOf"; "__proto__"; "toLocaleString"].

(** [severityOrder[s] ?? 4]; [None] when the value is not a number. *)
Definition severityRank (s : string) : option Z :=
  if String.eqb s "critical" then Some 0%Z
  else if String.eqb s "high" then Some 1%Z
  else if String.eqb s "medium" then Some 2%Z
  else if String.eqb s "low" then Some 3%Z
  else if inheritedName s then None
  else Some 4%Z.

(** The comparator of the sort.  A difference with a value that is not a
    number is [NaN], which the sort takes as 0. *)
Definition compareVulnerabilities (a b : Vulnerability) : Z :=
  match severityRank (severity a), severityRank (severity b) with
  | Some aSev, Some bSev =>
      if negb (aSev =? bSev)%Z then (aSev - bSev)%Z
      else (confidence b - confidence a)%Z
  | None, None =>
      if String.eqb (severity a) (severity b) then (confidence b - confidence a)%Z
      else 0%Z
  | _, _ => 0%Z
  end.

(** [Array.prototype.sort], which is stable: the sorted list for a
    comparator that is a consistent order.  For another comparator the
    language leaves the order open. *)
Fixpoint insertSorted {A : Type} (compare : A -> A -> Z) (x : A) (sorted : list A)
  : list A :=
  match sorted with
  | [] => [x]
  | y :: r =>
      if (0 <? compare x y)%Z then y :: insertSorted compare x r else x :: y :: r
  end.

Definition sortStable {A : Type} (compare : A -> A -> Z) (xs : list A) : list A :=
  fold_right (insertSorted compare) [] xs.

Definition deduplicateAndPrioritize (vulnerabilities : list Vulnerability)
  : list Vulnerability :=
  let unique := fold_left remember vulnerabilities [] in
  sortStable compareVulnerabilities (mapValues unique).

(** [code.substring(0, index).split('\n').length] for [0 <= index]. *)
Definition getLineNumber (code : string) (index : nat) : nat :=
  List.length (Js.splitLines (Js.slice code 0 index)).

End Analyzer.

(** * Notions of the statements *)

Module Notions.

Import Store.

(** The message that the operations address by the pair of a session id
    and a message id: the first message of that id in the first session
    of that id. *)
Definition getMessage (m : Manager) (sessionId messageId : string)
  : option StoredChatMessage :=
  match getSession m sessionId with
  | Some session => find (msgHasId messageId) (sess_messages session)
  | None => None
  end.

Definition inputMatchesType (s : ChatSession) : Prop :=
  sess_allowUserInput s = typeIsQa (sess_type s).

Definition storeInvariant (m : Manager) : Prop :=
  Forall inputMatchesType (sessions m).

(** A call of an operation of the store, with its arguments and with what
    [randomId()] and [Date.now()] return during the call. *)
Inductive StoreOp : Type :=
| OpCreateSession (rid : string) (timestamp : Z) (type : ChatSessionType)
    (title : option string) (metadata : option Metadata)
| OpDeleteSession (sessionId : string)
| OpSetActiveSession (sessionId : option string)
| OpAddMessage (rid : string) (nowCreated nowUpdated : Z) (sessionId : string)
    (message : NewMessage)
| OpUpdateMessage (now : Z) (sessionId messageId : string) (updates : MessageUpdates)
| OpAppendToMessage (now : Z) (sessionId messageId fragment : string)
| OpUpdateSessionStatus (now : Z) (sessionId : string) (status : ChatSessionStatus)
| OpUpdateSessionMetadata (now : Z) (sessionId : string) (metadata : Metadata)
| OpRenameSession (now : Z) (sessionId title : string)
| OpClearAll.

Definition applyOp (toLocaleString : Z -> string) (m : Manager) (op : StoreOp) : Manager :=
  match op with
  | OpCreateSession rid timestamp type title metadata =>
      fst (createSession toLocaleString m rid timestamp type title metadata)
  | OpDeleteSession sessionId => deleteSession m sessionId
  | OpSetActiveSession sessionId => setActiveSession m sessionId
  | OpAddMessage rid nowCreated nowUpdated sessionId message =>
      fst (addMessage m rid nowCreated nowUpdated sessionId message)
  | OpUpdateMessage now sessionId messageId updates =>
      fst (updateMessage m now sessionId messageId updates)
  | OpAppendToMessage now sessionId messageId fragment =>
      fst (appendToMessage m now sessionId messageId fragment)
  | OpUpdateSessionStatus now sessionId status => updateSessionStatus m now sessionId status
  | OpUpdateSessionMetadata now sessionId metadata =>
      updateSessionMetadata m now sessionId metadata
  | OpRenameSession now sessionId title => renameSession m now sessionId title
  | OpClearAll => clearAll m
  end.

(** What the invariant speaks of in a session. *)
Definition sessionKey (s : ChatSession) : string * ChatSessionType * bool :=
  (sess_id s, sess_type s, sess_allowUserInput s).

(** An operation that is not [createSession]. *)
Definition notCreate (op : StoreOp) : Prop :=
  match op with OpCreateSession _ _ _ _ _ => False | _ => True end.

(** [appendToMessage] for the fragments in order, each with the clock
    reading of its call. *)
Definition appendAll (m : Manager) (sessionId messageId : string)
  (fragments : list (Z * string)) : Manager :=
  fold_left (fun acc tf => fst (appendToMessage acc (fst tf) sessionId messageId (snd tf)))
            fragments m.

Definition emptyManager : Manager := newManager None.

Definition sampleMessage : StoredChatMessage :=
  {| msg_id := "m1"; msg_role := assistant; msg_content := "Hel";
     msg_createdAt := 5; msg_pending := Some true; msg_metadata := None |}.

Definition sampleSession (id : string) (type : ChatSessionType) : ChatSession :=
  {| sess_id := id; sess_type := type; sess_title := "t"; sess_createdAt := 1;
     sess_updatedAt := 1; sess_allowUserInput := typeIsQa type; sess_status := idle;
     sess_messages := [sampleMessage]; sess_metadata := None |}.

Definition sampleManager : Manager :=
  {| sessions := [sampleSession "s1" QA; sampleSession "s2" FIX];
     activeSessionId := Some "s1"; stored := None; persistCount := 0; fired := [] |}.

(** *** Providers *)

Definition allCallbacks : Ai.ChatStreamCallbacks :=
  {| Ai.onToken := true; Ai.onStart := true; Ai.onComplete := true |}.

Definition noOptions : Ai.ChatRequestOptions :=
  {| Ai.temperature := None; Ai.maxTokens := None; Ai.systemPrompt := None |}.

(** The fragments passed to [onToken], in order. *)
Definition tokenFragments (es : list Ai.CallbackEvent) : list string :=
  flat_map (fun e => match e with Ai.Token f => [f] | _ => [] end) es.

(** The calls that a delivery of [text] makes for callbacks that include
    [onToken]: [onStart] if supplied, [onToken] for each chunk of twenty
    characters, [onComplete] if supplied. *)
Definition expectedEvents (callbacks : Ai.ChatStreamCallbacks) (text : string)
  : list Ai.CallbackEvent :=
  (if Ai.onStart callbacks then [Ai.Started] else [])
  ++ map Ai.Token (Ai.chunkText text)
  ++ (if Ai.onComplete callbacks then [Ai.Completed text] else []).

(** A successful response without a readable body whose reply text is
    [text]. *)
Definition plainReply (text : string) : Ai.Response :=
  {| Ai.resp_ok := true; Ai.resp_text := EmptyString; Ai.resp_reply := Ai.Returned text;
     Ai.resp_hasBody := false; Ai.resp_reads := []; Ai.resp_readError := None |}.

(** A successful response whose body the reader yields as [reads]. *)
Definition streamedReply (reads : list string) : Ai.Response :=
  {| Ai.resp_ok := true; Ai.resp_text := EmptyString;
     Ai.resp_reply := Ai.Returned EmptyString;
     Ai.resp_hasBody := true; Ai.resp_reads := reads; Ai.resp_readError := None |}.

(** A number model for inputs without numbers: the lexeme itself, never
    zero. *)
Definition lexemeNumbers : Json.NumberModel :=
  {| Json.numberToString := fun lexeme => lexeme; Json.numberFalsy := fun _ => false |}.

(** The frame of a delta [text] (without quotes or backslashes), and the
    sentinel frame. *)
Definition deltaLine (text : string) : string :=
  Js.q "data: {'choices':[{'delta':{'content':'" ++ text ++ Js.q "'}}]}".

Definition doneLine : string := "data: [DONE]".

(** What a stream state gives to the caller and to the next iteration:
    all of it but the console. *)
Definition sameOutput (a b : Ai.StreamState) : Prop :=
  Ai.buffer a = Ai.buffer b /\ Ai.fullText a = Ai.fullText b /\ Ai.tokens a = Ai.tokens b.

(** The payload of a line, when the line is a [data:] frame. *)
Definition payloadOf (line : string) : option string :=
  let trimmed := Js.trim line in
  if Js.startsWith trimmed "data:" then Some (Js.trim (Js.sliceFrom trimmed 5))
  else None.

(** A line holds no line feed, as the elements of [split] do. *)
Fixpoint noLineFeed (s : string) : bool :=
  match s with
  | EmptyString => true
  | String c r => negb (Ascii.eqb c (ascii_of_nat 10)) && noLineFeed r
  end.

(** A chunk of the body made of the given lines, each ended by a line
    feed. *)
Definition framesChunk (lines : list string) : string :=
  Js.concatAll (map (fun line => line ++ Js.nl) lines).

(** *** White space *)

(** A run of characters that [trim] strips. *)
Inductive blank : string -> Prop :=
| blank_empty : blank EmptyString
| blank_more (t s : string) : Js.isSpace t = true -> blank s -> blank (t ++ s).

(** The code point written [U+HHLL], from its two bytes. *)
Definition codePoint (high low : nat) : nat := high * 256 + low.

(** The code points of WhiteSpace and LineTerminator. *)
Definition spaceCodePoints : list nat :=
  [9; 10; 11; 12; 13; 32; 160; codePoint 22 128;
   codePoint 32 0; codePoint 32 1; codePoint 32 2; codePoint 32 3; codePoint 32 4;
   codePoint 32 5; codePoint 32 6; codePoint 32 7; codePoint 32 8; codePoint 32 9;
   codePoint 32 10; codePoint 32 40; codePoint 32 41; codePoint 32 47;
   codePoint 32 95; codePoint 48 0; codePoint 254 255].


(** *** Approval responses *)

(** The JSON object of an approval inside a fenced block. *)
Definition fencedApproval : string :=
  "```json" ++ Js.nl ++ Js.q "{'decision':'approve','notes':'ok'}" ++ Js.nl ++ "```".

Definition upperCaseApproval : string := Js.q "{'decision':'APPROVE','notes':'ok'}".

(** A response whose decision is an object with an own member
    [toString]. *)
Definition opaqueDecision : string :=
  Js.q "{'decision':{'toString':null},'notes':'I approve'}".

(** [String(v)] throws: [v] is an object with an own member [toString],
    or an array that holds such a value, at any depth. *)
Inductive noStringForm : Json.JValue -> Prop :=
| noStringForm_object (members : list (string * Json.JValue)) (v : Json.JValue) :
    Json.lookup "toString" members = Some v -> noStringForm (Json.JObject members)
| noStringForm_array (items : list Json.JValue) (x : Json.JValue) :
    In x items -> noStringForm x -> noStringForm (Json.JArray items).

(** *** Runs *)

(** Surroundings with the local provider: no network is reached; the
    identifiers are [id0], [id1], ... and the clock reads 1000, 1001, ... *)
Definition localEnv : Runtime.Env :=
  {| Runtime.env_nm := lexemeNumbers;
     Runtime.env_provider := Ai.LocalProvider;
     Runtime.env_fetch := fun _ _ => plainReply EmptyString;
     Runtime.env_randomId := fun n => "id" ++ Js.natToString n;
     Runtime.env_now := fun n => Z.of_nat (1000 + n);
     Runtime.env_toLocaleString := fun _ => "today";
     Runtime.env_userChoice := Some "Apply Fix";
     Runtime.env_applyEdit := true |}.

Definition sampleWorld : Runtime.World := Runtime.initialWorld sampleManager.

Definition sampleDocument : FixAgent.TextDocument :=
  {| FixAgent.doc_fileName := "/work/app.js";
     FixAgent.doc_fsPath := "/work/app.js";
     FixAgent.doc_baseName := "app.js";
     FixAgent.doc_languageId := "javascript";
     FixAgent.doc_lineCount := 3;
     FixAgent.doc_getText := fun _ _ => "eval(input)" |}.

Definition sampleDiagnostic : FixAgent.Diagnostic :=
  {| FixAgent.diag_message := "eval is dangerous";
     FixAgent.diag_code := Some "CG001";
     FixAgent.diag_startLine := 1;
     FixAgent.diag_endLine := 1 |}.

(** The status of a session and the content of its last message. *)
Definition sessionEnd (s : Store.ChatSession)
  : Store.ChatSessionStatus * option string :=
  (Store.sess_status s,
   option_map Store.msg_content (last (map Some (Store.sess_messages s)) None)).

(** [sessionEnd] of the first session of the world's store. *)
Definition firstSessionEnd (w : Runtime.World)
  : option (Store.ChatSessionStatus * option string) :=
  option_map sessionEnd (hd_error (Store.sessions (Runtime.manager w))).

(** From [w] to [w'], the session [sessionId] is still in the store, the
    provider was called with [calls], in order, and no edit was
    applied. *)
Definition extends (sessionId : string) (calls : list Runtime.ChatCall)
  (w w' : Runtime.World) : Prop :=
  Runtime.found w' sessionId = true /\
  Runtime.chats w' = (Runtime.chats w ++ calls)%list /\
  Runtime.edits w' = Runtime.edits w.

(** The two calls of a propose/review cycle. *)
Definition proposeCall (prompt : string) : Runtime.ChatCall :=
  {| Runtime.call_messages := FixAgent.userPrompt prompt;
     Runtime.call_options := FixAgent.onlySystem FixAgent.fixSystemPrompt;
     Runtime.call_callbacks :=
       {| Ai.onToken := true; Ai.onStart := false; Ai.onComplete := true |} |}.

Definition reviewCall (prompt : string) : Runtime.ChatCall :=
  {| Runtime.call_messages := FixAgent.userPrompt prompt;
     Runtime.call_options := FixAgent.onlySystem FixAgent.approvalSystemPrompt;
     Runtime.call_callbacks := Ai.noCallbacks |}.

(** What the local provider answers to a single message. *)
Definition localAnswer : string :=
  "Local mode placeholder. Provider is offline. Messages received: 1".

(** *** More notions of the store *)

(** The active id is none, the empty string, or the id of a stored
    session. *)
Definition activeValid (m : Manager) : Prop :=
  match activeSessionId m with
  | None => True
  | Some a => a = EmptyString \/ In a (map sess_id (sessions m))
  end.

(** The session that an operation addresses, for the operations that
    change one session. *)
Definition opTarget (op : StoreOp) : option string :=
  match op with
  | OpAddMessage _ _ _ sessionId _ => Some sessionId
  | OpUpdateMessage _ sessionId _ _ => Some sessionId
  | OpAppendToMessage _ sessionId _ _ => Some sessionId
  | OpUpdateSessionStatus _ sessionId _ => Some sessionId
  | OpUpdateSessionMetadata _ sessionId _ => Some sessionId
  | OpRenameSession _ sessionId _ => Some sessionId
  | _ => None
  end.

Definition isAppend (op : StoreOp) : bool :=
  match op with OpAppendToMessage _ _ _ _ => true | _ => false end.

(** What identifies a message and never changes: id, role, creation
    time. *)
Definition messageKey (msg : StoredChatMessage) : string * ChatMessageRole * Z :=
  (msg_id msg, msg_role msg, msg_createdAt msg).

(** The message keys of the session [sessionId], in order. *)
Definition messageKeys (m : Manager) (sessionId : string)
  : option (list (string * ChatMessageRole * Z)) :=
  option_map (fun s => map messageKey (sess_messages s)) (getSession m sessionId).

(** [md[key]] on a metadata object: [None] when the key is missing,
    [Some None] when it holds [undefined]. *)
Definition metadataGet (md : Metadata) (key : string) : option (option string) :=
  option_map snd (find (fun kv => String.eqb (fst kv) key) md).

(** The last state fired to the observers, if any, is the current one. *)
Definition observersCurrent (m : Manager) : Prop :=
  match fired m with
  | [] => True
  | st :: _ => st = getState m
  end.

(** The metadata object of a session, empty when it has none. *)
Definition metadataOf (s : ChatSession) : Metadata :=
  match sess_metadata s with Some md => md | None => [] end.

(** A stored [allowUserInput], when present, is the one of the type. *)
Definition storedAgrees (raw : StoredSession) : Prop :=
  forall b, raw_allowUserInput raw = Some b -> b = typeIsQa (raw_type raw).

Definition sampleStored (type : ChatSessionType) (allow : option bool) : StoredSession :=
  {| raw_id := "r1"; raw_type := type; raw_title := "t"; raw_createdAt := 1;
     raw_updatedAt := 1; raw_allowUserInput := allow; raw_status := None;
     raw_messages := None; raw_metadata := None |}.

(** *** More notions of the providers *)

Definition isCompleted (e : Ai.CallbackEvent) : bool :=
  match e with Ai.Completed _ => true | _ => false end.

Definition isToken (e : Ai.CallbackEvent) : bool :=
  match e with Ai.Token _ => true | _ => false end.

(** A response that is not a success, with the given body. *)
Definition failedReply (body : string) : Ai.Response :=
  {| Ai.resp_ok := false; Ai.resp_text := body; Ai.resp_reply := Ai.Returned EmptyString;
     Ai.resp_hasBody := true; Ai.resp_reads := []; Ai.resp_readError := None |}.

(** The text of a stream state is the concatenation of the fragments it
    passed to [onToken], and it recorded nothing but tokens. *)
Definition streamConsistent (st : Ai.StreamState) : Prop :=
  Ai.fullText st = Js.concatAll (tokenFragments (Ai.tokens st)) /\
  forallb isToken (Ai.tokens st) = true.

Definition noCompleted (es : list Ai.CallbackEvent) : Prop :=
  forallb (fun e => negb (isCompleted e)) es = true.

(** A stream state with another buffer. *)
Definition withBuffer (b : string) (st : Ai.StreamState) : Ai.StreamState :=
  {| Ai.buffer := b; Ai.fullText := Ai.fullText st; Ai.tokens := Ai.tokens st;
     Ai.errors := Ai.errors st |}.

(** *** More notions of the fix agent *)

Definition approvalNotice : Runtime.NoticeKind * string :=
  (Runtime.InfoNotice,
   "Code Guardian generated an approved fix. Do you want to apply it?").

Definition cancelledText : string := "⏸️ Fix application cancelled by user.".

Definition appliedText : string := "✅ Fix applied. Please review and run your tests.".

Definition failedText (e : string) : string := "❌ Failed to complete the fix: " ++ e.

(** [sessionEnd] of the session that a lookup of [sessionId] gives. *)
Definition sessionEndOf (w : Runtime.World) (sessionId : string)
  : option (Store.ChatSessionStatus * option string) :=
  option_map sessionEnd (Store.getSession (Runtime.manager w) sessionId).

(** From [w] to [w'] only the store, the counters, the calls of the
    provider and the console changed: the session is still in the store,
    the earlier calls are kept, no edit was applied, nothing was saved and
    no notice was shown. *)
Definition proceeds (sessionId : string) (w w' : Runtime.World) : Prop :=
  Runtime.found w' sessionId = true /\
  (exists calls, Runtime.chats w' = (Runtime.chats w ++ calls)%list) /\
  Runtime.edits w' = Runtime.edits w /\
  Runtime.saves w' = Runtime.saves w /\
  Runtime.notices w' = Runtime.notices w.

(** What the provider answers to the recorded call number [n]. *)
Definition answerOf (env : Runtime.Env) (n : nat) (c : Runtime.ChatCall)
  : Ai.Outcome string :=
  Ai.outcome
    (Ai.serviceChat (Runtime.env_nm env) (Runtime.env_fetch env n)
       (Runtime.env_provider env) (Runtime.call_messages c) (Runtime.call_options c)
       (Runtime.call_callbacks c)).

(** Among the calls of [w] from number [from] on, there is a review call
    whose answer the approval parser reads as an approval. *)
Definition reviewApproved (env : Runtime.Env) (from : nat) (w : Runtime.World) : Prop :=
  exists n c response,
    from <= n /\
    nth_error (Runtime.chats w) n = Some c /\
    FixAgent.isCallWith FixAgent.approvalSystemPrompt c = true /\
    answerOf env n c = Ai.Returned response /\
    Approval.decision (Approval.parseApprovalResponse (Runtime.env_nm env) response)
    = Approval.approve.

(** The edit that replaces the context lines of the diagnostic. *)
Definition contextEdit (document : FixAgent.TextDocument)
  (diagnostic : FixAgent.Diagnostic) (text : string) : Runtime.WorkspaceEdit :=
  {| Runtime.edit_path := FixAgent.doc_fsPath document;
     Runtime.edit_startLine :=
       FixAgent.startLine (FixAgent.buildContext document diagnostic);
     Runtime.edit_endLine := FixAgent.endLine (FixAgent.buildContext document diagnostic);
     Runtime.edit_text := text |}.

(** The state of the revision loop is justified by the calls so far: a
    proposal has a replacement that is not empty, and an approval that
    approves comes from a review call. *)
Definition loopJustified (env : Runtime.Env) (from : nat) (w : Runtime.World)
  (st : FixAgent.LoopState) : Prop :=
  (forall p, FixAgent.proposal st = Some p -> FixAgent.replacement p <> EmptyString) /\
  (forall a, FixAgent.approval st = Some a ->
             Approval.decision a = Approval.approve -> reviewApproved env from w).

(** From [w] to [w'] the session stayed in the store, the earlier calls
    were kept, and the notices [shown], the edits [applied] and [saved]
    saves of the document were added. *)
Definition advances (sessionId : string) (shown : list (Runtime.NoticeKind * string))
  (applied : list Runtime.WorkspaceEdit) (saved : nat) (w w' : Runtime.World) : Prop :=
  Runtime.found w' sessionId = true /\
  (exists calls, Runtime.chats w' = (Runtime.chats w ++ calls)%list) /\
  Runtime.edits w' = (Runtime.edits w ++ applied)%list /\
  Runtime.saves w' = Runtime.saves w + saved /\
  Runtime.notices w' = (Runtime.notices w ++ shown)%list.

(** [extractCodeBlock(fullText) ?? fullText.trim()]. *)
Definition replacementOf (fullText : string) : string :=
  match Approval.extractCodeBlock fullText with
  | Some block => block
  | None => Js.trim fullText
  end.

(** What [requestFix] makes of the answer of the provider. *)
Definition proposalOf (answer : Ai.Outcome string) : Ai.Outcome FixAgent.Proposal :=
  match answer with
  | Ai.Threw e => Ai.Threw e
  | Ai.Returned fullText =>
      if Js.isEmpty (replacementOf fullText)
      then Ai.Threw "Provider returned an empty fix."
      else Ai.Returned {| FixAgent.raw := fullText;
                          FixAgent.replacement := replacementOf fullText |}
  end.

(** The first propose call of a run and the review call that follows an
    answer [fullText]. *)
Definition firstPropose (document : FixAgent.TextDocument)
  (diagnostic : FixAgent.Diagnostic) : Runtime.ChatCall :=
  proposeCall
    (FixAgent.buildFixPrompt document diagnostic
       (FixAgent.buildContext document diagnostic) 1 []).

Definition firstReview (document : FixAgent.TextDocument)
  (diagnostic : FixAgent.Diagnostic) (fullText : string) : Runtime.ChatCall :=
  reviewCall
    (FixAgent.buildApprovalPrompt document diagnostic
       (FixAgent.buildContext document diagnostic)
       {| FixAgent.raw := fullText; FixAgent.replacement := replacementOf fullText |}
       1 []).

(** [session.metadata?.[key]] of the session that a lookup of [sessionId]
    gives. *)
Definition metadataAt (w : Runtime.World) (sessionId key : string)
  : option (option string) :=
  match Store.getSession (Runtime.manager w) sessionId with
  | Some s => metadataGet (metadataOf s) key
  | None => None
  end.

(** A cloud provider without API key. *)
Definition keylessEnv : Runtime.Env :=
  {| Runtime.env_nm := lexemeNumbers;
     Runtime.env_provider := Ai.OpenAIProvider EmptyString "gpt-4";
     Runtime.env_fetch := fun _ _ => plainReply EmptyString;
     Runtime.env_randomId := fun n => "id" ++ Js.natToString n;
     Runtime.env_now := fun n => Z.of_nat (1000 + n);
     Runtime.env_toLocaleString := fun _ => "today";
     Runtime.env_userChoice := Some "Apply Fix";
     Runtime.env_applyEdit := true |}.

(** A fix in a fenced code block, and surroundings in which the provider
    proposes it, the review approves it, the user chooses to apply it and
    the editor accepts the edit. *)
Definition sampleFix : string :=
  Approval.fence ++ "js" ++ Js.nl ++ "safeEval(input)" ++ Js.nl ++ Approval.fence.

Definition approvingEnv : Runtime.Env :=
  {| Runtime.env_nm := lexemeNumbers;
     Runtime.env_provider := Ai.AnthropicProvider "key";
     Runtime.env_fetch :=
       fun n _ =>
         match n with
         | 0 => plainReply sampleFix
         | _ => plainReply (Js.q "{'decision':'approve','notes':'ok'}")
         end;
     Runtime.env_randomId := fun n => "id" ++ Js.natToString n;
     Runtime.env_now := fun n => Z.of_nat (1000 + n);
     Runtime.env_toLocaleString := fun _ => "today";
     Runtime.env_userChoice := Some "Apply Fix";
     Runtime.env_applyEdit := true |}.

(** *** More notions of the chat controller *)

Definition controllerCallbacks : Ai.ChatStreamCallbacks :=
  {| Ai.onToken := true; Ai.onStart := false; Ai.onComplete := true |}.

(** The call that [handleUserMessage] makes for a session and a trimmed
    input: the history of the session, the input, and the placeholder of
    the answer, which is still empty. *)
Definition controllerCall (session : Store.ChatSession) (trimmed : string)
  : Runtime.ChatCall :=
  {| Runtime.call_messages :=
       (ChatController.buildChatHistory (Some session)
        ++ [{| Ai.role := Ai.user; Ai.content := trimmed; Ai.name := None |};
            {| Ai.role := Ai.assistant; Ai.content := EmptyString; Ai.name := None |}])%list;
     Runtime.call_options :=
       {| Ai.temperature := None; Ai.maxTokens := None;
          Ai.systemPrompt := Some (ChatController.buildSystemPrompt session) |};
     Runtime.call_callbacks := controllerCallbacks |}.

Definition userMessageOf (id : string) (createdAt : Z) (content : string)
  : StoredChatMessage :=
  {| msg_id := id; msg_role := Store.user; msg_content := content;
     msg_createdAt := createdAt; msg_pending := None; msg_metadata := None |}.

Definition assistantMessageOf (id : string) (createdAt : Z) (content : string)
  (pending : option bool) : StoredChatMessage :=
  {| msg_id := id; msg_role := Store.assistant; msg_content := content;
     msg_createdAt := createdAt; msg_pending := pending; msg_metadata := None |}.

Definition messagesAt (w : Runtime.World) (sessionId : string)
  : option (list StoredChatMessage) :=
  option_map sess_messages (Store.getSession (Runtime.manager w) sessionId).

Definition statusAt (w : Runtime.World) (sessionId : string)
  : option ChatSessionStatus :=
  option_map sess_status (Store.getSession (Runtime.manager w) sessionId).

Definition chatFailedNotice : Runtime.NoticeKind * string :=
  (Runtime.ErrorNotice, "Code Guardian chat failed. See logs for details.").

(** From [w] to [w'] no provider call was made, no notice shown and no
    edit applied. *)
Definition quiet (w w' : Runtime.World) : Prop :=
  Runtime.chats w' = Runtime.chats w /\
  Runtime.notices w' = Runtime.notices w /\
  Runtime.edits w' = Runtime.edits w.

(** The session [sessionId] of [w] has the messages [msgs], the status
    [status] and the metadata [md]. *)
Definition sessionHas (w : Runtime.World) (sessionId : string)
  (msgs : list StoredChatMessage) (status : ChatSessionStatus)
  (md : option Metadata) : Prop :=
  exists s,
    Store.getSession (Runtime.manager w) sessionId = Some s /\
    sess_messages s = msgs /\ sess_status s = status /\ sess_metadata s = md.

(** *** More notions of the approval parser *)

(** No character of [s] has the code [code]. *)
Fixpoint lacks (code : nat) (s : string) : bool :=
  match s with
  | EmptyString => true
  | String c r => negb (Json.isCode c code) && lacks code r
  end.

(** [s] is a run of word characters and dashes. *)
Fixpoint allWordOrDash (s : string) : bool :=
  match s with
  | EmptyString => true
  | String c r => Approval.isWordOrDash c && allWordOrDash r
  end.

(** The codes of the backquote and of the opening brace. *)
Definition backquote : nat := 96.
Definition openBrace : nat := 123.

(** A fenced code block with a language tag. *)
Definition fencedBlock (lang body : string) : string :=
  Approval.fence ++ lang ++ Js.nl ++ body ++ Approval.fence.

(** *** The requests of the cloud providers *)

(** The request that the OpenAI provider sends: to the chat completions
    address, with the model of the provider; the messages as given, after
    a system message with the system prompt when there is one that is not
    empty; streaming exactly when [onToken] is given; no temperature and
    no token limit. *)
Definition openaiRequestShape (model : string) (messages : list Ai.ChatMessage)
  (options : Ai.ChatRequestOptions) (callbacks : Ai.ChatStreamCallbacks)
  (r : Ai.Request) : Prop :=
  Ai.req_url r = "https://api.openai.com/v1/chat/completions" /\
  Ai.req_model r = model /\
  Ai.req_stream r = Ai.onToken callbacks /\
  Ai.req_temperature r = None /\
  Ai.req_maxTokens r = None /\
  Ai.req_system r = None /\
  Ai.req_messages r
  = match Ai.systemPrompt options with
    | Some (String c p) =>
        {| Ai.role := Ai.system; Ai.content := String c p; Ai.name := None |} :: messages
    | _ => messages
    end.

(** What the Anthropic provider sends for a message: its content, without
    a name, as [assistant] when it is an assistant message and as [user]
    when it has any other role. *)
Definition sentAs (given sent : Ai.ChatMessage) : Prop :=
  Ai.content sent = Ai.content given /\
  Ai.name sent = None /\
  (Ai.role given = Ai.assistant -> Ai.role sent = Ai.assistant) /\
  (Ai.role given <> Ai.assistant -> Ai.role sent = Ai.user).

(** The request that the Anthropic provider sends: to the messages
    address; one message for each given one, in order, as [sentAs] says,
    after a [user] message with the system prompt when there is one that
    is not empty, which is also sent as [system]; never streaming; the
    token limit and the temperature of the options, or 800 and 0.2. *)
Definition anthropicRequestShape (messages : list Ai.ChatMessage)
  (options : Ai.ChatRequestOptions) (r : Ai.Request) : Prop :=
  Ai.req_url r = "https://api.anthropic.com/v1/messages" /\
  (exists sent,
     Forall2 sentAs messages sent /\
     Ai.req_messages r
     = match Ai.systemPrompt options with
       | Some (String c p) =>
           {| Ai.role := Ai.user; Ai.content := String c p; Ai.name := None |} :: sent
       | _ => sent
       end) /\
  Ai.req_system r = Ai.systemPrompt options /\
  Ai.req_stream r = false /\
  Ai.req_maxTokens r
  = Some (match Ai.maxTokens options with Some n => n | None => 800 end) /\
  Ai.req_temperature r
  = Some (match Ai.temperature options with Some t => t | None => "0.2" end).

(** A network that refuses a request with a message whose role is neither
    [user] nor [assistant], one that refuses a request with a
    temperature, and one that accepts every request. *)
Definition rolesNetwork (r : Ai.Request) : Ai.Response :=
  if forallb (fun m => match Ai.role m with
                       | Ai.user => true
                       | Ai.assistant => true
                       | _ => false
                       end) (Ai.req_messages r)
  then plainReply "ok"
  else {| Ai.resp_ok := false; Ai.resp_text := "bad role";
          Ai.resp_reply := Ai.Returned EmptyString; Ai.resp_hasBody := false;
          Ai.resp_reads := []; Ai.resp_readError := None |}.

Definition coolNetwork (r : Ai.Request) : Ai.Response :=
  match Ai.req_temperature r with
  | None => plainReply "ok"
  | Some _ => plainReply "hot"
  end.

Definition openNetwork (r : Ai.Request) : Ai.Response := plainReply "ok".

Definition systemNote : Ai.ChatMessage :=
  {| Ai.role := Ai.system; Ai.content := "be brief"; Ai.name := None |}.

Definition warmOptions : Ai.ChatRequestOptions :=
  {| Ai.temperature := Some "0.9"; Ai.maxTokens := None; Ai.systemPrompt := None |}.

(** *** The fix agent without review *)

Definition directPropose (document : FixAgent.TextDocument)
  (diagnostic : FixAgent.Diagnostic) : Runtime.ChatCall :=
  proposeCall
    (FixAgentDirect.buildFixPrompt document diagnostic
       (FixAgent.buildContext document diagnostic)).

Definition consentNotice : Runtime.NoticeKind * string :=
  (Runtime.InfoNotice, FixAgentDirect.consentText).

(** *** The analyzer *)

(** The rank of a severity that is not an inherited name. *)
Definition rankOf (v : Analyzer.Vulnerability) : Z :=
  match Analyzer.severityRank (Analyzer.severity v) with
  | Some r => r
  | None => 4%Z
  end.

Definition plainSeverity (v : Analyzer.Vulnerability) : Prop :=
  Analyzer.inheritedName (Analyzer.severity v) = false.

(** [a] may stand before [b]: a more severe rank, or the same rank and a
    confidence that is not smaller. *)
Definition ordered (a b : Analyzer.Vulnerability) : Prop :=
  (rankOf a < rankOf b)%Z \/
  (rankOf a = rankOf b /\ (Analyzer.confidence b <= Analyzer.confidence a)%Z).

(** The number of line feeds of [s]. *)
Fixpoint lineFeeds (s : string) : nat :=
  match s with
  | EmptyString => 0
  | String c r => (if Ascii.eqb c (ascii_of_nat 10) then 1 else 0) + lineFeeds r
  end.

Definition sampleVulnerability (type severity : string) (line confidence : Z)
  : Analyzer.Vulnerability :=
  {| Analyzer.vtype := type; Analyzer.severity := severity; Analyzer.line := line;
     Analyzer.column := 0; Analyzer.message := "m"; Analyzer.suggestion := None;
     Analyzer.cwe := None; Analyzer.confidence := confidence |}.

(** The map [m] holds what the [forEach] keeps of the entries [seen]:
    one entry for each key, under the key of its value, taken from
    [seen], and no entry of [seen] has a larger confidence than the one
    kept for its key. *)
Definition remembered (seen : list Analyzer.Vulnerability)
  (m : Analyzer.JsMap Analyzer.Vulnerability) : Prop :=
  NoDup (map fst m) /\
  (forall k u, In (k, u) m -> Analyzer.keyOf u = k /\ In u seen) /\
  (forall v, In v seen ->
             exists u, Analyzer.mapGet (Analyzer.keyOf v) m = Some u /\
                       (Analyzer.confidence v <= Analyzer.confidence u)%Z).

(** [u] is the first of the entries [seen] that has the largest
    confidence of its key: the entries of this key before it have a
    smaller confidence, the ones after it have no larger one. *)
Definition firstBest (seen : list Analyzer.Vulnerability) (u : Analyzer.Vulnerability)
  : Prop :=
  exists before after,
    seen = (before ++ u :: after)%list /\
    (forall v, In v before -> Analyzer.keyOf v = Analyzer.keyOf u ->
               (Analyzer.confidence v < Analyzer.confidence u)%Z) /\
    (forall v, In v after -> Analyzer.keyOf v = Analyzer.keyOf u ->
               (Analyzer.confidence v <= Analyzer.confidence u)%Z).

(** The comparator does not put [b] before [a]. *)
Definition notAfter (a b : Analyzer.Vulnerability) : Prop :=
  (Analyzer.compareVulnerabilities a b <= 0)%Z.

End Notions.

(** * Properties *)

(** ** Lists and lookups *)

Section ListFacts.

Context {A : Type}.

Lemma findIndex_nth_error (p : A -> bool) (xs : list A) (i : nat) :
  Store.findIndex p xs = Some i ->
  exists x, nth_error xs i = Some x /\ p x = true /\ find p xs = Some x.
Proof.
  revert i. induction xs as [|a r IH]; intros i H; simpl in *.
  - discriminate.
  - destruct (p a) eqn:Hp.
    + inversion H; subst. exists a. auto.
    + destruct (Store.findIndex p r) as [j|] eqn:Hr; simpl in H; try discriminate.
      inversion H; subst. destruct (IH j eq_refl) as [x Hx]. exists x. exact Hx.
Qed.

Lemma findIndex_None (p : A -> bool) (xs : list A) :
  Store.findIndex p xs = None <-> find p xs = None.
Proof.
  induction xs as [|a r IH]; simpl.
  - tauto.
  - destruct (p a).
    + split; discriminate.
    + destruct (Store.findIndex p r); simpl.
      * split; intro H; try discriminate. apply IH in H. discriminate.
      * split; intros _; trivial. apply IH. reflexivity.
Qed.

Lemma find_Some_findIndex (p : A -> bool) (xs : list A) (x : A) :
  find p xs = Some x ->
  exists i, Store.findIndex p xs = Some i /\ nth_error xs i = Some x.
Proof.
  intro H. destruct (Store.findIndex p xs) as [i|] eqn:Hi.
  - destruct (findIndex_nth_error _ _ _ Hi) as [y [Hn [_ Hf]]].
    exists i. split; trivial. congruence.
  - apply findIndex_None in Hi. congruence.
Qed.

Lemma find_replaceAt (p : A -> bool) (xs : list A) (i : nat) (y : A) :
  Store.findIndex p xs = Some i -> p y = true ->
  find p (Store.replaceAt i y xs) = Some y.
Proof.
  revert i. unfold Store.replaceAt.
  induction xs as [|a r IH]; intros i H Hy; simpl in H.
  - discriminate.
  - destruct (p a) eqn:Hp.
    + inversion H; subst. simpl. rewrite Hy. reflexivity.
    + destruct (Store.findIndex p r) as [j|] eqn:Hr; simpl in H; try discriminate.
      inversion H; subst. simpl. rewrite Hp. apply IH; trivial.
Qed.

Lemma Forall_firstn (P : A -> Prop) (n : nat) (xs : list A) :
  Forall P xs -> Forall P (firstn n xs).
Proof.
  revert n. induction xs as [|a r IH]; intros [|n] H; simpl; auto.
  inversion H; subst. constructor; auto.
Qed.

Lemma Forall_skipn (P : A -> Prop) (n : nat) (xs : list A) :
  Forall P xs -> Forall P (skipn n xs).
Proof.
  revert n. induction xs as [|a r IH]; intros [|n] H; simpl; auto.
  inversion H; subst. auto.
Qed.

Lemma Forall_removeAt (P : A -> Prop) (n : nat) (xs : list A) :
  Forall P xs -> Forall P (Store.removeAt n xs).
Proof.
  intro H. unfold Store.removeAt. apply Forall_app. split.
  - apply Forall_firstn; trivial.
  - apply Forall_skipn; trivial.
Qed.

End ListFacts.

(** ** The session store *)

Section StoreFacts.

Import Store.

Lemma Forall_updateFirst (P : ChatSession -> Prop) (sid : string)
  (f : ChatSession -> ChatSession) (ss : list ChatSession) :
  (forall s, P s -> P (f s)) -> Forall P ss -> Forall P (updateFirst sid f ss).
Proof.
  intros Hf H. induction H as [|s r Hs Hr IH]; simpl.
  - constructor.
  - destruct (hasId sid s); constructor; auto.
Qed.

Lemma find_updateFirst (sid : string) (f : ChatSession -> ChatSession)
  (ss : list ChatSession) (s : ChatSession) :
  find (hasId sid) ss = Some s -> sess_id (f s) = sess_id s ->
  find (hasId sid) (updateFirst sid f ss) = Some (f s).
Proof.
  intros H Hid. induction ss as [|a r IH]; simpl in *.
  - discriminate.
  - destruct (hasId sid a) eqn:Ha.
    + inversion H; subst. simpl. unfold hasId in *. rewrite Hid, Ha. reflexivity.
    + simpl. rewrite Ha. auto.
Qed.

Lemma find_updateFirst_other (sid other : string) (f : ChatSession -> ChatSession)
  (ss : list ChatSession) :
  (forall s, sess_id (f s) = sess_id s) -> other <> sid ->
  find (hasId other) (updateFirst sid f ss) = find (hasId other) ss.
Proof.
  intros Hid Hne. induction ss as [|a r IH]; simpl.
  - reflexivity.
  - destruct (hasId sid a) eqn:Ha; simpl.
    + unfold hasId in *. rewrite Hid.
      apply String.eqb_eq in Ha. rewrite Ha.
      destruct (String.eqb sid other) eqn:E.
      * apply String.eqb_eq in E. congruence.
      * reflexivity.
    + rewrite IH. reflexivity.
Qed.

Lemma updateFirst_keys {K : Type} (key : ChatSession -> K) (sid : string)
  (f : ChatSession -> ChatSession) (ss : list ChatSession) :
  (forall s, key (f s) = key s) -> map key (updateFirst sid f ss) = map key ss.
Proof.
  intro Hf. induction ss as [|a r IH]; simpl.
  - reflexivity.
  - destruct (hasId sid a); simpl; rewrite ?Hf, ?IH; reflexivity.
Qed.

End StoreFacts.

Section StoreTheorems.

Import Store.
Import Notions.

(** C10. When the session id matches no stored session, or the message id
    matches no message of that session, [updateMessage] and
    [appendToMessage] return nothing and return the manager as it was:
    sessions, messages, timestamps, the active session id, the persisted
    copy and the list of fired notifications are all unchanged. *)
Theorem update_append_unknown_target_noop :
  forall (m : Manager) (now : Z) (sessionId messageId fragment : string)
         (updates : MessageUpdates),
    getSession m sessionId = None \/
    (exists session, getSession m sessionId = Some session /\
                     find (msgHasId messageId) (sess_messages session) = None) ->
    updateMessage m now sessionId messageId updates = (m, None) /\
    appendToMessage m now sessionId messageId fragment = (m, None).
Proof.
  intros m now sid mid fragment updates H.
  unfold updateMessage, appendToMessage, getSession in *.
  destruct H as [H | [session [H Hm]]]; rewrite H.
  - split; reflexivity.
  - apply findIndex_None in Hm. rewrite Hm. split; reflexivity.
Qed.

Lemma update_append_unknown_target_noop_witness :
  getSession sampleManager "nope" = None /\
  updateMessage sampleManager 9 "nope" "m1" clearPending = (sampleManager, None) /\
  appendToMessage sampleManager 9 "nope" "m1" "x" = (sampleManager, None).
Proof.
  split; [reflexivity|].
  apply (update_append_unknown_target_noop sampleManager 9 "nope" "m1" "x" clearPending).
  left. reflexivity.
Defined.

Lemma optEqb_eq (a b : option string) : optEqb a b = true <-> a = b.
Proof.
  destruct a as [x|], b as [y|]; simpl; split; intro H;
    try discriminate; try reflexivity.
  - apply String.eqb_eq in H. congruence.
  - inversion H. apply String.eqb_refl.
Qed.

Lemma findIndex_split {A : Type} (p : A -> bool) (xs : list A) (i : nat) :
  findIndex p xs = Some i ->
  exists before x after,
    xs = (before ++ x :: after)%list /\
    (forall y, In y before -> p y = false) /\
    find p xs = Some x /\
    removeAt i xs = (before ++ after)%list.
Proof.
  revert i. induction xs as [|a r IH]; intros i H; simpl in H; [discriminate|].
  destruct (p a) eqn:Pa.
  - inversion H; subst. exists [], a, r. simpl. rewrite Pa.
    repeat split. intros y [].
  - destruct (findIndex p r) as [j|] eqn:Hj; [|discriminate]. inversion H; subst.
    destruct (IH j eq_refl) as [before [x [after [E [B [F R]]]]]].
    exists (a :: before), x, after. simpl. rewrite Pa. repeat split.
    + rewrite E. reflexivity.
    + intros y [<- | Hy]; [exact Pa | exact (B y Hy)].
    + exact F.
    + unfold removeAt in *. cbn [firstn skipn app]. rewrite <- R. reflexivity.
Qed.

(** C9. [deleteSession] of a stored session takes it out of the list,
    the first session of that id, and keeps the other sessions in their
    order.  When it was the active one, [activeSessionId] becomes the id
    of the first session that remains, which is a session of the store
    before and after, if any remain, and none otherwise; when it was not
    the active one, [activeSessionId] is unchanged. *)
Theorem deleteSession_active :
  forall (m : Manager) (sessionId : string) (session : ChatSession),
    getSession m sessionId = Some session ->
    let m' := deleteSession m sessionId in
    (exists before after,
       sessions m = (before ++ session :: after)%list /\
       (forall s, In s before -> sess_id s <> sessionId) /\
       sessions m' = (before ++ after)%list) /\
    (activeSessionId m = Some sessionId ->
       activeSessionId m' = option_map sess_id (hd_error (sessions m')) /\
       (sessions m' = [] -> activeSessionId m' = None) /\
       (sessions m' <> [] ->
          exists remaining, In remaining (sessions m') /\
                            In remaining (sessions m) /\
                            activeSessionId m' = Some (sess_id remaining))) /\
    (activeSessionId m <> Some sessionId ->
       activeSessionId m' = activeSessionId m).
Proof.
  intros m sid session H. unfold getSession in H.
  destruct (find_Some_findIndex _ _ _ H) as [i [Hi _]].
  destruct (findIndex_split _ _ _ Hi) as [before [x [after [E [B [F R]]]]]].
  assert (Ex : x = session) by congruence. subst x.
  unfold deleteSession. rewrite Hi. simpl.
  assert (S : forall a : bool,
             sessions (if a
                       then withActive (withSessions m (removeAt i (sessions m)))
                              (option_map sess_id (hd_error (removeAt i (sessions m))))
                       else withSessions m (removeAt i (sessions m)))
             = removeAt i (sessions m)) by (intros []; reflexivity).
  rewrite S. split; [|split].
  - exists before, after. split; [exact E|]. split; [|exact R].
    intros s Hs Hid. specialize (B s Hs). unfold hasId in B.
    rewrite Hid, String.eqb_refl in B. discriminate.
  - intro Ha. rewrite Ha. simpl. rewrite String.eqb_refl. simpl.
    split; [reflexivity|]. split.
    + intro E0. rewrite E0. reflexivity.
    + intro Hne. destruct (removeAt i (sessions m)) as [|r rest] eqn:E0.
      * congruence.
      * exists r. split; [left; reflexivity|]. split; [|reflexivity].
        assert (I : In r (before ++ after)) by (rewrite <- R; left; reflexivity).
        rewrite E. apply in_app_or in I. apply in_or_app.
        destruct I as [I | I]; [left; exact I | right; right; exact I].
  - intro Hne. destruct (optEqb (activeSessionId m) (Some sid)) eqn:E0.
    + apply optEqb_eq in E0. congruence.
    + reflexivity.
Qed.

Lemma deleteSession_active_witness :
  getSession sampleManager "s1" = Some (sampleSession "s1" QA) /\
  activeSessionId sampleManager = Some "s1" /\
  sessions (deleteSession sampleManager "s1") = [sampleSession "s2" FIX] /\
  activeSessionId (deleteSession sampleManager "s1")
  = option_map sess_id (hd_error (sessions (deleteSession sampleManager "s1"))) /\
  activeSessionId (deleteSession sampleManager "s1") = Some "s2".
Proof.
  split; [reflexivity|]. split; [reflexivity|]. split; [reflexivity|].
  split; [|reflexivity].
  exact (proj1 (proj1 (proj2 (deleteSession_active sampleManager "s1"
                                (sampleSession "s1" QA) eq_refl)) eq_refl)).
Defined.

Lemma In_removeAt {A : Type} (n : nat) (xs : list A) (x : A) :
  In x (removeAt n xs) -> In x xs.
Proof.
  unfold removeAt. intro H. apply in_app_or in H.
  rewrite <- (firstn_skipn n xs). apply in_or_app.
  destruct H as [H | H]; [left; exact H | right].
  clear - H. revert n H. induction xs as [|a r IH]; intros n H.
  - destruct n; simpl in *; contradiction.
  - destruct n as [|k]; simpl in *.
    + destruct r; simpl in *; [contradiction | right; exact H].
    + apply IH. exact H.
Qed.

Lemma same_keys_In (l l' : list ChatSession) :
  map sessionKey l' = map sessionKey l ->
  forall s', In s' l' -> exists s, In s l /\ sessionKey s = sessionKey s'.
Proof.
  intros E s' H. apply (in_map sessionKey) in H. rewrite E in H.
  apply in_map_iff in H. destruct H as [s [Hk Hin]]. exists s. auto.
Qed.

Lemma updateFirst_sessionKey (sid : string) (f : ChatSession -> ChatSession)
  (ss : list ChatSession) :
  (forall s, sessionKey (f s) = sessionKey s) ->
  (forall s', In s' (updateFirst sid f ss) ->
     exists s, In s ss /\ sessionKey s = sessionKey s') /\
  (Forall inputMatchesType ss -> Forall inputMatchesType (updateFirst sid f ss)).
Proof.
  intro Hf. split.
  - apply same_keys_In. apply updateFirst_keys. exact Hf.
  - apply Forall_updateFirst. intros s Hs. unfold inputMatchesType in *.
    specialize (Hf s). unfold sessionKey in Hf. inversion Hf. congruence.
Qed.

Ltac store_step :=
  match goal with
  | |- context [find ?p ?l] => destruct (find p l)
  | |- context [findIndex ?p ?l] => destruct (findIndex p l)
  | |- context [nth_error ?l ?i] => destruct (nth_error l i)
  | |- context [if ?b then _ else _] => destruct b
  end; simpl.

Lemma storeInvariant_step (toLocaleString : Z -> string) (m : Manager) (op : StoreOp) :
  storeInvariant m -> storeInvariant (applyOp toLocaleString m op).
Proof.
  intro Inv. unfold storeInvariant in *.
  destruct op; simpl;
    unfold deleteSession, setActiveSession, addMessage, updateMessage,
      appendToMessage, updateSessionStatus, updateSessionMetadata,
      renameSession, clearAll;
    repeat store_step; trivial;
    try (apply updateFirst_sessionKey; [intros; reflexivity | exact Inv]).
  - constructor; [reflexivity | exact Inv].
  - apply Forall_removeAt. exact Inv.
  - apply Forall_removeAt. exact Inv.
Qed.

Lemma sessionKey_step (toLocaleString : Z -> string) (m : Manager) (op : StoreOp) :
  notCreate op ->
  forall s', In s' (sessions (applyOp toLocaleString m op)) ->
             exists s, In s (sessions m) /\ sessionKey s = sessionKey s'.
Proof.
  intros Hop s'.
  assert (Hid : In s' (sessions m) ->
                exists s, In s (sessions m) /\ sessionKey s = sessionKey s')
    by (intro H; exists s'; auto).
  destruct op; simpl in Hop; try contradiction; simpl;
    unfold deleteSession, setActiveSession, addMessage, updateMessage,
      appendToMessage, updateSessionStatus, updateSessionMetadata,
      renameSession, clearAll;
    repeat store_step; trivial;
    try (apply updateFirst_sessionKey; intros; reflexivity);
    try (intro H; apply In_removeAt in H; auto);
    try contradiction.
Qed.

(** C3. [createSession] returns, and stores, a session whose
    [allowUserInput] is [type == 'qa']; every operation of the store keeps
    the property for all sessions; and an operation other than
    [createSession] leaves every session it keeps with the id, the type
    and the [allowUserInput] of a session that was there before: none
    writes these fields. *)
Theorem allowUserInput_matches_type :
  forall (toLocaleString : Z -> string) (m : Manager),
    (forall rid timestamp type title metadata,
       let r := createSession toLocaleString m rid timestamp type title metadata in
       sess_allowUserInput (snd r) = typeIsQa type /\
       sess_type (snd r) = type /\
       In (snd r) (sessions (fst r))) /\
    (forall op, storeInvariant m -> storeInvariant (applyOp toLocaleString m op)) /\
    (forall op, notCreate op ->
       forall s', In s' (sessions (applyOp toLocaleString m op)) ->
                  exists s, In s (sessions m) /\ sessionKey s = sessionKey s').
Proof.
  intros tl m. split; [|split].
  - intros. simpl. auto.
  - intro op. apply storeInvariant_step.
  - intro op. apply sessionKey_step.
Qed.

Lemma allowUserInput_matches_type_witness :
  storeInvariant sampleManager /\
  storeInvariant (applyOp (fun _ => "now") sampleManager
                    (OpRenameSession 7 "s2" "renamed")).
Proof.
  assert (H : storeInvariant sampleManager)
    by (repeat constructor).
  split; [exact H|].
  exact (proj1 (proj2 (allowUserInput_matches_type (fun _ => "now") sampleManager))
           (OpRenameSession 7 "s2" "renamed") H).
Defined.

Lemma append_assoc (a b c : string) : ((a ++ b) ++ c = a ++ (b ++ c))%string.
Proof.
  induction a as [|x a IH]; simpl; [reflexivity | rewrite IH; reflexivity].
Qed.

Lemma append_empty_r (a : string) : (a ++ EmptyString = a)%string.
Proof.
  induction a as [|x a IH]; simpl; [reflexivity | rewrite IH; reflexivity].
Qed.

Lemma getMessage_inv (m : Manager) (sid mid : string) (msg : StoredChatMessage) :
  getMessage m sid mid = Some msg ->
  exists session index,
    find (hasId sid) (sessions m) = Some session /\
    findIndex (msgHasId mid) (sess_messages session) = Some index /\
    nth_error (sess_messages session) index = Some msg /\
    msgHasId mid msg = true.
Proof.
  unfold getMessage, getSession. intro H.
  destruct (find (hasId sid) (sessions m)) as [session|] eqn:Hs; [|discriminate].
  destruct (find_Some_findIndex _ _ _ H) as [i [Hi Hn]].
  exists session, i. repeat split; trivial.
  apply find_some in H. apply H.
Qed.

Lemma appendToMessage_getMessage (m : Manager) (now : Z) (sid mid fragment : string)
  (msg : StoredChatMessage) :
  getMessage m sid mid = Some msg ->
  getMessage (fst (appendToMessage m now sid mid fragment)) sid mid
  = Some (appendContent msg fragment) /\
  snd (appendToMessage m now sid mid fragment) = Some (appendContent msg fragment).
Proof.
  intro H. destruct (getMessage_inv _ _ _ _ H) as [session [i [Hs [Hi [Hn Hid]]]]].
  unfold appendToMessage. rewrite Hs, Hi, Hn. simpl. split; [|reflexivity].
  unfold getMessage, getSession. simpl.
  rewrite (find_updateFirst _ _ _ _ Hs) by reflexivity. simpl.
  apply find_replaceAt; trivial.
Qed.

Lemma updateMessage_getMessage (m : Manager) (now : Z) (sid mid : string)
  (updates : MessageUpdates) (msg : StoredChatMessage) :
  getMessage m sid mid = Some msg ->
  getMessage (fst (updateMessage m now sid mid updates)) sid mid
  = Some (applyUpdates msg updates) /\
  snd (updateMessage m now sid mid updates) = Some (applyUpdates msg updates).
Proof.
  intro H. destruct (getMessage_inv _ _ _ _ H) as [session [i [Hs [Hi [Hn Hid]]]]].
  unfold updateMessage. rewrite Hs, Hi, Hn. simpl. split; [|reflexivity].
  unfold getMessage, getSession. simpl.
  rewrite (find_updateFirst _ _ _ _ Hs) by reflexivity. simpl.
  apply find_replaceAt; trivial.
Qed.

Lemma appendContent_twice (msg : StoredChatMessage) (a b : string) :
  appendContent (appendContent msg a) b = appendContent msg (a ++ b).
Proof.
  unfold appendContent. simpl. rewrite append_assoc. reflexivity.
Qed.

Lemma appendAll_getMessage (fragments : list (Z * string)) :
  forall (m : Manager) (sid mid : string) (msg : StoredChatMessage),
    getMessage m sid mid = Some msg ->
    getMessage (appendAll m sid mid fragments) sid mid
    = Some (appendContent msg (Js.concatAll (map snd fragments))).
Proof.
  induction fragments as [|[t f] r IH]; intros m sid mid msg H; simpl.
  - rewrite H. f_equal. destruct msg. unfold appendContent. simpl.
    rewrite append_empty_r. reflexivity.
  - unfold appendAll in *. simpl.
    rewrite (IH _ sid mid (appendContent msg f)).
    + rewrite appendContent_twice. reflexivity.
    + apply appendToMessage_getMessage. exact H.
Qed.

(** C4. For a message with content [c], addressed by its session id and
    message id, [appendToMessage] with the fragments [f1..fN] in order and
    then [updateMessage] with [pending: false] leave it with the content
    [c ++ f1 ++ ... ++ fN], whatever [N] and the fragments are; the update
    clears [pending], returns that message, and changes neither the
    content that the appends produced nor any other field. *)
Theorem append_fragments_then_complete :
  forall (m : Manager) (sessionId messageId : string) (msg : StoredChatMessage)
         (fragments : list (Z * string)) (now : Z),
    getMessage m sessionId messageId = Some msg ->
    let streamed := appendAll m sessionId messageId fragments in
    let completed := updateMessage streamed now sessionId messageId clearPending in
    exists before final,
      getMessage streamed sessionId messageId = Some before /\
      getMessage (fst completed) sessionId messageId = Some final /\
      snd completed = Some final /\
      msg_content before
      = (msg_content msg ++ Js.concatAll (map snd fragments))%string /\
      msg_content final = msg_content before /\
      msg_pending final = Some false /\
      msg_id final = msg_id msg /\ msg_role final = msg_role msg /\
      msg_createdAt final = msg_createdAt msg /\
      msg_metadata final = msg_metadata msg.
Proof.
  intros m sid mid msg fragments now H streamed completed.
  pose proof (appendAll_getMessage fragments m sid mid msg H) as H1.
  fold streamed in H1.
  destruct (updateMessage_getMessage streamed now sid mid clearPending _ H1) as [H2 H3].
  fold completed in H2, H3.
  eexists. eexists.
  split; [exact H1|]. split; [exact H2|]. split; [exact H3|].
  simpl. repeat split; reflexivity.
Qed.

Lemma append_fragments_then_complete_witness :
  getMessage sampleManager "s1" "m1" = Some sampleMessage /\
  exists before final,
    getMessage (appendAll sampleManager "s1" "m1" [(6%Z, "lo"); (7%Z, EmptyString); (8%Z, " world")])
               "s1" "m1" = Some before /\
    getMessage (fst (updateMessage
                       (appendAll sampleManager "s1" "m1"
                                  [(6%Z, "lo"); (7%Z, EmptyString); (8%Z, " world")])
                       9 "s1" "m1" clearPending)) "s1" "m1" = Some final /\
    msg_content final = "Hello world" /\
    msg_pending final = Some false.
Proof.
  split; [reflexivity|].
  destruct (append_fragments_then_complete sampleManager "s1" "m1" sampleMessage
              [(6%Z, "lo"); (7%Z, EmptyString); (8%Z, " world")] 9 eq_refl)
    as [before [final [H1 [H2 [_ [H4 [H5 [H6 _]]]]]]]].
  exists before, final. split; [exact H1|]. split; [exact H2|]. split; [|exact H6].
  rewrite H5, H4. reflexivity.
Defined.

End StoreTheorems.

(** ** Strings and chunks *)

Section StringFacts.

Lemma take_drop (n : nat) (s : string) : (Js.take n s ++ Js.drop n s = s)%string.
Proof.
  revert s. induction n as [|n IH]; intros [|c r]; simpl; try reflexivity.
  rewrite IH. reflexivity.
Qed.

Lemma drop_drop (a b : nat) (s : string) : Js.drop b (Js.drop a s) = Js.drop (a + b) s.
Proof.
  revert s. induction a as [|a IH]; intros s; simpl.
  - reflexivity.
  - destruct s as [|c r]; simpl.
    + destruct b; reflexivity.
    + apply IH.
Qed.

Lemma length_drop (n : nat) (s : string) :
  String.length (Js.drop n s) = String.length s - n.
Proof.
  revert s. induction n as [|n IH]; intros [|c r]; simpl; auto.
Qed.

Lemma take_all (n : nat) (s : string) : String.length s <= n -> Js.take n s = s.
Proof.
  revert s. induction n as [|n IH]; intros [|c r] H; simpl in *; try reflexivity.
  - lia.
  - rewrite IH by lia. reflexivity.
Qed.

Lemma drop_all (n : nat) (s : string) : String.length s <= n -> Js.drop n s = EmptyString.
Proof.
  revert s. induction n as [|n IH]; intros [|c r] H; simpl in *; try reflexivity.
  - lia.
  - apply IH. lia.
Qed.

Lemma chunkLoop_concat (chunkSize : nat) (text : string) :
  0 < chunkSize ->
  forall fuel i, String.length text - i <= fuel ->
    Js.concatAll (Ai.chunkLoop fuel text chunkSize i) = Js.drop i text.
Proof.
  intros Hc. induction fuel as [|fuel IH]; intros i Hf; simpl.
  - symmetry. apply drop_all. lia.
  - destruct (Nat.ltb i (String.length text)) eqn:E.
    + apply Nat.ltb_lt in E. simpl. rewrite IH by lia.
      unfold Js.slice. replace (i + chunkSize - i) with chunkSize by lia.
      rewrite <- drop_drop. apply take_drop.
    + apply Nat.ltb_ge in E. symmetry. apply drop_all. exact E.
Qed.

Lemma chunkText_concat (text : string) : Js.concatAll (Ai.chunkText text) = text.
Proof.
  unfold Ai.chunkText, Ai.chunkTextBy.
  rewrite chunkLoop_concat by lia. reflexivity.
Qed.


End StringFacts.

(** ** White space and [trim] *)

Section TrimFacts.

Import Notions.

(** The byte sequences that [trim] strips are the UTF-8 forms of the
    code points of WhiteSpace and LineTerminator. *)
Lemma spaces_code_points : Js.spaces = map Js.utf8 spaceCodePoints.
Proof. vm_compute. reflexivity. Qed.

Lemma isSpace_length (t : string) :
  Js.isSpace t = true ->
  String.length t = 1 \/ String.length t = 2 \/ String.length t = 3.
Proof.
  intro H. unfold Js.isSpace in H. apply existsb_exists in H.
  destruct H as [x [Hx Hq]]. apply String.eqb_eq in Hq. subst x.
  unfold Js.spaces in Hx. cbn [In] in Hx.
  repeat (destruct Hx as [Hx | Hx]; [subst t; cbn; auto; fail|]).
  destruct Hx.
Qed.

Lemma take_append_length (t rest : string) :
  Js.take (String.length t) (t ++ rest) = t.
Proof.
  induction t as [|c t IH]; cbn; [destruct rest; reflexivity|]. rewrite IH. reflexivity.
Qed.

Lemma isSpace_take (t rest : string) :
  Js.isSpace t = true ->
  t = Js.take 1 (t ++ rest) \/ t = Js.take 2 (t ++ rest) \/ t = Js.take 3 (t ++ rest).
Proof.
  intro H. pose proof (take_append_length t rest) as E.
  destruct (isSpace_length t H) as [L | [L | L]]; rewrite L in E; auto.
Qed.

Lemma trimStart_spec (s : string) :
  exists l, s = (l ++ Js.trimStart s)%string /\ blank l /\
            (forall t rest, Js.isSpace t = true -> Js.trimStart s <> (t ++ rest)%string).
Proof.
  assert (Stop : forall u : string,
             Js.isSpace (Js.take 1 u) = false ->
             Js.isSpace (Js.take 2 u) = false ->
             Js.isSpace (Js.take 3 u) = false ->
             forall t rest, Js.isSpace t = true -> u <> (t ++ rest)%string).
  { intros u H1 H2 H3 t rest Ht E.
    destruct (isSpace_take t rest Ht) as [K | [K | K]]; rewrite <- E in K;
      rewrite K in Ht; congruence. }
  assert (G : forall n u, String.length u <= n ->
                exists l, u = (l ++ Js.trimStart u)%string /\ blank l /\
                          (forall t rest, Js.isSpace t = true ->
                                          Js.trimStart u <> (t ++ rest)%string)).
  { induction n as [|n IH]; intros u Hn.
    - destruct u; [|simpl in Hn; lia]. exists EmptyString.
      split; [reflexivity|]. split; [constructor|].
      intros t rest Ht E. destruct t; [discriminate Ht | discriminate E].
    - destruct u as [|a r].
      { exists EmptyString. split; [reflexivity|]. split; [constructor|].
        intros t rest Ht E. destruct t; [discriminate Ht | discriminate E]. }
      cbn [Js.trimStart]. cbn [String.length] in Hn.
      destruct (Js.isSpace (String a EmptyString)) eqn:S1.
      { destruct (IH r) as [l [E [B N]]]; [lia|].
        exists (String a EmptyString ++ l)%string. split; [|split; [|exact N]].
        - cbn. rewrite <- E. reflexivity.
        - apply blank_more; assumption. }
      destruct r as [|b r1].
      { exists EmptyString. split; [reflexivity|]. split; [constructor|].
        apply Stop; exact S1. }
      cbn [String.length] in Hn.
      destruct (Js.isSpace (String a (String b EmptyString))) eqn:S2.
      { destruct (IH r1) as [l [E [B N]]]; [lia|].
        exists (String a (String b EmptyString) ++ l)%string. split; [|split; [|exact N]].
        - cbn. rewrite <- E. reflexivity.
        - apply blank_more; assumption. }
      destruct r1 as [|c r2].
      { exists EmptyString. split; [reflexivity|]. split; [constructor|].
        apply Stop; assumption. }
      cbn [String.length] in Hn.
      destruct (Js.isSpace (String a (String b (String c EmptyString)))) eqn:S3.
      { destruct (IH r2) as [l [E [B N]]]; [lia|].
        exists (String a (String b (String c EmptyString)) ++ l)%string.
        split; [|split; [|exact N]].
        - cbn. rewrite <- E. reflexivity.
        - apply blank_more; assumption. }
      exists EmptyString. split; [reflexivity|]. split; [constructor|].
      apply Stop; assumption. }
  exact (G (String.length s) s (le_n _)).
Qed.

Lemma trimEnd_spec (s : string) :
  exists r, s = (Js.trimEnd s ++ r)%string /\ blank r /\
            (forall t rest, Js.isSpace t = true -> Js.trimEnd s <> (rest ++ t)%string).
Proof.
  induction s as [|c s [r [E [B N]]]].
  - exists EmptyString. split; [reflexivity|]. split; [constructor|].
    intros t rest Ht K. destruct rest; destruct t; try discriminate K. discriminate Ht.
  - cbn [Js.trimEnd].
    destruct (Js.isSpace (String c (Js.trimEnd s))) eqn:S1.
    + exists (String c (Js.trimEnd s) ++ r)%string. split; [|split].
      * cbn. rewrite <- E. reflexivity.
      * apply blank_more; assumption.
      * intros t rest Ht K. destruct rest; destruct t; try discriminate K.
        discriminate Ht.
    + exists r. split; [|split; [exact B|]].
      * cbn. rewrite <- E. reflexivity.
      * intros t rest Ht K. destruct rest as [|d rest].
        -- cbn in K. rewrite <- K in Ht. congruence.
        -- cbn in K. injection K as _ K. exact (N t rest Ht K).
Qed.

(** [trim] takes a run of white space off each end, and what is left
    neither starts nor ends with white space. *)
Lemma trim_spec (s : string) :
  exists l r,
    s = (l ++ Js.trim s ++ r)%string /\ blank l /\ blank r /\
    (forall t rest, Js.isSpace t = true -> Js.trim s <> (t ++ rest)%string) /\
    (forall t rest, Js.isSpace t = true -> Js.trim s <> (rest ++ t)%string).
Proof.
  destruct (trimStart_spec s) as [l [El [Bl Nl]]].
  destruct (trimEnd_spec (Js.trimStart s)) as [r [Er [Br Nr]]].
  exists l, r. unfold Js.trim. split; [|split; [exact Bl|split; [exact Br|split]]].
  - rewrite <- Er. exact El.
  - intros t rest Ht K. apply (Nl t (rest ++ r)%string Ht).
    transitivity ((t ++ rest) ++ r)%string; [rewrite <- K; exact Er | apply append_assoc].
  - exact Nr.
Qed.

Example trim_beyond_ascii :
  Js.trim (Js.utf8 160 ++ " hi " ++ Js.utf8 (codePoint 254 255) ++ Js.utf8 (codePoint 32 40))
  = "hi" /\
  Js.trim (Js.utf8 160) = EmptyString /\
  Js.trim ("a" ++ Js.utf8 233 ++ " ") = ("a" ++ Js.utf8 233)%string.
Proof. repeat split; vm_compute; reflexivity. Qed.

End TrimFacts.


(** ** Providers without streaming *)

Section DeliveryTheorems.

Import Ai.
Import Notions.

Lemma deliver_expected (guardText : bool) (callbacks : ChatStreamCallbacks) (text : string) :
  onToken callbacks = true ->
  deliver guardText callbacks text = expectedEvents callbacks text.
Proof.
  intro H. unfold deliver, expectedEvents. rewrite H.
  destruct guardText; simpl; [|reflexivity].
  destruct text; reflexivity.
Qed.

Lemma tokenFragments_map (chunks : list string) :
  tokenFragments (map Token chunks) = chunks.
Proof.
  induction chunks as [|c r IH]; simpl; [reflexivity | rewrite IH; reflexivity].
Qed.

Lemma tokenFragments_expected (callbacks : ChatStreamCallbacks) (text : string) :
  tokenFragments (expectedEvents callbacks text) = chunkText text.
Proof.
  unfold expectedEvents, tokenFragments. rewrite !flat_map_app.
  fold (tokenFragments (map Token (chunkText text))). rewrite tokenFragments_map.
  destruct (onStart callbacks), (onComplete callbacks); simpl;
    rewrite ?app_nil_r; reflexivity.
Qed.

Lemma replyRun_returned (callbacks : ChatStreamCallbacks) (response : Response)
  (text : string) :
  onToken callbacks = true ->
  outcome (replyRun callbacks response) = Returned text ->
  events (replyRun callbacks response) = expectedEvents callbacks text.
Proof.
  intros Hc. unfold replyRun. destruct (resp_reply response); simpl; intro H.
  - inversion H; subst. apply deliver_expected. exact Hc.
  - discriminate.
Qed.




End DeliveryTheorems.

(** ** The streaming read loop *)

Section StreamTheorems.

Import Ai.
Import Notions.

Variable nm : Json.NumberModel.
Variable callbacks : ChatStreamCallbacks.

Lemma sameOutput_refl (st : StreamState) : sameOutput st st.
Proof. repeat split. Qed.

Lemma handlePayload_sameOutput (a b : StreamState) (payload : string) :
  sameOutput a b ->
  match handlePayload nm callbacks a payload, handlePayload nm callbacks b payload with
  | Some a', Some b' => sameOutput a' b'
  | None, None => True
  | _, _ => False
  end.
Proof.
  intros [Hb [Hf Ht]]. unfold handlePayload.
  destruct (Json.parse payload) as [json|]; [|exact I].
  destruct (Json.getProp json "choices") as [choices|]; [|exact I].
  destruct (Json.optProp (Json.optProp (Json.optIndex0 choices) "delta") "content")
    as [d|] eqn:E.
  - destruct (Json.truthy nm (Some d)).
    + destruct (Json.toStr nm d) as [text|]; [|exact I].
      unfold sameOutput. simpl. rewrite Hb, Hf, Ht. repeat split.
    + repeat split; assumption.
  - repeat split; assumption.
Qed.

Lemma processLine_sameOutput (a b : StreamState) (line : string) :
  sameOutput a b ->
  sameOutput (processLine nm callbacks a line) (processLine nm callbacks b line).
Proof.
  intro H. unfold processLine.
  destruct (Js.isEmpty (Js.trim line) || negb (Js.startsWith (Js.trim line) "data:"));
    [exact H|].
  set (payload := Js.trim (Js.sliceFrom (Js.trim line) 5)).
  destruct (Js.isEmpty payload || String.eqb payload "[DONE]"); [exact H|].
  pose proof (handlePayload_sameOutput a b payload H) as Hp.
  destruct (handlePayload nm callbacks a payload), (handlePayload nm callbacks b payload);
    try contradiction; [exact Hp|].
  destruct H as [Hb [Hf Ht]]. repeat split; assumption.
Qed.

Lemma processLines_sameOutput (lines : list string) :
  forall a b, sameOutput a b ->
    sameOutput (processLines nm callbacks a lines) (processLines nm callbacks b lines).
Proof.
  unfold processLines. induction lines as [|l r IH]; intros a b H; simpl.
  - exact H.
  - apply IH. apply processLine_sameOutput. exact H.
Qed.

Lemma processLines_skip (st : StreamState) (line : string) (before after : list string) :
  (forall s, sameOutput (processLine nm callbacks s line) s) ->
  sameOutput (processLines nm callbacks st (before ++ line :: after))
             (processLines nm callbacks st (before ++ after)).
Proof.
  intro H. unfold processLines. rewrite !fold_left_app. simpl.
  apply (processLines_sameOutput after). apply H.
Qed.

Lemma splitLines_line (line rest : string) :
  noLineFeed line = true ->
  Js.splitLines (line ++ Js.nl ++ rest) = line :: Js.splitLines rest.
Proof.
  change (Js.nl ++ rest)%string with (String (ascii_of_nat 10) rest).
  induction line as [|c l IH]; intro H.
  - reflexivity.
  - simpl in H. apply Bool.andb_true_iff in H. destruct H as [Hc Hl].
    apply Bool.negb_true_iff in Hc.
    cbn [append Js.splitLines]. rewrite Hc, (IH Hl). reflexivity.
Qed.

Lemma splitLines_framesChunk (lines : list string) :
  forallb noLineFeed lines = true ->
  Js.splitLines (framesChunk lines) = (lines ++ [EmptyString])%list.
Proof.
  unfold framesChunk. induction lines as [|l r IH]; intro H.
  - reflexivity.
  - simpl in H. apply Bool.andb_true_iff in H. destruct H as [Hl Hr].
    cbn [map Js.concatAll].
    rewrite append_assoc, (splitLines_line _ _ Hl), (IH Hr). reflexivity.
Qed.

Lemma readLoop_framesChunk (lines : list string) :
  forallb noLineFeed lines = true ->
  readLoop nm callbacks [framesChunk lines]
  = processLines nm callbacks initialStream lines.
Proof.
  intro H. unfold readLoop, processChunk. simpl.
  rewrite (splitLines_framesChunk _ H).
  rewrite removelast_last, last_last. reflexivity.
Qed.

Lemma openaiChat_frames (apiKey model : string) (messages : list ChatMessage)
  (options : ChatRequestOptions) (lines lines' : list string) :
  onToken callbacks = true ->
  forallb noLineFeed lines = true -> forallb noLineFeed lines' = true ->
  sameOutput (processLines nm callbacks initialStream lines)
             (processLines nm callbacks initialStream lines') ->
  events (openaiChat nm (fun _ => streamedReply [framesChunk lines]) apiKey model
                     messages options callbacks)
  = events (openaiChat nm (fun _ => streamedReply [framesChunk lines']) apiKey model
                       messages options callbacks) /\
  outcome (openaiChat nm (fun _ => streamedReply [framesChunk lines]) apiKey model
                      messages options callbacks)
  = outcome (openaiChat nm (fun _ => streamedReply [framesChunk lines']) apiKey model
                        messages options callbacks).
Proof.
  intros Hc Hl Hl' [_ [Hf Ht]]. unfold openaiChat.
  destruct (Js.isEmpty apiKey); [split; reflexivity|].
  cbn [streamedReply resp_ok resp_hasBody resp_reads resp_readError req_stream negb].
  rewrite Hc. cbn [andb negb].
  rewrite (readLoop_framesChunk _ Hl), (readLoop_framesChunk _ Hl').
  cbn [events outcome]. rewrite Hf, Ht. split; reflexivity.
Qed.

Lemma forallb_without {A : Type} (p : A -> bool) (before after : list A) (x : A) :
  forallb p (before ++ x :: after) = true -> forallb p (before ++ after) = true.
Proof.
  rewrite !forallb_app. simpl. intro H.
  apply Bool.andb_true_iff in H. destruct H as [Hb H].
  apply Bool.andb_true_iff in H. destruct H as [_ Ha].
  rewrite Hb, Ha. reflexivity.
Qed.

End StreamTheorems.

Section FrameTheorems.

Import Ai.
Import Notions.

(** C7. A line that does not start with [data:], or whose payload is not
    valid JSON, is skipped on its own: the text, the tokens and the buffer
    are as before it (so [onToken] is not called), the lines around it are
    processed as if it were absent, and a body that contains it gives the
    callbacks and the result of the body without it; [chat] returns, it
    does not throw. *)
Theorem malformed_frame_skipped :
  forall (nm : Json.NumberModel) (callbacks : ChatStreamCallbacks) (line : string),
    payloadOf line = None \/
    (exists payload, payloadOf line = Some payload /\ Json.parse payload = None) ->
    (forall st, sameOutput (processLine nm callbacks st line) st) /\
    (forall st before after,
       sameOutput (processLines nm callbacks st (before ++ line :: after))
                  (processLines nm callbacks st (before ++ after))) /\
    (forall before after apiKey model messages options,
       onToken callbacks = true ->
       Js.isEmpty apiKey = false ->
       forallb noLineFeed (before ++ line :: after) = true ->
       events (openaiChat nm (fun _ => streamedReply [framesChunk (before ++ line :: after)])
                          apiKey model messages options callbacks)
       = events (openaiChat nm (fun _ => streamedReply [framesChunk (before ++ after)])
                            apiKey model messages options callbacks) /\
       outcome (openaiChat nm (fun _ => streamedReply [framesChunk (before ++ line :: after)])
                           apiKey model messages options callbacks)
       = Returned (fullText (processLines nm callbacks initialStream (before ++ after)))).
Proof.
  intros nm callbacks line H.
  assert (H1 : forall st, sameOutput (processLine nm callbacks st line) st).
  { intro st. unfold processLine. unfold payloadOf in H.
    set (trimmed := Js.trim line) in *.
    set (body := Js.trim (Js.sliceFrom trimmed 5)) in *.
    destruct (Js.startsWith trimmed "data:").
    - destruct H as [H | [payload [H Hp]]]; [discriminate|].
      assert (E : body = payload) by congruence. rewrite <- E in Hp.
      rewrite Bool.orb_false_r.
      destruct (Js.isEmpty trimmed); [apply sameOutput_refl|].
      destruct (Js.isEmpty body || String.eqb body "[DONE]"); [apply sameOutput_refl|].
      unfold handlePayload. rewrite Hp. repeat split.
    - rewrite Bool.orb_true_r. apply sameOutput_refl. }
  split; [exact H1|]. split.
  - intros st before after. apply processLines_skip. exact H1.
  - intros before after apiKey model messages options Hc Hk Hl.
    pose proof (forallb_without _ _ _ _ Hl) as Hl'.
    destruct (openaiChat_frames nm callbacks apiKey model messages options
                (before ++ line :: after) (before ++ after) Hc Hl Hl'
                (processLines_skip nm callbacks _ _ _ _ H1)) as [He Ho].
    split; [exact He|]. rewrite Ho. unfold openaiChat. rewrite Hk.
    cbn [streamedReply resp_ok resp_hasBody resp_reads resp_readError req_stream negb].
    rewrite Hc. cbn [andb negb]. rewrite (readLoop_framesChunk _ _ _ Hl').
    reflexivity.
Qed.

Lemma malformed_frame_skipped_witness :
  (exists payload, payloadOf "data: {oops" = Some payload /\ Json.parse payload = None) /\
  events (openaiChat lexemeNumbers
            (fun _ => streamedReply
                        [framesChunk ([deltaLine "a"] ++ "data: {oops" :: [deltaLine "b"])])
            "key" "gpt" [] noOptions allCallbacks)
  = events (openaiChat lexemeNumbers
              (fun _ => streamedReply [framesChunk ([deltaLine "a"] ++ [deltaLine "b"])])
              "key" "gpt" [] noOptions allCallbacks).
Proof.
  assert (H : exists payload,
             payloadOf "data: {oops" = Some payload /\ Json.parse payload = None)
    by (exists "{oops"; split; reflexivity).
  split; [exact H|].
  exact (proj1 (proj2 (proj2 (malformed_frame_skipped lexemeNumbers allCallbacks
                                "data: {oops" (or_intror H)))
                  [deltaLine "a"] [deltaLine "b"] "key" "gpt" [] noOptions
                  eq_refl eq_refl eq_refl)).
Defined.

(** A frame with white space outside ASCII around it is a frame like any
    other; a delta without a string form is skipped like a payload that
    does not parse, with the same line on the console. *)
Example padded_frame_processed :
  processLine lexemeNumbers allCallbacks initialStream (Js.utf8 160 ++ deltaLine "x")
  = {| buffer := EmptyString; fullText := "x"; tokens := [Token "x"]; errors := [] |} /\
  processLine lexemeNumbers allCallbacks initialStream
    (Js.q "data: {'choices':[{'delta':{'content':{'toString':1}}}]}")
  = {| buffer := EmptyString; fullText := EmptyString; tokens := [];
       errors := [parseErrorLog] |}.
Proof. split; vm_compute; reflexivity. Qed.

(** C5 as the code has it.  A frame whose payload is the sentinel
    [[DONE]] is skipped: it is not parsed, calls no callback and leaves
    the state of the loop as it was; the loop goes on with the frames
    after it, which are processed as if the sentinel were absent, and only
    ends when the reader reports the end of the body. *)
Theorem done_frame_skipped :
  forall (nm : Json.NumberModel) (callbacks : ChatStreamCallbacks) (line : string),
    payloadOf line = Some "[DONE]" ->
    (forall st, processLine nm callbacks st line = st) /\
    (forall st before after,
       processLines nm callbacks st (before ++ line :: after)
       = processLines nm callbacks st (before ++ after)) /\
    (forall reads later,
       readLoop nm callbacks (reads ++ later)
       = fold_left (processChunk nm callbacks) later (readLoop nm callbacks reads)) /\
    (forall before after apiKey model messages options,
       onToken callbacks = true ->
       forallb noLineFeed (before ++ line :: after) = true ->
       openaiChat nm (fun _ => streamedReply [framesChunk (before ++ line :: after)])
                  apiKey model messages options callbacks
       = openaiChat nm (fun _ => streamedReply [framesChunk (before ++ after)])
                    apiKey model messages options callbacks).
Proof.
  intros nm callbacks line H.
  assert (H1 : forall st, processLine nm callbacks st line = st).
  { intro st. unfold processLine. unfold payloadOf in H.
    set (trimmed := Js.trim line) in *.
    set (body := Js.trim (Js.sliceFrom trimmed 5)) in *.
    destruct (Js.startsWith trimmed "data:"); [|discriminate].
    assert (E : body = "[DONE]") by congruence. rewrite E.
    rewrite Bool.orb_false_r. destruct (Js.isEmpty trimmed); reflexivity. }
  assert (H2 : forall st before after,
             processLines nm callbacks st (before ++ line :: after)
             = processLines nm callbacks st (before ++ after)).
  { intros st before after. unfold processLines. rewrite !fold_left_app. simpl.
    rewrite H1. reflexivity. }
  split; [exact H1|]. split; [exact H2|]. split.
  - intros reads later. unfold readLoop. apply fold_left_app.
  - intros before after apiKey model messages options Hc Hl.
    pose proof (forallb_without _ _ _ _ Hl) as Hl'.
    unfold openaiChat. destruct (Js.isEmpty apiKey); [reflexivity|].
    cbn [streamedReply resp_ok resp_hasBody resp_reads resp_readError req_stream negb].
    rewrite Hc. cbn [andb negb].
    rewrite (readLoop_framesChunk _ _ _ Hl), (readLoop_framesChunk _ _ _ Hl'), H2.
    reflexivity.
Qed.

Lemma done_frame_skipped_witness :
  payloadOf doneLine = Some "[DONE]" /\
  openaiChat lexemeNumbers
    (fun _ => streamedReply [framesChunk ([deltaLine "a"] ++ doneLine :: [deltaLine "b"])])
    "key" "gpt" [] noOptions allCallbacks
  = openaiChat lexemeNumbers
      (fun _ => streamedReply [framesChunk ([deltaLine "a"] ++ [deltaLine "b"])])
      "key" "gpt" [] noOptions allCallbacks.
Proof.
  split; [reflexivity|].
  exact (proj2 (proj2 (proj2 (done_frame_skipped lexemeNumbers allCallbacks doneLine
                                eq_refl)))
           [deltaLine "a"] [deltaLine "b"] "key" "gpt" [] noOptions eq_refl eq_refl).
Defined.

(** C5 as stated fails: a frame that arrives after the sentinel, in the
    same chunk or in a later one, is processed and its delta is part of
    the tokens and of the result. *)
Lemma frame_after_done_is_processed :
  openaiChat lexemeNumbers
    (fun _ => streamedReply [framesChunk [deltaLine "early"; doneLine; deltaLine "late"]])
    "key" "gpt" [] noOptions allCallbacks
  = {| events := [Started; Token "early"; Token "late"; Completed "earlylate"];
       logged := [];
       outcome := Returned "earlylate" |} /\
  openaiChat lexemeNumbers
    (fun _ => streamedReply [framesChunk [deltaLine "early"; doneLine];
                             framesChunk [deltaLine "late"]])
    "key" "gpt" [] noOptions allCallbacks
  = {| events := [Started; Token "early"; Token "late"; Completed "earlylate"];
       logged := [];
       outcome := Returned "earlylate" |}.
Proof.
  split; vm_compute; reflexivity.
Qed.

End FrameTheorems.

(** ** The chat controller *)

Section ControllerTheorems.

Import Runtime.
Import Notions.

(** C8. When the session id is unknown, or the session does not allow
    user input, [handleUserMessage] only shows a notice to the user (an
    error notice for an unknown session, a warning for a read-only one):
    the session manager is unchanged, so no message is added, no field of
    a session changes and nothing is fired or persisted; no provider call
    is made; no identifier or clock reading is drawn. *)
Theorem handleUserMessage_rejected :
  forall (env : Env) (w : World) (sessionId content : string),
    Store.getSession (manager w) sessionId = None \/
    (exists session, Store.getSession (manager w) sessionId = Some session /\
                     Store.sess_allowUserInput session = false) ->
    exists kind text,
      ChatController.handleUserMessage env w sessionId content = notify w kind text /\
      manager (ChatController.handleUserMessage env w sessionId content) = manager w /\
      chats (ChatController.handleUserMessage env w sessionId content) = chats w /\
      notices (ChatController.handleUserMessage env w sessionId content)
      = (notices w ++ [(kind, text)])%list /\
      (kind = ErrorNotice \/ kind = WarningNotice).
Proof.
  intros env w sid content H. unfold ChatController.handleUserMessage.
  destruct H as [H | [session [H Ha]]]; rewrite H.
  - exists ErrorNotice, "Chat session not found.". repeat split. left. reflexivity.
  - rewrite Ha. simpl.
    exists WarningNotice, "This session is read-only.". repeat split. right. reflexivity.
Qed.

Lemma handleUserMessage_rejected_witness :
  (exists session, Store.getSession (manager sampleWorld) "s2" = Some session /\
                   Store.sess_allowUserInput session = false) /\
  exists kind text,
    ChatController.handleUserMessage localEnv sampleWorld "s2" "hello"
    = notify sampleWorld kind text.
Proof.
  assert (H : exists session,
             Store.getSession (manager sampleWorld) "s2" = Some session /\
             Store.sess_allowUserInput session = false)
    by (exists (sampleSession "s2" Store.FIX); split; reflexivity).
  split; [exact H|].
  destruct (handleUserMessage_rejected localEnv sampleWorld "s2" "hello" (or_intror H))
    as [kind [text [E _]]].
  exists kind, text. exact E.
Defined.

End ControllerTheorems.

(** ** Approval parsing *)

Section ApprovalTheorems.

Import Json.
Import Approval.
Import Notions.

Lemma JValue_nested_ind (P : JValue -> Prop) :
  P JNull -> (forall b, P (JBool b)) -> (forall lx, P (JNumber lx)) ->
  (forall s, P (JString s)) ->
  (forall items, Forall P items -> P (JArray items)) ->
  (forall members, P (JObject members)) ->
  forall v, P v.
Proof.
  intros Hn Hb Hx Hs Ha Ho.
  fix IH 1. intros [| b | lx | s | items | members].
  - exact Hn.
  - apply Hb.
  - apply Hx.
  - apply Hs.
  - apply Ha.
    exact ((fix all (xs : list JValue) : Forall P xs :=
              match xs with
              | [] => Forall_nil P
              | x :: r => Forall_cons x (IH x) (all r)
              end) items).
  - apply Ho.
Qed.

Lemma toStr_array_None (nm : NumberModel) (items : list JValue) :
  toStr nm (JArray items) = None <-> exists x, In x items /\ toStr nm x = None.
Proof.
  cbn [toStr].
  assert (E : forall o : option (list string),
             option_map (Js.join ",") o = None <-> o = None).
  { intros [l|]; cbn; split; intro H; try discriminate; reflexivity. }
  rewrite E. clear E.
  induction items as [|x r IH].
  - split; [discriminate | intros [x [[] _]]].
  - destruct (match x with JNull => Some EmptyString | _ => toStr nm x end)
      as [t|] eqn:Ex.
    + match goal with
      | |- match ?F with _ => _ end = None <-> _ => destruct F as [ts|] eqn:Er
      end.
      * split; [discriminate|]. intros [y [[<- | Hy] Hn]].
        -- destruct x; try (rewrite Hn in Ex; discriminate Ex); discriminate Hn.
        -- exfalso. destruct IH as [_ IH].
           specialize (IH (ex_intro _ y (conj Hy Hn))). discriminate IH.
      * split; [|reflexivity]. intros _.
        destruct (proj1 IH eq_refl) as [y [Hy Hn]]. exists y.
        split; [right; exact Hy | exact Hn].
    + split; [|reflexivity]. intros _. exists x. split; [left; reflexivity|].
      destruct x; try discriminate Ex; exact Ex.
Qed.

(** [String(v)] throws exactly for an object with an own member
    [toString] and for an array that holds a value for which it throws. *)
Lemma toStr_None (nm : NumberModel) (v : JValue) :
  toStr nm v = None <-> noStringForm v.
Proof.
  induction v as [| b | lx | s | items IH | members] using JValue_nested_ind.
  - split; [discriminate | intro H; inversion H].
  - split; [destruct b; discriminate | intro H; inversion H].
  - split; [discriminate | intro H; inversion H].
  - split; [discriminate | intro H; inversion H].
  - rewrite toStr_array_None. rewrite Forall_forall in IH. split.
    + intros [x [Hx Hn]]. apply (noStringForm_array items x Hx).
      apply (IH x Hx). exact Hn.
    + intro H. inversion H as [|? x Hx Hn]; subst. exists x. split; [exact Hx|].
      apply (IH x Hx). exact Hn.
  - cbn [toStr]. destruct (lookup "toString" members) as [v|] eqn:L.
    + split; [intros _; exact (noStringForm_object members v L) | reflexivity].
    + split; [discriminate|]. intro H. inversion H; subst. congruence.
Qed.

Lemma parseApprovalResponse_parsed (nm : NumberModel) (response candidate : string)
  (parsed : JValue) :
  extractJsonCandidate (Js.trim response) = Some candidate ->
  Json.parse candidate = Some parsed ->
  parseApprovalResponse nm response
  = match decisionText nm parsed with
    | Some d =>
        {| decision := if String.eqb d "approve" then approve else reject;
           notes := match getProp parsed "notes" with
                    | Some (Some (JString n)) => Js.trim n
                    | _ => EmptyString
                    end |}
    | None => heuristicApproval (Js.trim response)
    end.
Proof.
  intros Hc Hp. unfold parseApprovalResponse. rewrite Hc.
  destruct candidate as [|c r]; [discriminate|]. simpl Js.isEmpty. cbv iota.
  unfold parseJsonApproval. rewrite Hp. destruct (decisionText nm parsed); reflexivity.
Qed.

Lemma approve_iff (d : string) :
  (if String.eqb d "approve" then approve else reject) = approve <-> d = "approve".
Proof.
  destruct (String.eqb d "approve") eqn:E.
  - apply String.eqb_eq in E. split; intros _; [exact E | reflexivity].
  - apply String.eqb_neq in E. split; [discriminate | contradiction].
Qed.

(** C2 as the code has it.  The four inputs of the specification give
    the four results it states.  When the response holds a JSON candidate
    that parses to [parsed]: a decision member that is a string approves
    exactly when the string is [approve] up to the case of its letters;
    more generally a decision member that is truthy and has a string form
    approves exactly when that form, in lower case, is [approve]; a
    decision member that is missing or falsy rejects; in these cases the
    notes are the trimmed [notes] member when it is a string and the
    empty string otherwise.  When [parsed] is [null], or the decision
    member has no string form (an object with an own member [toString],
    or an array that holds such a value: [String] throws), the JSON
    reading is given up and the result is the one of the key word
    heuristic on the trimmed response, which approves exactly when the
    response, in lower case, holds [approve] and does not hold [reject];
    a value has no string form exactly in these cases.  The last part is
    an instance where the heuristic then approves. *)
Theorem parseApprovalResponse_cases :
  forall nm : NumberModel,
    parseApprovalResponse nm fencedApproval = {| decision := approve; notes := "ok" |} /\
    parseApprovalResponse nm "Looks good, I approve this change"
    = {| decision := approve; notes := "Looks good, I approve this change" |} /\
    parseApprovalResponse nm "Reject: missing null check"
    = {| decision := reject; notes := "Reject: missing null check" |} /\
    parseApprovalResponse nm EmptyString
    = {| decision := reject; notes := emptyResponseNote |} /\
    (forall response candidate parsed,
       extractJsonCandidate (Js.trim response) = Some candidate ->
       Json.parse candidate = Some parsed ->
       (forall s,
          getProp parsed "decision" = Some (Some (JString s)) ->
          (decision (parseApprovalResponse nm response) = approve
           <-> Js.toLowerCase s = "approve")) /\
       (forall v text,
          getProp parsed "decision" = Some (Some v) ->
          truthy nm (Some v) = true ->
          toStr nm v = Some text ->
          (decision (parseApprovalResponse nm response) = approve
           <-> Js.toLowerCase text = "approve")) /\
       (forall d,
          getProp parsed "decision" = Some d ->
          truthy nm d = false ->
          decision (parseApprovalResponse nm response) = reject) /\
       (forall d,
          getProp parsed "decision" = Some d ->
          truthy nm d = false \/
          (exists v text, d = Some v /\ toStr nm v = Some text) ->
          notes (parseApprovalResponse nm response)
          = match getProp parsed "notes" with
            | Some (Some (JString n)) => Js.trim n
            | _ => EmptyString
            end) /\
       (parsed = JNull \/
        (exists v, getProp parsed "decision" = Some (Some v) /\ noStringForm v) ->
        parseApprovalResponse nm response = heuristicApproval (Js.trim response) /\
        (decision (parseApprovalResponse nm response) = approve
         <-> Js.includes (Js.toLowerCase (Js.trim response)) "approve" = true /\
             Js.includes (Js.toLowerCase (Js.trim response)) "reject" = false))) /\
    (forall v, toStr nm v = None <-> noStringForm v) /\
    parseApprovalResponse nm opaqueDecision
    = {| decision := approve; notes := opaqueDecision |}.
Proof.
  intro nm.
  split; [reflexivity|]. split; [reflexivity|]. split; [reflexivity|].
  split; [reflexivity|]. split; [|split; [apply toStr_None | reflexivity]].
  intros response candidate parsed Hc Hp.
  rewrite (parseApprovalResponse_parsed nm _ _ _ Hc Hp).
  split; [|split; [|split; [|split]]].
  - intros s Hd. unfold decisionText. rewrite Hd.
    destruct s as [|c s]; cbn [truthy Js.isEmpty negb option_map toStr decision];
      apply approve_iff.
  - intros v text Hd Ht Hs. unfold decisionText. rewrite Hd, Ht, Hs.
    cbn [option_map decision]. apply approve_iff.
  - intros d Hd Ht. unfold decisionText. rewrite Hd.
    destruct d as [v|]; [rewrite Ht|]; reflexivity.
  - intros d Hd H. unfold decisionText. rewrite Hd.
    destruct H as [Ht | [v [text [-> Hs]]]].
    + destruct d as [v|]; [rewrite Ht|]; reflexivity.
    + rewrite Hs. destruct (truthy nm (Some v)); reflexivity.
  - intro H.
    assert (E : decisionText nm parsed = None).
    { destruct H as [-> | [v [Hd Hn]]]; [reflexivity|].
      unfold decisionText. rewrite Hd.
      assert (Ht : truthy nm (Some v) = true) by (destruct Hn; reflexivity).
      rewrite Ht. rewrite (proj2 (toStr_None nm v) Hn). reflexivity. }
    rewrite E. split; [reflexivity|]. unfold heuristicApproval.
    destruct (Js.includes (Js.toLowerCase (Js.trim response)) "approve");
      destruct (Js.includes (Js.toLowerCase (Js.trim response)) "reject");
      cbn [andb negb decision]; split; try (intros [A B]); try intro A;
      try discriminate; try reflexivity; split; reflexivity.
Qed.

Lemma parseApprovalResponse_cases_witness :
  extractJsonCandidate (Js.trim upperCaseApproval) = Some upperCaseApproval /\
  Json.parse upperCaseApproval
  = Some (JObject [("decision", JString "APPROVE"); ("notes", JString "ok")]) /\
  decision (parseApprovalResponse lexemeNumbers upperCaseApproval) = approve /\
  extractJsonCandidate (Js.trim opaqueDecision) = Some opaqueDecision /\
  Json.parse opaqueDecision
  = Some (JObject [("decision", JObject [("toString", JNull)]);
                   ("notes", JString "I approve")]) /\
  noStringForm (JObject [("toString", JNull)]) /\
  parseApprovalResponse lexemeNumbers opaqueDecision
  = heuristicApproval (Js.trim opaqueDecision).
Proof.
  assert (N : noStringForm (JObject [("toString", JNull)]))
    by exact (noStringForm_object [("toString", JNull)] JNull eq_refl).
  split; [reflexivity|]. split; [reflexivity|].
  destruct (parseApprovalResponse_cases lexemeNumbers) as [_ [_ [_ [_ [S _]]]]].
  split.
  - apply (proj1 (S upperCaseApproval upperCaseApproval
                    (JObject [("decision", JString "APPROVE"); ("notes", JString "ok")])
                    eq_refl eq_refl) "APPROVE"); reflexivity.
  - split; [reflexivity|]. split; [reflexivity|]. split; [exact N|].
    refine (proj1 (proj2 (proj2 (proj2 (proj2
             (S opaqueDecision opaqueDecision
                (JObject [("decision", JObject [("toString", JNull)]);
                          ("notes", JString "I approve")])
                eq_refl eq_refl)))) _)).
    right. exists (JObject [("toString", JNull)]). split; [reflexivity | exact N].
Defined.

(** C2 as stated fails in its last part: a response whose JSON decision is
    the string [APPROVE], which is not the literal [approve], is an
    approval, whatever the number model; so is one whose decision is the
    array that holds the string [Approve]. *)
Lemma uppercase_decision_approves :
  Json.parse upperCaseApproval
  = Some (JObject [("decision", JString "APPROVE"); ("notes", JString "ok")]) /\
  "APPROVE" <> "approve" /\
  (forall nm, parseApprovalResponse nm upperCaseApproval
              = {| decision := approve; notes := "ok" |}) /\
  (forall nm, decision (parseApprovalResponse nm (Js.q "{'decision':['Approve']}"))
              = approve).
Proof.
  split; [reflexivity|]. split; [discriminate|]. split; intro nm; reflexivity.
Qed.

End ApprovalTheorems.

(** ** The fix agent *)

Section WorldFacts.

Import Runtime.
Import Notions.

Variable env : Env.

Lemma extends_trans (sid : string) (c1 c2 : list ChatCall) (w w1 w2 : World) :
  extends sid c1 w w1 -> extends sid c2 w1 w2 -> extends sid (c1 ++ c2) w w2.
Proof.
  intros [_ [H1 E1]] [F2 [H2 E2]]. repeat split.
  - exact F2.
  - rewrite H2, H1, app_assoc. reflexivity.
  - congruence.
Qed.

Lemma extends_refl (sid : string) (w : World) :
  found w sid = true -> extends sid [] w w.
Proof.
  intro H. repeat split; [exact H | rewrite app_nil_r; reflexivity].
Qed.

Lemma found_inv (w : World) (sid : string) :
  found w sid = true ->
  exists s, find (Store.hasId sid) (Store.sessions (manager w)) = Some s.
Proof.
  unfold found, Store.getSession.
  destruct (find (Store.hasId sid) (Store.sessions (manager w))) as [s|];
    [exists s; reflexivity | discriminate].
Qed.

Lemma found_updateFirst (w : World) (sid : string)
  (f : Store.ChatSession -> Store.ChatSession) (m' : Store.Manager) (i t : nat) :
  found w sid = true ->
  (forall s, Store.sess_id (f s) = Store.sess_id s) ->
  Store.sessions m' = Store.updateFirst sid f (Store.sessions (manager w)) ->
  extends sid [] w (withManager w m' i t).
Proof.
  intros H Hf Hm. destruct (found_inv _ _ H) as [s Hs]. repeat split.
  - unfold found, Store.getSession. simpl. rewrite Hm.
    rewrite (find_updateFirst _ _ _ _ Hs (Hf s)). reflexivity.
  - simpl. rewrite app_nil_r. reflexivity.
Qed.

Lemma addMessage_extends (w : World) (sid : string) (message : Store.NewMessage) :
  found w sid = true ->
  extends sid [] w (fst (addMessage env w sid message)) /\
  snd (addMessage env w sid message) <> None.
Proof.
  intro H. destruct (found_inv _ _ H) as [s Hs].
  unfold addMessage, Store.addMessage. rewrite Hs. simpl. split; [|discriminate].
  eapply found_updateFirst; [exact H | | reflexivity]. reflexivity.
Qed.

Lemma say_extends (w : World) (sid : string) (role : Store.ChatMessageRole)
  (text : string) :
  found w sid = true -> extends sid [] w (FixAgent.say env w sid role text).
Proof.
  intro H. apply addMessage_extends. exact H.
Qed.

Lemma appendToMessage_extends (w : World) (sid mid fragment : string) :
  found w sid = true -> extends sid [] w (appendToMessage env w sid mid fragment).
Proof.
  intro H. destruct (found_inv _ _ H) as [s Hs].
  unfold appendToMessage, Store.appendToMessage. rewrite Hs.
  destruct (Store.findIndex (Store.msgHasId mid) (Store.sess_messages s)) as [i|];
    [destruct (nth_error (Store.sess_messages s) i) as [existing|]|].
  - eapply found_updateFirst; [exact H | | reflexivity]. reflexivity.
  - destruct w; apply extends_refl; exact H.
  - destruct w; apply extends_refl; exact H.
Qed.

Lemma updateMessage_extends (w : World) (sid mid : string)
  (updates : Store.MessageUpdates) :
  found w sid = true -> extends sid [] w (updateMessage env w sid mid updates).
Proof.
  intro H. destruct (found_inv _ _ H) as [s Hs].
  unfold updateMessage, Store.updateMessage. rewrite Hs.
  destruct (Store.findIndex (Store.msgHasId mid) (Store.sess_messages s)) as [i|];
    [destruct (nth_error (Store.sess_messages s) i) as [existing|]|].
  - eapply found_updateFirst; [exact H | | reflexivity]. reflexivity.
  - destruct w; apply extends_refl; exact H.
  - destruct w; apply extends_refl; exact H.
Qed.

Lemma updateSessionStatus_extends (w : World) (sid : string)
  (status : Store.ChatSessionStatus) :
  found w sid = true -> extends sid [] w (updateSessionStatus env w sid status).
Proof.
  intro H. destruct (found_inv _ _ H) as [s Hs].
  unfold updateSessionStatus, Store.updateSessionStatus. rewrite Hs.
  eapply found_updateFirst; [exact H | | reflexivity]. reflexivity.
Qed.

End WorldFacts.

Section LocalRuns.

Import Ai.
Import Runtime.
Import FixAgent.
Import Notions.

Variable env : Env.
Hypothesis local : env_provider env = LocalProvider.

Variable sid : string.
Variable document : TextDocument.
Variable diagnostic : Diagnostic.
Variable context : FixContext.

Lemma callChat_local (w : World) (prompt : string) (options : ChatRequestOptions)
  (callbacks : ChatStreamCallbacks) :
  exists w',
    callChat env w (userPrompt prompt) options callbacks
    = (w', {| events := deliver false callbacks localAnswer; logged := [];
              outcome := Returned localAnswer |}) /\
    manager w' = manager w /\
    chats w' = (chats w ++ [{| call_messages := userPrompt prompt;
                               call_options := options;
                               call_callbacks := callbacks |}])%list /\
    edits w' = edits w.
Proof.
  unfold callChat, serviceChat. rewrite local. simpl.
  eexists. split; [reflexivity|]. repeat split.
Qed.

Lemma fold_onFixEvent (mid : string) (es : list CallbackEvent) :
  forall (w : World) (text : string),
    found w sid = true ->
    exists w',
      fold_left (onFixEvent env sid mid) es (w, text)
      = (w', (text ++ Js.concatAll (tokenFragments es))%string) /\
      extends sid [] w w'.
Proof.
  induction es as [|e r IH]; intros w text H; simpl.
  - exists w. rewrite append_empty_r. split; [reflexivity | apply extends_refl; exact H].
  - destruct e as [|token|full]; simpl.
    + apply IH. exact H.
    + pose proof (appendToMessage_extends env w sid mid token H) as E.
      destruct (IH (appendToMessage env w sid mid token) (text ++ token)%string
                   (proj1 E)) as [w' [F E']].
      exists w'. rewrite F, append_assoc. split; [reflexivity|].
      apply (extends_trans sid [] [] _ _ _ E E').
    + pose proof (updateMessage_extends env w sid mid Store.clearPending H) as E.
      destruct (IH (updateMessage env w sid mid Store.clearPending) text (proj1 E))
        as [w' [F E']].
      exists w'. split; [exact F|].
      apply (extends_trans sid [] [] _ _ _ E E').
Qed.

Lemma requestFix_local (w : World) (attempt : nat) (feedback : list string) :
  found w sid = true ->
  exists w',
    requestFix env w sid document diagnostic context attempt feedback
    = (w', Returned {| raw := localAnswer; replacement := localAnswer |}) /\
    extends sid
      [proposeCall (buildFixPrompt document diagnostic context attempt feedback)] w w'.
Proof.
  intro H. unfold requestFix.
  pose proof (say_extends env w sid Store.agent (requestingText attempt) H) as E1.
  set (w1 := say env w sid Store.agent (requestingText attempt)) in *.
  destruct (addMessage_extends env w1 sid
              (Store.pendingMessage Store.assistant EmptyString) (proj1 E1)) as [E2 N].
  destruct (addMessage env w1 sid (Store.pendingMessage Store.assistant EmptyString))
    as [w2 [message|]]; [|contradiction]. simpl in E2.
  destruct (callChat_local w2
              (buildFixPrompt document diagnostic context attempt feedback)
              (onlySystem fixSystemPrompt)
              {| onToken := true; onStart := false; onComplete := true |})
    as [w3 [C [M3 [C3 D3]]]].
  rewrite C. cbn [events outcome].
  assert (F3 : found w3 sid = true)
    by (unfold found in *; rewrite M3; exact (proj1 E2)).
  destruct (fold_onFixEvent (Store.msg_id message)
              (deliver false {| onToken := true; onStart := false; onComplete := true |}
                       localAnswer) w3 EmptyString F3) as [w4 [F E4]].
  rewrite F. exists w4. split; [reflexivity|].
  destruct E1 as [_ [A1 B1]], E2 as [_ [A2 B2]], E4 as [F4 [A4 B4]].
  repeat split.
  - exact F4.
  - rewrite A4, C3, A2, A1, !app_nil_r. reflexivity.
  - congruence.
Qed.

Lemma reviewFix_local (w : World) (proposal : Proposal) (attempt : nat)
  (feedback : list string) :
  found w sid = true ->
  exists w',
    reviewFix env w sid document diagnostic context proposal attempt feedback
    = (w', Returned {| Approval.decision := Approval.reject;
                       Approval.notes := localAnswer |}) /\
    extends sid
      [reviewCall (buildApprovalPrompt document diagnostic context proposal attempt
                                        feedback)] w w'.
Proof.
  intro H. unfold reviewFix.
  pose proof (say_extends env w sid Store.agent reviewingText H) as E1.
  set (w1 := say env w sid Store.agent reviewingText) in *.
  destruct (callChat_local w1
              (buildApprovalPrompt document diagnostic context proposal attempt feedback)
              (onlySystem approvalSystemPrompt) noCallbacks)
    as [w2 [C [M2 [C2 D2]]]].
  rewrite C. cbn [events outcome].
  assert (F2 : found w2 sid = true)
    by (unfold found in *; rewrite M2; exact (proj1 E1)).
  change (Approval.parseApprovalResponse (env_nm env) localAnswer)
    with {| Approval.decision := Approval.reject; Approval.notes := localAnswer |}.
  eexists. split; [reflexivity|].
  pose proof (say_extends env w2 sid Store.assistant
                (displayMessage {| Approval.decision := Approval.reject;
                                   Approval.notes := localAnswer |}) F2) as E3.
  destruct E1 as [_ [A1 B1]], E3 as [F3 [A3 B3]].
  repeat split.
  - exact F3.
  - rewrite A3, C2, A1, !app_nil_r. reflexivity.
  - congruence.
Qed.

Lemma cycle_calls (p r : string) (calls : list ChatCall) :
  List.length (filter (isCallWith fixSystemPrompt) (proposeCall p :: reviewCall r :: calls))
  = S (List.length (filter (isCallWith fixSystemPrompt) calls)) /\
  List.length (filter (isCallWith approvalSystemPrompt)
                 (proposeCall p :: reviewCall r :: calls))
  = S (List.length (filter (isCallWith approvalSystemPrompt) calls)).
Proof.
  split; reflexivity.
Qed.

Lemma revisionLoop_local (bound : nat) :
  forall (fuel : nat) (w : World) (st : LoopState),
    found w sid = true ->
    attempt st < bound ->
    bound - attempt st <= fuel ->
    exists w' st' calls,
      revisionLoop env bound fuel w sid document diagnostic context st
      = (w', Returned st') /\
      extends sid calls w w' /\
      List.length (filter (isCallWith fixSystemPrompt) calls) = bound - attempt st /\
      List.length (filter (isCallWith approvalSystemPrompt) calls) = bound - attempt st /\
      proposal st' = Some {| raw := localAnswer; replacement := localAnswer |} /\
      approval st' = Some {| Approval.decision := Approval.reject;
                             Approval.notes := localAnswer |}.
Proof.
  induction fuel as [|fuel IH]; intros w st H Hlt Hfuel; [lia|].
  cbn [revisionLoop].
  destruct (Nat.ltb (attempt st) bound) eqn:E; [|apply Nat.ltb_ge in E; lia].
  cbn [negb].
  set (w1 := if Nat.ltb 1 (attempt st + 1)
             then say env w sid Store.agent
                    ("🔁 Revision attempt " ++ Js.natToString (attempt st + 1)
                     ++ " requested based on approval feedback.")
             else w).
  assert (E1 : extends sid [] w w1).
  { unfold w1. destruct (Nat.ltb 1 (attempt st + 1));
      [apply say_extends | apply extends_refl]; exact H. }
  destruct (requestFix_local w1 (attempt st + 1) (revisionFeedback st) (proj1 E1))
    as [w2 [R E2]].
  rewrite R.
  destruct (reviewFix_local w2 {| raw := localAnswer; replacement := localAnswer |}
              (attempt st + 1) (revisionFeedback st) (proj1 E2)) as [w3 [V E3]].
  rewrite V. cbn [Approval.decision].
  pose proof (extends_trans sid _ _ w w1 w2 E1 E2) as E12.
  pose proof (extends_trans sid _ _ w w2 w3 E12 E3) as E13.
  cbn [app] in E13.
  destruct (Nat.leb bound (attempt st + 1)) eqn:L.
  - apply Nat.leb_le in L.
    eexists. eexists. eexists. split; [reflexivity|]. split; [exact E13|].
    destruct (cycle_calls
                (buildFixPrompt document diagnostic context (attempt st + 1)
                                (revisionFeedback st))
                (buildApprovalPrompt document diagnostic context
                   {| raw := localAnswer; replacement := localAnswer |}
                   (attempt st + 1) (revisionFeedback st)) []) as [P Q].
    rewrite P, Q. simpl. repeat split; lia.
  - apply Nat.leb_gt in L.
    set (w4 := say env w3 sid Store.agent
                 "🔄 Approval agent requested changes. Updating instructions for the fix provider.").
    pose proof (say_extends env w3 sid Store.agent
                  "🔄 Approval agent requested changes. Updating instructions for the fix provider."
                  (proj1 E3)) as E4.
    fold w4 in E4.
    set (st' := {| attempt := attempt st + 1;
                   revisionFeedback :=
                     (revisionFeedback st
                      ++ [Js.orElse (Approval.notes
                                       {| Approval.decision := Approval.reject;
                                          Approval.notes := localAnswer |})
                                    defaultFeedback])%list;
                   proposal := Some {| raw := localAnswer; replacement := localAnswer |};
                   approval := Some {| Approval.decision := Approval.reject;
                                       Approval.notes := localAnswer |} |}).
    destruct (IH w4 st' (proj1 E4)) as [w' [st'' [calls [Run [E5 [P [Q [Pr Ap]]]]]]]];
      [simpl; lia | simpl; lia |].
    exists w', st''. eexists. split; [exact Run|]. split.
    + pose proof (extends_trans sid _ _ w3 w4 w' E4 E5) as E35. cbn [app] in E35.
      exact (extends_trans sid _ _ w w3 w' E13 E35).
    + cbn [app].
      match goal with
      | |- context [proposeCall ?p :: reviewCall ?r :: calls] =>
          destruct (cycle_calls p r calls) as [P' Q']
      end.
      rewrite P', Q', P, Q. simpl attempt. repeat split; trivial; lia.
Qed.

End LocalRuns.

Section LocalRunResults.

Import Ai.
Import Runtime.
Import FixAgent.
Import Notions.

Variable env : Env.
Hypothesis local : env_provider env = LocalProvider.

Lemma say_then_status (w : World) (sid : string) (role : Store.ChatMessageRole)
  (text : string) (status : Store.ChatSessionStatus) :
  found w sid = true ->
  option_map sessionEnd
    (Store.getSession
       (manager (updateSessionStatus env (say env w sid role text) sid status)) sid)
  = Some (status, Some text).
Proof.
  intro H. destruct (found_inv _ _ H) as [s Hs].
  unfold say, addMessage, Store.addMessage. rewrite Hs. cbn [fst].
  unfold updateSessionStatus, Store.updateSessionStatus, Store.getSession.
  cbn [manager withManager Store.sessions Store.emitState Store.persist
       Store.withSessions].
  rewrite (find_updateFirst _ _ _ _ Hs) by reflexivity.
  cbn [manager withManager Store.sessions Store.emitState Store.persist
       Store.withSessions].
  erewrite find_updateFirst;
    [| apply find_updateFirst; [exact Hs | reflexivity] | reflexivity].
  unfold sessionEnd. cbn [option_map Store.setStatus Store.setMessages
                          Store.sess_status Store.sess_messages].
  rewrite map_app. cbn [map]. rewrite last_last. reflexivity.
Qed.

Lemma tryRun_local (bound : nat) (w : World) (sid : string)
  (document : TextDocument) (diagnostic : Diagnostic) :
  found w sid = true ->
  1 <= bound ->
  exists w' calls,
    tryRun env bound w sid document diagnostic = (w', Returned tt) /\
    extends sid calls w w' /\
    List.length (filter (isCallWith fixSystemPrompt) calls) = bound /\
    List.length (filter (isCallWith approvalSystemPrompt) calls) = bound /\
    option_map sessionEnd (Store.getSession (manager w') sid)
    = Some (Store.completed, Some signOffText).
Proof.
  intros H Hb. unfold tryRun.
  set (context := buildContext document diagnostic).
  pose proof (say_extends env w sid Store.agent
                "🔍 Gathering code context with `read_file` tool..." H) as E1.
  set (w1 := say env w sid Store.agent
               "🔍 Gathering code context with `read_file` tool...") in *.
  pose proof (say_extends env w1 sid Store.tool
                (renderToolMessage "read_file" (doc_fsPath document) (snippet context))
                (proj1 E1)) as E2.
  set (w2 := say env w1 sid Store.tool
               (renderToolMessage "read_file" (doc_fsPath document) (snippet context)))
    in *.
  destruct (revisionLoop_local env local sid document diagnostic context bound bound w2
              {| attempt := 0; revisionFeedback := []; proposal := None;
                 approval := None |} (proj1 E2))
    as [w3 [st [calls [Run [E3 [P [Q [Pr Ap]]]]]]]]; [simpl; lia | simpl; lia |].
  rewrite Run, Pr, Ap.
  simpl attempt in P, Q. rewrite Nat.sub_0_r in P, Q.
  eexists. exists calls. split; [reflexivity|].
  pose proof (say_extends env w3 sid Store.agent signOffText (proj1 E3)) as E4.
  pose proof (updateSessionStatus_extends env _ sid Store.completed (proj1 E4)) as E5.
  split; [|split; [exact P | split; [exact Q|]]].
  - pose proof (extends_trans sid _ _ w w1 w2 E1 E2) as E12.
    pose proof (extends_trans sid _ _ w w2 w3 E12 E3) as E13.
    pose proof (extends_trans sid _ _ _ _ _ E4 E5) as E35.
    pose proof (extends_trans sid _ _ _ _ _ E13 E35) as E15.
    cbn [app] in E15. rewrite app_nil_r in E15. exact E15.
  - apply say_then_status. exact (proj1 E3).
Qed.

Lemma createSession_found (w : World) (type : Store.ChatSessionType)
  (title : option string) (metadata : option Store.Metadata) :
  found (fst (createSession env w type title metadata))
        (Store.sess_id (snd (createSession env w type title metadata))) = true /\
  chats (fst (createSession env w type title metadata)) = chats w /\
  edits (fst (createSession env w type title metadata)) = edits w.
Proof.
  unfold createSession, Store.createSession, found, Store.getSession. simpl.
  unfold Store.hasId. simpl. rewrite String.eqb_refl. repeat split.
Qed.

Lemma calls_added (prompt : string) (w w' : World) (calls : list ChatCall) :
  chats w' = (chats w ++ calls)%list ->
  List.length (filter (isCallWith prompt) (chats w'))
  = List.length (filter (isCallWith prompt) (chats w))
    + List.length (filter (isCallWith prompt) calls).
Proof.
  intro H. rewrite H, filter_app, length_app. reflexivity.
Qed.

Lemma runWith_local (bound : nat) (w : World) (document : TextDocument)
  (diagnostic : Diagnostic) :
  1 <= bound ->
  proposeCalls (fst (runWith env bound w document diagnostic)) = proposeCalls w + bound /\
  reviewCalls (fst (runWith env bound w document diagnostic)) = reviewCalls w + bound /\
  edits (fst (runWith env bound w document diagnostic)) = edits w /\
  option_map sessionEnd
    (Store.getSession (manager (fst (runWith env bound w document diagnostic)))
                      (Store.sess_id (snd (runWith env bound w document diagnostic))))
  = Some (Store.completed, Some signOffText).
Proof.
  intro Hb. unfold runWith.
  pose proof (createSession_found w Store.FIX
                (Some (buildSessionTitle document diagnostic))
                (Some [("filePath", Some (doc_fsPath document));
                       ("diagnosticCode", diag_code diagnostic);
                       ("vulnerabilityMessage", Some (diag_message diagnostic))]))
    as [F0 [C0 D0]].
  destruct (createSession env w Store.FIX
              (Some (buildSessionTitle document diagnostic))
              (Some [("filePath", Some (doc_fsPath document));
                     ("diagnosticCode", diag_code diagnostic);
                     ("vulnerabilityMessage", Some (diag_message diagnostic))]))
    as [w1 session].
  cbn [fst snd] in F0, C0, D0.
  set (sid := Store.sess_id session) in *.
  assert (E1 : extends sid [] (reveal w1)
                 (updateSessionStatus env (reveal w1) sid Store.running))
    by (apply updateSessionStatus_extends; exact F0).
  set (w2 := updateSessionStatus env (reveal w1) sid Store.running) in *.
  pose proof (say_extends env w2 sid Store.agent
                ("🚀 Starting AI-assisted fix for **" ++ doc_baseName document
                 ++ "** at line " ++ Js.intToString (diag_startLine diagnostic + 1) ++ ".")
                (proj1 E1)) as E2.
  set (w3 := say env w2 sid Store.agent
               ("🚀 Starting AI-assisted fix for **" ++ doc_baseName document
                ++ "** at line " ++ Js.intToString (diag_startLine diagnostic + 1) ++ "."))
    in *.
  pose proof (say_extends env w3 sid Store.agent
                ("⚠️ Issue detected: " ++ diag_message diagnostic) (proj1 E2)) as E3.
  set (w4 := say env w3 sid Store.agent
               ("⚠️ Issue detected: " ++ diag_message diagnostic)) in *.
  destruct (tryRun_local bound w4 sid document diagnostic (proj1 E3) Hb)
    as [w5 [calls [Run [E4 [P [Q End]]]]]].
  rewrite Run. cbn [fst snd].
  pose proof (extends_trans sid _ _ _ _ _ E1 E2) as E12.
  pose proof (extends_trans sid _ _ _ _ _ E12 E3) as E13.
  pose proof (extends_trans sid _ _ _ _ _ E13 E4) as E14.
  cbn [app] in E14. destruct E14 as [_ [C5 D5]].
  change (chats (reveal w1)) with (chats w1) in C5.
  change (edits (reveal w1)) with (edits w1) in D5.
  rewrite C0 in C5. rewrite D0 in D5.
  unfold proposeCalls, reviewCalls.
  rewrite (calls_added fixSystemPrompt w w5 calls C5),
          (calls_added approvalSystemPrompt w w5 calls C5), P, Q.
  repeat split; trivial.
Qed.

End LocalRunResults.

Section FixAgentTheorems.

Import Runtime.
Import FixAgent.
Import Notions.

(** C1, on the code.  With the local provider, whose reply the approval
    parser always reads as a rejection, a run of the fix agent with the
    revision bound [bound] makes [bound] propose calls and [bound] review
    calls, then posts the message that the approval agent could not sign
    off after 3 attempts, sets the status to [completed] and applies no
    edit.  The source fixes the bound at 1: [FixAgent.run] makes one
    propose call and one review call, not three. *)
Theorem run_rejected_single_cycle :
  forall (env : Env) (w : World) (document : TextDocument) (diagnostic : Diagnostic),
    env_provider env = Ai.LocalProvider ->
    (forall bound, 1 <= bound ->
       proposeCalls (fst (runWith env bound w document diagnostic))
       = proposeCalls w + bound /\
       reviewCalls (fst (runWith env bound w document diagnostic))
       = reviewCalls w + bound /\
       edits (fst (runWith env bound w document diagnostic)) = edits w /\
       option_map sessionEnd
         (Store.getSession (manager (fst (runWith env bound w document diagnostic)))
            (Store.sess_id (snd (runWith env bound w document diagnostic))))
       = Some (Store.completed, Some signOffText)) /\
    maxAttempts = 1 /\
    proposeCalls (fst (run env w document diagnostic)) = proposeCalls w + 1 /\
    reviewCalls (fst (run env w document diagnostic)) = reviewCalls w + 1 /\
    edits (fst (run env w document diagnostic)) = edits w /\
    option_map sessionEnd
      (Store.getSession (manager (fst (run env w document diagnostic)))
         (Store.sess_id (snd (run env w document diagnostic))))
    = Some (Store.completed, Some signOffText).
Proof.
  intros env w document diagnostic Hlocal. split.
  - intros bound Hb. apply runWith_local; assumption.
  - split; [reflexivity|]. unfold run.
    apply (runWith_local env Hlocal maxAttempts w document diagnostic).
    unfold maxAttempts. lia.
Qed.

Lemma run_rejected_single_cycle_witness :
  env_provider localEnv = Ai.LocalProvider /\
  proposeCalls (fst (run localEnv sampleWorld sampleDocument sampleDiagnostic))
  = proposeCalls sampleWorld + 1 /\
  reviewCalls (fst (run localEnv sampleWorld sampleDocument sampleDiagnostic))
  = reviewCalls sampleWorld + 1 /\
  edits (fst (run localEnv sampleWorld sampleDocument sampleDiagnostic))
  = edits sampleWorld.
Proof.
  destruct (run_rejected_single_cycle localEnv sampleWorld sampleDocument
              sampleDiagnostic eq_refl) as [_ [_ [P [R [E _]]]]].
  split; [reflexivity|]. split; [exact P|]. split; [exact R | exact E].
Defined.

(** The same run, evaluated from the empty store: one cycle with the bound
    of the source, three with the bound 3. *)
Example run_local_evaluated :
  (proposeCalls (fst (run localEnv (initialWorld emptyManager)
                          sampleDocument sampleDiagnostic)),
   reviewCalls (fst (run localEnv (initialWorld emptyManager)
                         sampleDocument sampleDiagnostic)),
   edits (fst (run localEnv (initialWorld emptyManager)
                   sampleDocument sampleDiagnostic)),
   firstSessionEnd (fst (run localEnv (initialWorld emptyManager)
                             sampleDocument sampleDiagnostic)))
  = (1, 1, [], Some (Store.completed, Some signOffText)) /\
  (proposeCalls (fst (runWith localEnv 3 (initialWorld emptyManager)
                              sampleDocument sampleDiagnostic)),
   reviewCalls (fst (runWith localEnv 3 (initialWorld emptyManager)
                             sampleDocument sampleDiagnostic)))
  = (3, 3).
Proof.
  split; vm_compute; reflexivity.
Qed.

End FixAgentTheorems.

(** ** Further facts about the embedding *)

Section Adequacy.

Import Store.
Import Notions.

(** The store keeps the invariant along every sequence of operations. *)
Lemma storeInvariant_trace (toLocaleString : Z -> string) (ops : list StoreOp) :
  forall m, storeInvariant m -> storeInvariant (fold_left (applyOp toLocaleString) ops m).
Proof.
  induction ops as [|op r IH]; intros m H; simpl.
  - exact H.
  - apply IH. apply storeInvariant_step. exact H.
Qed.

(** Loading fills a missing [allowUserInput] from the type and keeps a
    stored one: the loaded store has the invariant when the stored values
    have it. *)
Lemma storeInvariant_newManager (memento : list StoredSession) :
  Forall (fun raw => forall b, raw_allowUserInput raw = Some b ->
                               b = typeIsQa (raw_type raw)) memento ->
  storeInvariant (newManager (Some memento)).
Proof.
  unfold storeInvariant, newManager, loadSessions. simpl.
  induction 1 as [|raw r Hraw _ IH]; simpl; constructor; trivial.
  unfold inputMatchesType. simpl.
  destruct (raw_allowUserInput raw) as [b|]; [apply Hraw|]; reflexivity.
Qed.

(** The branch of [updateMessage] and [appendToMessage] for an index
    without a message is never taken. *)
Lemma findIndex_in_range {A : Type} (p : A -> bool) (xs : list A) (i : nat) :
  findIndex p xs = Some i -> nth_error xs i <> None.
Proof.
  intro H. destruct (findIndex_nth_error p xs i H) as [x [Hx _]].
  rewrite Hx. discriminate.
Qed.

End Adequacy.

Section LoopFuel.

Import Ai.
Import Runtime.
Import FixAgent.

(** The revision loop does not depend on its fuel once the fuel covers the
    attempts that are left: the bound that [runWith] passes is enough. *)
Lemma revisionLoop_fuel (env : Env) (bound : nat) (sid : string)
  (document : TextDocument) (diagnostic : Diagnostic) (context : FixContext) :
  forall (fuel : nat) (w : World) (st : LoopState),
    bound <= attempt st + fuel ->
    revisionLoop env bound (S fuel) w sid document diagnostic context st
    = revisionLoop env bound fuel w sid document diagnostic context st.
Proof.
  induction fuel as [|fuel IH]; intros w st H.
  - cbn [revisionLoop].
    destruct (Nat.ltb (attempt st) bound) eqn:E; [|reflexivity].
    apply Nat.ltb_lt in E. lia.
  - remember (S fuel) as k eqn:Hk. cbn [revisionLoop]. subst k.
    cbn [revisionLoop].
    destruct (Nat.ltb (attempt st) bound); cbn [negb]; [|reflexivity].
    match goal with
    | |- context [requestFix ?e ?w1 ?s ?d ?g ?c ?a ?f] =>
        destruct (requestFix e w1 s d g c a f) as [w2 [proposal'|msg]]
    end; [|reflexivity].
    match goal with
    | |- context [reviewFix ?e ?w2' ?s ?d ?g ?c ?p ?a ?f] =>
        destruct (reviewFix e w2' s d g c p a f) as [w3 [approval'|msg]]
    end; [|reflexivity].
    destruct (Approval.decision approval'); [reflexivity|].
    destruct (Nat.leb bound (attempt st + 1)); [reflexivity|].
    apply IH. simpl. lia.
Qed.

End LoopFuel.

(** ** [JSON.parse] does not depend on its fuel *)

Section JsonFuel.

Import Json.

Lemma skipWs_length (s : string) : String.length (skipWs s) <= String.length s.
Proof.
  induction s as [|c r IH]; simpl; [lia|].
  destruct (isJsonSpace c); simpl; lia.
Qed.

Lemma skipWs_cons (s r : string) (c : ascii) :
  skipWs s = String c r -> String.length r < String.length s.
Proof.
  intro H. pose proof (skipWs_length s) as L. rewrite H in L. simpl in L. lia.
Qed.

Lemma hex4_length (s r : string) (n : nat) :
  hex4 s = Some (n, r) -> String.length r < String.length s.
Proof.
  unfold hex4. destruct s as [|a [|b [|c [|d k]]]]; try discriminate.
  destruct (hexValue a), (hexValue b), (hexValue c), (hexValue d); try discriminate.
  intro H. inversion H; subst. simpl. lia.
Qed.

(** One case of [stringBody]: the literal [lit], then the body of [rest]. *)
Ltac escaped lit rest :=
  match goal with
  | Lift : forall body : nat -> option (string * string), _,
    Step : forall (lit0 rest0 t' k' : string), _ |- _ =>
      apply (Lift (fun g => match stringBody g rest with
                            | Some (t0, k0) => Some ((lit ++ t0)%string, k0)
                            | None => None
                            end));
      [ apply Step; [simpl in *; lia | assumption]
      | intro g; simpl;
        repeat match goal with
               | E : ?b = _ |- context [if ?b then _ else _] => rewrite E
               | E : ?b = _ |- context [match ?b with _ => _ end] => rewrite E
               end;
        reflexivity ]
  end.

Lemma stringBody_enough (f : nat) :
  forall s t k, stringBody f s = Some (t, k) ->
    String.length k < String.length s /\
    forall g, String.length s <= g -> stringBody g s = Some (t, k).
Proof.
  induction f as [|f IH]; intros s t k H; [discriminate|].
  simpl in H. destruct s as [|c s]; [discriminate|].
  assert (Step : forall lit rest t' k',
             String.length rest < String.length (String c s) ->
             match stringBody f rest with
             | Some (t0, k0) => Some ((lit ++ t0)%string, k0)
             | None => None
             end = Some (t', k') ->
             String.length k' < String.length (String c s) /\
             forall g, String.length (String c s) <= S g ->
               match stringBody g rest with
               | Some (t0, k0) => Some ((lit ++ t0)%string, k0)
               | None => None
               end = Some (t', k')).
  { intros lit rest t' k' L E.
    destruct (stringBody f rest) as [[t0 k0]|] eqn:B; [|discriminate].
    destruct (IH _ _ _ B) as [L0 G]. inversion E; subst. split; [lia|].
    intros g Hg. rewrite (G g) by (simpl in *; lia). reflexivity. }
  assert (Lift : forall (body : nat -> option (string * string)),
             (String.length k < String.length (String c s) /\
              forall g, String.length (String c s) <= S g -> body g = Some (t, k)) ->
             (forall g, stringBody (S g) (String c s) = body g) ->
             String.length k < String.length (String c s) /\
             forall g, String.length (String c s) <= g ->
                       stringBody g (String c s) = Some (t, k)).
  { intros body [L G] Hb. split; [exact L|].
    intros [|g] Hg; [simpl in Hg; lia|]. rewrite Hb. apply G. exact Hg. }
  destruct (isCode c 34) eqn:Q.
  - inversion H; subst. split; [simpl; lia|].
    intros [|g] Hg; [simpl in Hg; lia|]. simpl. rewrite Q. reflexivity.
  - destruct (isCode c 92) eqn:B.
    + destruct s as [|e s']; [discriminate|].
      destruct (isCode e 34) eqn:E1; [escaped (Js.chr 34) s'|].
      destruct (isCode e 92) eqn:E2; [escaped (Js.chr 92) s'|].
      destruct (isCode e 47) eqn:E3; [escaped "/" s'|].
      destruct (Ascii.eqb e "b") eqn:E4; [escaped (Js.chr 8) s'|].
      destruct (Ascii.eqb e "f") eqn:E5; [escaped (Js.chr 12) s'|].
      destruct (Ascii.eqb e "n") eqn:E6; [escaped (Js.chr 10) s'|].
      destruct (Ascii.eqb e "r") eqn:E7; [escaped (Js.chr 13) s'|].
      destruct (Ascii.eqb e "t") eqn:E8; [escaped (Js.chr 9) s'|].
      destruct (Ascii.eqb e "u") eqn:E9; [|discriminate].
      destruct (hex4 s') as [[n r'']|] eqn:X; [|discriminate].
      pose proof (hex4_length _ _ _ X) as LX.
      escaped (Js.utf8 n) r''.
    + destruct (Nat.ltb (nat_of_ascii c) 32) eqn:C; [discriminate|].
      escaped (String c EmptyString) s.
Qed.

(** The fuel that the parsers of values and members give to [stringBody]
    is enough. *)
Lemma stringBody_fuel_independent (f : nat) (s : string) (r : string * string) :
  stringBody f s = Some r -> stringBody (S (String.length s)) s = Some r.
Proof.
  destruct r as [t k]. intro H.
  apply (proj2 (stringBody_enough f s t k H)). lia.
Qed.

Lemma spanDigits_length (s d k : string) :
  spanDigits s = (d, k) -> String.length k <= String.length s.
Proof.
  revert d k. induction s as [|c r IH]; intros d k H; simpl in H.
  - inversion H. simpl. lia.
  - destruct (isDigit c).
    + destruct (spanDigits r) as [d' k'] eqn:E. inversion H; subst.
      specialize (IH _ _ eq_refl). simpl. lia.
    + inversion H. simpl. lia.
Qed.

Lemma numberLexeme_length (s lx k : string) :
  numberLexeme s = Some (lx, k) -> String.length k <= String.length s.
Proof.
  unfold numberLexeme.
  assert (Sign : forall sign s1,
             match s with
             | String c r => if Ascii.eqb c "-" then ("-"%string, r) else (EmptyString, s)
             | EmptyString => (EmptyString, s)
             end = (sign, s1) -> String.length s1 <= String.length s).
  { intros sign s1 E. destruct s as [|c r]; [inversion E; lia|].
    destruct (Ascii.eqb c "-"); inversion E; subst; simpl; lia. }
  destruct (match s with
            | String c r => if Ascii.eqb c "-" then ("-"%string, r) else (EmptyString, s)
            | EmptyString => (EmptyString, s)
            end) as [sign s1] eqn:E0.
  specialize (Sign _ _ eq_refl).
  assert (Int : forall ip s2,
             match s1 with
             | String c r =>
                 if Ascii.eqb c "0" then Some ("0"%string, r)
                 else if isDigit c then Some (spanDigits s1) else None
             | EmptyString => None
             end = Some (ip, s2) -> String.length s2 <= String.length s1).
  { intros ip s2 E. destruct s1 as [|c r]; [discriminate|].
    destruct (Ascii.eqb c "0"); [inversion E; subst; simpl; lia|].
    destruct (isDigit c); [|discriminate].
    apply (spanDigits_length (String c r) ip s2). congruence. }
  destruct (match s1 with
            | String c r =>
                if Ascii.eqb c "0" then Some ("0"%string, r)
                else if isDigit c then Some (spanDigits s1) else None
            | EmptyString => None
            end) as [[ip s2]|]; [|discriminate].
  specialize (Int _ _ eq_refl).
  assert (Frac : forall fp s3,
             match s2 with
             | String c r =>
                 if Ascii.eqb c "." then
                   match spanDigits r with
                   | (EmptyString, _) => None
                   | (d, k0) => Some (("." ++ d)%string, k0)
                   end
                 else Some (EmptyString, s2)
             | EmptyString => Some (EmptyString, s2)
             end = Some (fp, s3) -> String.length s3 <= String.length s2).
  { intros fp s3 E. destruct s2 as [|c r]; [inversion E; lia|].
    destruct (Ascii.eqb c "."); [|inversion E; lia].
    destruct (spanDigits r) as [d k0] eqn:D.
    pose proof (spanDigits_length _ _ _ D). destruct d; [discriminate|].
    inversion E; subst. simpl. lia. }
  destruct (match s2 with
            | String c r =>
                if Ascii.eqb c "." then
                  match spanDigits r with
                  | (EmptyString, _) => None
                  | (d, k0) => Some (("." ++ d)%string, k0)
                  end
                else Some (EmptyString, s2)
            | EmptyString => Some (EmptyString, s2)
            end) as [[fp s3]|]; [|discriminate].
  specialize (Frac _ _ eq_refl).
  intro H.
  destruct s3 as [|c r]; [inversion H; subst; lia|].
  destruct (Ascii.eqb c "e" || Ascii.eqb c "E"); [|inversion H; subst; lia].
  destruct (match r with
            | String g r' =>
                if Ascii.eqb g "+" || Ascii.eqb g "-"
                then (String g EmptyString, r') else (EmptyString, r)
            | EmptyString => (EmptyString, r)
            end) as [sg r1] eqn:G.
  assert (L1 : String.length r1 <= String.length r).
  { destruct r as [|g r']; [inversion G; lia|].
    destruct (Ascii.eqb g "+" || Ascii.eqb g "-"); inversion G; subst; simpl; lia. }
  destruct (spanDigits r1) as [d k0] eqn:D.
  pose proof (spanDigits_length _ _ _ D). destruct d; [discriminate|].
  inversion H; subst. simpl in *. lia.
Qed.

Lemma valueStep_enough
  (pe pe' : string -> list JValue -> option (JValue * string))
  (pm pm' : string -> list (string * JValue) -> option (JValue * string))
  (s : string) (v : JValue) (r : string) :
  (forall r0 acc v0 k, String.length r0 < String.length s ->
     pe r0 acc = Some (v0, k) ->
     String.length k <= String.length r0 /\ pe' r0 acc = Some (v0, k)) ->
  (forall r0 acc v0 k, String.length r0 < String.length s ->
     pm r0 acc = Some (v0, k) ->
     String.length k <= String.length r0 /\ pm' r0 acc = Some (v0, k)) ->
  valueStep pe pm s = Some (v, r) ->
  String.length r <= String.length s /\ 1 <= String.length s /\
  valueStep pe' pm' s = Some (v, r).
Proof.
  intros He Hm. unfold valueStep.
  destruct (skipWs s) as [|c r0] eqn:W; [discriminate|].
  pose proof (skipWs_cons _ _ _ W) as L0.
  destruct (Ascii.eqb c "{").
  { destruct (skipWs r0) as [|d r'] eqn:W1; [discriminate|].
    pose proof (skipWs_cons _ _ _ W1) as L1.
    destruct (Ascii.eqb d "}").
    - intro H. inversion H; subst. repeat split; lia.
    - intro H. destruct (Hm _ _ _ _ L0 H) as [L E]. repeat split; trivial; lia. }
  destruct (Ascii.eqb c "[").
  { destruct (skipWs r0) as [|d r'] eqn:W1; [discriminate|].
    pose proof (skipWs_cons _ _ _ W1) as L1.
    destruct (Ascii.eqb d "]").
    - intro H. inversion H; subst. repeat split; lia.
    - intro H. destruct (He _ _ _ _ L0 H) as [L E]. repeat split; trivial; lia. }
  destruct (isCode c 34).
  { destruct (stringBody (S (String.length r0)) r0) as [[str k]|] eqn:B; [|discriminate].
    destruct (stringBody_enough _ _ _ _ B) as [L _].
    intro H. inversion H; subst. repeat split; lia. }
  assert (D : forall n, String.length (Js.drop n (String c r0)) <= String.length s).
  { intro n. rewrite length_drop.
    change (String.length (String c r0)) with (S (String.length r0)). lia. }
  destruct (Js.startsWith (String c r0) "true");
    [intro H; injection H as Hv Hr; subst v r;
     split; [exact (D 4) | split; [lia | reflexivity]]|].
  destruct (Js.startsWith (String c r0) "false");
    [intro H; injection H as Hv Hr; subst v r;
     split; [exact (D 5) | split; [lia | reflexivity]]|].
  destruct (Js.startsWith (String c r0) "null");
    [intro H; injection H as Hv Hr; subst v r;
     split; [exact (D 4) | split; [lia | reflexivity]]|].
  destruct (numberLexeme (String c r0)) as [[lx k]|] eqn:N; [|discriminate].
  pose proof (numberLexeme_length _ _ _ N) as L.
  intro H. inversion H; subst. simpl in L. repeat split; lia.
Qed.

Lemma elementsStep_enough
  (pv pv' : string -> option (JValue * string))
  (pe pe' : string -> list JValue -> option (JValue * string))
  (s : string) (acc : list JValue) (v : JValue) (r : string) :
  (forall v0 k, pv s = Some (v0, k) ->
     String.length k <= String.length s /\ pv' s = Some (v0, k)) ->
  (forall r0 acc0 v0 k, String.length r0 < String.length s ->
     pe r0 acc0 = Some (v0, k) ->
     String.length k <= String.length r0 /\ pe' r0 acc0 = Some (v0, k)) ->
  elementsStep pv pe s acc = Some (v, r) ->
  String.length r <= String.length s /\ elementsStep pv' pe' s acc = Some (v, r).
Proof.
  intros Hv He. unfold elementsStep.
  destruct (pv s) as [[v1 r1]|] eqn:V; [|discriminate].
  destruct (Hv _ _ eq_refl) as [L1 V']. rewrite V'.
  destruct (skipWs r1) as [|c r'] eqn:W; [discriminate|].
  pose proof (skipWs_cons _ _ _ W) as L2.
  destruct (Ascii.eqb c ",").
  - intro H. destruct (He r' _ _ _ ltac:(lia) H) as [L E]. split; [lia | exact E].
  - destruct (Ascii.eqb c "]"); [|discriminate].
    intro H. inversion H; subst. split; [lia | reflexivity].
Qed.

Lemma membersStep_enough
  (pv pv' : string -> option (JValue * string))
  (pm pm' : string -> list (string * JValue) -> option (JValue * string))
  (s : string) (acc : list (string * JValue)) (v : JValue) (r : string) :
  (forall r0 v0 k, String.length r0 < String.length s ->
     pv r0 = Some (v0, k) ->
     String.length k <= String.length r0 /\ pv' r0 = Some (v0, k)) ->
  (forall r0 acc0 v0 k, String.length r0 < String.length s ->
     pm r0 acc0 = Some (v0, k) ->
     String.length k <= String.length r0 /\ pm' r0 acc0 = Some (v0, k)) ->
  membersStep pv pm s acc = Some (v, r) ->
  String.length r <= String.length s /\ membersStep pv' pm' s acc = Some (v, r).
Proof.
  intros Hv Hm. unfold membersStep.
  destruct (skipWs s) as [|c r0] eqn:W; [discriminate|].
  pose proof (skipWs_cons _ _ _ W) as L0.
  destruct (isCode c 34); [|discriminate].
  destruct (stringBody (S (String.length r0)) r0) as [[key r1]|] eqn:B; [|discriminate].
  destruct (stringBody_enough _ _ _ _ B) as [L1 _].
  destruct (skipWs r1) as [|d r2] eqn:W1; [discriminate|].
  pose proof (skipWs_cons _ _ _ W1) as L2.
  destruct (Ascii.eqb d ":"); [|discriminate].
  destruct (pv r2) as [[v1 r3]|] eqn:V; [|discriminate].
  destruct (Hv r2 _ _ ltac:(lia) V) as [L3 V']. rewrite V'.
  destruct (skipWs r3) as [|e r4] eqn:W2; [discriminate|].
  pose proof (skipWs_cons _ _ _ W2) as L4.
  destruct (Ascii.eqb e ",").
  - intro H. destruct (Hm r4 _ _ _ ltac:(lia) H) as [L E]. split; [lia | exact E].
  - destruct (Ascii.eqb e "}"); [|discriminate].
    intro H. inversion H; subst. split; [lia | reflexivity].
Qed.

Lemma parse_enough (f : nat) :
  (forall s v r, parseValue f s = Some (v, r) ->
     String.length r <= String.length s /\
     forall g, 2 * String.length s <= g -> parseValue g s = Some (v, r)) /\
  (forall s acc v r, parseElements f s acc = Some (v, r) ->
     String.length r <= String.length s /\
     forall g, 2 * String.length s + 1 <= g -> parseElements g s acc = Some (v, r)) /\
  (forall s acc v r, parseMembers f s acc = Some (v, r) ->
     String.length r <= String.length s /\
     forall g, 2 * String.length s + 1 <= g -> parseMembers g s acc = Some (v, r)).
Proof.
  induction f as [|f [IHv [IHe IHm]]].
  - repeat split; discriminate.
  - split; [|split].
    + intros s v r H. cbn [parseValue] in H.
      assert (G : forall g, 2 * String.length s <= S g ->
                  String.length r <= String.length s /\ 1 <= String.length s /\
                  valueStep (parseElements g) (parseMembers g) s = Some (v, r)).
      { intros g Hg. apply (valueStep_enough (parseElements f) (parseElements g)
                              (parseMembers f) (parseMembers g)); [| |exact H].
        - intros r0 acc v0 k L E. destruct (IHe _ _ _ _ E) as [L' G].
          split; [exact L' | apply G; lia].
        - intros r0 acc v0 k L E. destruct (IHm _ _ _ _ E) as [L' G].
          split; [exact L' | apply G; lia]. }
      destruct (G (2 * String.length s) ltac:(lia)) as [L [P _]].
      split; [exact L|]. intros [|g] Hg; [lia|]. cbn [parseValue]. apply G. exact Hg.
    + intros s acc v r H. cbn [parseElements] in H.
      assert (G : forall g, 2 * String.length s + 1 <= S g ->
                  String.length r <= String.length s /\
                  elementsStep (parseValue g) (parseElements g) s acc = Some (v, r)).
      { intros g Hg. apply (elementsStep_enough (parseValue f) (parseValue g)
                              (parseElements f) (parseElements g)); [| |exact H].
        - intros v0 k E. destruct (IHv _ _ _ E) as [L' G].
          split; [exact L' | apply G; lia].
        - intros r0 acc0 v0 k L E. destruct (IHe _ _ _ _ E) as [L' G].
          split; [exact L' | apply G; lia]. }
      destruct (G (2 * String.length s) ltac:(lia)) as [L _].
      split; [exact L|]. intros [|g] Hg; [lia|]. cbn [parseElements]. apply G. exact Hg.
    + intros s acc v r H. cbn [parseMembers] in H.
      assert (G : forall g, 2 * String.length s + 1 <= S g ->
                  String.length r <= String.length s /\
                  membersStep (parseValue g) (parseMembers g) s acc = Some (v, r)).
      { intros g Hg. apply (membersStep_enough (parseValue f) (parseValue g)
                              (parseMembers f) (parseMembers g)); [| |exact H].
        - intros r0 v0 k L E. destruct (IHv _ _ _ E) as [L' G].
          split; [exact L' | apply G; lia].
        - intros r0 acc0 v0 k L E. destruct (IHm _ _ _ _ E) as [L' G].
          split; [exact L' | apply G; lia]. }
      destruct (G (2 * String.length s) ltac:(lia)) as [L _].
      split; [exact L|]. intros [|g] Hg; [lia|]. cbn [parseMembers]. apply G. exact Hg.
Qed.

(** [parse] gives the value that any amount of fuel gives: it returns
    [None] only for a text that no amount of fuel parses as one value
    followed by white space. *)
Lemma parse_fuel_independent (s : string) (v : JValue) :
  parse s = Some v <->
  exists fuel rest, parseValue fuel s = Some (v, rest)
                    /\ Js.isEmpty (skipWs rest) = true.
Proof.
  unfold parse. split.
  - intro H.
    destruct (parseValue (2 * String.length s + 2) s) as [[v' r]|] eqn:E; [|discriminate].
    destruct (Js.isEmpty (skipWs r)) eqn:W; [|discriminate].
    inversion H; subst. exists (2 * String.length s + 2), r. auto.
  - intros [fuel [rest [H W]]].
    destruct (proj1 (parse_enough fuel) _ _ _ H) as [_ G].
    rewrite (G (2 * String.length s + 2)) by lia. rewrite W. reflexivity.
Qed.

End JsonFuel.

(** * Further properties of the code *)

(** ** The session store: invariants and frames *)

Section StoreMore.

Import Store.
Import Notions.

Ltac store_case :=
  match goal with
  | |- context [find ?p ?l] => destruct (find p l)
  | |- context [findIndex ?p ?l] => destruct (findIndex p l)
  | |- context [nth_error ?l ?i] => destruct (nth_error l i)
  end; simpl.

Lemma In_findIndex_removeAt {A : Type} (p : A -> bool) (xs : list A) (i : nat) (x : A) :
  findIndex p xs = Some i -> p x = false -> In x xs -> In x (removeAt i xs).
Proof.
  revert i. unfold removeAt. induction xs as [|a r IH]; intros i Hi Hp Hin; simpl in *.
  - contradiction.
  - destruct (p a) eqn:Ha.
    + inversion Hi; subst. simpl. destruct Hin as [E | Hin]; [congruence | exact Hin].
    + destruct (findIndex p r) as [j|] eqn:Hj; simpl in Hi; [|discriminate].
      inversion Hi; subst. simpl. destruct Hin as [E | Hin]; [left; exact E|].
      right. apply IH; trivial.
Qed.

Lemma find_In_ids (sid : string) (ss : list ChatSession) :
  existsb (hasId sid) ss = true -> In sid (map sess_id ss).
Proof.
  induction ss as [|a r IH]; simpl; [discriminate|].
  destruct (hasId sid a) eqn:E; simpl.
  - intros _. left. apply String.eqb_eq. exact E.
  - intro H. right. apply IH. exact H.
Qed.

Lemma ids_updateFirst (sid : string) (f : ChatSession -> ChatSession)
  (ss : list ChatSession) :
  (forall s, sess_id (f s) = sess_id s) ->
  map sess_id (updateFirst sid f ss) = map sess_id ss.
Proof.
  intro H. apply updateFirst_keys. exact H.
Qed.

Lemma activeValid_ids (m m' : Manager) :
  activeSessionId m' = activeSessionId m ->
  map sess_id (sessions m') = map sess_id (sessions m) ->
  activeValid m -> activeValid m'.
Proof.
  unfold activeValid. intros Ha Hs. rewrite Ha, Hs. trivial.
Qed.

(** X1. The active session id always names a stored session: it is none,
    the empty string (which [setActiveSession] accepts without a check) or
    the id of a session of the store, in the store that the constructor
    builds and after every operation. *)
Theorem activeSession_valid :
  forall (toLocaleString : Z -> string),
    (forall memento, activeValid (newManager memento)) /\
    (forall m op, activeValid m -> activeValid (applyOp toLocaleString m op)).
Proof.
  intro tl. split.
  - intros [memento|]; unfold activeValid, newManager; simpl; [|exact I].
    destruct memento as [|raw r]; simpl; [exact I|]. right. left. reflexivity.
  - intros m op H. destruct op; simpl.
    + unfold activeValid. simpl. right. left. reflexivity.
    + unfold deleteSession.
      destruct (findIndex (hasId sessionId) (sessions m)) as [i|] eqn:Hi; [|exact H].
      unfold activeValid in *. simpl.
      destruct (optEqb (activeSessionId m) (Some sessionId)) eqn:E; simpl.
      * destruct (removeAt i (sessions m)) as [|s r]; simpl; [exact I|].
        right. left. reflexivity.
      * destruct (activeSessionId m) as [a|]; [|exact I].
        destruct H as [H | H]; [left; exact H|]. right.
        apply in_map_iff in H. destruct H as [s [Hs Hin]].
        apply in_map_iff. exists s. split; [exact Hs|].
        apply (In_findIndex_removeAt _ _ _ _ Hi); [|exact Hin].
        unfold hasId. rewrite Hs. simpl in E.
        rewrite String.eqb_sym. destruct (String.eqb sessionId a) eqn:E'; [|reflexivity].
        apply String.eqb_eq in E'. subst. rewrite String.eqb_refl in E. discriminate.
    + unfold setActiveSession.
      destruct sessionId as [i|]; simpl.
      * destruct (Js.isEmpty i) eqn:Ei; simpl.
        -- unfold activeValid. simpl. left. destruct i; [reflexivity | discriminate].
        -- destruct (existsb (fun s => hasId i s) (sessions m)) eqn:Ex; simpl; [|exact H].
           unfold activeValid. simpl. right. apply find_In_ids. exact Ex.
      * exact I.
    + unfold addMessage. destruct (find (hasId sessionId) (sessions m)); [|exact H].
      simpl. apply (activeValid_ids m); trivial. simpl. apply ids_updateFirst. reflexivity.
    + unfold updateMessage. repeat store_case; trivial.
      apply (activeValid_ids m); trivial. simpl. apply ids_updateFirst. reflexivity.
    + unfold appendToMessage. repeat store_case; trivial.
      apply (activeValid_ids m); trivial. simpl. apply ids_updateFirst. reflexivity.
    + unfold updateSessionStatus. destruct (find (hasId sessionId) (sessions m)); [|exact H].
      apply (activeValid_ids m); trivial. simpl. apply ids_updateFirst. reflexivity.
    + unfold updateSessionMetadata.
      destruct (find (hasId sessionId) (sessions m)); [|exact H].
      apply (activeValid_ids m); trivial. simpl. apply ids_updateFirst. reflexivity.
    + unfold renameSession. destruct (find (hasId sessionId) (sessions m)); [|exact H].
      apply (activeValid_ids m); trivial. simpl. apply ids_updateFirst. reflexivity.
    + exact I.
Qed.

Lemma activeSession_valid_witness :
  activeValid sampleManager /\
  activeValid (applyOp (fun _ => "now") sampleManager (OpDeleteSession "s1")).
Proof.
  assert (H : activeValid sampleManager) by (right; left; reflexivity).
  split; [exact H|].
  exact (proj2 (activeSession_valid (fun _ => "now")) sampleManager
           (OpDeleteSession "s1") H).
Defined.

(** X2. Every operation either leaves the manager untouched (unknown
    target, rejected id) or fires exactly one notification that carries
    the state after the operation; it then also writes the sessions to the
    memento, except [appendToMessage], which leaves the persisted copy as
    it was.  So the last state that the observers received is always the
    current one. *)
Theorem store_op_fires_and_persists :
  forall (toLocaleString : Z -> string) (m : Manager) (op : StoreOp),
    (applyOp toLocaleString m op = m \/
     (fired (applyOp toLocaleString m op)
      = getState (applyOp toLocaleString m op) :: fired m /\
      if isAppend op
      then stored (applyOp toLocaleString m op) = stored m /\
           persistCount (applyOp toLocaleString m op) = persistCount m
      else stored (applyOp toLocaleString m op)
           = Some (sessions (applyOp toLocaleString m op)) /\
           persistCount (applyOp toLocaleString m op) = S (persistCount m))) /\
    (observersCurrent m -> observersCurrent (applyOp toLocaleString m op)).
Proof.
  intros tl m op.
  assert (D : applyOp tl m op = m \/
              (fired (applyOp tl m op) = getState (applyOp tl m op) :: fired m /\
               if isAppend op
               then stored (applyOp tl m op) = stored m /\
                    persistCount (applyOp tl m op) = persistCount m
               else stored (applyOp tl m op) = Some (sessions (applyOp tl m op)) /\
                    persistCount (applyOp tl m op) = S (persistCount m))).
  { destruct op; simpl;
      unfold deleteSession, setActiveSession, addMessage, updateMessage,
        appendToMessage, updateSessionStatus, updateSessionMetadata,
        renameSession, clearAll;
      repeat store_case;
      try (left; reflexivity); try (right; repeat split; reflexivity).
    - match goal with |- context [if ?b then _ else _] => destruct b end;
        [right; repeat split; reflexivity | right; repeat split; reflexivity].
    - match goal with |- context [if ?b then _ else _] => destruct b end;
        [left; reflexivity | right; repeat split; reflexivity]. }
  split; [exact D|].
  intro H. destruct D as [E | [F _]]; [rewrite E; exact H|].
  unfold observersCurrent. rewrite F. reflexivity.
Qed.

Lemma store_op_fires_and_persists_witness :
  observersCurrent sampleManager /\
  observersCurrent (applyOp (fun _ => "now") sampleManager
                      (OpAppendToMessage 9 "s1" "m1" "x")).
Proof.
  assert (H : observersCurrent sampleManager) by exact I.
  split; [exact H|].
  exact (proj2 (store_op_fires_and_persists (fun _ => "now") sampleManager
                  (OpAppendToMessage 9 "s1" "m1" "x")) H).
Defined.

(** X3. An operation that addresses one session (adding, updating or
    appending to a message, setting the status, merging metadata,
    renaming) leaves every session of another id as it was, keeps the
    active session id, and keeps the ids of all sessions in their order. *)
Theorem other_sessions_untouched :
  forall (toLocaleString : Z -> string) (m : Manager) (op : StoreOp)
         (sessionId other : string),
    opTarget op = Some sessionId ->
    other <> sessionId ->
    getSession (applyOp toLocaleString m op) other = getSession m other /\
    activeSessionId (applyOp toLocaleString m op) = activeSessionId m /\
    map sess_id (sessions (applyOp toLocaleString m op)) = map sess_id (sessions m).
Proof.
  intros tl m op sid other Ht Hne.
  destruct op; simpl in Ht; try discriminate; inversion Ht; subst; simpl;
    unfold addMessage, updateMessage, appendToMessage, updateSessionStatus,
      updateSessionMetadata, renameSession, getSession;
    (destruct (find (hasId sid) (sessions m)) as [session|];
     [|repeat split; reflexivity]);
    try (destruct (findIndex (msgHasId messageId) (sess_messages session)) as [i|];
         [destruct (nth_error (sess_messages session) i) as [existing|]|];
         try (repeat split; reflexivity));
    simpl; repeat split;
    try (apply find_updateFirst_other; [intros; reflexivity | exact Hne]);
    try (apply ids_updateFirst; intros; reflexivity).
Qed.

Lemma other_sessions_untouched_witness :
  opTarget (OpRenameSession 7 "s2" "renamed") = Some "s2" /\
  getSession (applyOp (fun _ => "now") sampleManager (OpRenameSession 7 "s2" "renamed"))
             "s1"
  = getSession sampleManager "s1".
Proof.
  split; [reflexivity|].
  assert (Hne : "s1" <> "s2") by discriminate.
  exact (proj1 (other_sessions_untouched (fun _ => "now") sampleManager
                  (OpRenameSession 7 "s2" "renamed") "s2" "s1" eq_refl Hne)).
Defined.

Lemma find_snoc {A : Type} (p : A -> bool) (xs : list A) (x : A) :
  find p (xs ++ [x])
  = match find p xs with
    | Some y => Some y
    | None => if p x then Some x else None
    end.
Proof.
  induction xs as [|a r IH]; simpl; [reflexivity|].
  destruct (p a); [reflexivity | exact IH].
Qed.

(** X4. [addMessage] on a stored session returns the stored message and
    puts it last in that session, after the messages that were there, with
    the content, role and pending flag given and the session's [updatedAt]
    set.  The message can then be addressed by its id, unless an older
    message of the session has the same id: lookups by id then still give
    the older one. *)
Theorem addMessage_lookup :
  forall (m : Manager) (rid : string) (nowCreated nowUpdated : Z)
         (sessionId : string) (message : NewMessage) (session : ChatSession),
    getSession m sessionId = Some session ->
    exists storedMsg session',
      addMessage m rid nowCreated nowUpdated sessionId message
      = (fst (addMessage m rid nowCreated nowUpdated sessionId message), Some storedMsg) /\
      getSession (fst (addMessage m rid nowCreated nowUpdated sessionId message)) sessionId
      = Some session' /\
      sess_messages session' = (sess_messages session ++ [storedMsg])%list /\
      sess_updatedAt session' = nowUpdated /\
      msg_content storedMsg = new_content message /\
      msg_role storedMsg = new_role message /\
      msg_pending storedMsg = new_pending message /\
      msg_id storedMsg = match new_id message with Some i => i | None => rid end /\
      getMessage (fst (addMessage m rid nowCreated nowUpdated sessionId message))
                 sessionId (msg_id storedMsg)
      = match getMessage m sessionId (msg_id storedMsg) with
        | Some older => Some older
        | None => Some storedMsg
        end.
Proof.
  intros m rid t1 t2 sid message session H.
  unfold getSession in H. unfold addMessage. rewrite H. simpl.
  eexists. eexists. split; [reflexivity|].
  unfold getMessage, getSession. simpl.
  rewrite (find_updateFirst _ _ _ _ H) by reflexivity. rewrite H.
  split; [reflexivity|]. simpl. repeat (split; [reflexivity|]).
  rewrite find_snoc. unfold msgHasId at 2. simpl. rewrite String.eqb_refl.
  reflexivity.
Qed.

Lemma addMessage_lookup_witness :
  getSession sampleManager "s1" = Some (sampleSession "s1" QA) /\
  getMessage (fst (addMessage sampleManager "m2" 8 9 "s1" (plainMessage user "hi")))
             "s1" "m2"
  <> None.
Proof.
  split; [reflexivity|].
  destruct (addMessage_lookup sampleManager "m2" 8 9 "s1" (plainMessage user "hi")
              (sampleSession "s1" QA) eq_refl)
    as [storedMsg [session' [_ [_ [_ [_ [_ [_ [_ [Hid Hget]]]]]]]]]].
  simpl in Hid. rewrite Hid in Hget. rewrite Hget.
  destruct (getMessage sampleManager "s1" "m2"); discriminate.
Defined.

Lemma map_replaceAt {A K : Type} (key : A -> K) (xs : list A) (i : nat) (x y : A) :
  nth_error xs i = Some x -> key y = key x ->
  map key (replaceAt i y xs) = map key xs.
Proof.
  revert i. unfold replaceAt. induction xs as [|a r IH]; intros i Hn Hk.
  - destruct i; discriminate.
  - destruct i as [|i]; simpl in *.
    + inversion Hn; subst. rewrite Hk. reflexivity.
    + rewrite (IH i Hn Hk). reflexivity.
Qed.

Lemma messageKeys_updateFirst (m : Manager) (sid other : string)
  (session : ChatSession) (msgs : list StoredChatMessage) (now : Z)
  (ss' : list ChatSession) :
  find (hasId sid) (sessions m) = Some session ->
  ss' = updateFirst sid (setMessages msgs now) (sessions m) ->
  map messageKey msgs = map messageKey (sess_messages session) ->
  option_map (fun s => map messageKey (sess_messages s)) (find (hasId other) ss')
  = option_map (fun s => map messageKey (sess_messages s))
               (find (hasId other) (sessions m)).
Proof.
  intros Hs -> Hk. destruct (String.eqb other sid) eqn:E.
  - apply String.eqb_eq in E. subst other.
    rewrite (find_updateFirst _ _ _ _ Hs) by reflexivity. rewrite Hs. simpl.
    rewrite Hk. reflexivity.
  - apply String.eqb_neq in E.
    rewrite find_updateFirst_other; [reflexivity | intros; reflexivity | exact E].
Qed.

(** X5. [updateMessage] and [appendToMessage] never add, drop or reorder
    messages and never change the id, the role or the creation time of
    one: in every session, the sequence of these is as before. *)
Theorem message_keys_kept :
  forall (m : Manager) (now : Z) (sessionId messageId fragment : string)
         (updates : MessageUpdates) (other : string),
    messageKeys (fst (updateMessage m now sessionId messageId updates)) other
    = messageKeys m other /\
    messageKeys (fst (appendToMessage m now sessionId messageId fragment)) other
    = messageKeys m other.
Proof.
  intros m now sid mid fragment updates other.
  unfold messageKeys, getSession, updateMessage, appendToMessage.
  destruct (find (hasId sid) (sessions m)) as [session|] eqn:Hs;
    [|split; reflexivity].
  destruct (findIndex (msgHasId mid) (sess_messages session)) as [i|] eqn:Hi;
    [|split; reflexivity].
  destruct (findIndex_nth_error _ _ _ Hi) as [existing [Hn _]]. rewrite Hn. simpl.
  split.
  - eapply messageKeys_updateFirst; [exact Hs | reflexivity |].
    apply (map_replaceAt messageKey _ _ existing); [exact Hn | reflexivity].
  - eapply messageKeys_updateFirst; [exact Hs | reflexivity |].
    apply (map_replaceAt messageKey _ _ existing); [exact Hn | reflexivity].
Qed.

Lemma metadataGet_setKey (k : string) (v : option string) (md : Metadata) (k' : string) :
  metadataGet (setKey k v md) k'
  = if String.eqb k k' then Some v else metadataGet md k'.
Proof.
  unfold metadataGet. induction md as [|[k0 v0] r IH]; simpl.
  - destruct (String.eqb k k'); reflexivity.
  - destruct (String.eqb k0 k) eqn:E; simpl.
    + apply String.eqb_eq in E. subst k0.
      destruct (String.eqb k k'); reflexivity.
    + destruct (String.eqb k0 k') eqn:E'; simpl.
      * apply String.eqb_eq in E'. subst k0. rewrite String.eqb_sym, E. reflexivity.
      * exact IH.
Qed.

Lemma metadataGet_fold (b : Metadata) :
  forall (acc : Metadata) (k : string),
    metadataGet (fold_left (fun a kv => setKey (fst kv) (snd kv) a) b acc) k
    = match metadataGet (rev b) k with
      | Some v => Some v
      | None => metadataGet acc k
      end.
Proof.
  induction b as [|[k0 v0] r IH]; intros acc k; simpl.
  - reflexivity.
  - rewrite IH, metadataGet_setKey. unfold metadataGet at 1 3. rewrite find_snoc.
    destruct (find (fun kv => String.eqb (fst kv) k) (rev r)) as [[k1 v1]|]; simpl;
      [reflexivity|].
    destruct (String.eqb k0 k); reflexivity.
Qed.

(** X6. [updateSessionMetadata] merges shallowly: after it, a key of the
    given metadata holds the given value (the last one, if the key is
    given twice) and every other key holds what it held before; the
    messages, the status, the title, the type and [allowUserInput] of the
    session are as before. *)
Theorem updateSessionMetadata_merge :
  forall (m : Manager) (now : Z) (sessionId : string) (metadata : Metadata)
         (session : ChatSession),
    getSession m sessionId = Some session ->
    exists session',
      getSession (updateSessionMetadata m now sessionId metadata) sessionId
      = Some session' /\
      (forall key,
         metadataGet (metadataOf session') key
         = match metadataGet (rev metadata) key with
           | Some v => Some v
           | None => metadataGet (metadataOf session) key
           end) /\
      sess_messages session' = sess_messages session /\
      sess_status session' = sess_status session /\
      sess_title session' = sess_title session /\
      sessionKey session' = sessionKey session.
Proof.
  intros m now sid metadata session H. unfold getSession in *.
  unfold updateSessionMetadata. rewrite H. simpl.
  rewrite (find_updateFirst _ _ _ _ H) by reflexivity.
  eexists. split; [reflexivity|]. split; [|repeat split].
  intro key. unfold metadataOf at 1. simpl. unfold mergeMetadata.
  rewrite metadataGet_fold. reflexivity.
Qed.

Lemma updateSessionMetadata_merge_witness :
  getSession sampleManager "s2" = Some (sampleSession "s2" FIX) /\
  exists session',
    getSession (updateSessionMetadata sampleManager 9 "s2"
                  [("fixProposal", Some "x"); ("approvalNotes", None)]) "s2"
    = Some session' /\
    metadataGet (metadataOf session') "fixProposal" = Some (Some "x") /\
    metadataGet (metadataOf session') "filePath" = None.
Proof.
  split; [reflexivity|].
  destruct (updateSessionMetadata_merge sampleManager 9 "s2"
              [("fixProposal", Some "x"); ("approvalNotes", None)]
              (sampleSession "s2" FIX) eq_refl)
    as [session' [H1 [H2 _]]].
  exists session'. split; [exact H1|]. split; rewrite H2; reflexivity.
Defined.

(** X7. [createSession] puts the new session first and makes it the
    active one; a lookup of its id gives it, even when an older session
    has that id, and lookups of other ids are as before.  Deleting it
    again restores the list of sessions, and the active session is then
    the first session of the list, whichever was active before. *)
Theorem create_then_delete :
  forall (toLocaleString : Z -> string) (m : Manager) (rid : string) (timestamp : Z)
         (type : ChatSessionType) (title : option string) (metadata : option Metadata),
    sess_id (snd (createSession toLocaleString m rid timestamp type title metadata)) = rid /\
    sessions (fst (createSession toLocaleString m rid timestamp type title metadata))
    = snd (createSession toLocaleString m rid timestamp type title metadata) :: sessions m /\
    getSession (fst (createSession toLocaleString m rid timestamp type title metadata)) rid
    = Some (snd (createSession toLocaleString m rid timestamp type title metadata)) /\
    activeSessionId (fst (createSession toLocaleString m rid timestamp type title metadata))
    = Some rid /\
    (forall other, other <> rid ->
       getSession (fst (createSession toLocaleString m rid timestamp type title metadata))
                  other
       = getSession m other) /\
    sessions (deleteSession
                (fst (createSession toLocaleString m rid timestamp type title metadata)) rid)
    = sessions m /\
    activeSessionId
      (deleteSession
         (fst (createSession toLocaleString m rid timestamp type title metadata)) rid)
    = option_map sess_id (hd_error (sessions m)).
Proof.
  intros tl m rid ts type title metadata.
  unfold createSession, deleteSession, getSession. simpl.
  cbv [hasId]. simpl. rewrite ?String.eqb_refl. simpl. rewrite ?String.eqb_refl.
  simpl. repeat split.
  intros other Hne.
  destruct (String.eqb rid other) eqn:E; [|reflexivity].
  apply String.eqb_eq in E. congruence.
Qed.

Lemma create_then_delete_witness :
  "s1" <> "new" /\
  getSession (fst (createSession (fun _ => "today") sampleManager "new" 7 FIX None None))
             "s1"
  = getSession sampleManager "s1".
Proof.
  split; [discriminate|].
  apply (create_then_delete (fun _ => "today") sampleManager "new" 7 FIX None None).
  discriminate.
Defined.

Lemma find_removeAt_other (sid other : string) (ss : list ChatSession) (i : nat) :
  findIndex (hasId sid) ss = Some i -> other <> sid ->
  find (hasId other) (removeAt i ss) = find (hasId other) ss.
Proof.
  revert i. unfold removeAt. induction ss as [|a r IH]; intros i Hi Hne; simpl in *.
  - discriminate.
  - destruct (hasId sid a) eqn:Ha.
    + inversion Hi; subst. simpl.
      unfold hasId in *. apply String.eqb_eq in Ha. rewrite Ha.
      destruct (String.eqb sid other) eqn:E; [|reflexivity].
      apply String.eqb_eq in E. congruence.
    + destruct (findIndex (hasId sid) r) as [j|] eqn:Hj; simpl in Hi; [|discriminate].
      inversion Hi; subst. simpl. rewrite (IH j eq_refl Hne). reflexivity.
Qed.

Lemma find_removeAt_same (sid : string) (ss : list ChatSession) (i : nat) :
  findIndex (hasId sid) ss = Some i -> NoDup (map sess_id ss) ->
  find (hasId sid) (removeAt i ss) = None.
Proof.
  revert i. unfold removeAt. induction ss as [|a r IH]; intros i Hi Hnd; simpl in *.
  - discriminate.
  - inversion Hnd as [|x l Hnot Hnd']; subst.
    destruct (hasId sid a) eqn:Ha.
    + inversion Hi; subst. simpl.
      destruct (find (hasId sid) r) as [s|] eqn:F; [|reflexivity].
      apply find_some in F. destruct F as [Hin Hs]. exfalso. apply Hnot.
      unfold hasId in *. apply String.eqb_eq in Ha. apply String.eqb_eq in Hs.
      rewrite Ha, <- Hs. apply in_map. exact Hin.
    + destruct (findIndex (hasId sid) r) as [j|] eqn:Hj; simpl in Hi; [|discriminate].
      inversion Hi; subst. simpl. rewrite Ha. apply IH; trivial.
Qed.

Lemma length_removeAt {A : Type} (p : A -> bool) (xs : list A) (i : nat) :
  findIndex p xs = Some i -> S (List.length (removeAt i xs)) = List.length xs.
Proof.
  revert i. unfold removeAt. induction xs as [|a r IH]; intros i Hi; simpl in *.
  - discriminate.
  - destruct (p a).
    + inversion Hi; subst. reflexivity.
    + destruct (findIndex p r) as [j|] eqn:Hj; simpl in Hi; [|discriminate].
      inversion Hi; subst. simpl. rewrite (IH j eq_refl). reflexivity.
Qed.

(** X8. [deleteSession] of a stored session removes one session and leaves
    the sessions of other ids as they were; when the ids of the store are
    distinct, a lookup of the deleted id then gives nothing.  For an id
    that is not stored it changes nothing and fires nothing. *)
Theorem deleteSession_lookup :
  forall (m : Manager) (sessionId : string),
    (getSession m sessionId = None -> deleteSession m sessionId = m) /\
    (forall session, getSession m sessionId = Some session ->
       S (List.length (sessions (deleteSession m sessionId))) = List.length (sessions m) /\
       (forall other, other <> sessionId ->
          getSession (deleteSession m sessionId) other = getSession m other) /\
       (NoDup (map sess_id (sessions m)) ->
          getSession (deleteSession m sessionId) sessionId = None)).
Proof.
  intros m sid. unfold getSession, deleteSession. split.
  - intro H. apply findIndex_None in H. rewrite H. reflexivity.
  - intros session H. destruct (find_Some_findIndex _ _ _ H) as [i [Hi _]].
    rewrite Hi. simpl.
    assert (S : forall a : bool,
               sessions (if a
                         then withActive (withSessions m (removeAt i (sessions m)))
                                (option_map sess_id
                                   (hd_error (removeAt i (sessions m))))
                         else withSessions m (removeAt i (sessions m)))
               = removeAt i (sessions m)) by (intros []; reflexivity).
    rewrite S. split; [apply (length_removeAt _ _ _ Hi)|]. split.
    + intros other Hne. apply (find_removeAt_other _ _ _ _ Hi Hne).
    + intro Hnd. apply (find_removeAt_same _ _ _ Hi Hnd).
Qed.

Lemma deleteSession_lookup_witness :
  getSession sampleManager "s1" = Some (sampleSession "s1" QA) /\
  NoDup (map sess_id (sessions sampleManager)) /\
  getSession (deleteSession sampleManager "s1") "s1" = None.
Proof.
  assert (Hnd : NoDup (map sess_id (sessions sampleManager))).
  { simpl. constructor.
    - intros [E | []]. discriminate.
    - constructor; [intros [] | constructor]. }
  split; [reflexivity|]. split; [exact Hnd|].
  exact (proj2 (proj2 (proj2 (deleteSession_lookup sampleManager "s1")
                         (sampleSession "s1" QA) eq_refl)) Hnd).
Defined.

(** X9. Loading keeps the stored sessions in number, order and id, makes
    the first one active, and fills a missing [allowUserInput] from the
    type but keeps a stored one as it is.  So the loaded store has
    [allowUserInput == (type == 'qa')] for all sessions exactly when every
    stored flag agrees with the type of its session; and then every store
    reached by the operations has it too. *)
Theorem loaded_store_invariant :
  forall memento : list StoredSession,
    map sess_id (sessions (newManager (Some memento))) = map raw_id memento /\
    activeSessionId (newManager (Some memento))
    = option_map raw_id (hd_error memento) /\
    (storeInvariant (newManager (Some memento)) <-> Forall storedAgrees memento) /\
    (Forall storedAgrees memento ->
     forall (toLocaleString : Z -> string) (ops : list StoreOp),
       storeInvariant (fold_left (applyOp toLocaleString) ops
                                 (newManager (Some memento)))).
Proof.
  intro memento. split; [|split; [|split]].
  - unfold newManager, loadSessions. simpl. rewrite map_map. reflexivity.
  - unfold newManager, loadSessions. simpl. destruct memento; reflexivity.
  - split.
    + unfold storeInvariant, newManager, loadSessions. simpl.
      induction memento as [|raw r IH]; simpl; intro H; constructor.
      * inversion H as [|x l Hx _]; subst. unfold inputMatchesType in Hx. simpl in Hx.
        intros b Hb. rewrite Hb in Hx. exact Hx.
      * apply IH. inversion H; assumption.
    + apply storeInvariant_newManager.
  - intros H tl ops. apply storeInvariant_trace. apply storeInvariant_newManager. exact H.
Qed.

Lemma loaded_store_invariant_witness :
  Forall storedAgrees [sampleStored FIX None; sampleStored QA (Some true)] /\
  storeInvariant
    (fold_left (applyOp (fun _ => "now")) [OpRenameSession 7 "r1" "renamed"; OpClearAll]
               (newManager (Some [sampleStored FIX None; sampleStored QA (Some true)]))).
Proof.
  assert (H : Forall storedAgrees [sampleStored FIX None; sampleStored QA (Some true)]).
  { constructor; [|constructor; [|constructor]]; intros b Hb; simpl in Hb.
    - discriminate.
    - inversion Hb. reflexivity. }
  split; [exact H|].
  exact (proj2 (proj2 (proj2 (loaded_store_invariant
                                [sampleStored FIX None; sampleStored QA (Some true)])))
           H (fun _ => "now") [OpRenameSession 7 "r1" "renamed"; OpClearAll]).
Defined.

End StoreMore.

(** ** The providers: chunks, failures and callbacks *)

Section ProviderMore.

Import Ai.
Import Notions.






(** X11. The cloud providers fail before any callback: without an API key
    [chat] throws the error that names the command to set the key,
    whatever the network would answer; for a response that is not a
    success it throws an error that carries the body of the response.  The
    local provider needs no key and never throws. *)
Theorem chat_failures :
  forall (nm : Json.NumberModel) (messages : list ChatMessage)
         (options : ChatRequestOptions) (callbacks : ChatStreamCallbacks),
    (forall fetch model,
       openaiChat nm fetch EmptyString model messages options callbacks
       = threw openaiKeyError) /\
    (forall fetch,
       anthropicChat fetch EmptyString messages options callbacks
       = threw anthropicKeyError) /\
    (forall apiKey model body,
       Js.isEmpty apiKey = false ->
       openaiChat nm (fun _ => failedReply body) apiKey model messages options callbacks
       = threw ("OpenAI chat failed: " ++ body) /\
       anthropicChat (fun _ => failedReply body) apiKey messages options callbacks
       = threw ("Anthropic chat failed: " ++ body)) /\
    (forall fetch,
       outcome (serviceChat nm fetch LocalProvider messages options callbacks)
       = Returned (localReply messages)).
Proof.
  intros nm messages options callbacks. split; [|split; [|split]].
  - reflexivity.
  - reflexivity.
  - intros apiKey model body Hk. unfold openaiChat, anthropicChat. rewrite Hk.
    split; reflexivity.
  - reflexivity.
Qed.

Lemma chat_failures_witness :
  Js.isEmpty "key" = false /\
  openaiChat lexemeNumbers (fun _ => failedReply "quota exceeded") "key" "gpt" []
             noOptions allCallbacks
  = threw "OpenAI chat failed: quota exceeded".
Proof.
  split; [reflexivity|].
  exact (proj1 (proj1 (proj2 (proj2 (chat_failures lexemeNumbers [] noOptions allCallbacks)))
                  "key" "gpt" "quota exceeded" eq_refl)).
Defined.

Lemma concatAll_app (xs ys : list string) :
  Js.concatAll (xs ++ ys) = (Js.concatAll xs ++ Js.concatAll ys)%string.
Proof.
  induction xs as [|x r IH]; simpl; [reflexivity|].
  rewrite IH, append_assoc. reflexivity.
Qed.

Lemma tokenFragments_app (xs ys : list CallbackEvent) :
  tokenFragments (xs ++ ys) = (tokenFragments xs ++ tokenFragments ys)%list.
Proof.
  unfold tokenFragments. apply flat_map_app.
Qed.

Lemma tokens_noCompleted (es : list CallbackEvent) :
  forallb isToken es = true -> noCompleted es.
Proof.
  unfold noCompleted. induction es as [|e r IH]; simpl; [reflexivity|].
  intro H. apply Bool.andb_true_iff in H. destruct H as [He Hr].
  rewrite (IH Hr). destruct e; simpl in *; try discriminate; reflexivity.
Qed.

Section Streams.

Variable nm : Json.NumberModel.
Variable callbacks : ChatStreamCallbacks.
Hypothesis withToken : onToken callbacks = true.

Lemma processLine_consistent (st : StreamState) (line : string) :
  streamConsistent st -> streamConsistent (processLine nm callbacks st line).
Proof.
  intros [Hf Ht]. unfold processLine.
  destruct (Js.isEmpty (Js.trim line) || negb (Js.startsWith (Js.trim line) "data:"));
    [split; assumption|].
  set (payload := Js.trim (Js.sliceFrom (Js.trim line) 5)).
  destruct (Js.isEmpty payload || String.eqb payload "[DONE]"); [split; assumption|].
  unfold handlePayload.
  destruct (Json.parse payload) as [json|]; [|split; assumption].
  destruct (Json.getProp json "choices") as [choices|]; [|split; assumption].
  destruct (Json.optProp (Json.optProp (Json.optIndex0 choices) "delta") "content")
    as [d|]; [|split; assumption].
  destruct (Json.truthy nm (Some d)); [|split; assumption].
  destruct (Json.toStr nm d) as [text|]; [|split; assumption].
  rewrite withToken. unfold streamConsistent. simpl.
  rewrite tokenFragments_app, concatAll_app, forallb_app, Hf, Ht. simpl.
  rewrite append_empty_r. split; reflexivity.
Qed.

Lemma processLines_consistent (lines : list string) :
  forall st, streamConsistent st -> streamConsistent (processLines nm callbacks st lines).
Proof.
  unfold processLines. induction lines as [|l r IH]; intros st H; simpl; [exact H|].
  apply IH. apply processLine_consistent. exact H.
Qed.

Lemma readLoop_consistent (reads : list string) :
  streamConsistent (readLoop nm callbacks reads).
Proof.
  unfold readLoop.
  assert (G : forall st, streamConsistent st ->
                streamConsistent (fold_left (processChunk nm callbacks) reads st)).
  { induction reads as [|c r IH]; intros st H; simpl; [exact H|].
    apply IH. unfold processChunk. apply processLines_consistent. exact H. }
  apply G. split; reflexivity.
Qed.

End Streams.

Lemma deliver_completed (guardText : bool) (callbacks : ChatStreamCallbacks)
  (text : string) :
  onComplete callbacks = true ->
  exists pre, deliver guardText callbacks text = (pre ++ [Completed text])%list
              /\ noCompleted pre.
Proof.
  intro H. unfold deliver. rewrite H.
  exists ((if onStart callbacks then [Started] else [])
          ++ (if (if guardText then negb (Js.isEmpty text) else true) && onToken callbacks
              then map Token (chunkText text) else []))%list.
  split; [rewrite app_assoc; reflexivity|].
  unfold noCompleted. rewrite forallb_app.
  destruct (onStart callbacks); simpl;
    (destruct ((if guardText then negb (Js.isEmpty text) else true) && onToken callbacks);
     [|reflexivity]);
    induction (chunkText text) as [|c r IH]; simpl; auto.
Qed.

Lemma serviceChat_tokens :
  forall (nm : Json.NumberModel) (fetch : Request -> Response) (p : Provider)
         (messages : list ChatMessage) (options : ChatRequestOptions)
         (callbacks : ChatStreamCallbacks) (text : string),
    onToken callbacks = true ->
    outcome (serviceChat nm fetch p messages options callbacks) = Returned text ->
    Js.concatAll (tokenFragments (events (serviceChat nm fetch p messages options callbacks)))
    = text.
Proof.
  intros nm fetch p messages options callbacks text Hc.
  assert (R : forall response,
             outcome (replyRun callbacks response) = Returned text ->
             Js.concatAll (tokenFragments (events (replyRun callbacks response))) = text).
  { intros response H. rewrite (replyRun_returned _ _ _ Hc H).
    rewrite tokenFragments_expected. apply chunkText_concat. }
  unfold serviceChat.
  destruct (outcome (providerChat nm fetch p messages options callbacks)) as [t|e] eqn:O;
    [|discriminate].
  clear O t.
  destruct p as [apiKey model|apiKey|]; simpl.
  - unfold openaiChat. destruct (Js.isEmpty apiKey); [discriminate|].
    match goal with |- context [resp_ok ?r] => set (response := r) end.
    destruct (resp_ok response); simpl; [|discriminate].
    rewrite Hc, Bool.andb_true_r. simpl.
    destruct (resp_hasBody response); simpl; [|apply R].
    destruct (resp_readError response); simpl; [discriminate|].
    intro H. inversion H; subst text.
    rewrite !tokenFragments_app.
    destruct (readLoop_consistent nm callbacks Hc (resp_reads response)) as [Hf _].
    rewrite Hf.
    destruct (onStart callbacks), (onComplete callbacks); simpl;
      rewrite ?app_nil_r; reflexivity.
  - unfold anthropicChat. destruct (Js.isEmpty apiKey); [discriminate|].
    match goal with |- context [resp_ok ?r] => set (response := r) end.
    destruct (resp_ok response); simpl; [|discriminate]. apply R.
  - unfold localChat. simpl. intro H. inversion H; subst text.
    rewrite (deliver_expected _ _ _ Hc), tokenFragments_expected.
    apply chunkText_concat.
Qed.

(** X12. Whatever the provider, a [chat] that is given an [onToken]
    callback and returns has passed to [onToken] fragments whose
    concatenation, in order, is the text it returns; this holds for the
    streamed body of the OpenAI provider as for the chunked replies. *)
Theorem chat_tokens_concat :
  forall (nm : Json.NumberModel) (fetch : Request -> Response) (p : Provider)
         (messages : list ChatMessage) (options : ChatRequestOptions)
         (callbacks : ChatStreamCallbacks) (text : string),
    onToken callbacks = true ->
    outcome (serviceChat nm fetch p messages options callbacks) = Returned text ->
    Js.concatAll (tokenFragments (events (serviceChat nm fetch p messages options callbacks)))
    = text.
Proof.
  intros nm fetch p messages options callbacks text Hc H.
  apply serviceChat_tokens; assumption.
Qed.

Lemma chat_tokens_concat_witness :
  onToken allCallbacks = true /\
  Js.concatAll
    (tokenFragments
       (events (serviceChat lexemeNumbers
                  (fun _ => streamedReply [framesChunk [deltaLine "ab"; deltaLine "cd"]])
                  (OpenAIProvider "key" "gpt") [] noOptions allCallbacks)))
  = "abcd".
Proof.
  split; [reflexivity|].
  exact (chat_tokens_concat lexemeNumbers
           (fun _ => streamedReply [framesChunk [deltaLine "ab"; deltaLine "cd"]])
           (OpenAIProvider "key" "gpt") [] noOptions allCallbacks "abcd"
           eq_refl eq_refl).
Defined.

Lemma serviceChat_completion :
  forall (nm : Json.NumberModel) (fetch : Request -> Response) (p : Provider)
         (messages : list ChatMessage) (options : ChatRequestOptions)
         (callbacks : ChatStreamCallbacks),
    onComplete callbacks = true ->
    match outcome (serviceChat nm fetch p messages options callbacks) with
    | Returned text =>
        exists pre,
          events (serviceChat nm fetch p messages options callbacks)
          = (pre ++ [Completed text])%list /\ noCompleted pre
    | Threw _ => noCompleted (events (serviceChat nm fetch p messages options callbacks))
    end.
Proof.
  intros nm fetch p messages options callbacks Hc.
  assert (R : forall response,
             match outcome (replyRun callbacks response) with
             | Returned text =>
                 exists pre, events (replyRun callbacks response)
                             = (pre ++ [Completed text])%list /\ noCompleted pre
             | Threw _ => noCompleted (events (replyRun callbacks response))
             end).
  { intro response. unfold replyRun. destruct (resp_reply response); simpl.
    - apply deliver_completed. exact Hc.
    - reflexivity. }
  set (run := providerChat nm fetch p messages options callbacks).
  assert (P : match outcome run with
              | Returned text =>
                  exists pre, events run = (pre ++ [Completed text])%list /\ noCompleted pre
              | Threw _ => noCompleted (events run)
              end).
  { unfold run. destruct p as [apiKey model|apiKey|]; simpl.
    - unfold openaiChat. destruct (Js.isEmpty apiKey); [reflexivity|].
      match goal with |- context [resp_ok ?r] => set (response := r) end.
      destruct (resp_ok response); simpl; [|reflexivity].
      destruct (onToken callbacks) eqn:Ht; simpl; [|apply R].
      destruct (resp_hasBody response); simpl; [|apply R].
      pose proof (tokens_noCompleted _
                    (proj2 (readLoop_consistent nm callbacks Ht (resp_reads response))))
        as Hn.
      destruct (resp_readError response); simpl.
      + unfold noCompleted in *. rewrite forallb_app, Hn.
        destruct (onStart callbacks); reflexivity.
      + rewrite Hc. exists ((if onStart callbacks then [Started] else [])
                            ++ tokens (readLoop nm callbacks (resp_reads response)))%list.
        split; [rewrite app_assoc; reflexivity|].
        unfold noCompleted in *. rewrite forallb_app, Hn.
        destruct (onStart callbacks); reflexivity.
    - unfold anthropicChat. destruct (Js.isEmpty apiKey); [reflexivity|].
      match goal with |- context [resp_ok ?r] => set (response := r) end.
      destruct (resp_ok response); simpl; [|reflexivity]. apply R.
    - unfold localChat. simpl. apply deliver_completed. exact Hc. }
  unfold serviceChat. fold run. revert P.
  destruct (outcome run) as [t|e] eqn:O; intro P; [rewrite O|]; exact P.
Qed.

(** X13. [onComplete] is called exactly when [chat] returns: a [chat] that
    returns a text has called [onComplete] once, last, with that text; a
    [chat] that throws has not called it, though the streaming provider
    may have passed tokens before the failure. *)
Theorem chat_completion_callback :
  forall (nm : Json.NumberModel) (fetch : Request -> Response) (p : Provider)
         (messages : list ChatMessage) (options : ChatRequestOptions)
         (callbacks : ChatStreamCallbacks),
    onComplete callbacks = true ->
    match outcome (serviceChat nm fetch p messages options callbacks) with
    | Returned text =>
        exists pre,
          events (serviceChat nm fetch p messages options callbacks)
          = (pre ++ [Completed text])%list /\ noCompleted pre
    | Threw _ => noCompleted (events (serviceChat nm fetch p messages options callbacks))
    end.
Proof.
  intros nm fetch p messages options callbacks Hc.
  apply serviceChat_completion. exact Hc.
Qed.

Lemma chat_completion_callback_witness :
  onComplete allCallbacks = true /\
  exists pre,
    events (serviceChat lexemeNumbers (fun _ => plainReply "ok") (AnthropicProvider "key")
                        [] noOptions allCallbacks)
    = (pre ++ [Completed "ok"])%list /\ noCompleted pre.
Proof.
  split; [reflexivity|].
  exact (chat_completion_callback lexemeNumbers (fun _ => plainReply "ok")
           (AnthropicProvider "key") [] noOptions allCallbacks eq_refl).
Defined.

Lemma splitLines_nonempty (s : string) : Js.splitLines s <> [].
Proof.
  destruct s as [|c r]; simpl; [discriminate|].
  destruct (Ascii.eqb c (ascii_of_nat 10)); [discriminate|].
  destruct (Js.splitLines r); discriminate.
Qed.

Lemma splitLines_app (x y : string) :
  Js.splitLines (x ++ y)
  = (removelast (Js.splitLines x)
     ++ Js.splitLines (last (Js.splitLines x) EmptyString ++ y))%list.
Proof.
  induction x as [|c x IH]; [reflexivity|].
  cbn [append Js.splitLines].
  destruct (Ascii.eqb c (ascii_of_nat 10)) eqn:E.
  - pose proof (splitLines_nonempty x) as N.
    destruct (Js.splitLines x) as [|l ls] eqn:L; [contradiction|].
    rewrite IH. reflexivity.
  - pose proof (splitLines_nonempty x) as N.
    destruct (Js.splitLines x) as [|l ls] eqn:L; [contradiction|].
    rewrite IH. destruct ls as [|l' ls'].
    + cbn [removelast last app append Js.splitLines]. rewrite E. reflexivity.
    + cbn [removelast last app]. reflexivity.
Qed.

Lemma last_append {A : Type} (xs ys : list A) (d : A) :
  ys <> [] -> last (xs ++ ys) d = last ys d.
Proof.
  intro N. induction xs as [|x r IH]; simpl; [reflexivity|].
  destruct (r ++ ys)%list eqn:E; [|exact IH].
  apply app_eq_nil in E. destruct E. contradiction.
Qed.

Section Boundaries.

Variable nm : Json.NumberModel.
Variable callbacks : ChatStreamCallbacks.

Lemma processLine_withBuffer (b : string) (st : StreamState) (line : string) :
  processLine nm callbacks (withBuffer b st) line
  = withBuffer b (processLine nm callbacks st line).
Proof.
  unfold processLine.
  destruct (Js.isEmpty (Js.trim line) || negb (Js.startsWith (Js.trim line) "data:"));
    [reflexivity|].
  set (payload := Js.trim (Js.sliceFrom (Js.trim line) 5)).
  destruct (Js.isEmpty payload || String.eqb payload "[DONE]"); [reflexivity|].
  unfold handlePayload.
  destruct (Json.parse payload) as [json|]; [|reflexivity].
  destruct (Json.getProp json "choices") as [choices|]; [|reflexivity].
  destruct (Json.optProp (Json.optProp (Json.optIndex0 choices) "delta") "content")
    as [d|]; [|reflexivity].
  destruct (Json.truthy nm (Some d)); [|reflexivity].
  destruct (Json.toStr nm d); reflexivity.
Qed.

Lemma processLines_withBuffer (lines : list string) :
  forall (b : string) (st : StreamState),
    processLines nm callbacks (withBuffer b st) lines
    = withBuffer b (processLines nm callbacks st lines).
Proof.
  unfold processLines. induction lines as [|l r IH]; intros b st; simpl; [reflexivity|].
  rewrite processLine_withBuffer. apply IH.
Qed.

Lemma processLines_append (st : StreamState) (xs ys : list string) :
  processLines nm callbacks st (xs ++ ys)
  = processLines nm callbacks (processLines nm callbacks st xs) ys.
Proof.
  unfold processLines. apply fold_left_app.
Qed.

Lemma processChunk_app (st : StreamState) (a b : string) :
  processChunk nm callbacks (processChunk nm callbacks st a) b
  = processChunk nm callbacks st (a ++ b).
Proof.
  unfold processChunk.
  change (processLines nm callbacks
            {| buffer := last (Js.splitLines (buffer st ++ a)) EmptyString;
               fullText := fullText st; tokens := tokens st; errors := errors st |}
            (removelast (Js.splitLines (buffer st ++ a))))
    with (processLines nm callbacks
            (withBuffer (last (Js.splitLines (buffer st ++ a)) EmptyString) st)
            (removelast (Js.splitLines (buffer st ++ a)))).
  rewrite processLines_withBuffer. cbn [withBuffer buffer fullText tokens errors].
  assert (E : Js.splitLines (buffer st ++ (a ++ b))
              = (removelast (Js.splitLines (buffer st ++ a))
                 ++ Js.splitLines (last (Js.splitLines (buffer st ++ a)) EmptyString
                                   ++ b))%list)
    by (rewrite <- append_assoc; apply splitLines_app).
  rewrite E. clear E.
  set (L1 := Js.splitLines (buffer st ++ a)).
  set (L2 := Js.splitLines (last L1 EmptyString ++ b)).
  assert (N2 : L2 <> []) by apply splitLines_nonempty.
  rewrite removelast_app by exact N2.
  rewrite last_append by exact N2.
  change {| buffer := last L2 EmptyString;
            fullText := fullText (processLines nm callbacks st (removelast L1));
            tokens := tokens (processLines nm callbacks st (removelast L1));
            errors := errors (processLines nm callbacks st (removelast L1)) |}
    with (withBuffer (last L2 EmptyString)
            (processLines nm callbacks st (removelast L1))).
  change {| buffer := last L2 EmptyString; fullText := fullText st;
            tokens := tokens st; errors := errors st |}
    with (withBuffer (last L2 EmptyString) st).
  rewrite processLines_append, (processLines_withBuffer (removelast L1)). reflexivity.
Qed.

Lemma readLoop_concat (reads : list string) :
  readLoop nm callbacks reads
  = processChunk nm callbacks initialStream (Js.concatAll reads).
Proof.
  unfold readLoop. destruct reads as [|a rest]; [reflexivity|]. simpl.
  generalize initialStream as st. revert a.
  induction rest as [|b rest IH]; intros a st; simpl.
  - rewrite append_empty_r. reflexivity.
  - rewrite processChunk_app, IH, append_assoc. reflexivity.
Qed.

End Boundaries.

Lemma splitLines_single (tail : string) :
  noLineFeed tail = true -> Js.splitLines tail = [tail].
Proof.
  induction tail as [|c r IH]; simpl; intro H; [reflexivity|].
  apply Bool.andb_true_iff in H. destruct H as [Hc Hr].
  apply Bool.negb_true_iff in Hc. rewrite Hc, (IH Hr). reflexivity.
Qed.

Lemma splitLines_frames_tail (lines : list string) (tail : string) :
  forallb noLineFeed lines = true -> noLineFeed tail = true ->
  Js.splitLines (framesChunk lines ++ tail) = (lines ++ [tail])%list.
Proof.
  unfold framesChunk. induction lines as [|l r IH]; intros H Ht.
  - apply splitLines_single. exact Ht.
  - simpl in H. apply Bool.andb_true_iff in H. destruct H as [Hl Hr].
    cbn [map Js.concatAll].
    rewrite !append_assoc, (splitLines_line _ _ Hl), (IH Hr Ht). reflexivity.
Qed.

Lemma openaiChat_reads (nm : Json.NumberModel) (callbacks : ChatStreamCallbacks)
  (reads reads' : list string) (apiKey model : string) (messages : list ChatMessage)
  (options : ChatRequestOptions) :
  readLoop nm callbacks reads = readLoop nm callbacks reads' ->
  openaiChat nm (fun _ => streamedReply reads) apiKey model messages options callbacks
  = openaiChat nm (fun _ => streamedReply reads') apiKey model messages options callbacks.
Proof.
  intro H. unfold openaiChat. destruct (Js.isEmpty apiKey); [reflexivity|].
  cbn [streamedReply resp_ok resp_hasBody resp_reads resp_readError req_stream negb].
  destruct (onToken callbacks); cbn [andb negb]; [|reflexivity].
  rewrite H. reflexivity.
Qed.

(** X14. The streaming loop depends on the body only, not on how the
    network cuts it into reads: two sequences of chunks with the same
    concatenation leave the loop in the same state, so a frame that is
    split across reads is put together again, and [chat] calls the same
    callbacks and returns the same text. *)
Theorem read_boundaries_irrelevant :
  forall (nm : Json.NumberModel) (callbacks : ChatStreamCallbacks)
         (reads reads' : list string),
    Js.concatAll reads = Js.concatAll reads' ->
    readLoop nm callbacks reads = readLoop nm callbacks reads' /\
    forall apiKey model messages options,
      openaiChat nm (fun _ => streamedReply reads) apiKey model messages options callbacks
      = openaiChat nm (fun _ => streamedReply reads') apiKey model messages options
                   callbacks.
Proof.
  intros nm callbacks reads reads' H.
  assert (E : readLoop nm callbacks reads = readLoop nm callbacks reads')
    by (rewrite !readLoop_concat, H; reflexivity).
  split; [exact E|]. intros. apply openaiChat_reads. exact E.
Qed.

Lemma read_boundaries_irrelevant_witness :
  Js.concatAll [Js.q "data: {'choices':[{'delta':{'con"; Js.q "tent':'ab'}}]}" ++ Js.nl]
  = Js.concatAll [deltaLine "ab" ++ Js.nl] /\
  openaiChat lexemeNumbers
    (fun _ => streamedReply [Js.q "data: {'choices':[{'delta':{'con";
                             Js.q "tent':'ab'}}]}" ++ Js.nl])
    "key" "gpt" [] noOptions allCallbacks
  = openaiChat lexemeNumbers (fun _ => streamedReply [deltaLine "ab" ++ Js.nl])
               "key" "gpt" [] noOptions allCallbacks.
Proof.
  split; [reflexivity|].
  exact (proj2 (read_boundaries_irrelevant lexemeNumbers allCallbacks
                  [Js.q "data: {'choices':[{'delta':{'con";
                   Js.q "tent':'ab'}}]}" ++ Js.nl]
                  [deltaLine "ab" ++ Js.nl] eq_refl)
           "key" "gpt" [] noOptions).
Defined.

(** X15. What follows the last line feed of the body is never processed:
    when the body ends with a text without line feed, even a complete
    frame, that text stays in the buffer, and [chat] calls the callbacks
    and returns the text of the body without it. *)
Theorem unterminated_frame_dropped :
  forall (nm : Json.NumberModel) (callbacks : ChatStreamCallbacks)
         (reads lines : list string) (tail : string),
    Js.concatAll reads = (framesChunk lines ++ tail)%string ->
    forallb noLineFeed lines = true ->
    noLineFeed tail = true ->
    readLoop nm callbacks reads
    = withBuffer tail (processLines nm callbacks initialStream lines) /\
    forall apiKey model messages options,
      onToken callbacks = true ->
      events (openaiChat nm (fun _ => streamedReply reads) apiKey model messages options
                         callbacks)
      = events (openaiChat nm (fun _ => streamedReply [framesChunk lines]) apiKey model
                           messages options callbacks) /\
      outcome (openaiChat nm (fun _ => streamedReply reads) apiKey model messages options
                          callbacks)
      = outcome (openaiChat nm (fun _ => streamedReply [framesChunk lines]) apiKey model
                            messages options callbacks).
Proof.
  intros nm callbacks reads lines tail H Hl Ht.
  assert (E : readLoop nm callbacks reads
              = withBuffer tail (processLines nm callbacks initialStream lines)).
  { rewrite readLoop_concat, H. unfold processChunk.
    change (buffer initialStream ++ (framesChunk lines ++ tail))%string
      with (framesChunk lines ++ tail)%string.
    rewrite (splitLines_frames_tail _ _ Hl Ht), removelast_last, last_last.
    apply (processLines_withBuffer nm callbacks lines tail initialStream). }
  split; [exact E|].
  intros apiKey model messages options Hc. unfold openaiChat.
  destruct (Js.isEmpty apiKey); [split; reflexivity|].
  cbn [streamedReply resp_ok resp_hasBody resp_reads resp_readError req_stream negb].
  rewrite Hc. cbn [andb negb].
  rewrite E, (readLoop_framesChunk _ _ _ Hl). split; reflexivity.
Qed.

Lemma unterminated_frame_dropped_witness :
  Js.concatAll [deltaLine "kept" ++ Js.nl ++ deltaLine "lost"]
  = (framesChunk [deltaLine "kept"] ++ deltaLine "lost")%string /\
  outcome (openaiChat lexemeNumbers
             (fun _ => streamedReply [deltaLine "kept" ++ Js.nl ++ deltaLine "lost"])
             "key" "gpt" [] noOptions allCallbacks)
  = outcome (openaiChat lexemeNumbers
               (fun _ => streamedReply [framesChunk [deltaLine "kept"]])
               "key" "gpt" [] noOptions allCallbacks).
Proof.
  split; [reflexivity|].
  exact (proj2 (proj2 (unterminated_frame_dropped lexemeNumbers allCallbacks
                         [deltaLine "kept" ++ Js.nl ++ deltaLine "lost"]
                         [deltaLine "kept"] (deltaLine "lost")
                         eq_refl eq_refl eq_refl)
                  "key" "gpt" [] noOptions eq_refl)).
Defined.

End ProviderMore.

(** ** The fix agent, for every provider *)

Section AgentMore.

Import Ai.
Import Runtime.
Import FixAgent.
Import Notions.

Variable env : Env.

Lemma proceeds_refl (sid : string) (w : World) :
  found w sid = true -> proceeds sid w w.
Proof.
  intro H. split; [exact H|]. split; [exists []; rewrite app_nil_r; reflexivity|].
  repeat split.
Qed.

Lemma proceeds_trans (sid : string) (w w1 w2 : World) :
  proceeds sid w w1 -> proceeds sid w1 w2 -> proceeds sid w w2.
Proof.
  intros [_ [[c1 C1] [E1 [S1 N1]]]] [F2 [[c2 C2] [E2 [S2 N2]]]].
  split; [exact F2|]. split.
  - exists (c1 ++ c2)%list. rewrite C2, C1, app_assoc. reflexivity.
  - repeat split; congruence.
Qed.

Lemma proceeds_of_extends (sid : string) (w w' : World) :
  extends sid [] w w' -> saves w' = saves w -> notices w' = notices w ->
  proceeds sid w w'.
Proof.
  intros [F [C E]] S N. split; [exact F|]. split; [exists []; exact C|].
  repeat split; assumption.
Qed.

Lemma addMessage_proceeds (w : World) (sid : string) (message : Store.NewMessage) :
  found w sid = true ->
  proceeds sid w (fst (addMessage env w sid message)) /\
  snd (addMessage env w sid message) <> None.
Proof.
  intro H. destruct (addMessage_extends env w sid message H) as [E N].
  split; [|exact N].
  apply proceeds_of_extends; [exact E | |];
    unfold addMessage;
    destruct (Store.addMessage _ _ _ _ _ _) as [m [r|]]; reflexivity.
Qed.

Lemma say_proceeds (w : World) (sid : string) (role : Store.ChatMessageRole)
  (text : string) :
  found w sid = true -> proceeds sid w (say env w sid role text).
Proof.
  intro H. apply addMessage_proceeds. exact H.
Qed.

Lemma appendToMessage_proceeds (w : World) (sid mid fragment : string) :
  found w sid = true -> proceeds sid w (appendToMessage env w sid mid fragment).
Proof.
  intro H. apply proceeds_of_extends;
    [apply appendToMessage_extends; exact H | |];
    unfold appendToMessage;
    destruct (Store.appendToMessage _ _ _ _ _) as [m r]; reflexivity.
Qed.

Lemma updateMessage_proceeds (w : World) (sid mid : string)
  (updates : Store.MessageUpdates) :
  found w sid = true -> proceeds sid w (updateMessage env w sid mid updates).
Proof.
  intro H. apply proceeds_of_extends;
    [apply updateMessage_extends; exact H | |];
    unfold updateMessage;
    destruct (Store.updateMessage _ _ _ _ _) as [m r]; reflexivity.
Qed.

Lemma updateSessionStatus_proceeds (w : World) (sid : string)
  (status : Store.ChatSessionStatus) :
  found w sid = true -> proceeds sid w (updateSessionStatus env w sid status).
Proof.
  intro H. apply proceeds_of_extends;
    [apply updateSessionStatus_extends; exact H | |]; reflexivity.
Qed.

Lemma updateSessionMetadata_proceeds (w : World) (sid : string)
  (metadata : Store.Metadata) :
  found w sid = true -> proceeds sid w (updateSessionMetadata env w sid metadata).
Proof.
  intro H. apply proceeds_of_extends; [| reflexivity | reflexivity].
  destruct (found_inv _ _ H) as [s Hs].
  unfold updateSessionMetadata, Store.updateSessionMetadata. rewrite Hs.
  eapply found_updateFirst; [exact H | | reflexivity]. reflexivity.
Qed.

Lemma callChat_proceeds (sid : string) (w : World) (messages : list ChatMessage)
  (options : ChatRequestOptions) (callbacks : ChatStreamCallbacks) :
  found w sid = true ->
  proceeds sid w (fst (callChat env w messages options callbacks)).
Proof.
  intro H. split; [exact H|]. split; [eexists; reflexivity|]. repeat split.
Qed.

Lemma fold_onFixEvent_proceeds (sid mid : string) (es : list CallbackEvent) :
  forall (w : World) (text : string),
    found w sid = true ->
    proceeds sid w (fst (fold_left (onFixEvent env sid mid) es (w, text))).
Proof.
  induction es as [|e r IH]; intros w text H; simpl.
  - apply proceeds_refl. exact H.
  - destruct e as [|token|full]; simpl.
    + apply IH. exact H.
    + pose proof (appendToMessage_proceeds w sid mid token H) as E.
      exact (proceeds_trans sid _ _ _ E (IH _ _ (proj1 E))).
    + pose proof (updateMessage_proceeds w sid mid Store.clearPending H) as E.
      exact (proceeds_trans sid _ _ _ E (IH _ _ (proj1 E))).
Qed.

Lemma requestFix_proceeds (w : World) (sid : string) (document : TextDocument)
  (diagnostic : Diagnostic) (context : FixContext) (attempt : nat)
  (feedback : list string) :
  found w sid = true ->
  proceeds sid w
    (fst (requestFix env w sid document diagnostic context attempt feedback)) /\
  forall p,
    snd (requestFix env w sid document diagnostic context attempt feedback) = Returned p ->
    replacement p <> EmptyString.
Proof.
  intro H. unfold requestFix.
  pose proof (say_proceeds w sid Store.agent (requestingText attempt) H) as E1.
  set (w1 := say env w sid Store.agent (requestingText attempt)) in *.
  destruct (addMessage_proceeds w1 sid
              (Store.pendingMessage Store.assistant EmptyString) (proj1 E1)) as [E2 N].
  destruct (addMessage env w1 sid (Store.pendingMessage Store.assistant EmptyString))
    as [w2 [message|]]; [|contradiction]. cbn [fst] in E2.
  pose proof (callChat_proceeds sid w2
                (userPrompt (buildFixPrompt document diagnostic context attempt feedback))
                (onlySystem fixSystemPrompt)
                {| onToken := true; onStart := false; onComplete := true |} (proj1 E2))
    as E3.
  destruct (callChat env w2
              (userPrompt (buildFixPrompt document diagnostic context attempt feedback))
              (onlySystem fixSystemPrompt)
              {| onToken := true; onStart := false; onComplete := true |})
    as [w3 run]. cbn [fst] in E3.
  pose proof (fold_onFixEvent_proceeds sid (Store.msg_id message) (events run) w3
                EmptyString (proj1 E3)) as E4.
  destruct (fold_left (onFixEvent env sid (Store.msg_id message)) (events run)
                      (w3, EmptyString)) as [w4 fullText]. cbn [fst] in E4.
  pose proof (proceeds_trans sid _ _ _ (proceeds_trans sid _ _ _ E1 E2)
                (proceeds_trans sid _ _ _ E3 E4)) as E.
  destruct (outcome run) as [text|e]; cbn [fst snd].
  - destruct (Js.isEmpty
                match Approval.extractCodeBlock fullText with
                | Some block => block
                | None => Js.trim fullText
                end) eqn:Em; cbn [fst snd].
    + split; [exact E | discriminate].
    + split; [exact E|]. intros p Hp. injection Hp as <-. cbn [replacement].
      intro Hr. rewrite Hr in Em. discriminate.
  - split; [exact E | discriminate].
Qed.

Lemma reviewApproved_later (from from' : nat) (w w' : World) :
  reviewApproved env from w ->
  (exists calls, chats w' = (chats w ++ calls)%list) ->
  from' <= from ->
  reviewApproved env from' w'.
Proof.
  intros [n [c [response [Hn [Hc [Hp [Ha Hd]]]]]]] [calls C] Hle.
  exists n, c, response. split; [lia|]. split.
  - rewrite C, nth_error_app1; [exact Hc|]. apply nth_error_Some. congruence.
  - repeat split; assumption.
Qed.

Lemma proceeds_length (sid : string) (w w' : World) :
  proceeds sid w w' -> List.length (chats w) <= List.length (chats w').
Proof.
  intros [_ [[calls C] _]]. rewrite C, length_app. lia.
Qed.

Lemma reviewFix_proceeds (w : World) (sid : string) (document : TextDocument)
  (diagnostic : Diagnostic) (context : FixContext) (proposal : Proposal)
  (attempt : nat) (feedback : list string) :
  found w sid = true ->
  proceeds sid w
    (fst (reviewFix env w sid document diagnostic context proposal attempt feedback)) /\
  forall a,
    snd (reviewFix env w sid document diagnostic context proposal attempt feedback)
    = Returned a ->
    Approval.decision a = Approval.approve ->
    reviewApproved env (List.length (chats w))
      (fst (reviewFix env w sid document diagnostic context proposal attempt feedback)).
Proof.
  intro H. unfold reviewFix.
  pose proof (say_proceeds w sid Store.agent reviewingText H) as E1.
  set (w1 := say env w sid Store.agent reviewingText) in *.
  set (prompt := buildApprovalPrompt document diagnostic context proposal attempt
                                     feedback).
  pose proof (callChat_proceeds sid w1 (userPrompt prompt)
                (onlySystem approvalSystemPrompt) noCallbacks (proj1 E1)) as E2.
  rewrite (surjective_pairing
             (callChat env w1 (userPrompt prompt) (onlySystem approvalSystemPrompt)
                       noCallbacks)).
  set (w2 := fst (callChat env w1 (userPrompt prompt) (onlySystem approvalSystemPrompt)
                           noCallbacks)) in *.
  set (run := snd (callChat env w1 (userPrompt prompt)
                            (onlySystem approvalSystemPrompt) noCallbacks)).
  assert (C2 : chats w2 = (chats w1 ++ [reviewCall prompt])%list) by reflexivity.
  assert (A : outcome run = answerOf env (List.length (chats w1)) (reviewCall prompt))
    by reflexivity.
  destruct (outcome run) as [response|e]; cbn [fst snd].
  - pose proof (say_proceeds w2 sid Store.assistant
                  (displayMessage (Approval.parseApprovalResponse (env_nm env) response))
                  (proj1 E2)) as E3.
    split; [exact (proceeds_trans sid _ _ _ E1 (proceeds_trans sid _ _ _ E2 E3))|].
    intros a Ha Hd. injection Ha as <-.
    apply (reviewApproved_later (List.length (chats w1)) _ w2).
    + exists (List.length (chats w1)), (reviewCall prompt), response.
      split; [lia|]. split.
      * rewrite C2, nth_error_app2, Nat.sub_diag by lia. reflexivity.
      * split; [reflexivity|]. split; [symmetry; exact A | exact Hd].
    + exact (proj1 (proj2 E3)).
    + exact (proceeds_length sid _ _ E1).
  - split; [exact (proceeds_trans sid _ _ _ E1 E2) | discriminate].
Qed.

Lemma loopJustified_later (from : nat) (w w' : World) (st : LoopState) :
  loopJustified env from w st ->
  (exists calls, chats w' = (chats w ++ calls)%list) ->
  loopJustified env from w' st.
Proof.
  intros [P A] C. split; [exact P|]. intros a Ha Hd.
  apply (reviewApproved_later from from w w' (A a Ha Hd) C). lia.
Qed.

Lemma revisionLoop_proceeds (bound : nat) (sid : string) (document : TextDocument)
  (diagnostic : Diagnostic) (context : FixContext) (from : nat) :
  forall (fuel : nat) (w : World) (st : LoopState),
    found w sid = true ->
    from <= List.length (chats w) ->
    loopJustified env from w st ->
    proceeds sid w
      (fst (revisionLoop env bound fuel w sid document diagnostic context st)) /\
    forall st',
      snd (revisionLoop env bound fuel w sid document diagnostic context st)
      = Returned st' ->
      loopJustified env from
        (fst (revisionLoop env bound fuel w sid document diagnostic context st)) st'.
Proof.
  induction fuel as [|fuel IH]; intros w st H Hfrom J; cbn [revisionLoop].
  - cbn [fst snd]. split; [apply proceeds_refl; exact H|].
    intros st' E. injection E as <-. exact J.
  - destruct (negb (Nat.ltb (attempt st) bound)).
    { cbn [fst snd]. split; [apply proceeds_refl; exact H|].
      intros st' E. injection E as <-. exact J. }
    set (w1 := if Nat.ltb 1 (attempt st + 1)
               then say env w sid Store.agent
                      ("🔁 Revision attempt " ++ Js.natToString (attempt st + 1)
                       ++ " requested based on approval feedback.")
               else w).
    assert (E1 : proceeds sid w w1).
    { unfold w1. destruct (Nat.ltb 1 (attempt st + 1));
        [apply say_proceeds | apply proceeds_refl]; exact H. }
    destruct (requestFix_proceeds w1 sid document diagnostic context (attempt st + 1)
                (revisionFeedback st) (proj1 E1)) as [E2 P2].
    destruct (requestFix env w1 sid document diagnostic context (attempt st + 1)
                         (revisionFeedback st)) as [w2 [proposal'|e]];
      cbn [fst snd] in E2, P2.
    2: { cbn [fst snd]. split; [exact (proceeds_trans sid _ _ _ E1 E2) | discriminate]. }
    destruct (reviewFix_proceeds w2 sid document diagnostic context proposal'
                (attempt st + 1) (revisionFeedback st) (proj1 E2)) as [E3 A3].
    destruct (reviewFix env w2 sid document diagnostic context proposal'
                        (attempt st + 1) (revisionFeedback st)) as [w3 [approval'|e]];
      cbn [fst snd] in E3, A3.
    2: { cbn [fst snd]. split; [|discriminate].
         exact (proceeds_trans sid _ _ _ E1 (proceeds_trans sid _ _ _ E2 E3)). }
    pose proof (proceeds_trans sid _ _ _ E1 (proceeds_trans sid _ _ _ E2 E3)) as E13.
    pose proof (proceeds_length sid _ _ (proceeds_trans sid _ _ _ E1 E2)) as L2.
    destruct (Approval.decision approval') eqn:D.
    + cbn [fst snd]. split; [exact E13|].
      intros st' E. injection E as <-. split; cbn [proposal approval].
      * intros p Hp. injection Hp as <-. apply P2. reflexivity.
      * intros a Ha _. injection Ha as <-.
        apply (reviewApproved_later (List.length (chats w2)) from w3 w3
                 (A3 approval' eq_refl D)); [|lia].
        exists []. rewrite app_nil_r. reflexivity.
    + destruct (Nat.leb bound (attempt st + 1)).
      * cbn [fst snd]. split; [exact E13|].
        intros st' E. injection E as <-. split; cbn [proposal approval].
        -- intros p Hp. injection Hp as <-. apply P2. reflexivity.
        -- intros a Ha Hd. injection Ha as <-. congruence.
      * pose proof (say_proceeds w3 sid Store.agent
                      "🔄 Approval agent requested changes. Updating instructions for the fix provider."
                      (proj1 E3)) as E4.
        set (w4 := say env w3 sid Store.agent
                     "🔄 Approval agent requested changes. Updating instructions for the fix provider.")
          in *.
        pose proof (proceeds_length sid _ _ (proceeds_trans sid _ _ _ E3 E4)) as L4.
        match goal with
        | |- context [revisionLoop env bound fuel w4 sid document diagnostic context ?s] =>
            destruct (IH w4 s (proj1 E4)) as [E5 J5]
        end.
        -- lia.
        -- split; cbn [proposal approval].
           ++ intros p Hp. injection Hp as <-. apply P2. reflexivity.
           ++ intros a Ha Hd. injection Ha as <-. congruence.
        -- split; [|exact J5].
           exact (proceeds_trans sid _ _ _ E13 (proceeds_trans sid _ _ _ E4 E5)).
Qed.

Lemma proceeds_advances (sid : string) (w w' : World) :
  proceeds sid w w' -> advances sid [] [] 0 w w'.
Proof.
  intros [F [C [E [S N]]]]. split; [exact F|]. split; [exact C|].
  rewrite !app_nil_r, Nat.add_0_r. repeat split; assumption.
Qed.

Lemma advances_trans (sid : string) (n1 n2 : list (NoticeKind * string))
  (e1 e2 : list WorkspaceEdit) (k1 k2 : nat) (w w1 w2 : World) :
  advances sid n1 e1 k1 w w1 -> advances sid n2 e2 k2 w1 w2 ->
  advances sid (n1 ++ n2) (e1 ++ e2) (k1 + k2) w w2.
Proof.
  intros [_ [[c1 C1] [E1 [S1 N1]]]] [F2 [[c2 C2] [E2 [S2 N2]]]].
  split; [exact F2|]. split.
  - exists (c1 ++ c2)%list. rewrite C2, C1, app_assoc. reflexivity.
  - rewrite E2, E1, S2, S1, N2, N1, !app_assoc, Nat.add_assoc. repeat split.
Qed.

Lemma advances_proceeds (sid : string) (n : list (NoticeKind * string))
  (e : list WorkspaceEdit) (k : nat) (w w1 w2 : World) :
  advances sid n e k w w1 -> proceeds sid w1 w2 -> advances sid n e k w w2.
Proof.
  intros A P. pose proof (advances_trans sid _ _ _ _ _ _ _ _ _ A (proceeds_advances _ _ _ P))
    as T.
  rewrite !app_nil_r, Nat.add_0_r in T. exact T.
Qed.

Lemma notify_advances (sid : string) (w : World) (kind : NoticeKind) (text : string) :
  found w sid = true -> advances sid [(kind, text)] [] 0 w (notify w kind text).
Proof.
  intro H. split; [exact H|]. split; [exists []; cbn; rewrite app_nil_r; reflexivity|].
  cbn. rewrite app_nil_r, Nat.add_0_r. repeat split.
Qed.

Lemma applyFix_advances (sid : string) (w : World) (document : TextDocument)
  (context : FixContext) (text : string) :
  found w sid = true ->
  match snd (applyFix env w document context text) with
  | Returned _ =>
      env_applyEdit env = true /\
      advances sid []
        [{| edit_path := doc_fsPath document; edit_startLine := startLine context;
            edit_endLine := endLine context; edit_text := text |}] 1
        w (fst (applyFix env w document context text))
  | Threw _ => fst (applyFix env w document context text) = w
  end.
Proof.
  intro H. unfold applyFix. destruct (env_applyEdit env); cbn [fst snd]; [|reflexivity].
  split; [reflexivity|]. split; [exact H|].
  split; [exists []; cbn; rewrite app_nil_r; reflexivity|].
  cbn. rewrite app_nil_r, Nat.add_1_r. repeat split.
Qed.

Lemma reviewApproved_advances (sid : string) (from : nat)
  (n : list (NoticeKind * string)) (e : list WorkspaceEdit) (k : nat) (w w' : World) :
  reviewApproved env from w -> advances sid n e k w w' -> reviewApproved env from w'.
Proof.
  intros R A. apply (reviewApproved_later from from w w' R (proj1 (proj2 A))). lia.
Qed.

Lemma tryRun_cases (bound : nat) (w : World) (sid : string) (document : TextDocument)
  (diagnostic : Diagnostic) :
  found w sid = true ->
  match snd (tryRun env bound w sid document diagnostic) with
  | Threw _ =>
      exists shown,
        advances sid shown [] 0 w (fst (tryRun env bound w sid document diagnostic))
  | Returned _ =>
      (exists text,
         text <> EmptyString /\
         advances sid [approvalNotice] [contextEdit document diagnostic text] 1
           w (fst (tryRun env bound w sid document diagnostic)) /\
         env_userChoice env = Some APPLY_ACTION /\
         env_applyEdit env = true /\
         reviewApproved env (List.length (chats w))
           (fst (tryRun env bound w sid document diagnostic)) /\
         sessionEndOf (fst (tryRun env bound w sid document diagnostic)) sid
         = Some (Store.completed, Some appliedText))
      \/
      (exists shown,
         advances sid shown [] 0 w (fst (tryRun env bound w sid document diagnostic)) /\
         (sessionEndOf (fst (tryRun env bound w sid document diagnostic)) sid
          = Some (Store.completed, Some signOffText)
          \/
          sessionEndOf (fst (tryRun env bound w sid document diagnostic)) sid
          = Some (Store.completed, Some cancelledText) /\
          env_userChoice env <> Some APPLY_ACTION))
  end.
Proof.
  intro H. unfold tryRun.
  set (context := buildContext document diagnostic).
  pose proof (say_proceeds w sid Store.agent
                "🔍 Gathering code context with `read_file` tool..." H) as E1.
  set (w1 := say env w sid Store.agent
               "🔍 Gathering code context with `read_file` tool...") in *.
  pose proof (say_proceeds w1 sid Store.tool
                (renderToolMessage "read_file" (doc_fsPath document) (snippet context))
                (proj1 E1)) as E2.
  set (w2 := say env w1 sid Store.tool
               (renderToolMessage "read_file" (doc_fsPath document) (snippet context)))
    in *.
  pose proof (proceeds_trans sid _ _ _ E1 E2) as E12.
  destruct (revisionLoop_proceeds bound sid document diagnostic context
              (List.length (chats w)) bound w2
              {| attempt := 0; revisionFeedback := []; proposal := None;
                 approval := None |} (proj1 E2) (proceeds_length sid _ _ E12))
    as [E3 J3].
  { split; cbn [proposal approval]; intros x Hx; discriminate. }
  destruct (revisionLoop env bound bound w2 sid document diagnostic context
              {| attempt := 0; revisionFeedback := []; proposal := None;
                 approval := None |}) as [w3 [st|e]]; cbn [fst snd] in E3, J3.
  2: { cbn [fst snd]. exists []. apply proceeds_advances.
       exact (proceeds_trans sid _ _ _ E12 E3). }
  destruct (J3 st eq_refl) as [P A].
  pose proof (proceeds_trans sid _ _ _ E12 E3) as E13.
  destruct (proposal st) as [p|].
  2: { cbn [fst snd]. exists []. apply proceeds_advances. exact E13. }
  assert (SignOff :
    match snd (updateSessionStatus env (say env w3 sid Store.agent signOffText)
                 sid Store.completed, Returned tt) with
    | Threw _ => True
    | Returned _ =>
        exists shown,
          advances sid shown [] 0 w
            (updateSessionStatus env (say env w3 sid Store.agent signOffText)
               sid Store.completed) /\
          (sessionEndOf
             (updateSessionStatus env (say env w3 sid Store.agent signOffText)
                sid Store.completed) sid
           = Some (Store.completed, Some signOffText)
           \/
           sessionEndOf
             (updateSessionStatus env (say env w3 sid Store.agent signOffText)
                sid Store.completed) sid
           = Some (Store.completed, Some cancelledText) /\
           env_userChoice env <> Some APPLY_ACTION)
    end).
  { cbn [snd]. exists []. split.
    - apply proceeds_advances.
      pose proof (say_proceeds w3 sid Store.agent signOffText (proj1 E3)) as E4.
      pose proof (updateSessionStatus_proceeds _ sid Store.completed (proj1 E4)) as E5.
      exact (proceeds_trans sid _ _ _ E13 (proceeds_trans sid _ _ _ E4 E5)).
    - left. apply say_then_status. exact (proj1 E3). }
  destruct (approval st) as [[[|] approvalNotes]|] eqn:Ap;
    [| right; exact SignOff | right; exact SignOff].
  clear SignOff.
  pose proof (A _ eq_refl eq_refl) as R3.
  pose proof (updateSessionStatus_proceeds w3 sid Store.idle (proj1 E3)) as E4.
  set (w4 := updateSessionStatus env w3 sid Store.idle) in *.
  pose proof (updateSessionMetadata_proceeds w4 sid
                [("fixProposal", Some (raw p)); ("approvalNotes", Some approvalNotes)]
                (proj1 E4)) as E5.
  set (w5 := updateSessionMetadata env w4 sid
               [("fixProposal", Some (raw p)); ("approvalNotes", Some approvalNotes)])
    in *.
  pose proof (proceeds_trans sid _ _ _ E13 (proceeds_trans sid _ _ _ E4 E5)) as E15.
  pose proof (notify_advances sid w5 InfoNotice
                "Code Guardian generated an approved fix. Do you want to apply it?"
                (proj1 E5)) as E6.
  set (w6 := notify w5 InfoNotice
               "Code Guardian generated an approved fix. Do you want to apply it?") in *.
  pose proof (advances_trans sid _ _ _ _ _ _ _ _ _ (proceeds_advances _ _ _ E15) E6)
    as E16.
  cbn [app Nat.add] in E16.
  destruct (Store.optEqb (env_userChoice env) (Some APPLY_ACTION)) eqn:Ch; cbn [negb].
  - apply optEqb_eq in Ch.
    pose proof (say_proceeds w6 sid Store.agent
                  "✍️ Applying changes with `write_file` tool..." (proj1 E6)) as E7.
    set (w7 := say env w6 sid Store.agent
                 "✍️ Applying changes with `write_file` tool...") in *.
    pose proof (applyFix_advances sid w7 document context (replacement p) (proj1 E7))
      as E8.
    destruct (applyFix env w7 document context (replacement p)) as [w8 [u|e]];
      cbn [fst snd] in E8 |- *.
    + destruct E8 as [Ae E8]. left. exists (replacement p).
      pose proof (say_proceeds w8 sid Store.tool
                    (renderToolMessage "write_file" (doc_fsPath document)
                                       (replacement p)) (proj1 E8)) as E9.
      set (w9 := say env w8 sid Store.tool
                   (renderToolMessage "write_file" (doc_fsPath document)
                                      (replacement p))) in *.
      pose proof (say_proceeds w9 sid Store.agent
                    "✅ Fix applied. Please review and run your tests." (proj1 E9))
        as E10.
      pose proof (updateSessionStatus_proceeds _ sid Store.completed (proj1 E10)) as E11.
      pose proof (advances_proceeds sid _ _ _ _ _ _
                    (advances_trans sid _ _ _ _ _ _ _ _ _
                       (advances_proceeds sid _ _ _ _ _ _ E16 E7) E8)
                    (proceeds_trans sid _ _ _ E9 (proceeds_trans sid _ _ _ E10 E11)))
        as T.
      cbn [app Nat.add] in T.
      split; [apply P; reflexivity|]. split; [exact T|].
      split; [exact Ch|]. split; [exact Ae|]. split.
      * eapply (reviewApproved_advances sid _ _ _ _ w3 _ R3).
        exact (advances_proceeds sid _ _ _ _ _ _
                 (advances_trans sid _ _ _ _ _ _ _ _ _
                    (advances_proceeds sid _ _ _ _ _ _
                       (advances_trans sid _ _ _ _ _ _ _ _ _
                          (proceeds_advances _ _ _ (proceeds_trans sid _ _ _ E4 E5)) E6)
                       E7) E8)
                 (proceeds_trans sid _ _ _ E9 (proceeds_trans sid _ _ _ E10 E11))).
      * apply say_then_status. exact (proj1 E9).
    + subst w8. eexists.
      exact (advances_proceeds sid _ _ _ _ _ _ E16 E7).
  - right. eexists. split.
    + pose proof (say_proceeds w6 sid Store.agent
                    "⏸️ Fix application cancelled by user." (proj1 E6)) as E7.
      pose proof (updateSessionStatus_proceeds _ sid Store.completed (proj1 E7)) as E8.
      exact (advances_proceeds sid _ _ _ _ _ _ E16 (proceeds_trans sid _ _ _ E7 E8)).
    + right. split; [apply say_then_status; exact (proj1 E6)|].
      intro Hc. apply optEqb_eq in Hc. congruence.
Qed.

Lemma createSession_surface (w : World) (type : Store.ChatSessionType)
  (title : option string) (metadata : option Store.Metadata) :
  saves (fst (createSession env w type title metadata)) = saves w /\
  notices (fst (createSession env w type title metadata)) = notices w.
Proof.
  split; reflexivity.
Qed.

Lemma advances_fields (sid : string) (n : list (NoticeKind * string))
  (e : list WorkspaceEdit) (k : nat) (w0 w w' : World) :
  advances sid n e k w w' ->
  chats w = chats w0 -> edits w = edits w0 -> saves w = saves w0 ->
  notices w = notices w0 ->
  advances sid n e k w0 w'.
Proof.
  intros [F [C [E [S N]]]] C0 E0 S0 N0. unfold advances.
  rewrite <- C0, <- E0, <- S0, <- N0. repeat split; assumption.
Qed.

(** X16. Whatever the provider answers, a run of the fix agent ends in
    one of four ways, for every revision bound ([run] is [runWith] with the
    bound of the source).  Either exactly one edit was applied and the
    document saved once: then the edit replaces the context lines of the
    diagnostic with a text that is not empty, a review call of this run was
    answered with an approval, the notice that asks for consent was shown,
    the user chose [Apply Fix], the editor accepted the edit, and the
    session ends [completed] with the message that the fix was applied.  Or
    no edit was applied and nothing saved, and the session ends [completed]
    with the message that the approval agent could not sign off, or
    [completed] with the message that the user cancelled (the user did not
    choose [Apply Fix]), or in the status [error] with a message that
    carries the error.  The session is never left [running]. *)
Theorem run_outcomes :
  forall (bound : nat) (w : World) (document : TextDocument) (diagnostic : Diagnostic),
    let w' := fst (runWith env bound w document diagnostic) in
    let sid := Store.sess_id (snd (runWith env bound w document diagnostic)) in
    (exists text,
       text <> EmptyString /\
       edits w' = (edits w ++ [contextEdit document diagnostic text])%list /\
       saves w' = saves w + 1 /\
       notices w' = (notices w ++ [approvalNotice])%list /\
       env_userChoice env = Some APPLY_ACTION /\
       env_applyEdit env = true /\
       reviewApproved env (List.length (chats w)) w' /\
       sessionEndOf w' sid = Some (Store.completed, Some appliedText))
    \/
    (edits w' = edits w /\
     saves w' = saves w /\
     (sessionEndOf w' sid = Some (Store.completed, Some signOffText)
      \/
      (sessionEndOf w' sid = Some (Store.completed, Some cancelledText) /\
       env_userChoice env <> Some APPLY_ACTION)
      \/
      exists e, sessionEndOf w' sid = Some (Store.error, Some (failedText e)))).
Proof.
  intros bound w document diagnostic. cbv zeta. unfold runWith.
  pose proof (createSession_found env w Store.FIX
                (Some (buildSessionTitle document diagnostic))
                (Some [("filePath", Some (doc_fsPath document));
                       ("diagnosticCode", diag_code diagnostic);
                       ("vulnerabilityMessage", Some (diag_message diagnostic))]))
    as [F0 [C0 D0]].
  pose proof (createSession_surface w Store.FIX
                (Some (buildSessionTitle document diagnostic))
                (Some [("filePath", Some (doc_fsPath document));
                       ("diagnosticCode", diag_code diagnostic);
                       ("vulnerabilityMessage", Some (diag_message diagnostic))]))
    as [S0 N0].
  destruct (createSession env w Store.FIX
              (Some (buildSessionTitle document diagnostic))
              (Some [("filePath", Some (doc_fsPath document));
                     ("diagnosticCode", diag_code diagnostic);
                     ("vulnerabilityMessage", Some (diag_message diagnostic))]))
    as [w1 session].
  cbn [fst snd] in F0, C0, D0, S0, N0.
  set (sid := Store.sess_id session) in *.
  assert (E1 : proceeds sid (reveal w1)
                 (updateSessionStatus env (reveal w1) sid Store.running))
    by (apply updateSessionStatus_proceeds; exact F0).
  set (w2 := updateSessionStatus env (reveal w1) sid Store.running) in *.
  pose proof (say_proceeds w2 sid Store.agent
                ("🚀 Starting AI-assisted fix for **" ++ doc_baseName document
                 ++ "** at line " ++ Js.intToString (diag_startLine diagnostic + 1) ++ ".")
                (proj1 E1)) as E2.
  set (w3 := say env w2 sid Store.agent
               ("🚀 Starting AI-assisted fix for **" ++ doc_baseName document
                ++ "** at line " ++ Js.intToString (diag_startLine diagnostic + 1) ++ "."))
    in *.
  pose proof (say_proceeds w3 sid Store.agent
                ("⚠️ Issue detected: " ++ diag_message diagnostic) (proj1 E2)) as E3.
  set (w4 := say env w3 sid Store.agent
               ("⚠️ Issue detected: " ++ diag_message diagnostic)) in *.
  pose proof (proceeds_trans sid _ _ _ E1 (proceeds_trans sid _ _ _ E2 E3)) as E14.
  pose proof (proceeds_length sid _ _ E14) as L4.
  change (chats (reveal w1)) with (chats w1) in L4. rewrite C0 in L4.
  pose proof (tryRun_cases bound w4 sid document diagnostic (proj1 E3)) as T.
  destruct (tryRun env bound w4 sid document diagnostic) as [w5 [u|e]];
    cbn [fst snd] in T |- *.
  - destruct T as [[text [Ht [Adv [Ch [Ae [R End]]]]]] | [shown [Adv Ends]]].
    + left. exists text.
      pose proof (advances_fields sid _ _ _ w _ _
                    (advances_trans sid _ _ _ _ _ _ _ _ _
                       (proceeds_advances _ _ _ E14) Adv) C0 D0 S0 N0)
        as [_ [_ [De [Sa No]]]].
      cbn [app Nat.add] in De, Sa, No.
      split; [exact Ht|]. split; [exact De|]. split; [exact Sa|]. split; [exact No|].
      split; [exact Ch|]. split; [exact Ae|]. split; [|exact End].
      apply (reviewApproved_later (List.length (chats w4)) _ w5 w5 R); [|exact L4].
      exists []. rewrite app_nil_r. reflexivity.
    + right.
      pose proof (advances_fields sid _ _ _ w _ _
                    (advances_trans sid _ _ _ _ _ _ _ _ _
                       (proceeds_advances _ _ _ E14) Adv) C0 D0 S0 N0)
        as [_ [_ [De [Sa _]]]].
      cbn [app Nat.add] in De, Sa. rewrite app_nil_r in De. rewrite Nat.add_0_r in Sa.
      split; [exact De|]. split; [exact Sa|].
      destruct Ends as [End | End]; [left; exact End | right; left; exact End].
  - destruct T as [shown Adv]. right.
    assert (F5 : found (logError w5 "FixAgent failed") sid = true) by exact (proj1 Adv).
    pose proof (say_proceeds (logError w5 "FixAgent failed") sid Store.agent
                  ("❌ Failed to complete the fix: " ++ e) F5) as E6.
    pose proof (updateSessionStatus_proceeds _ sid Store.error (proj1 E6)) as E7.
    pose proof (proceeds_trans sid _ _ _ E6 E7) as [_ [_ [De [Sa _]]]].
    pose proof (advances_fields sid _ _ _ w _ _
                  (advances_trans sid _ _ _ _ _ _ _ _ _
                     (proceeds_advances _ _ _ E14) Adv) C0 D0 S0 N0)
      as [_ [_ [De' [Sa' _]]]].
    cbn [app Nat.add] in De', Sa'. rewrite app_nil_r in De'. rewrite Nat.add_0_r in Sa'.
    change (edits (logError w5 "FixAgent failed")) with (edits w5) in De.
    change (saves (logError w5 "FixAgent failed")) with (saves w5) in Sa.
    split; [congruence|]. split; [congruence|].
    right. right. exists e. apply say_then_status. exact F5.
Qed.

Lemma extends_length (sid : string) (w w' : World) :
  extends sid [] w w' -> List.length (chats w') = List.length (chats w).
Proof.
  intros [_ [C _]]. rewrite C, app_nil_r. reflexivity.
Qed.

Lemma requestFix_result (w : World) (sid : string) (document : TextDocument)
  (diagnostic : Diagnostic) (context : FixContext) (attempt : nat)
  (feedback : list string) :
  found w sid = true ->
  chats (fst (requestFix env w sid document diagnostic context attempt feedback))
  = (chats w ++ [proposeCall (buildFixPrompt document diagnostic context attempt
                                              feedback)])%list /\
  snd (requestFix env w sid document diagnostic context attempt feedback)
  = proposalOf
      (answerOf env (List.length (chats w))
         (proposeCall (buildFixPrompt document diagnostic context attempt feedback))).
Proof.
  intro H. unfold requestFix.
  pose proof (say_extends env w sid Store.agent (requestingText attempt) H) as E1.
  set (w1 := say env w sid Store.agent (requestingText attempt)) in *.
  destruct (addMessage_extends env w1 sid
              (Store.pendingMessage Store.assistant EmptyString) (proj1 E1)) as [E2 N].
  destruct (addMessage env w1 sid (Store.pendingMessage Store.assistant EmptyString))
    as [w2 [message|]]; [|contradiction]. cbn [fst] in E2.
  set (prompt := buildFixPrompt document diagnostic context attempt feedback).
  rewrite (surjective_pairing
             (callChat env w2 (userPrompt prompt) (onlySystem fixSystemPrompt)
                {| onToken := true; onStart := false; onComplete := true |})).
  set (w3 := fst (callChat env w2 (userPrompt prompt) (onlySystem fixSystemPrompt)
                    {| onToken := true; onStart := false; onComplete := true |})).
  set (run := snd (callChat env w2 (userPrompt prompt) (onlySystem fixSystemPrompt)
                     {| onToken := true; onStart := false; onComplete := true |})).
  assert (C3 : chats w3 = (chats w2 ++ [proposeCall prompt])%list) by reflexivity.
  assert (A : outcome run = answerOf env (List.length (chats w2)) (proposeCall prompt))
    by reflexivity.
  assert (T : forall t, outcome run = Returned t ->
                        Js.concatAll (tokenFragments (events run)) = t).
  { intros t Ht.
    exact (serviceChat_tokens (env_nm env) (env_fetch env (List.length (chats w2)))
             (env_provider env) (userPrompt prompt) (onlySystem fixSystemPrompt)
             {| onToken := true; onStart := false; onComplete := true |} t eq_refl Ht). }
  assert (F3 : found w3 sid = true) by exact (proj1 E2).
  destruct (fold_onFixEvent env sid (Store.msg_id message) (events run) w3 EmptyString F3)
    as [w4 [F E4]].
  rewrite F.
  rewrite (extends_length sid _ _ E2), (extends_length sid _ _ E1) in A.
  rewrite <- A.
  assert (C4 : chats w4 = (chats w ++ [proposeCall prompt])%list).
  { destruct E1 as [_ [A1 _]], E2 as [_ [A2 _]], E4 as [_ [A4 _]].
    rewrite A4, C3, A2, A1, !app_nil_r. reflexivity. }
  destruct (outcome run) as [text|e]; cbn [fst snd proposalOf].
  - rewrite (T text eq_refl). unfold replacementOf.
    change (EmptyString ++ text)%string with text.
    destruct (Js.isEmpty
                match Approval.extractCodeBlock text with
                | Some block => block
                | None => Js.trim text
                end); cbn [fst snd]; split; trivial.
  - split; trivial.
Qed.

Lemma reviewFix_result (w : World) (sid : string) (document : TextDocument)
  (diagnostic : Diagnostic) (context : FixContext) (proposal : Proposal)
  (attempt : nat) (feedback : list string) :
  found w sid = true ->
  chats (fst (reviewFix env w sid document diagnostic context proposal attempt feedback))
  = (chats w ++ [reviewCall (buildApprovalPrompt document diagnostic context proposal
                                                  attempt feedback)])%list /\
  snd (reviewFix env w sid document diagnostic context proposal attempt feedback)
  = match answerOf env (List.length (chats w))
            (reviewCall (buildApprovalPrompt document diagnostic context proposal
                                             attempt feedback)) with
    | Returned response =>
        Returned (Approval.parseApprovalResponse (env_nm env) response)
    | Threw e => Threw e
    end.
Proof.
  intro H. unfold reviewFix.
  pose proof (say_extends env w sid Store.agent reviewingText H) as E1.
  set (w1 := say env w sid Store.agent reviewingText) in *.
  set (prompt := buildApprovalPrompt document diagnostic context proposal attempt
                                     feedback).
  rewrite (surjective_pairing
             (callChat env w1 (userPrompt prompt) (onlySystem approvalSystemPrompt)
                       noCallbacks)).
  set (w2 := fst (callChat env w1 (userPrompt prompt) (onlySystem approvalSystemPrompt)
                           noCallbacks)).
  set (run := snd (callChat env w1 (userPrompt prompt)
                            (onlySystem approvalSystemPrompt) noCallbacks)).
  assert (C2 : chats w2 = (chats w1 ++ [reviewCall prompt])%list) by reflexivity.
  assert (A : outcome run = answerOf env (List.length (chats w1)) (reviewCall prompt))
    by reflexivity.
  assert (F2 : found w2 sid = true) by exact (proj1 E1).
  rewrite (extends_length sid _ _ E1) in A. rewrite <- A.
  destruct E1 as [_ [A1 _]]. rewrite A1, app_nil_r in C2.
  destruct (outcome run) as [response|e]; cbn [fst snd].
  - split; [|reflexivity].
    destruct (say_extends env w2 sid Store.assistant
                (displayMessage (Approval.parseApprovalResponse (env_nm env) response))
                F2) as [_ [A3 _]].
    rewrite A3, C2, app_nil_r. reflexivity.
  - split; [exact C2 | reflexivity].
Qed.

Lemma say_chats (w : World) (sid : string) (role : Store.ChatMessageRole)
  (text : string) :
  chats (say env w sid role text) = chats w.
Proof.
  unfold say, addMessage.
  destruct (Store.addMessage _ _ _ _ _ _) as [m [r|]]; reflexivity.
Qed.

Lemma revisionLoop_first (bound : nat) (w : World) (sid : string)
  (document : TextDocument) (diagnostic : Diagnostic) (context : FixContext) :
  found w sid = true ->
  1 <= bound ->
  exists w',
    proceeds sid w w' /\
    match proposalOf (answerOf env (List.length (chats w))
                        (proposeCall (buildFixPrompt document diagnostic context 1 [])))
    with
    | Threw e =>
        revisionLoop env bound bound w sid document diagnostic context
          {| attempt := 0; revisionFeedback := []; proposal := None; approval := None |}
        = (w', Threw e) /\
        chats w' = (chats w ++ [proposeCall (buildFixPrompt document diagnostic context
                                                           1 [])])%list
    | Returned p =>
        chats w' = (chats w ++ [proposeCall (buildFixPrompt document diagnostic context
                                                           1 []);
                                reviewCall (buildApprovalPrompt document diagnostic
                                              context p 1 [])])%list /\
        match answerOf env (S (List.length (chats w)))
                (reviewCall (buildApprovalPrompt document diagnostic context p 1 []))
        with
        | Threw e =>
            revisionLoop env bound bound w sid document diagnostic context
              {| attempt := 0; revisionFeedback := []; proposal := None;
                 approval := None |}
            = (w', Threw e)
        | Returned response =>
            Approval.decision (Approval.parseApprovalResponse (env_nm env) response)
            = Approval.approve ->
            revisionLoop env bound bound w sid document diagnostic context
              {| attempt := 0; revisionFeedback := []; proposal := None;
                 approval := None |}
            = (w', Returned {| attempt := 1; revisionFeedback := [];
                               proposal := Some p;
                               approval := Some (Approval.parseApprovalResponse
                                                   (env_nm env) response) |})
        end
    end.
Proof.
  intros H Hb. destruct bound as [|b]; [lia|].
  cbn [revisionLoop attempt revisionFeedback Nat.ltb Nat.leb negb Nat.add].
  destruct (requestFix_proceeds w sid document diagnostic context 1 [] H) as [E2 _].
  destruct (requestFix_result w sid document diagnostic context 1 [] H) as [C2 R2].
  rewrite (surjective_pairing (requestFix env w sid document diagnostic context 1 [])).
  rewrite R2.
  set (w2 := fst (requestFix env w sid document diagnostic context 1 [])) in *.
  destruct (proposalOf
              (answerOf env (List.length (chats w))
                 (proposeCall (buildFixPrompt document diagnostic context 1 []))))
    as [p|e].
  2: { exists w2. split; [exact E2|]. split; [reflexivity | exact C2]. }
  destruct (reviewFix_proceeds w2 sid document diagnostic context p 1 [] (proj1 E2))
    as [E3 _].
  destruct (reviewFix_result w2 sid document diagnostic context p 1 [] (proj1 E2))
    as [C3 R3].
  rewrite (surjective_pairing (reviewFix env w2 sid document diagnostic context p 1 [])).
  rewrite R3.
  set (w3 := fst (reviewFix env w2 sid document diagnostic context p 1 [])) in *.
  assert (L2 : List.length (chats w2) = S (List.length (chats w)))
    by (rewrite C2, length_app, Nat.add_1_r; reflexivity).
  rewrite L2. rewrite C2, <- app_assoc in C3. cbn [app] in C3.
  exists w3. split; [exact (proceeds_trans sid _ _ _ E2 E3)|]. split; [exact C3|].
  destruct (answerOf env (S (List.length (chats w)))
              (reviewCall (buildApprovalPrompt document diagnostic context p 1 [])))
    as [response|e]; [|reflexivity].
  intro D. rewrite D. reflexivity.
Qed.

Lemma say_metadata (w : World) (sid : string) (role : Store.ChatMessageRole)
  (text : string) :
  option_map Store.sess_metadata
    (Store.getSession (manager (say env w sid role text)) sid)
  = option_map Store.sess_metadata (Store.getSession (manager w) sid).
Proof.
  unfold say, addMessage, Store.addMessage, Store.getSession.
  destruct (find (Store.hasId sid) (Store.sessions (manager w))) as [s|] eqn:Hs;
    cbn [fst manager withManager Store.sessions Store.emitState Store.persist
         Store.withSessions].
  - rewrite (find_updateFirst _ _ _ _ Hs) by reflexivity. reflexivity.
  - rewrite Hs. reflexivity.
Qed.

Lemma updateSessionStatus_metadata (w : World) (sid : string)
  (status : Store.ChatSessionStatus) :
  option_map Store.sess_metadata
    (Store.getSession (manager (updateSessionStatus env w sid status)) sid)
  = option_map Store.sess_metadata (Store.getSession (manager w) sid).
Proof.
  unfold updateSessionStatus, Store.updateSessionStatus, Store.getSession.
  destruct (find (Store.hasId sid) (Store.sessions (manager w))) as [s|] eqn:Hs;
    cbn [fst manager withManager Store.sessions Store.emitState Store.persist
         Store.withSessions].
  - rewrite (find_updateFirst _ _ _ _ Hs) by reflexivity. reflexivity.
  - rewrite Hs. reflexivity.
Qed.

Lemma metadataAt_same (w w' : World) (sid key : string) :
  option_map Store.sess_metadata (Store.getSession (manager w') sid)
  = option_map Store.sess_metadata (Store.getSession (manager w) sid) ->
  metadataAt w' sid key = metadataAt w sid key.
Proof.
  unfold metadataAt, metadataOf.
  destruct (Store.getSession (manager w') sid) as [s'|],
           (Store.getSession (manager w) sid) as [s|]; cbn [option_map]; intro H;
    try discriminate; [|reflexivity].
  injection H as ->. reflexivity.
Qed.

Lemma updateSessionMetadata_at (w : World) (sid key : string) (md : Store.Metadata) :
  found w sid = true ->
  metadataAt (updateSessionMetadata env w sid md) sid key
  = match metadataGet (rev md) key with
    | Some v => Some v
    | None => metadataAt w sid key
    end.
Proof.
  intro H. destruct (found_inv _ _ H) as [s Hs].
  unfold metadataAt, updateSessionMetadata, Store.updateSessionMetadata, Store.getSession.
  rewrite Hs.
  cbn [manager withManager Store.sessions Store.emitState Store.persist
       Store.withSessions].
  rewrite (find_updateFirst _ _ _ _ Hs) by reflexivity.
  unfold metadataOf at 1. cbn [Store.setMetadata Store.sess_metadata].
  unfold Store.mergeMetadata. rewrite metadataGet_fold. reflexivity.
Qed.

Lemma runWith_start (bound : nat) (w : World) (document : TextDocument)
  (diagnostic : Diagnostic) :
  exists w4,
    found w4 (Store.sess_id (snd (runWith env bound w document diagnostic))) = true /\
    chats w4 = chats w /\ edits w4 = edits w /\ saves w4 = saves w /\
    notices w4 = notices w /\
    fst (runWith env bound w document diagnostic)
    = match tryRun env bound w4
              (Store.sess_id (snd (runWith env bound w document diagnostic)))
              document diagnostic with
      | (w5, Returned _) => w5
      | (w5, Threw e) =>
          updateSessionStatus env
            (say env (logError w5 "FixAgent failed")
               (Store.sess_id (snd (runWith env bound w document diagnostic)))
               Store.agent (failedText e))
            (Store.sess_id (snd (runWith env bound w document diagnostic))) Store.error
      end.
Proof.
  unfold runWith.
  pose proof (createSession_found env w Store.FIX
                (Some (buildSessionTitle document diagnostic))
                (Some [("filePath", Some (doc_fsPath document));
                       ("diagnosticCode", diag_code diagnostic);
                       ("vulnerabilityMessage", Some (diag_message diagnostic))]))
    as [F0 [C0 D0]].
  pose proof (createSession_surface w Store.FIX
                (Some (buildSessionTitle document diagnostic))
                (Some [("filePath", Some (doc_fsPath document));
                       ("diagnosticCode", diag_code diagnostic);
                       ("vulnerabilityMessage", Some (diag_message diagnostic))]))
    as [S0 N0].
  destruct (createSession env w Store.FIX
              (Some (buildSessionTitle document diagnostic))
              (Some [("filePath", Some (doc_fsPath document));
                     ("diagnosticCode", diag_code diagnostic);
                     ("vulnerabilityMessage", Some (diag_message diagnostic))]))
    as [w1 session].
  cbn [fst snd] in F0, C0, D0, S0, N0.
  set (sid := Store.sess_id session) in *.
  assert (E1 : proceeds sid (reveal w1)
                 (updateSessionStatus env (reveal w1) sid Store.running))
    by (apply updateSessionStatus_proceeds; exact F0).
  set (w2 := updateSessionStatus env (reveal w1) sid Store.running) in *.
  pose proof (say_proceeds w2 sid Store.agent
                ("🚀 Starting AI-assisted fix for **" ++ doc_baseName document
                 ++ "** at line " ++ Js.intToString (diag_startLine diagnostic + 1) ++ ".")
                (proj1 E1)) as E2.
  set (w3 := say env w2 sid Store.agent
               ("🚀 Starting AI-assisted fix for **" ++ doc_baseName document
                ++ "** at line " ++ Js.intToString (diag_startLine diagnostic + 1) ++ "."))
    in *.
  pose proof (say_proceeds w3 sid Store.agent
                ("⚠️ Issue detected: " ++ diag_message diagnostic) (proj1 E2)) as E3.
  set (w4 := say env w3 sid Store.agent
               ("⚠️ Issue detected: " ++ diag_message diagnostic)) in *.
  pose proof (proceeds_trans sid _ _ _ E1 (proceeds_trans sid _ _ _ E2 E3))
    as [F4 [_ [D4 [S4 N4]]]].
  assert (C4 : chats w4 = chats w).
  { unfold w4, w3. rewrite !say_chats. exact C0. }
  exists w4.
  assert (Sn : snd (let (w5, o) := tryRun env bound w4 sid document diagnostic in
                    match o with
                    | Returned _ => (w5, session)
                    | Threw e =>
                        (updateSessionStatus env
                           (say env (logError w5 "FixAgent failed") sid Store.agent
                              ("❌ Failed to complete the fix: " ++ e)) sid Store.error,
                         session)
                    end) = session)
    by (destruct (tryRun env bound w4 sid document diagnostic) as [w5 [u|e]];
        reflexivity).
  rewrite Sn. fold sid.
  split; [exact F4|]. split; [exact C4|].
  split; [rewrite D4; exact D0|]. split; [rewrite S4; exact S0|].
  split; [rewrite N4; exact N0|].
  destruct (tryRun env bound w4 sid document diagnostic) as [w5 [u|e]]; reflexivity.
Qed.

Lemma failure_end (w : World) (sid e : string) :
  found w sid = true ->
  chats (updateSessionStatus env
           (say env (logError w "FixAgent failed") sid Store.agent (failedText e))
           sid Store.error) = chats w /\
  edits (updateSessionStatus env
           (say env (logError w "FixAgent failed") sid Store.agent (failedText e))
           sid Store.error) = edits w /\
  saves (updateSessionStatus env
           (say env (logError w "FixAgent failed") sid Store.agent (failedText e))
           sid Store.error) = saves w /\
  notices (updateSessionStatus env
             (say env (logError w "FixAgent failed") sid Store.agent (failedText e))
             sid Store.error) = notices w /\
  sessionEndOf (updateSessionStatus env
                  (say env (logError w "FixAgent failed") sid Store.agent (failedText e))
                  sid Store.error) sid
  = Some (Store.error, Some (failedText e)).
Proof.
  intro H.
  assert (F : found (logError w "FixAgent failed") sid = true) by exact H.
  pose proof (say_proceeds _ sid Store.agent (failedText e) F) as E1.
  pose proof (updateSessionStatus_proceeds _ sid Store.error (proj1 E1)) as E2.
  destruct (proceeds_trans sid _ _ _ E1 E2) as [_ [_ [D [S N]]]].
  split; [|split; [exact D | split; [exact S | split; [exact N|]]]].
  - change (chats (say env (logError w "FixAgent failed") sid Store.agent (failedText e))
            = chats w).
    rewrite say_chats. reflexivity.
  - apply say_then_status. exact F.
Qed.

Lemma tryRun_first (bound : nat) (w : World) (sid : string) (document : TextDocument)
  (diagnostic : Diagnostic) :
  found w sid = true ->
  1 <= bound ->
  match proposalOf (answerOf env (List.length (chats w))
                      (firstPropose document diagnostic)) with
  | Threw e =>
      exists w',
        tryRun env bound w sid document diagnostic = (w', Threw e) /\
        proceeds sid w w' /\
        chats w' = (chats w ++ [firstPropose document diagnostic])%list
  | Returned p =>
      match answerOf env (S (List.length (chats w)))
              (reviewCall (buildApprovalPrompt document diagnostic
                             (buildContext document diagnostic) p 1 [])) with
      | Threw e =>
          exists w',
            tryRun env bound w sid document diagnostic = (w', Threw e) /\
            proceeds sid w w' /\
            chats w' = (chats w ++ [firstPropose document diagnostic;
                                    reviewCall (buildApprovalPrompt document diagnostic
                                                  (buildContext document diagnostic)
                                                  p 1 [])])%list
      | Returned response =>
          Approval.decision (Approval.parseApprovalResponse (env_nm env) response)
          = Approval.approve ->
          found (fst (tryRun env bound w sid document diagnostic)) sid = true /\
          chats (fst (tryRun env bound w sid document diagnostic))
          = (chats w ++ [firstPropose document diagnostic;
                         reviewCall (buildApprovalPrompt document diagnostic
                                       (buildContext document diagnostic)
                                       p 1 [])])%list /\
          notices (fst (tryRun env bound w sid document diagnostic))
          = (notices w ++ [approvalNotice])%list /\
          metadataAt (fst (tryRun env bound w sid document diagnostic)) sid "fixProposal"
          = Some (Some (raw p)) /\
          metadataAt (fst (tryRun env bound w sid document diagnostic)) sid
                     "approvalNotes"
          = Some (Some (Approval.notes
                          (Approval.parseApprovalResponse (env_nm env) response))) /\
          if Store.optEqb (env_userChoice env) (Some APPLY_ACTION) then
            if env_applyEdit env then
              snd (tryRun env bound w sid document diagnostic) = Returned tt /\
              edits (fst (tryRun env bound w sid document diagnostic))
              = (edits w ++ [contextEdit document diagnostic (replacement p)])%list /\
              saves (fst (tryRun env bound w sid document diagnostic)) = saves w + 1 /\
              sessionEndOf (fst (tryRun env bound w sid document diagnostic)) sid
              = Some (Store.completed, Some appliedText)
            else
              snd (tryRun env bound w sid document diagnostic)
              = Threw "VS Code rejected the workspace edit." /\
              edits (fst (tryRun env bound w sid document diagnostic)) = edits w /\
              saves (fst (tryRun env bound w sid document diagnostic)) = saves w
          else
            snd (tryRun env bound w sid document diagnostic) = Returned tt /\
            edits (fst (tryRun env bound w sid document diagnostic)) = edits w /\
            saves (fst (tryRun env bound w sid document diagnostic)) = saves w /\
            sessionEndOf (fst (tryRun env bound w sid document diagnostic)) sid
            = Some (Store.completed, Some cancelledText)
      end
  end.
Proof.
  intros H Hb. unfold tryRun, firstPropose.
  set (context := buildContext document diagnostic).
  pose proof (say_proceeds w sid Store.agent
                "🔍 Gathering code context with `read_file` tool..." H) as E1.
  set (v1 := say env w sid Store.agent
               "🔍 Gathering code context with `read_file` tool...") in *.
  pose proof (say_proceeds v1 sid Store.tool
                (renderToolMessage "read_file" (doc_fsPath document) (snippet context))
                (proj1 E1)) as E2.
  set (v2 := say env v1 sid Store.tool
               (renderToolMessage "read_file" (doc_fsPath document) (snippet context)))
    in *.
  assert (C2 : chats v2 = chats w) by (unfold v2, v1; rewrite !say_chats; reflexivity).
  destruct (revisionLoop_first bound v2 sid document diagnostic context (proj1 E2) Hb)
    as [v3 [E3 M]].
  rewrite C2 in M.
  pose proof (proceeds_trans sid _ _ _ E1 (proceeds_trans sid _ _ _ E2 E3)) as E13.
  destruct (proposalOf
              (answerOf env (List.length (chats w))
                 (proposeCall (buildFixPrompt document diagnostic context 1 []))))
    as [p|e].
  2: { destruct M as [L C3]. rewrite L. exists v3.
       split; [reflexivity|]. split; [exact E13 | exact C3]. }
  destruct M as [C3 M].
  destruct (answerOf env (S (List.length (chats w)))
              (reviewCall (buildApprovalPrompt document diagnostic context p 1 [])))
    as [response|e].
  2: { rewrite M. exists v3. split; [reflexivity|]. split; [exact E13 | exact C3]. }
  intro D. rewrite (M D). cbn [proposal approval].
  destruct (Approval.parseApprovalResponse (env_nm env) response) as [d approvalNotes].
  cbn [Approval.decision Approval.notes] in D |- *. subst d.
  pose proof (updateSessionStatus_proceeds v3 sid Store.idle (proj1 E3)) as E4.
  set (v4 := updateSessionStatus env v3 sid Store.idle) in *.
  pose proof (updateSessionMetadata_proceeds v4 sid
                [("fixProposal", Some (raw p)); ("approvalNotes", Some approvalNotes)]
                (proj1 E4)) as E5.
  assert (M5 : forall key,
             metadataAt (updateSessionMetadata env v4 sid
                           [("fixProposal", Some (raw p));
                            ("approvalNotes", Some approvalNotes)]) sid key
             = match metadataGet (rev [("fixProposal", Some (raw p));
                                       ("approvalNotes", Some approvalNotes)]) key with
               | Some v => Some v
               | None => metadataAt v4 sid key
               end)
    by (intro key; apply updateSessionMetadata_at; exact (proj1 E4)).
  set (v5 := updateSessionMetadata env v4 sid
               [("fixProposal", Some (raw p)); ("approvalNotes", Some approvalNotes)])
    in *.
  pose proof (proceeds_trans sid _ _ _ E13 (proceeds_trans sid _ _ _ E4 E5)) as E15.
  pose proof (notify_advances sid v5 InfoNotice
                "Code Guardian generated an approved fix. Do you want to apply it?"
                (proj1 E5)) as E6.
  set (v6 := notify v5 InfoNotice
               "Code Guardian generated an approved fix. Do you want to apply it?") in *.
  pose proof (advances_trans sid _ _ _ _ _ _ _ _ _ (proceeds_advances _ _ _ E15) E6)
    as E16.
  cbn [app Nat.add] in E16.
  assert (C6 : chats v6 = chats v3) by reflexivity.
  assert (M6 : forall key, metadataAt v6 sid key = metadataAt v5 sid key)
    by reflexivity.
  assert (Mp : metadataAt v6 sid "fixProposal" = Some (Some (raw p)))
    by (rewrite M6, M5; reflexivity).
  assert (Mn : metadataAt v6 sid "approvalNotes" = Some (Some approvalNotes))
    by (rewrite M6, M5; reflexivity).
  destruct (Store.optEqb (env_userChoice env) (Some APPLY_ACTION)); cbn [negb].
  - pose proof (say_proceeds v6 sid Store.agent
                  "✍️ Applying changes with `write_file` tool..." (proj1 E6)) as E7.
    pose proof (say_metadata v6 sid Store.agent
                  "✍️ Applying changes with `write_file` tool...") as K7.
    pose proof (say_chats v6 sid Store.agent
                  "✍️ Applying changes with `write_file` tool...") as C7.
    set (v7 := say env v6 sid Store.agent
                 "✍️ Applying changes with `write_file` tool...") in *.
    pose proof (advances_proceeds sid _ _ _ _ _ _ E16 E7) as E17.
    unfold applyFix. destruct (env_applyEdit env).
    + set (v8 := {| manager := manager v7; ids := ids v7; ticks := ticks v7;
                    chats := chats v7; notices := notices v7;
                    edits := (edits v7
                              ++ [{| edit_path := doc_fsPath document;
                                     edit_startLine := startLine context;
                                     edit_endLine := endLine context;
                                     edit_text := replacement p |}])%list;
                    saves := S (saves v7); reveals := reveals v7;
                    console := console v7 |}).
      assert (F8 : found v8 sid = true) by exact (proj1 E7).
      pose proof (say_proceeds v8 sid Store.tool
                    (renderToolMessage "write_file" (doc_fsPath document)
                                       (replacement p)) F8) as E9.
      pose proof (say_metadata v8 sid Store.tool
                    (renderToolMessage "write_file" (doc_fsPath document)
                                       (replacement p))) as K9.
      pose proof (say_chats v8 sid Store.tool
                    (renderToolMessage "write_file" (doc_fsPath document)
                                       (replacement p))) as C9.
      set (v9 := say env v8 sid Store.tool
                   (renderToolMessage "write_file" (doc_fsPath document)
                                      (replacement p))) in *.
      pose proof (say_proceeds v9 sid Store.agent
                    "✅ Fix applied. Please review and run your tests." (proj1 E9))
        as E10.
      pose proof (say_metadata v9 sid Store.agent
                    "✅ Fix applied. Please review and run your tests.") as K10.
      pose proof (say_chats v9 sid Store.agent
                    "✅ Fix applied. Please review and run your tests.") as C10.
      set (v10 := say env v9 sid Store.agent
                    "✅ Fix applied. Please review and run your tests.") in *.
      pose proof (updateSessionStatus_proceeds v10 sid Store.completed (proj1 E10))
        as E11.
      pose proof (updateSessionStatus_metadata v10 sid Store.completed) as K11.
      cbn [fst snd].
      destruct (proceeds_trans sid _ _ _ E9 (proceeds_trans sid _ _ _ E10 E11))
        as [F11 [_ [D11 [S11 N11]]]].
      destruct E17 as [_ [_ [D7 [S7 N7]]]].
      rewrite app_nil_r in D7. rewrite Nat.add_0_r in S7.
      split; [exact F11|]. split.
      { change (chats v10 = (chats w ++ [proposeCall
                                           (buildFixPrompt document diagnostic context
                                                           1 []);
                                         reviewCall
                                           (buildApprovalPrompt document diagnostic
                                              context p 1 [])])%list).
        rewrite C10, C9. change (chats v8) with (chats v7). rewrite C7, C6. exact C3. }
      split; [rewrite N11; change (notices v8) with (notices v7); exact N7|].
      assert (K : option_map Store.sess_metadata
                    (Store.getSession
                       (manager (updateSessionStatus env v10 sid Store.completed)) sid)
                  = option_map Store.sess_metadata (Store.getSession (manager v6) sid)).
      { rewrite K11, K10, K9. change (manager v8) with (manager v7). exact K7. }
      split; [rewrite (metadataAt_same _ _ sid _ K); exact Mp|].
      split; [rewrite (metadataAt_same _ _ sid _ K); exact Mn|].
      split; [reflexivity|].
      split; [rewrite D11; change (edits v8) with
                (edits v7 ++ [contextEdit document diagnostic (replacement p)])%list;
              rewrite D7; reflexivity|].
      split; [rewrite S11; change (saves v8) with (S (saves v7)); rewrite S7; lia|].
      apply say_then_status. exact (proj1 E9).
    + cbn [fst snd].
      destruct E17 as [F7 [_ [D7 [S7 N7]]]].
      rewrite app_nil_r in D7. rewrite Nat.add_0_r in S7.
      split; [exact F7|]. split; [rewrite C7, C6; exact C3|].
      split; [exact N7|].
      split; [rewrite (metadataAt_same _ _ sid _ K7); exact Mp|].
      split; [rewrite (metadataAt_same _ _ sid _ K7); exact Mn|].
      split; [reflexivity|]. split; [exact D7 | exact S7].
  - pose proof (say_proceeds v6 sid Store.agent
                  "⏸️ Fix application cancelled by user." (proj1 E6)) as E7.
    pose proof (say_metadata v6 sid Store.agent
                  "⏸️ Fix application cancelled by user.") as K7.
    pose proof (say_chats v6 sid Store.agent
                  "⏸️ Fix application cancelled by user.") as C7.
    set (v7 := say env v6 sid Store.agent "⏸️ Fix application cancelled by user.") in *.
    pose proof (updateSessionStatus_proceeds v7 sid Store.completed (proj1 E7)) as E8.
    pose proof (updateSessionStatus_metadata v7 sid Store.completed) as K8.
    cbn [fst snd].
    destruct (advances_proceeds sid _ _ _ _ _ _ E16 (proceeds_trans sid _ _ _ E7 E8))
      as [F8 [_ [D8 [S8 N8]]]].
    rewrite app_nil_r in D8. rewrite Nat.add_0_r in S8.
    split; [exact F8|]. split.
    { change (chats v7 = (chats w ++ [proposeCall
                                        (buildFixPrompt document diagnostic context
                                                        1 []);
                                      reviewCall
                                        (buildApprovalPrompt document diagnostic
                                           context p 1 [])])%list).
      rewrite C7, C6. exact C3. }
    split; [exact N8|].
    assert (K : option_map Store.sess_metadata
                  (Store.getSession
                     (manager (updateSessionStatus env v7 sid Store.completed)) sid)
                = option_map Store.sess_metadata (Store.getSession (manager v6) sid))
      by (rewrite K8; exact K7).
    split; [rewrite (metadataAt_same _ _ sid _ K); exact Mp|].
    split; [rewrite (metadataAt_same _ _ sid _ K); exact Mn|].
    split; [reflexivity|]. split; [exact D8|]. split; [exact S8|].
    apply say_then_status. exact (proj1 E6).
Qed.

(** X17. When the provider fails, the run of the fix agent reports it in
    the session and changes nothing else.  If the first propose call
    throws, or returns a text from which no replacement can be taken (no
    code block and nothing but white space), or if the review call that
    follows a proposal throws, then no further call is made, no edit is
    applied, nothing is saved, no notice is shown, and the session ends in
    the status [error] with the message that carries the error: the one
    of the provider, or that the provider returned an empty fix. *)
Theorem run_provider_failure :
  forall (bound : nat) (w : World) (document : TextDocument) (diagnostic : Diagnostic),
    1 <= bound ->
    let w' := fst (runWith env bound w document diagnostic) in
    let sid := Store.sess_id (snd (runWith env bound w document diagnostic)) in
    (forall e,
       answerOf env (List.length (chats w)) (firstPropose document diagnostic) = Threw e ->
       chats w' = (chats w ++ [firstPropose document diagnostic])%list /\
       edits w' = edits w /\ saves w' = saves w /\ notices w' = notices w /\
       sessionEndOf w' sid = Some (Store.error, Some (failedText e))) /\
    (forall fullText,
       answerOf env (List.length (chats w)) (firstPropose document diagnostic)
       = Returned fullText ->
       replacementOf fullText = EmptyString ->
       chats w' = (chats w ++ [firstPropose document diagnostic])%list /\
       edits w' = edits w /\ saves w' = saves w /\ notices w' = notices w /\
       sessionEndOf w' sid
       = Some (Store.error, Some (failedText "Provider returned an empty fix."))) /\
    (forall fullText e,
       answerOf env (List.length (chats w)) (firstPropose document diagnostic)
       = Returned fullText ->
       replacementOf fullText <> EmptyString ->
       answerOf env (S (List.length (chats w))) (firstReview document diagnostic fullText)
       = Threw e ->
       chats w' = (chats w ++ [firstPropose document diagnostic;
                               firstReview document diagnostic fullText])%list /\
       edits w' = edits w /\ saves w' = saves w /\ notices w' = notices w /\
       sessionEndOf w' sid = Some (Store.error, Some (failedText e))).
Proof.
  intros bound w document diagnostic Hb. cbv zeta.
  destruct (runWith_start bound w document diagnostic)
    as [w4 [F4 [C4 [D4 [S4 [N4 Run]]]]]].
  set (sid := Store.sess_id (snd (runWith env bound w document diagnostic))) in *.
  pose proof (tryRun_first bound w4 sid document diagnostic F4 Hb) as T.
  rewrite C4 in T.
  assert (Failed : forall e calls v,
             tryRun env bound w4 sid document diagnostic = (v, Threw e) ->
             proceeds sid w4 v ->
             chats v = (chats w ++ calls)%list ->
             chats (fst (runWith env bound w document diagnostic))
             = (chats w ++ calls)%list /\
             edits (fst (runWith env bound w document diagnostic)) = edits w /\
             saves (fst (runWith env bound w document diagnostic)) = saves w /\
             notices (fst (runWith env bound w document diagnostic)) = notices w /\
             sessionEndOf (fst (runWith env bound w document diagnostic)) sid
             = Some (Store.error, Some (failedText e))).
  { intros e calls v L [F [_ [D [S N]]]] C. rewrite Run, L.
    destruct (failure_end v sid e F) as [Cf [Df [Sf [Nf End]]]].
    rewrite Cf, Df, Sf, Nf, C, D, S, N, D4, S4, N4. repeat split. exact End. }
  split; [|split].
  - intros e He. rewrite He in T. cbn [proposalOf] in T.
    destruct T as [v [L [E C]]]. exact (Failed e _ v L E C).
  - intros fullText He Hr. rewrite He in T. cbn [proposalOf] in T.
    rewrite Hr in T. cbn [Js.isEmpty] in T.
    destruct T as [v [L [E C]]]. exact (Failed _ _ v L E C).
  - intros fullText e He Hr Hv. rewrite He in T. cbn [proposalOf] in T.
    assert (Em : Js.isEmpty (replacementOf fullText) = false)
      by (destruct (replacementOf fullText); [contradiction | reflexivity]).
    rewrite Em in T. unfold firstReview in Hv |- *. rewrite Hv in T.
    destruct T as [v [L [E C]]]. exact (Failed e _ v L E C).
Qed.

(** X18. The approved path of the fix agent.  When the first propose call
    returns a text with a replacement (the content of its first fenced
    code block, or else the trimmed text) and the review call that
    follows is answered with an approval, then the run makes these two
    calls and no other, stores the raw answer and the approval notes in
    the metadata of the session, and asks the user for consent once.  If
    the user chooses [Apply Fix] and the editor accepts, exactly one edit
    replaces the context lines with the replacement, the document is saved
    and the session ends [completed] with the message that the fix was
    applied; if the editor rejects the edit, nothing is applied and the
    session ends in the status [error]; if the user chooses anything else
    or dismisses the notice, nothing is applied and the session ends
    [completed] with the message that the user cancelled. *)
Theorem run_approved_fix :
  forall (bound : nat) (w : World) (document : TextDocument) (diagnostic : Diagnostic)
         (fullText response : string),
    1 <= bound ->
    answerOf env (List.length (chats w)) (firstPropose document diagnostic)
    = Returned fullText ->
    replacementOf fullText <> EmptyString ->
    answerOf env (S (List.length (chats w))) (firstReview document diagnostic fullText)
    = Returned response ->
    Approval.decision (Approval.parseApprovalResponse (env_nm env) response)
    = Approval.approve ->
    let w' := fst (runWith env bound w document diagnostic) in
    let sid := Store.sess_id (snd (runWith env bound w document diagnostic)) in
    chats w' = (chats w ++ [firstPropose document diagnostic;
                            firstReview document diagnostic fullText])%list /\
    notices w' = (notices w ++ [approvalNotice])%list /\
    metadataAt w' sid "fixProposal" = Some (Some fullText) /\
    metadataAt w' sid "approvalNotes"
    = Some (Some (Approval.notes
                    (Approval.parseApprovalResponse (env_nm env) response))) /\
    (env_userChoice env = Some APPLY_ACTION ->
     env_applyEdit env = true ->
     edits w' = (edits w ++ [contextEdit document diagnostic
                                         (replacementOf fullText)])%list /\
     saves w' = saves w + 1 /\
     sessionEndOf w' sid = Some (Store.completed, Some appliedText)) /\
    (env_userChoice env = Some APPLY_ACTION ->
     env_applyEdit env = false ->
     edits w' = edits w /\
     saves w' = saves w /\
     sessionEndOf w' sid
     = Some (Store.error, Some (failedText "VS Code rejected the workspace edit."))) /\
    (env_userChoice env <> Some APPLY_ACTION ->
     edits w' = edits w /\
     saves w' = saves w /\
     sessionEndOf w' sid = Some (Store.completed, Some cancelledText)).
Proof.
  intros bound w document diagnostic fullText response Hb He Hr Hv Hd. cbv zeta.
  destruct (runWith_start bound w document diagnostic)
    as [w4 [F4 [C4 [D4 [S4 [N4 Run]]]]]].
  set (sid := Store.sess_id (snd (runWith env bound w document diagnostic))) in *.
  pose proof (tryRun_first bound w4 sid document diagnostic F4 Hb) as T.
  rewrite C4 in T. rewrite He in T. cbn [proposalOf] in T.
  assert (Em : Js.isEmpty (replacementOf fullText) = false)
    by (destruct (replacementOf fullText); [contradiction | reflexivity]).
  rewrite Em in T. unfold firstReview in Hv |- *. rewrite Hv in T.
  destruct (T Hd) as [F [C [N [Mp [Mn B]]]]]. clear T.
  cbn [raw replacement] in Mp, B.
  rewrite (surjective_pairing (tryRun env bound w4 sid document diagnostic)) in Run.
  set (v := fst (tryRun env bound w4 sid document diagnostic)) in *.
  destruct (Store.optEqb (env_userChoice env) (Some APPLY_ACTION)) eqn:Ch;
    [destruct (env_applyEdit env) eqn:Ae|].
  - destruct B as [Sn [D [S End]]]. rewrite Sn in Run. rewrite Run.
    rewrite C, N, N4, D, S, D4, S4.
    split; [reflexivity|]. split; [reflexivity|]. split; [exact Mp|].
    split; [exact Mn|]. split; [|split].
    + intros _ _. split; [reflexivity|]. split; [reflexivity | exact End].
    + intros _ H. discriminate H.
    + intro H. apply optEqb_eq in Ch. contradiction.
  - destruct B as [Sn [D S]]. rewrite Sn in Run. rewrite Run.
    destruct (failure_end v sid "VS Code rejected the workspace edit." F)
      as [Cf [Df [Sf [Nf End]]]].
    assert (K : forall key,
               metadataAt
                 (updateSessionStatus env
                    (say env (logError v "FixAgent failed") sid Store.agent
                       (failedText "VS Code rejected the workspace edit."))
                    sid Store.error) sid key
               = metadataAt v sid key).
    { intro key. apply metadataAt_same.
      rewrite updateSessionStatus_metadata, say_metadata. reflexivity. }
    rewrite !K, Cf, Df, Sf, Nf, C, N, N4, D, S, D4, S4.
    split; [reflexivity|]. split; [reflexivity|]. split; [exact Mp|].
    split; [exact Mn|]. split; [|split].
    + intros _ H. discriminate H.
    + intros _ _. split; [reflexivity|]. split; [reflexivity | exact End].
    + intro H. apply optEqb_eq in Ch. contradiction.
  - destruct B as [Sn [D [S End]]]. rewrite Sn in Run. rewrite Run.
    rewrite C, N, N4, D, S, D4, S4.
    split; [reflexivity|]. split; [reflexivity|]. split; [exact Mp|].
    split; [exact Mn|]. split; [|split].
    + intro H. apply optEqb_eq in H. congruence.
    + intro H. apply optEqb_eq in H. congruence.
    + intros _. split; [reflexivity|]. split; [reflexivity | exact End].
Qed.

Lemma applyFix_chats (w : World) (document : TextDocument) (context : FixContext)
  (text : string) :
  chats (fst (applyFix env w document context text)) = chats w.
Proof.
  unfold applyFix. destruct (env_applyEdit env); reflexivity.
Qed.

Lemma tryRun_chats (bound : nat) (w : World) (sid : string) (document : TextDocument)
  (diagnostic : Diagnostic) :
  chats (fst (tryRun env bound w sid document diagnostic))
  = chats (fst (revisionLoop env bound bound
                  (say env
                     (say env w sid Store.agent
                        "🔍 Gathering code context with `read_file` tool...")
                     sid Store.tool
                     (renderToolMessage "read_file" (doc_fsPath document)
                        (snippet (buildContext document diagnostic))))
                  sid document diagnostic (buildContext document diagnostic)
                  {| attempt := 0; revisionFeedback := []; proposal := None;
                     approval := None |})).
Proof.
  unfold tryRun.
  destruct (revisionLoop env bound bound _ sid document diagnostic
              (buildContext document diagnostic) _) as [w3 [st|e]];
    cbn [fst]; [|reflexivity].
  destruct (proposal st) as [p|]; [|reflexivity].
  destruct (approval st) as [[[|] approvalNotes]|]; cbn [fst];
    try (change (chats (say env w3 sid Store.agent signOffText) = chats w3);
         apply say_chats).
  destruct (negb (Store.optEqb (env_userChoice env) (Some APPLY_ACTION))); cbn [fst].
  - match goal with
    | |- chats (updateSessionStatus env (say env ?x _ _ _) _ _) = _ =>
        change (chats (say env x sid Store.agent
                         "⏸️ Fix application cancelled by user.") = chats w3)
    end.
    rewrite say_chats. reflexivity.
  - match goal with
    | |- context [applyFix env ?x document ?c ?t] =>
        pose proof (applyFix_chats x document c t) as A;
        destruct (applyFix env x document c t) as [w8 [u|e]]
    end; cbn [fst] in A |- *.
    + change (chats (say env
                       (say env w8 sid Store.tool
                          (renderToolMessage "write_file" (doc_fsPath document)
                             (replacement p)))
                       sid Store.agent
                       "✅ Fix applied. Please review and run your tests.") = chats w3).
      rewrite !say_chats, A, say_chats. reflexivity.
    + rewrite A, say_chats. reflexivity.
Qed.

Lemma revisionLoop_single (w : World) (sid : string) (document : TextDocument)
  (diagnostic : Diagnostic) (context : FixContext) :
  found w sid = true ->
  chats (fst (revisionLoop env 1 1 w sid document diagnostic context
                {| attempt := 0; revisionFeedback := []; proposal := None;
                   approval := None |}))
  = (chats w ++ [proposeCall (buildFixPrompt document diagnostic context 1 [])])%list
  \/
  exists p,
    chats (fst (revisionLoop env 1 1 w sid document diagnostic context
                  {| attempt := 0; revisionFeedback := []; proposal := None;
                     approval := None |}))
    = (chats w ++ [proposeCall (buildFixPrompt document diagnostic context 1 []);
                   reviewCall (buildApprovalPrompt document diagnostic context p
                                                   1 [])])%list.
Proof.
  intro H.
  cbn [revisionLoop attempt revisionFeedback Nat.ltb Nat.leb negb Nat.add].
  destruct (requestFix_proceeds w sid document diagnostic context 1 [] H) as [E2 _].
  destruct (requestFix_result w sid document diagnostic context 1 [] H) as [C2 _].
  destruct (requestFix env w sid document diagnostic context 1 []) as [w2 [p|e]];
    cbn [fst snd] in E2, C2 |- *; [|left; exact C2].
  destruct (reviewFix_result w2 sid document diagnostic context p 1 [] (proj1 E2))
    as [C3 _].
  rewrite C2, <- app_assoc in C3. cbn [app] in C3.
  destruct (reviewFix env w2 sid document diagnostic context p 1 []) as [w3 [a|e]];
    cbn [fst snd] in C3 |- *; [|right; exists p; exact C3].
  destruct (Approval.decision a); cbn [fst]; right; exists p; exact C3.
Qed.

(** X25. Whatever the provider answers, [FixAgent.run] never asks for a
    revision: it makes the first propose call and at most one review call
    after it, and no other call.  The messages, the feedback sections of
    the prompts and the second and third attempt that the loop provides
    for are never reached with the bound that the source fixes. *)
Theorem run_single_cycle :
  forall (w : World) (document : TextDocument) (diagnostic : Diagnostic),
    (chats (fst (run env w document diagnostic))
     = (chats w ++ [firstPropose document diagnostic])%list
     \/
     exists p,
       chats (fst (run env w document diagnostic))
       = (chats w ++ [firstPropose document diagnostic;
                      reviewCall (buildApprovalPrompt document diagnostic
                                    (buildContext document diagnostic) p 1 [])])%list) /\
    proposeCalls (fst (run env w document diagnostic)) = proposeCalls w + 1 /\
    reviewCalls (fst (run env w document diagnostic)) <= reviewCalls w + 1.
Proof.
  intros w document diagnostic. unfold run, maxAttempts.
  destruct (runWith_start 1 w document diagnostic) as [w4 [F4 [C4 [_ [_ [_ Run]]]]]].
  set (sid := Store.sess_id (snd (runWith env 1 w document diagnostic))) in *.
  assert (C : chats (fst (runWith env 1 w document diagnostic))
              = chats (fst (tryRun env 1 w4 sid document diagnostic))).
  { rewrite Run. destruct (tryRun env 1 w4 sid document diagnostic) as [w5 [u|e]];
      cbn [fst]; [reflexivity|].
    change (chats (say env (logError w5 "FixAgent failed") sid Store.agent
                     (failedText e)) = chats w5).
    rewrite say_chats. reflexivity. }
  rewrite tryRun_chats in C.
  pose proof (say_proceeds w4 sid Store.agent
                "🔍 Gathering code context with `read_file` tool..." F4) as E1.
  pose proof (say_proceeds _ sid Store.tool
                (renderToolMessage "read_file" (doc_fsPath document)
                   (snippet (buildContext document diagnostic))) (proj1 E1)) as E2.
  pose proof (revisionLoop_single _ sid document diagnostic
                (buildContext document diagnostic) (proj1 E2)) as L.
  rewrite !say_chats, C4 in L. rewrite <- C in L. unfold firstPropose.
  unfold proposeCalls, reviewCalls.
  destruct L as [L | [p L]]; rewrite L, !filter_app, !length_app.
  - split; [left; reflexivity|]. cbn. lia.
  - split; [right; exists p; reflexivity|].
    match goal with
    | |- context [proposeCall ?a :: reviewCall ?b :: nil] =>
        destruct (cycle_calls a b []) as [P Q]
    end.
    rewrite P, Q. cbn. lia.
Qed.

End AgentMore.

Section AgentWitnesses.

Import Ai.
Import Runtime.
Import FixAgent.
Import Notions.

Lemma run_provider_failure_witness :
  1 <= 1 /\
  answerOf keylessEnv (List.length (chats sampleWorld))
    (firstPropose sampleDocument sampleDiagnostic) = Threw openaiKeyError /\
  edits (fst (runWith keylessEnv 1 sampleWorld sampleDocument sampleDiagnostic))
  = edits sampleWorld /\
  sessionEndOf (fst (runWith keylessEnv 1 sampleWorld sampleDocument sampleDiagnostic))
    (Store.sess_id (snd (runWith keylessEnv 1 sampleWorld sampleDocument
                                 sampleDiagnostic)))
  = Some (Store.error, Some (failedText openaiKeyError)).
Proof.
  split; [lia|]. split; [reflexivity|].
  destruct (proj1 (run_provider_failure keylessEnv 1 sampleWorld sampleDocument
                     sampleDiagnostic (le_n 1)) openaiKeyError eq_refl)
    as [_ [D [_ [_ End]]]].
  split; [exact D | exact End].
Defined.

Lemma run_approved_fix_witness :
  1 <= 1 /\
  answerOf approvingEnv (List.length (chats sampleWorld))
    (firstPropose sampleDocument sampleDiagnostic) = Returned sampleFix /\
  replacementOf sampleFix = "safeEval(input)" /\
  edits (fst (runWith approvingEnv 1 sampleWorld sampleDocument sampleDiagnostic))
  = (edits sampleWorld
     ++ [contextEdit sampleDocument sampleDiagnostic (replacementOf sampleFix)])%list /\
  sessionEndOf (fst (runWith approvingEnv 1 sampleWorld sampleDocument sampleDiagnostic))
    (Store.sess_id (snd (runWith approvingEnv 1 sampleWorld sampleDocument
                                 sampleDiagnostic)))
  = Some (Store.completed, Some appliedText).
Proof.
  split; [lia|]. split; [reflexivity|]. split; [reflexivity|].
  assert (Hr : replacementOf sampleFix <> EmptyString) by (vm_compute; discriminate).
  destruct (proj1 (proj2 (proj2 (proj2 (proj2
             (run_approved_fix approvingEnv 1 sampleWorld sampleDocument
                sampleDiagnostic sampleFix (Js.q "{'decision':'approve','notes':'ok'}")
                (le_n 1) eq_refl Hr eq_refl eq_refl))))) eq_refl eq_refl)
    as [D [_ End]].
  split; [exact D | exact End].
Defined.

End AgentWitnesses.

(** ** The chat controller, on accepted input *)

Section ControllerMore.

Import Ai.
Import Runtime.
Import ChatController.
Import Notions.

Variable env : Env.
Variable sid : string.

Lemma quiet_refl (w : World) : quiet w w.
Proof.
  repeat split.
Qed.

Lemma quiet_trans (w w1 w2 : World) : quiet w w1 -> quiet w1 w2 -> quiet w w2.
Proof.
  intros [C1 [N1 E1]] [C2 [N2 E2]]. repeat split; congruence.
Qed.

Lemma sessionHas_lookup (w : World) (msgs : list Store.StoredChatMessage)
  (status : Store.ChatSessionStatus) (md : option Store.Metadata) :
  sessionHas w sid msgs status md ->
  messagesAt w sid = Some msgs /\ statusAt w sid = Some status.
Proof.
  intros [s [H [M [S _]]]]. unfold messagesAt, statusAt. rewrite H. cbn.
  rewrite M, S. split; reflexivity.
Qed.

Lemma findIndex_last (pid : string) (pre : list Store.StoredChatMessage)
  (ph : Store.StoredChatMessage) :
  find (Store.msgHasId pid) pre = None ->
  Store.msg_id ph = pid ->
  Store.findIndex (Store.msgHasId pid) (pre ++ [ph]) = Some (List.length pre) /\
  nth_error (pre ++ [ph]) (List.length pre) = Some ph /\
  forall x, Store.replaceAt (List.length pre) x (pre ++ [ph]) = (pre ++ [x])%list.
Proof.
  intros Hn Hp. split; [|split].
  - induction pre as [|a r IH]; simpl in *.
    + unfold Store.msgHasId. rewrite Hp, String.eqb_refl. reflexivity.
    + destruct (Store.msgHasId pid a); [discriminate|]. rewrite (IH Hn). reflexivity.
  - rewrite nth_error_app2, Nat.sub_diag by lia. reflexivity.
  - intro x. unfold Store.replaceAt.
    rewrite firstn_app, Nat.sub_diag, firstn_all. cbn [firstn]. rewrite app_nil_r.
    replace (skipn (S (List.length pre)) (pre ++ [ph])) with (@nil Store.StoredChatMessage);
      [reflexivity|].
    symmetry. apply skipn_all2. rewrite length_app. cbn. lia.
Qed.

Lemma addMessage_has (w : World) (message : Store.NewMessage)
  (msgs : list Store.StoredChatMessage) (status : Store.ChatSessionStatus)
  (md : option Store.Metadata) :
  sessionHas w sid msgs status md ->
  Store.new_id message = None ->
  Store.new_createdAt message = None ->
  snd (addMessage env w sid message)
  = Some {| Store.msg_id := env_randomId env (ids w);
            Store.msg_role := Store.new_role message;
            Store.msg_content := Store.new_content message;
            Store.msg_createdAt := env_now env (ticks w);
            Store.msg_pending := Store.new_pending message;
            Store.msg_metadata := Store.new_metadata message |} /\
  sessionHas (fst (addMessage env w sid message)) sid
    (msgs ++ [{| Store.msg_id := env_randomId env (ids w);
                 Store.msg_role := Store.new_role message;
                 Store.msg_content := Store.new_content message;
                 Store.msg_createdAt := env_now env (ticks w);
                 Store.msg_pending := Store.new_pending message;
                 Store.msg_metadata := Store.new_metadata message |}])%list
    status md /\
  ids (fst (addMessage env w sid message)) = ids w + 1 /\
  quiet w (fst (addMessage env w sid message)).
Proof.
  intros [s [H [M [S D]]]] Hi Hc. unfold Store.getSession in H.
  unfold addMessage, Store.addMessage. rewrite H, Hi, Hc. cbn [fst snd].
  split; [reflexivity|]. split; [|split; [reflexivity | repeat split]].
  eexists. split.
  - unfold Store.getSession.
    cbn [manager withManager Store.sessions Store.emitState Store.persist
         Store.withSessions].
    apply (find_updateFirst _ _ _ _ H). reflexivity.
  - cbn [Store.setMessages Store.sess_messages Store.sess_status Store.sess_metadata].
    rewrite M. repeat split; assumption.
Qed.

Lemma appendToMessage_has (w : World) (pid fragment : string)
  (pre : list Store.StoredChatMessage) (ph : Store.StoredChatMessage)
  (status : Store.ChatSessionStatus) (md : option Store.Metadata) :
  sessionHas w sid (pre ++ [ph]) status md ->
  find (Store.msgHasId pid) pre = None ->
  Store.msg_id ph = pid ->
  sessionHas (appendToMessage env w sid pid fragment) sid
    (pre ++ [Store.appendContent ph fragment]) status md /\
  quiet w (appendToMessage env w sid pid fragment).
Proof.
  intros [s [H [M [S D]]]] Hn Hp. unfold Store.getSession in H.
  destruct (findIndex_last pid pre ph Hn Hp) as [Fi [Nt Rp]].
  unfold appendToMessage, Store.appendToMessage. rewrite H, M, Fi, Nt, Rp.
  split; [|repeat split].
  eexists. split.
  - unfold Store.getSession.
    cbn [manager withManager Store.sessions Store.emitState Store.persist
         Store.withSessions].
    apply (find_updateFirst _ _ _ _ H). reflexivity.
  - cbn [Store.setMessages Store.sess_messages Store.sess_status Store.sess_metadata].
    repeat split; assumption.
Qed.

Lemma updateMessage_has (w : World) (pid : string) (updates : Store.MessageUpdates)
  (pre : list Store.StoredChatMessage) (ph : Store.StoredChatMessage)
  (status : Store.ChatSessionStatus) (md : option Store.Metadata) :
  sessionHas w sid (pre ++ [ph]) status md ->
  find (Store.msgHasId pid) pre = None ->
  Store.msg_id ph = pid ->
  sessionHas (updateMessage env w sid pid updates) sid
    (pre ++ [Store.applyUpdates ph updates]) status md /\
  quiet w (updateMessage env w sid pid updates).
Proof.
  intros [s [H [M [S D]]]] Hn Hp. unfold Store.getSession in H.
  destruct (findIndex_last pid pre ph Hn Hp) as [Fi [Nt Rp]].
  unfold updateMessage, Store.updateMessage. rewrite H, M, Fi, Nt, Rp.
  split; [|repeat split].
  eexists. split.
  - unfold Store.getSession.
    cbn [manager withManager Store.sessions Store.emitState Store.persist
         Store.withSessions].
    apply (find_updateFirst _ _ _ _ H). reflexivity.
  - cbn [Store.setMessages Store.sess_messages Store.sess_status Store.sess_metadata].
    repeat split; assumption.
Qed.

Lemma updateSessionStatus_has (w : World) (status' : Store.ChatSessionStatus)
  (msgs : list Store.StoredChatMessage) (status : Store.ChatSessionStatus)
  (md : option Store.Metadata) :
  sessionHas w sid msgs status md ->
  sessionHas (updateSessionStatus env w sid status') sid msgs status' md /\
  quiet w (updateSessionStatus env w sid status').
Proof.
  intros [s [H [M [S D]]]]. unfold Store.getSession in H.
  unfold updateSessionStatus, Store.updateSessionStatus. rewrite H.
  split; [|repeat split].
  eexists. split.
  - unfold Store.getSession.
    cbn [manager withManager Store.sessions Store.emitState Store.persist
         Store.withSessions].
    apply (find_updateFirst _ _ _ _ H). reflexivity.
  - cbn [Store.setStatus Store.sess_messages Store.sess_status Store.sess_metadata].
    repeat split; assumption.
Qed.

Lemma fold_onEvent_tokens (pid : string) (pre : list Store.StoredChatMessage)
  (createdAt : Z) (pending : option bool) (status : Store.ChatSessionStatus)
  (md : option Store.Metadata) (es : list CallbackEvent) :
  find (Store.msgHasId pid) pre = None ->
  noCompleted es ->
  forall (w : World) (c : string),
    sessionHas w sid (pre ++ [assistantMessageOf pid createdAt c pending]) status md ->
    sessionHas (fold_left (onEvent env sid pid) es w) sid
      (pre ++ [assistantMessageOf pid createdAt
                 (c ++ Js.concatAll (tokenFragments es)) pending])
      status md /\
    quiet w (fold_left (onEvent env sid pid) es w).
Proof.
  intros Hn. unfold noCompleted.
  induction es as [|e r IH]; intros Hc w c H; cbn [fold_left].
  - cbn. rewrite append_empty_r. split; [exact H | apply quiet_refl].
  - cbn [forallb] in Hc. apply Bool.andb_true_iff in Hc. destruct Hc as [He Hr].
    destruct e as [|token|full]; cbn [onEvent]; [| |discriminate].
    + exact (IH Hr w c H).
    + destruct (appendToMessage_has w pid token pre _ status md H Hn eq_refl)
        as [H1 Q1].
      destruct (IH Hr _ (c ++ token)%string H1) as [H2 Q2].
      split; [|exact (quiet_trans _ _ _ Q1 Q2)].
      cbn [tokenFragments flat_map app Js.concatAll] in *.
      change (flat_map (fun e => match e with Token f => [f] | _ => [] end) r)
        with (tokenFragments r).
      rewrite append_assoc in H2. exact H2.
Qed.

Lemma handleUserMessage_accepted (w : World) (content : string)
  (session : Store.ChatSession) :
  Store.getSession (manager w) sid = Some session ->
  Store.sess_allowUserInput session = true ->
  Js.trim content <> EmptyString ->
  find (Store.msgHasId (env_randomId env (ids w + 1))) (Store.sess_messages session)
  = None ->
  env_randomId env (ids w) <> env_randomId env (ids w + 1) ->
  exists w4 t0 t1,
    sessionHas w4 sid
      ((Store.sess_messages session
        ++ [userMessageOf (env_randomId env (ids w)) t0 (Js.trim content)])
       ++ [assistantMessageOf (env_randomId env (ids w + 1)) t1 EmptyString (Some true)])
      Store.running (Store.sess_metadata session) /\
    find (Store.msgHasId (env_randomId env (ids w + 1)))
         (Store.sess_messages session
          ++ [userMessageOf (env_randomId env (ids w)) t0 (Js.trim content)]) = None /\
    chats w4 = (chats w ++ [controllerCall session (Js.trim content)])%list /\
    notices w4 = notices w /\
    edits w4 = edits w /\
    handleUserMessage env w sid content
    = match answerOf env (List.length (chats w))
              (controllerCall session (Js.trim content)) with
      | Returned _ =>
          fold_left (onEvent env sid (env_randomId env (ids w + 1)))
            (events (serviceChat (env_nm env) (env_fetch env (List.length (chats w)))
                       (env_provider env)
                       (call_messages (controllerCall session (Js.trim content)))
                       (call_options (controllerCall session (Js.trim content)))
                       controllerCallbacks))
            w4
      | Threw _ =>
          notify
            (updateSessionStatus env
               (updateMessage env
                  (logError
                     (fold_left (onEvent env sid (env_randomId env (ids w + 1)))
                        (events (serviceChat (env_nm env)
                                   (env_fetch env (List.length (chats w)))
                                   (env_provider env)
                                   (call_messages
                                      (controllerCall session (Js.trim content)))
                                   (call_options
                                      (controllerCall session (Js.trim content)))
                                   controllerCallbacks))
                        w4)
                     "Failed to handle user message")
                  sid (env_randomId env (ids w + 1))
                  {| Store.upd_content := Some failureText;
                     Store.upd_pending := Some (Some false);
                     Store.upd_metadata := None |})
               sid Store.error)
            ErrorNotice "Code Guardian chat failed. See logs for details."
      end.
Proof.
  intros Hs Ha Ht Hn Hu. unfold handleUserMessage. rewrite Hs, Ha. cbn [negb].
  destruct (Js.isEmpty (Js.trim content)) eqn:Em;
    [destruct (Js.trim content); [contradiction | discriminate]|].
  assert (H0 : sessionHas w sid (Store.sess_messages session)
                 (Store.sess_status session) (Store.sess_metadata session))
    by (exists session; repeat split; exact Hs).
  destruct (addMessage_has w (Store.plainMessage Store.user (Js.trim content)) _ _ _ H0
              eq_refl eq_refl) as [R1 [H1 [I1 Q1]]].
  rewrite (surjective_pairing
             (addMessage env w sid (Store.plainMessage Store.user (Js.trim content)))).
  set (w1 := fst (addMessage env w sid
                    (Store.plainMessage Store.user (Js.trim content)))) in *.
  clear R1. cbn [Store.plainMessage Store.new_role Store.new_content Store.new_pending
                 Store.new_metadata] in H1.
  destruct (addMessage_has w1 (Store.pendingMessage Store.assistant EmptyString) _ _ _ H1
              eq_refl eq_refl) as [R2 [H2 [_ Q2]]].
  rewrite (surjective_pairing
             (addMessage env w1 sid (Store.pendingMessage Store.assistant EmptyString))).
  rewrite R2.
  set (w2 := fst (addMessage env w1 sid
                    (Store.pendingMessage Store.assistant EmptyString))) in *.
  cbn [Store.pendingMessage Store.new_role Store.new_content Store.new_pending
       Store.new_metadata Store.msg_id] in H2 |- *.
  rewrite I1 in H2 |- *.
  destruct (updateSessionStatus_has w2 Store.running _ _ _ H2) as [H3 Q3].
  set (w3 := updateSessionStatus env w2 sid Store.running) in *.
  pose proof (quiet_trans _ _ _ Q1 (quiet_trans _ _ _ Q2 Q3)) as [C3 [N3 E3]].
  destruct H3 as [s3 [G3 [M3 [S3 D3]]]].
  rewrite G3.
  assert (Hist : buildChatHistory (Some s3)
                 = call_messages (controllerCall session (Js.trim content))).
  { unfold buildChatHistory. rewrite M3, !flat_map_app. cbn. rewrite <- app_assoc.
    reflexivity. }
  assert (Sys : buildSystemPrompt s3 = buildSystemPrompt session)
    by (unfold buildSystemPrompt; rewrite D3; reflexivity).
  rewrite Hist, Sys.
  unfold callChat. rewrite C3.
  match goal with
  | |- context [fold_left _ _ ?x] => set (w4 := x)
  end.
  exists w4, (env_now env (ticks w)), (env_now env (ticks w1)).
  split; [exists s3; repeat split; assumption|].
  split.
  { rewrite find_snoc, Hn. unfold Store.msgHasId, userMessageOf. cbn [Store.msg_id].
    destruct (String.eqb (env_randomId env (ids w)) (env_randomId env (ids w + 1)))
      eqn:E; [apply String.eqb_eq in E; contradiction | reflexivity]. }
  split; [reflexivity|]. split; [exact N3|]. split; [exact E3|].
  unfold answerOf. cbn [call_callbacks controllerCall call_messages call_options].
  unfold controllerCallbacks.
  destruct (outcome
              (serviceChat (env_nm env) (env_fetch env (List.length (chats w)))
                 (env_provider env)
                 (buildChatHistory (Some session)
                  ++ [{| role := user; content := Js.trim content; name := None |};
                      {| role := assistant; content := EmptyString; name := None |}])
                 {| temperature := None; maxTokens := None;
                    systemPrompt := Some (buildSystemPrompt session) |}
                 {| onToken := true; onStart := false; onComplete := true |}));
    reflexivity.
Qed.

(** X19. The answer path of the chat controller.  For a session that
    accepts input, an input that is not blank, and a placeholder id that
    no message of the session has yet, [handleUserMessage] calls the
    provider once, with the replayed history of the session followed by
    the trimmed input and by the placeholder of the answer, which is
    still empty, and with the system prompt of the session.  When the
    call returns a text, the session has gained exactly two messages, the
    trimmed input of the user and the assistant message, which holds the
    returned text and is no longer pending; the status of the session is
    [idle]; no notice is shown. *)
Theorem handleUserMessage_reply :
  forall (w : World) (content : string) (session : Store.ChatSession) (text : string),
    Store.getSession (manager w) sid = Some session ->
    Store.sess_allowUserInput session = true ->
    Js.trim content <> EmptyString ->
    find (Store.msgHasId (env_randomId env (ids w + 1))) (Store.sess_messages session)
    = None ->
    env_randomId env (ids w) <> env_randomId env (ids w + 1) ->
    answerOf env (List.length (chats w)) (controllerCall session (Js.trim content))
    = Returned text ->
    chats (handleUserMessage env w sid content)
    = (chats w ++ [controllerCall session (Js.trim content)])%list /\
    (exists t0 t1,
       messagesAt (handleUserMessage env w sid content) sid
       = Some (Store.sess_messages session
               ++ [userMessageOf (env_randomId env (ids w)) t0 (Js.trim content);
                   assistantMessageOf (env_randomId env (ids w + 1)) t1 text
                                      (Some false)])%list) /\
    statusAt (handleUserMessage env w sid content) sid = Some Store.idle /\
    notices (handleUserMessage env w sid content) = notices w /\
    edits (handleUserMessage env w sid content) = edits w.
Proof.
  intros w content session text Hs Ha Ht Hn Hu Ho.
  destruct (handleUserMessage_accepted w content session Hs Ha Ht Hn Hu)
    as [w4 [t0 [t1 [H4 [Hf [C4 [N4 [E4 Run]]]]]]]].
  rewrite Run, Ho. clear Run.
  pose proof (serviceChat_completion (env_nm env)
                (env_fetch env (List.length (chats w))) (env_provider env)
                (call_messages (controllerCall session (Js.trim content)))
                (call_options (controllerCall session (Js.trim content)))
                controllerCallbacks eq_refl) as Cmp.
  pose proof (serviceChat_tokens (env_nm env)
                (env_fetch env (List.length (chats w))) (env_provider env)
                (call_messages (controllerCall session (Js.trim content)))
                (call_options (controllerCall session (Js.trim content)))
                controllerCallbacks text eq_refl Ho) as Tok.
  unfold answerOf in Ho. cbn [call_callbacks controllerCall] in Ho.
  fold (controllerCall session (Js.trim content)) in Ho.
  rewrite Ho in Cmp. destruct Cmp as [pre [Ev Nc]].
  rewrite Ev in Tok |- *.
  rewrite tokenFragments_app in Tok. cbn [tokenFragments flat_map] in Tok.
  rewrite app_nil_r in Tok.
  rewrite fold_left_app. cbn [fold_left onEvent].
  destruct (fold_onEvent_tokens (env_randomId env (ids w + 1)) _ t1 (Some true)
              Store.running (Store.sess_metadata session) pre Hf Nc w4 EmptyString H4)
    as [H5 Q5].
  change (flat_map (fun e => match e with Token f => [f] | _ => [] end) pre)
    with (tokenFragments pre) in Tok.
  rewrite Tok in H5. cbn [append] in H5.
  set (w5 := fold_left (onEvent env sid (env_randomId env (ids w + 1))) pre w4) in *.
  destruct (updateMessage_has w5 (env_randomId env (ids w + 1)) Store.clearPending
              _ _ _ _ H5 Hf eq_refl) as [H6 Q6].
  destruct (updateSessionStatus_has _ Store.idle _ _ _ H6) as [H7 Q7].
  destruct (quiet_trans _ _ _ Q5 (quiet_trans _ _ _ Q6 Q7)) as [C7 [N7 E7]].
  destruct (sessionHas_lookup _ _ _ _ H7) as [M7 S7].
  split; [rewrite C7; exact C4|]. split.
  - exists t0, t1. rewrite M7, <- app_assoc. reflexivity.
  - split; [exact S7|]. split; [rewrite N7; exact N4 | rewrite E7; exact E4].
Qed.

(** X20. The failure path of the chat controller.  Under the same
    conditions, when the call of the provider throws, whatever was
    streamed into the assistant message before the failure is replaced by
    the fixed apology, the message is no longer pending, the status of
    the session is [error], and the user is shown one error notice; the
    input of the user stays in the session. *)
Theorem handleUserMessage_failure :
  forall (w : World) (content : string) (session : Store.ChatSession) (e : string),
    Store.getSession (manager w) sid = Some session ->
    Store.sess_allowUserInput session = true ->
    Js.trim content <> EmptyString ->
    find (Store.msgHasId (env_randomId env (ids w + 1))) (Store.sess_messages session)
    = None ->
    env_randomId env (ids w) <> env_randomId env (ids w + 1) ->
    answerOf env (List.length (chats w)) (controllerCall session (Js.trim content))
    = Threw e ->
    chats (handleUserMessage env w sid content)
    = (chats w ++ [controllerCall session (Js.trim content)])%list /\
    (exists t0 t1,
       messagesAt (handleUserMessage env w sid content) sid
       = Some (Store.sess_messages session
               ++ [userMessageOf (env_randomId env (ids w)) t0 (Js.trim content);
                   assistantMessageOf (env_randomId env (ids w + 1)) t1 failureText
                                      (Some false)])%list) /\
    statusAt (handleUserMessage env w sid content) sid = Some Store.error /\
    notices (handleUserMessage env w sid content)
    = (notices w ++ [chatFailedNotice])%list /\
    edits (handleUserMessage env w sid content) = edits w.
Proof.
  intros w content session e Hs Ha Ht Hn Hu Ho.
  destruct (handleUserMessage_accepted w content session Hs Ha Ht Hn Hu)
    as [w4 [t0 [t1 [H4 [Hf [C4 [N4 [E4 Run]]]]]]]].
  rewrite Run, Ho. clear Run.
  pose proof (serviceChat_completion (env_nm env)
                (env_fetch env (List.length (chats w))) (env_provider env)
                (call_messages (controllerCall session (Js.trim content)))
                (call_options (controllerCall session (Js.trim content)))
                controllerCallbacks eq_refl) as Cmp.
  unfold answerOf in Ho. cbn [call_callbacks controllerCall] in Ho.
  fold (controllerCall session (Js.trim content)) in Ho.
  rewrite Ho in Cmp.
  destruct (fold_onEvent_tokens (env_randomId env (ids w + 1)) _ t1 (Some true)
              Store.running (Store.sess_metadata session) _ Hf Cmp w4 EmptyString H4)
    as [H5 Q5].
  match goal with
  | |- context [logError ?x _] => set (w5 := x) in *
  end.
  assert (H5' : sessionHas (logError w5 "Failed to handle user message") sid
                  ((Store.sess_messages session
                    ++ [userMessageOf (env_randomId env (ids w)) t0 (Js.trim content)])
                   ++ [assistantMessageOf (env_randomId env (ids w + 1)) t1
                         (EmptyString
                          ++ Js.concatAll
                               (tokenFragments
                                  (events
                                     (serviceChat (env_nm env)
                                        (env_fetch env (List.length (chats w)))
                                        (env_provider env)
                                        (call_messages
                                           (controllerCall session (Js.trim content)))
                                        (call_options
                                           (controllerCall session (Js.trim content)))
                                        controllerCallbacks))))
                         (Some true)])
                  Store.running (Store.sess_metadata session)) by exact H5.
  destruct (updateMessage_has _ (env_randomId env (ids w + 1))
              {| Store.upd_content := Some failureText;
                 Store.upd_pending := Some (Some false);
                 Store.upd_metadata := None |} _ _ _ _ H5' Hf eq_refl) as [H6 Q6].
  destruct (updateSessionStatus_has _ Store.error _ _ _ H6) as [H7 Q7].
  destruct (quiet_trans _ _ _ Q6 Q7) as [C7 [N7 E7]].
  destruct Q5 as [C5 [N5 E5]].
  match goal with
  | |- context [notify ?x _ _] => set (w7 := x) in *
  end.
  assert (H8 : sessionHas (notify w7 ErrorNotice
                             "Code Guardian chat failed. See logs for details.") sid
                 ((Store.sess_messages session
                   ++ [userMessageOf (env_randomId env (ids w)) t0 (Js.trim content)])
                  ++ [assistantMessageOf (env_randomId env (ids w + 1)) t1 failureText
                        (Some false)])
                 Store.error (Store.sess_metadata session)) by exact H7.
  destruct (sessionHas_lookup _ _ _ _ H8) as [M8 S8].
  split.
  { change (chats w7 = (chats w ++ [controllerCall session (Js.trim content)])%list).
    rewrite C7. change (chats w5 = (chats w ++ [controllerCall session
                                                  (Js.trim content)])%list).
    rewrite C5. exact C4. }
  split; [exists t0, t1; rewrite M8, <- app_assoc; reflexivity|].
  split; [exact S8|]. split.
  - change (notices w7 ++ [chatFailedNotice]
            = notices w ++ [chatFailedNotice])%list.
    rewrite N7. change (notices (logError w5 "Failed to handle user message"))
      with (notices w5). rewrite N5, N4. reflexivity.
  - change (edits w7 = edits w). rewrite E7.
    change (edits w5 = edits w). rewrite E5. exact E4.
Qed.

End ControllerMore.

Section ControllerWitnesses.

Import Ai.
Import Runtime.
Import ChatController.
Import Notions.

Lemma handleUserMessage_reply_witness :
  Store.getSession (manager sampleWorld) "s1" = Some (sampleSession "s1" Store.QA) /\
  Js.trim "  hello " = "hello" /\
  answerOf localEnv (List.length (chats sampleWorld))
    (controllerCall (sampleSession "s1" Store.QA) (Js.trim "  hello "))
  = Returned "Local mode placeholder. Provider is offline. Messages received: 3" /\
  chats (handleUserMessage localEnv sampleWorld "s1" "  hello ")
  = (chats sampleWorld
     ++ [controllerCall (sampleSession "s1" Store.QA) (Js.trim "  hello ")])%list /\
  statusAt (handleUserMessage localEnv sampleWorld "s1" "  hello ") "s1"
  = Some Store.idle.
Proof.
  split; [reflexivity|]. split; [reflexivity|]. split; [reflexivity|].
  assert (Ht : Js.trim "  hello " <> EmptyString) by (vm_compute; discriminate).
  assert (Hu : env_randomId localEnv (ids sampleWorld)
               <> env_randomId localEnv (ids sampleWorld + 1))
    by (vm_compute; discriminate).
  destruct (handleUserMessage_reply localEnv "s1" sampleWorld "  hello "
              (sampleSession "s1" Store.QA)
              "Local mode placeholder. Provider is offline. Messages received: 3"
              eq_refl eq_refl Ht eq_refl Hu eq_refl) as [C [_ [S _]]].
  split; [exact C | exact S].
Defined.

Lemma handleUserMessage_failure_witness :
  Store.getSession (manager sampleWorld) "s1" = Some (sampleSession "s1" Store.QA) /\
  answerOf keylessEnv (List.length (chats sampleWorld))
    (controllerCall (sampleSession "s1" Store.QA) (Js.trim "  hello "))
  = Threw openaiKeyError /\
  statusAt (handleUserMessage keylessEnv sampleWorld "s1" "  hello ") "s1"
  = Some Store.error /\
  notices (handleUserMessage keylessEnv sampleWorld "s1" "  hello ")
  = (notices sampleWorld ++ [chatFailedNotice])%list.
Proof.
  split; [reflexivity|]. split; [reflexivity|].
  assert (Ht : Js.trim "  hello " <> EmptyString) by (vm_compute; discriminate).
  assert (Hu : env_randomId keylessEnv (ids sampleWorld)
               <> env_randomId keylessEnv (ids sampleWorld + 1))
    by (vm_compute; discriminate).
  destruct (handleUserMessage_failure keylessEnv "s1" sampleWorld "  hello "
              (sampleSession "s1" Store.QA) openaiKeyError
              eq_refl eq_refl Ht eq_refl Hu eq_refl) as [_ [_ [S [N _]]]].
  split; [exact S | exact N].
Defined.

(** A message of white space only, inside or outside ASCII, is ignored:
    nothing is stored and the provider is not called. *)
Example blank_message_ignored :
  handleUserMessage localEnv sampleWorld "s1" (Js.utf8 160 ++ " ") = sampleWorld.
Proof. vm_compute. reflexivity. Qed.

End ControllerWitnesses.

(** ** Code blocks and plain answers *)

Section ApprovalMore.

Import Approval.
Import Notions.

Lemma isCode_eqb (c : ascii) (n : nat) :
  n < 256 -> Json.isCode c n = Ascii.eqb (ascii_of_nat n) c.
Proof.
  intro Hn. unfold Json.isCode.
  destruct (Ascii.eqb (ascii_of_nat n) c) eqn:E.
  - apply Ascii.eqb_eq in E. subst c. rewrite nat_ascii_embedding by exact Hn.
    apply Nat.eqb_refl.
  - apply Nat.eqb_neq. intro H. subst n. rewrite ascii_nat_embedding in E.
    rewrite Ascii.eqb_refl in E. discriminate.
Qed.

Lemma lacks_app (code : nat) (a b : string) :
  lacks code (a ++ b) = lacks code a && lacks code b.
Proof.
  induction a as [|c r IH]; simpl; [reflexivity|].
  rewrite IH, Bool.andb_assoc. reflexivity.
Qed.

Lemma lacks_take (code n : nat) (s : string) :
  lacks code s = true -> lacks code (Js.take n s) = true.
Proof.
  revert n. induction s as [|c r IH]; intros [|n] H; simpl in *; trivial.
  apply Bool.andb_true_iff in H. destruct H as [Hc Hr].
  rewrite Hc, (IH n Hr). reflexivity.
Qed.

Lemma lacks_drop (code n : nat) (s : string) :
  lacks code s = true -> lacks code (Js.drop n s) = true.
Proof.
  revert n. induction s as [|c r IH]; intros [|n] H; simpl in *; trivial.
  apply Bool.andb_true_iff in H. destruct H as [Hc Hr]. exact (IH n Hr).
Qed.

Lemma lacks_skipWordOrDash (code : nat) (s : string) :
  lacks code s = true -> lacks code (skipWordOrDash s) = true.
Proof.
  induction s as [|c r IH]; intro H; simpl in *; trivial.
  destruct (isWordOrDash c); [|exact H].
  apply Bool.andb_true_iff in H. destruct H as [_ Hr]. exact (IH Hr).
Qed.

Lemma trimStart_drop (s : string) : exists k, Js.trimStart s = Js.drop k s.
Proof.
  assert (G : forall n s, String.length s <= n ->
                exists k, Js.trimStart s = Js.drop k s).
  { induction n as [|n IH]; intros t Hn.
    - destruct t; [exists 0; reflexivity | simpl in Hn; lia].
    - destruct t as [|a r]; [exists 0; reflexivity|]. cbn [Js.trimStart].
      cbn [String.length] in Hn.
      destruct (Js.isSpace (String a EmptyString)).
      { destruct (IH r) as [k E]; [lia|]. exists (S k). exact E. }
      destruct r as [|b r1]; [exists 0; reflexivity|]. cbn [String.length] in Hn.
      destruct (Js.isSpace (String a (String b EmptyString))).
      { destruct (IH r1) as [k E]; [lia|]. exists (S (S k)). exact E. }
      destruct r1 as [|c r2]; [exists 0; reflexivity|]. cbn [String.length] in Hn.
      destruct (Js.isSpace (String a (String b (String c EmptyString)))).
      { destruct (IH r2) as [k E]; [lia|]. exists (S (S (S k))). exact E. }
      exists 0. reflexivity. }
  exact (G (String.length s) s (le_n _)).
Qed.

Lemma trimEnd_take (s : string) : exists k, Js.trimEnd s = Js.take k s.
Proof.
  induction s as [|c r [k E]]; [exists 0; reflexivity|]. cbn [Js.trimEnd].
  rewrite E. destruct (Js.isSpace (String c (Js.take k r))).
  - exists 0. reflexivity.
  - exists (S k). reflexivity.
Qed.

Lemma lacks_trimStart (code : nat) (s : string) :
  lacks code s = true -> lacks code (Js.trimStart s) = true.
Proof.
  intro H. destruct (trimStart_drop s) as [k E]. rewrite E. apply lacks_drop, H.
Qed.

Lemma lacks_trimEnd (code : nat) (s : string) :
  lacks code s = true -> lacks code (Js.trimEnd s) = true.
Proof.
  intro H. destruct (trimEnd_take s) as [k E]. rewrite E. apply lacks_take, H.
Qed.

Lemma lacks_trim (code : nat) (s : string) :
  lacks code s = true -> lacks code (Js.trim s) = true.
Proof.
  intro H. unfold Js.trim. apply lacks_trimEnd, lacks_trimStart, H.
Qed.

Lemma lacks_startsWith (code : nat) (s rest : string) :
  code < 256 ->
  lacks code s = true ->
  Js.startsWith s (String (ascii_of_nat code) rest) = false.
Proof.
  intros Hn H. destruct s as [|c r]; simpl in *; [reflexivity|].
  apply Bool.andb_true_iff in H. destruct H as [Hc _].
  rewrite (isCode_eqb c code Hn) in Hc. apply Bool.negb_true_iff in Hc.
  rewrite Hc. reflexivity.
Qed.

Lemma lacks_indexOf (code : nat) (s rest : string) :
  code < 256 ->
  lacks code s = true ->
  Js.indexOf s (String (ascii_of_nat code) rest) = None.
Proof.
  intros Hn. induction s as [|c r IH]; intro H.
  - reflexivity.
  - cbn [Js.indexOf]. rewrite (lacks_startsWith code _ rest Hn H).
    simpl in H. apply Bool.andb_true_iff in H. destruct H as [_ Hr].
    rewrite (IH Hr). reflexivity.
Qed.

Lemma fenceMatchAt_lacks (s : string) :
  lacks backquote (Js.take 1 s) = true -> fenceMatchAt s = None.
Proof.
  intro H. unfold fenceMatchAt.
  destruct s as [|c r]; [reflexivity|].
  change fence with (String (ascii_of_nat backquote) "``").
  cbn [Js.startsWith]. cbn [Js.take lacks] in H.
  rewrite Bool.andb_true_r in H.
  rewrite (isCode_eqb c backquote) in H by (unfold backquote; lia).
  apply Bool.negb_true_iff in H. rewrite H. reflexivity.
Qed.

Lemma fenceMatch_prefix (prefix s : string) :
  lacks backquote prefix = true -> fenceMatch (prefix ++ s) = fenceMatch s.
Proof.
  induction prefix as [|c r IH]; intro H; [reflexivity|].
  cbn [append fenceMatch]. rewrite fenceMatchAt_lacks.
  - simpl in H. apply Bool.andb_true_iff in H. exact (IH (proj2 H)).
  - cbn [Js.take lacks] in *. apply Bool.andb_true_iff in H.
    rewrite (proj1 H). reflexivity.
Qed.

Lemma fenceMatch_lacks (s : string) :
  lacks backquote s = true -> fenceMatch s = None.
Proof.
  intro H. rewrite <- (append_empty_r s), (fenceMatch_prefix s EmptyString H).
  reflexivity.
Qed.

Lemma skipWordOrDash_tag (lang rest : string) :
  allWordOrDash lang = true ->
  skipWordOrDash (lang ++ Js.nl ++ rest) = (Js.nl ++ rest)%string.
Proof.
  induction lang as [|c r IH]; intro H; [reflexivity|].
  simpl in H. apply Bool.andb_true_iff in H. destruct H as [Hc Hr].
  cbn [append skipWordOrDash]. rewrite Hc. exact (IH Hr).
Qed.

Lemma startsWith_append (p s : string) : Js.startsWith (p ++ s) p = true.
Proof.
  induction p as [|c r IH]; [destruct s; reflexivity|].
  cbn [append Js.startsWith]. rewrite Ascii.eqb_refl. exact IH.
Qed.

Lemma indexOf_fence (body rest : string) :
  lacks backquote body = true ->
  Js.indexOf (body ++ fence ++ rest) fence = Some (String.length body).
Proof.
  induction body as [|c r IH]; intro H.
  - cbn [append String.length].
    destruct (fence ++ rest)%string eqn:E; [discriminate E|].
    cbn [Js.indexOf]. rewrite <- E, startsWith_append. reflexivity.
  - cbn [append Js.indexOf String.length].
    cbn [lacks] in H. apply Bool.andb_true_iff in H. destruct H as [Hc Hr].
    assert (S : Js.startsWith (String c (r ++ fence ++ rest)) fence = false).
    { rewrite (isCode_eqb c backquote) in Hc by (unfold backquote; lia).
      apply Bool.negb_true_iff in Hc.
      change (Js.startsWith (String c (r ++ fence ++ rest)) fence)
        with (Ascii.eqb (ascii_of_nat backquote) c
              && Js.startsWith (r ++ fence ++ rest) "``").
      rewrite Hc. reflexivity. }
    rewrite S, (IH Hr). reflexivity.
Qed.

Lemma take_append (a b : string) : Js.take (String.length a) (a ++ b) = a.
Proof.
  induction a as [|c r IH]; simpl; [destruct b; reflexivity|].
  rewrite IH. reflexivity.
Qed.

Lemma fenceMatchAt_block (lang body rest : string) :
  allWordOrDash lang = true ->
  lacks backquote body = true ->
  fenceMatchAt (fencedBlock lang body ++ rest) = Some body.
Proof.
  intros Hl Hb. unfold fenceMatchAt, fencedBlock.
  rewrite !append_assoc.
  rewrite startsWith_append.
  change (Js.drop 3 (fence ++ lang ++ Js.nl ++ body ++ fence ++ rest))
    with (lang ++ Js.nl ++ body ++ fence ++ rest)%string.
  rewrite (skipWordOrDash_tag _ _ Hl).
  change (Js.nl ++ body ++ fence ++ rest)%string
    with (String (ascii_of_nat 10) (body ++ fence ++ rest)).
  change (Json.isCode (ascii_of_nat 10) 10) with true.
  cbv iota. rewrite (indexOf_fence _ _ Hb), take_append. reflexivity.
Qed.

(** X21. [extractCodeBlock] returns the trimmed content of the first
    fenced code block: for a text that has no backquote before the block,
    a block that opens with three backquotes, a language tag of word
    characters and dashes (which may be empty) and a line feed, and a
    content without backquote, the result is the trimmed content, whatever
    follows the closing fence, also further blocks.  A text without any
    backquote has no code block, and [requestFix] then takes the trimmed
    text as the replacement. *)
Theorem extractCodeBlock_fenced :
  forall (prefix lang body rest : string),
    lacks backquote prefix = true ->
    allWordOrDash lang = true ->
    lacks backquote body = true ->
    extractCodeBlock (prefix ++ fencedBlock lang body ++ rest) = Some (Js.trim body) /\
    replacementOf (prefix ++ fencedBlock lang body ++ rest) = Js.trim body /\
    extractCodeBlock (prefix ++ body) = None /\
    replacementOf (prefix ++ body) = Js.trim (prefix ++ body).
Proof.
  intros prefix lang body rest Hp Hl Hb.
  assert (E : extractCodeBlock (prefix ++ fencedBlock lang body ++ rest)
              = Some (Js.trim body)).
  { unfold extractCodeBlock. rewrite (fenceMatch_prefix _ _ Hp).
    assert (F : fenceMatch (fencedBlock lang body ++ rest) = Some body).
    { pose proof (fenceMatchAt_block lang body rest Hl Hb) as A.
      destruct (fencedBlock lang body ++ rest)%string; cbn [fenceMatch];
        rewrite A; reflexivity. }
    rewrite F. reflexivity. }
  assert (N : extractCodeBlock (prefix ++ body) = None).
  { unfold extractCodeBlock. rewrite fenceMatch_lacks; [reflexivity|].
    rewrite lacks_app, Hp, Hb. reflexivity. }
  unfold replacementOf. rewrite E, N. repeat split.
Qed.

Lemma extractCodeBlock_fenced_witness :
  lacks backquote "Here is the fix: " = true /\
  allWordOrDash "js" = true /\
  lacks backquote ("  return safe(x);" ++ Js.nl) = true /\
  extractCodeBlock
    ("Here is the fix: " ++ fencedBlock "js" ("  return safe(x);" ++ Js.nl) ++ " Done.")
  = Some (Js.trim ("  return safe(x);" ++ Js.nl)).
Proof.
  split; [reflexivity|]. split; [reflexivity|]. split; [reflexivity|].
  exact (proj1 (extractCodeBlock_fenced "Here is the fix: " "js"
                  ("  return safe(x);" ++ Js.nl) " Done." eq_refl eq_refl eq_refl)).
Defined.

Lemma fenceMatchAt_within (code : nat) (s g : string) :
  lacks code s = true -> fenceMatchAt s = Some g -> lacks code g = true.
Proof.
  intros H. unfold fenceMatchAt.
  destruct (Js.startsWith s fence); [|discriminate].
  pose proof (lacks_skipWordOrDash code _ (lacks_drop code 3 s H)) as K.
  destruct (skipWordOrDash (Js.drop 3 s)) as [|c body]; [discriminate|].
  destruct (Json.isCode c 10); [|discriminate].
  destruct (Js.indexOf body fence) as [i|]; [|discriminate].
  intro E. injection E as <-. apply lacks_take.
  cbn [lacks] in K. apply Bool.andb_true_iff in K. exact (proj2 K).
Qed.

Lemma fenceMatch_within (code : nat) (s g : string) :
  lacks code s = true -> fenceMatch s = Some g -> lacks code g = true.
Proof.
  induction s as [|c r IH]; intros H E.
  - cbn [fenceMatch] in E. discriminate.
  - cbn [fenceMatch] in E.
    destruct (fenceMatchAt (String c r)) as [g'|] eqn:A.
    + injection E as <-. exact (fenceMatchAt_within code _ _ H A).
    + cbn [lacks] in H. apply Bool.andb_true_iff in H. exact (IH (proj2 H) E).
Qed.

Lemma extractJsonCandidate_lacks (s : string) :
  lacks openBrace s = true -> extractJsonCandidate s = None.
Proof.
  intro H. unfold extractJsonCandidate.
  change "{" with (String (ascii_of_nat openBrace) EmptyString).
  rewrite (lacks_indexOf openBrace s EmptyString) by (unfold openBrace; trivial; lia).
  unfold extractCodeBlock.
  destruct (fenceMatch s) as [g|] eqn:F; [|reflexivity].
  pose proof (lacks_trim openBrace _
                (lacks_trim openBrace _ (fenceMatch_within openBrace s g H F))) as K.
  rewrite (lacks_startsWith openBrace _ EmptyString) by (unfold openBrace; trivial; lia).
  rewrite Bool.andb_false_r. reflexivity.
Qed.

(** X22. An answer of the approval agent without an opening brace is
    decided by its words alone: it approves exactly when the trimmed
    text, in lower case, contains [approve] and does not contain
    [reject], so that a sentence such as [I cannot approve this] approves;
    the notes are the trimmed text, or the default note when the answer is
    blank. *)
Theorem parseApprovalResponse_plain :
  forall (nm : Json.NumberModel) (response : string),
    lacks openBrace response = true ->
    parseApprovalResponse nm response = heuristicApproval (Js.trim response) /\
    decision (parseApprovalResponse nm response)
    = (if Js.includes (Js.toLowerCase (Js.trim response)) "approve"
          && negb (Js.includes (Js.toLowerCase (Js.trim response)) "reject")
       then approve else reject) /\
    notes (parseApprovalResponse nm response)
    = Js.orElse (Js.trim response) emptyResponseNote.
Proof.
  intros nm response H.
  assert (E : parseApprovalResponse nm response = heuristicApproval (Js.trim response)).
  { unfold parseApprovalResponse.
    rewrite (extractJsonCandidate_lacks _ (lacks_trim openBrace _ H)). reflexivity. }
  rewrite E. split; [reflexivity|]. unfold heuristicApproval.
  destruct (Js.includes (Js.toLowerCase (Js.trim response)) "approve"
            && negb (Js.includes (Js.toLowerCase (Js.trim response)) "reject")) eqn:B;
    cbn [decision notes]; split; try reflexivity.
  destruct (Js.trim response); [discriminate B | reflexivity].
Qed.

Lemma parseApprovalResponse_plain_witness :
  lacks openBrace "I cannot approve this." = true /\
  decision (parseApprovalResponse lexemeNumbers "I cannot approve this.") = approve.
Proof.
  split; [reflexivity|].
  rewrite (proj1 (proj2 (parseApprovalResponse_plain lexemeNumbers
                           "I cannot approve this." eq_refl))).
  reflexivity.
Defined.

(** White space outside ASCII is stripped like a blank: around the
    content of a code block, around a plain proposal, and in an answer of
    the approval agent that holds nothing else. *)
Example padded_answers :
  extractCodeBlock
    (fencedBlock "js" (Js.utf8 160 ++ "x = 1;" ++ Js.utf8 (codePoint 254 255) ++ Js.nl))
  = Some "x = 1;" /\
  replacementOf ("x = 1;" ++ Js.utf8 160) = "x = 1;" /\
  replacementOf (Js.utf8 160) = EmptyString /\
  (forall nm, parseApprovalResponse nm (Js.utf8 160)
              = {| decision := reject; notes := emptyResponseNote |}).
Proof. repeat split. Qed.

End ApprovalMore.

(** ** The context of a fix and the choice of the provider *)

Section ContextMore.

Import Ai.
Import FixAgent.
Import Notions.

(** X23. The context of a fix is the range of the diagnostic with up to
    five lines before and after it, clipped to the document: for a
    diagnostic that lies in the document, the context starts at line 0 or
    later, at most five lines before the diagnostic, ends at most five
    lines after it and not after the last line, and the snippet is the
    text of these lines.  The first line is never negative, whatever the
    diagnostic. *)
Theorem buildContext_range :
  forall (document : TextDocument) (diagnostic : Diagnostic),
    (0 <= diag_startLine diagnostic)%Z ->
    (diag_startLine diagnostic <= diag_endLine diagnostic)%Z ->
    (diag_endLine diagnostic < doc_lineCount document)%Z ->
    (0 <= startLine (buildContext document diagnostic))%Z /\
    (startLine (buildContext document diagnostic) <= diag_startLine diagnostic)%Z /\
    (diag_startLine diagnostic - startLine (buildContext document diagnostic) <= 5)%Z /\
    (diag_endLine diagnostic <= endLine (buildContext document diagnostic))%Z /\
    (endLine (buildContext document diagnostic) - diag_endLine diagnostic <= 5)%Z /\
    (endLine (buildContext document diagnostic) < doc_lineCount document)%Z /\
    snippet (buildContext document diagnostic)
    = doc_getText document (startLine (buildContext document diagnostic))
                  (endLine (buildContext document diagnostic)) /\
    (5 <= diag_startLine diagnostic ->
     startLine (buildContext document diagnostic) = diag_startLine diagnostic - 5)%Z /\
    (diag_endLine diagnostic + 5 < doc_lineCount document ->
     endLine (buildContext document diagnostic) = diag_endLine diagnostic + 5)%Z.
Proof.
  intros document diagnostic H0 H1 H2. unfold buildContext.
  cbn [startLine endLine snippet]. repeat split; lia.
Qed.

Lemma buildContext_range_witness :
  (0 <= diag_startLine sampleDiagnostic)%Z /\
  (diag_endLine sampleDiagnostic < doc_lineCount sampleDocument)%Z /\
  (0 <= startLine (buildContext sampleDocument sampleDiagnostic))%Z /\
  (endLine (buildContext sampleDocument sampleDiagnostic)
   < doc_lineCount sampleDocument)%Z.
Proof.
  assert (H0 : (0 <= diag_startLine sampleDiagnostic)%Z) by (simpl; lia).
  assert (H1 : (diag_startLine sampleDiagnostic <= diag_endLine sampleDiagnostic)%Z)
    by (simpl; lia).
  assert (H2 : (diag_endLine sampleDiagnostic < doc_lineCount sampleDocument)%Z)
    by (simpl; lia).
  destruct (buildContext_range sampleDocument sampleDiagnostic H0 H1 H2)
    as [A [_ [_ [_ [_ [B _]]]]]].
  split; [exact H0|]. split; [exact H2|]. split; [exact A | exact B].
Defined.

(** X24. A provider name other than [openai] and [anthropic], also one
    that differs from them only in the case of a letter, silently selects
    the local provider: the service then never calls the network and
    never fails, logs nothing, and answers every chat with the placeholder
    text that counts the messages. *)
Theorem unknown_provider_is_local :
  forall (nm : Json.NumberModel) (fetch : Request -> Response)
         (providerName apiKey model : string) (messages : list ChatMessage)
         (options : ChatRequestOptions) (callbacks : ChatStreamCallbacks),
    providerName <> "openai" ->
    providerName <> "anthropic" ->
    createProvider providerName apiKey model = LocalProvider /\
    outcome (serviceChat nm fetch (createProvider providerName apiKey model)
               messages options callbacks)
    = Returned (localReply messages) /\
    logged (serviceChat nm fetch (createProvider providerName apiKey model)
              messages options callbacks) = [] /\
    createProvider "openai" apiKey model = OpenAIProvider apiKey model /\
    createProvider "anthropic" apiKey model = AnthropicProvider apiKey.
Proof.
  intros nm fetch providerName apiKey model messages options callbacks H1 H2.
  assert (E : createProvider providerName apiKey model = LocalProvider).
  { unfold createProvider.
    destruct (String.eqb providerName "openai") eqn:A;
      [apply String.eqb_eq in A; contradiction|].
    destruct (String.eqb providerName "anthropic") eqn:B;
      [apply String.eqb_eq in B; contradiction|]. reflexivity. }
  rewrite E. repeat split.
Qed.

Lemma unknown_provider_is_local_witness :
  "OpenAI" <> "openai" /\
  outcome (serviceChat lexemeNumbers (fun _ => plainReply "unused")
             (createProvider "OpenAI" "key" "gpt-4") [] noOptions allCallbacks)
  = Returned (localReply []).
Proof.
  assert (H1 : "OpenAI" <> "openai") by discriminate.
  assert (H2 : "OpenAI" <> "anthropic") by discriminate.
  split; [exact H1|].
  exact (proj1 (proj2 (unknown_provider_is_local lexemeNumbers
                         (fun _ => plainReply "unused") "OpenAI" "key" "gpt-4" []
                         noOptions allCallbacks H1 H2))).
Defined.

End ContextMore.

(** ** The requests of the providers *)

Section RequestMore.

Import Ai.
Import Notions.

Lemma anthropic_payload (messages : list ChatMessage) :
  Forall2 sentAs messages
    (map (fun message => {| role := anthropicRole (role message);
                            content := content message; name := None |}) messages).
Proof.
  induction messages as [|m r IH]; cbn [map]; constructor; [|exact IH].
  unfold sentAs. cbn [content name role]. repeat split.
  - intro H. rewrite H. reflexivity.
  - intro H. destruct (role m); try reflexivity. contradiction.
Qed.

(** X26. What the providers send.  [chat] asks the network for one
    request at most, so its run is the same on two networks that answer
    the requests of the following shape alike.  The OpenAI provider sends
    the messages as given, after a [system] message when the options hold
    a system prompt that is not empty; it asks for a stream exactly when
    [onToken] is given, and it sends neither the temperature nor the token
    limit of the options.  The Anthropic provider sends each message with
    its content and without a name, as [assistant] when it is an
    assistant message and as [user] otherwise, and never asks for a
    stream; a system prompt that is not empty is sent twice, as the first
    message, of role [user], and as [system].  The local provider sends
    nothing. *)
Theorem provider_request_shape :
  forall (nm : Json.NumberModel) (fetch fetch' : Request -> Response)
         (apiKey model : string) (messages : list ChatMessage)
         (options : ChatRequestOptions) (callbacks : ChatStreamCallbacks),
    ((forall r, openaiRequestShape model messages options callbacks r ->
                fetch r = fetch' r) ->
     openaiChat nm fetch apiKey model messages options callbacks
     = openaiChat nm fetch' apiKey model messages options callbacks) /\
    ((forall r, anthropicRequestShape messages options r -> fetch r = fetch' r) ->
     anthropicChat fetch apiKey messages options callbacks
     = anthropicChat fetch' apiKey messages options callbacks) /\
    serviceChat nm fetch LocalProvider messages options callbacks
    = serviceChat nm fetch' LocalProvider messages options callbacks.
Proof.
  intros nm fetch fetch' apiKey model messages options callbacks.
  split; [|split; [|reflexivity]].
  - intro Ho. unfold openaiChat. destruct (Js.isEmpty apiKey); [reflexivity|].
    rewrite Ho; [reflexivity|].
    unfold openaiRequestShape, withSystem. cbn.
    repeat split. destruct (systemPrompt options) as [[|c p]|]; reflexivity.
  - intro Ha. unfold anthropicChat. destruct (Js.isEmpty apiKey); [reflexivity|].
    rewrite Ha; [reflexivity|].
    unfold anthropicRequestShape, truthyOpt. cbn.
    split; [reflexivity|]. split; [|repeat split].
    eexists. split; [apply anthropic_payload|].
    destruct (systemPrompt options) as [[|c p]|]; reflexivity.
Qed.

Lemma provider_request_shape_witness :
  rolesNetwork {| req_url := "u"; req_model := "m"; req_messages := [systemNote];
                  req_system := None; req_maxTokens := None; req_temperature := None;
                  req_stream := false |}
  <> openNetwork {| req_url := "u"; req_model := "m"; req_messages := [systemNote];
                    req_system := None; req_maxTokens := None; req_temperature := None;
                    req_stream := false |} /\
  anthropicChat rolesNetwork "key" [systemNote] noOptions allCallbacks
  = anthropicChat openNetwork "key" [systemNote] noOptions allCallbacks /\
  coolNetwork {| req_url := "u"; req_model := "m"; req_messages := [];
                 req_system := None; req_maxTokens := None;
                 req_temperature := Some "0.9"; req_stream := false |}
  <> openNetwork {| req_url := "u"; req_model := "m"; req_messages := [];
                    req_system := None; req_maxTokens := None;
                    req_temperature := Some "0.9"; req_stream := false |} /\
  openaiChat lexemeNumbers coolNetwork "key" "gpt-4" [systemNote] warmOptions allCallbacks
  = openaiChat lexemeNumbers openNetwork "key" "gpt-4" [systemNote] warmOptions
      allCallbacks.
Proof.
  split; [discriminate|]. split; [|split; [discriminate|]].
  - apply (proj1 (proj2 (provider_request_shape lexemeNumbers rolesNetwork openNetwork
                           "key" "gpt-4" [systemNote] noOptions allCallbacks))).
    intros r [_ [[sent [F E]] _]]. unfold rolesNetwork, openNetwork.
    cbn in E. rewrite E.
    inversion F as [|given s givens rest [_ [_ [_ R]]] F']; subst.
    inversion F'; subst. cbn [forallb].
    rewrite R; [reflexivity | discriminate].
  - apply (proj1 (provider_request_shape lexemeNumbers coolNetwork openNetwork
                    "key" "gpt-4" [systemNote] warmOptions allCallbacks)).
    intros r [_ [_ [_ [T _]]]]. unfold coolNetwork, openNetwork. rewrite T.
    reflexivity.
Defined.

End RequestMore.

(** ** The fix agent without review *)

Section DirectAgent.

Import Ai.
Import Runtime.
Import FixAgent.
Import Notions.

Variable env : Env.

Lemma notify_fields (w : World) (sid key : string) (kind : NoticeKind) (text : string) :
  chats (notify w kind text) = chats w /\
  metadataAt (notify w kind text) sid key = metadataAt w sid key.
Proof.
  split; reflexivity.
Qed.

Lemma applyFix_applied (w : World) (sid : string) (document : TextDocument)
  (context : FixContext) (text : string) :
  env_applyEdit env = true ->
  snd (applyFix env w document context text) = Returned tt /\
  found (fst (applyFix env w document context text)) sid = found w sid /\
  manager (fst (applyFix env w document context text)) = manager w /\
  notices (fst (applyFix env w document context text)) = notices w /\
  edits (fst (applyFix env w document context text))
  = (edits w ++ [{| edit_path := doc_fsPath document;
                    edit_startLine := startLine context;
                    edit_endLine := endLine context;
                    edit_text := text |}])%list /\
  saves (fst (applyFix env w document context text)) = S (saves w).
Proof.
  intro H. unfold applyFix. rewrite H. repeat split.
Qed.

Lemma applyFix_rejected (w : World) (document : TextDocument) (context : FixContext)
  (text : string) :
  env_applyEdit env = false ->
  applyFix env w document context text
  = (w, Threw "VS Code rejected the workspace edit.").
Proof.
  intro H. unfold applyFix. rewrite H. reflexivity.
Qed.

Lemma direct_requestFix (w : World) (sid : string) (document : TextDocument)
  (diagnostic : Diagnostic) (context : FixContext) :
  found w sid = true ->
  proceeds sid w (fst (FixAgentDirect.requestFix env w sid document diagnostic context)) /\
  chats (fst (FixAgentDirect.requestFix env w sid document diagnostic context))
  = (chats w ++ [proposeCall (FixAgentDirect.buildFixPrompt document diagnostic
                                                            context)])%list /\
  snd (FixAgentDirect.requestFix env w sid document diagnostic context)
  = proposalOf
      (answerOf env (List.length (chats w))
         (proposeCall (FixAgentDirect.buildFixPrompt document diagnostic context))).
Proof.
  intro H. unfold FixAgentDirect.requestFix.
  pose proof (say_proceeds env w sid Store.agent FixAgentDirect.requestingText H) as E1.
  pose proof (say_chats env w sid Store.agent FixAgentDirect.requestingText) as C1.
  set (w1 := say env w sid Store.agent FixAgentDirect.requestingText) in *.
  destruct (addMessage_proceeds env w1 sid
              (Store.pendingMessage Store.assistant EmptyString) (proj1 E1)) as [E2 N].
  destruct (addMessage_extends env w1 sid
              (Store.pendingMessage Store.assistant EmptyString) (proj1 E1))
    as [[_ [C2 _]] _].
  destruct (addMessage env w1 sid (Store.pendingMessage Store.assistant EmptyString))
    as [w2 [message|]]; [|contradiction]. cbn [fst] in E2, C2.
  rewrite app_nil_r, C1 in C2.
  set (prompt := FixAgentDirect.buildFixPrompt document diagnostic context).
  pose proof (callChat_proceeds env sid w2 (userPrompt prompt)
                (onlySystem fixSystemPrompt)
                {| onToken := true; onStart := false; onComplete := true |} (proj1 E2))
    as E3.
  rewrite (surjective_pairing
             (callChat env w2 (userPrompt prompt) (onlySystem fixSystemPrompt)
                {| onToken := true; onStart := false; onComplete := true |})).
  set (w3 := fst (callChat env w2 (userPrompt prompt) (onlySystem fixSystemPrompt)
                    {| onToken := true; onStart := false; onComplete := true |})) in *.
  set (run := snd (callChat env w2 (userPrompt prompt) (onlySystem fixSystemPrompt)
                     {| onToken := true; onStart := false; onComplete := true |})).
  assert (C3 : chats w3 = (chats w2 ++ [proposeCall prompt])%list) by reflexivity.
  assert (A : outcome run = answerOf env (List.length (chats w2)) (proposeCall prompt))
    by reflexivity.
  assert (T : forall t, outcome run = Returned t ->
                        Js.concatAll (tokenFragments (events run)) = t).
  { intros t Ht.
    exact (serviceChat_tokens (env_nm env) (env_fetch env (List.length (chats w2)))
             (env_provider env) (userPrompt prompt) (onlySystem fixSystemPrompt)
             {| onToken := true; onStart := false; onComplete := true |} t eq_refl Ht). }
  pose proof (fold_onFixEvent_proceeds env sid (Store.msg_id message) (events run) w3
                EmptyString (proj1 E3)) as E4.
  destruct (fold_onFixEvent env sid (Store.msg_id message) (events run) w3 EmptyString
              (proj1 E3)) as [w4 [F [_ [C4 _]]]].
  rewrite F in E4 |- *. cbn [fst] in E4.
  rewrite C2 in A. rewrite <- A.
  rewrite app_nil_r, C3, C2 in C4.
  pose proof (proceeds_trans sid _ _ _ (proceeds_trans sid _ _ _ E1 E2)
                (proceeds_trans sid _ _ _ E3 E4)) as E.
  destruct (outcome run) as [text|e]; cbn [fst snd proposalOf].
  - rewrite (T text eq_refl). unfold replacementOf.
    change (EmptyString ++ text)%string with text.
    destruct (Js.isEmpty
                match Approval.extractCodeBlock text with
                | Some block => block
                | None => Js.trim text
                end); cbn [fst snd]; repeat split; trivial; apply E.
  - repeat split; trivial; apply E.
Qed.

Lemma direct_tryRun (w : World) (sid : string) (document : TextDocument)
  (diagnostic : Diagnostic) :
  found w sid = true ->
  match proposalOf (answerOf env (List.length (chats w))
                      (directPropose document diagnostic)) with
  | Threw e =>
      exists w',
        FixAgentDirect.tryRun env w sid document diagnostic = (w', Threw e) /\
        proceeds sid w w' /\
        chats w' = (chats w ++ [directPropose document diagnostic])%list
  | Returned p =>
      found (fst (FixAgentDirect.tryRun env w sid document diagnostic)) sid = true /\
      chats (fst (FixAgentDirect.tryRun env w sid document diagnostic))
      = (chats w ++ [directPropose document diagnostic])%list /\
      notices (fst (FixAgentDirect.tryRun env w sid document diagnostic))
      = (notices w ++ [consentNotice])%list /\
      metadataAt (fst (FixAgentDirect.tryRun env w sid document diagnostic)) sid
                 "fixProposal"
      = Some (Some (raw p)) /\
      if Store.optEqb (env_userChoice env) (Some APPLY_ACTION) then
        if env_applyEdit env then
          snd (FixAgentDirect.tryRun env w sid document diagnostic) = Returned tt /\
          edits (fst (FixAgentDirect.tryRun env w sid document diagnostic))
          = (edits w ++ [contextEdit document diagnostic (replacement p)])%list /\
          saves (fst (FixAgentDirect.tryRun env w sid document diagnostic))
          = saves w + 1 /\
          sessionEndOf (fst (FixAgentDirect.tryRun env w sid document diagnostic)) sid
          = Some (Store.completed, Some appliedText)
        else
          snd (FixAgentDirect.tryRun env w sid document diagnostic)
          = Threw "VS Code rejected the workspace edit." /\
          edits (fst (FixAgentDirect.tryRun env w sid document diagnostic)) = edits w /\
          saves (fst (FixAgentDirect.tryRun env w sid document diagnostic)) = saves w
      else
        snd (FixAgentDirect.tryRun env w sid document diagnostic) = Returned tt /\
        edits (fst (FixAgentDirect.tryRun env w sid document diagnostic)) = edits w /\
        saves (fst (FixAgentDirect.tryRun env w sid document diagnostic)) = saves w /\
        sessionEndOf (fst (FixAgentDirect.tryRun env w sid document diagnostic)) sid
        = Some (Store.completed, Some cancelledText)
  end.
Proof.
  intros H. unfold FixAgentDirect.tryRun, directPropose.
  set (context := buildContext document diagnostic).
  pose proof (say_proceeds env w sid Store.agent
                "🔍 Gathering code context with `read_file` tool..." H) as E1.
  set (v1 := say env w sid Store.agent
               "🔍 Gathering code context with `read_file` tool...") in *.
  pose proof (say_proceeds env v1 sid Store.tool
                (renderToolMessage "read_file" (doc_fsPath document) (snippet context))
                (proj1 E1)) as E2.
  set (v2 := say env v1 sid Store.tool
               (renderToolMessage "read_file" (doc_fsPath document) (snippet context)))
    in *.
  assert (C2 : chats v2 = chats w) by (unfold v2, v1; rewrite !say_chats; reflexivity).
  destruct (direct_requestFix v2 sid document diagnostic context (proj1 E2))
    as [E3 [C3 R3]].
  rewrite C2 in C3, R3.
  rewrite (surjective_pairing
             (FixAgentDirect.requestFix env v2 sid document diagnostic context)), R3.
  set (v3 := fst (FixAgentDirect.requestFix env v2 sid document diagnostic context))
    in *.
  pose proof (proceeds_trans sid _ _ _ E1 (proceeds_trans sid _ _ _ E2 E3)) as E13.
  destruct (proposalOf
              (answerOf env (List.length (chats w))
                 (proposeCall (FixAgentDirect.buildFixPrompt document diagnostic
                                                             context))))
    as [p|e].
  2: { exists v3. split; [reflexivity|]. split; [exact E13 | exact C3]. }
  pose proof (updateSessionStatus_proceeds env v3 sid Store.idle (proj1 E3)) as E4.
  set (v4 := updateSessionStatus env v3 sid Store.idle) in *.
  pose proof (updateSessionMetadata_proceeds env v4 sid
                [("fixProposal", Some (raw p))] (proj1 E4)) as E5.
  assert (M5 : forall key,
             metadataAt (updateSessionMetadata env v4 sid
                           [("fixProposal", Some (raw p))]) sid key
             = match metadataGet (rev [("fixProposal", Some (raw p))]) key with
               | Some v => Some v
               | None => metadataAt v4 sid key
               end)
    by (intro key; apply updateSessionMetadata_at; exact (proj1 E4)).
  set (v5 := updateSessionMetadata env v4 sid [("fixProposal", Some (raw p))]) in *.
  pose proof (proceeds_trans sid _ _ _ E13 (proceeds_trans sid _ _ _ E4 E5)) as E15.
  pose proof (notify_advances sid v5 InfoNotice FixAgentDirect.consentText (proj1 E5))
    as E6.
  set (v6 := notify v5 InfoNotice FixAgentDirect.consentText) in *.
  pose proof (advances_trans sid _ _ _ _ _ _ _ _ _ (proceeds_advances _ _ _ E15) E6)
    as E16.
  cbn [app Nat.add] in E16.
  destruct (notify_fields v5 sid "fixProposal" InfoNotice FixAgentDirect.consentText)
    as [C6 Mp].
  fold v6 in C6, Mp. rewrite M5 in Mp. cbn [rev app metadataGet find fst snd option_map
                                           String.eqb Ascii.eqb Bool.eqb] in Mp.
  assert (C5 : chats v5 = chats v3) by reflexivity.
  rewrite C5 in C6.
  destruct (Store.optEqb (env_userChoice env) (Some APPLY_ACTION)); cbn [negb].
  - pose proof (say_proceeds env v6 sid Store.agent
                  "✍️ Applying changes with `write_file` tool..." (proj1 E6)) as E7.
    pose proof (say_metadata env v6 sid Store.agent
                  "✍️ Applying changes with `write_file` tool...") as K7.
    pose proof (say_chats env v6 sid Store.agent
                  "✍️ Applying changes with `write_file` tool...") as C7.
    set (v7 := say env v6 sid Store.agent
                 "✍️ Applying changes with `write_file` tool...") in *.
    pose proof (advances_proceeds sid _ _ _ _ _ _ E16 E7) as E17.
    destruct E17 as [F7 [_ [D7 [S7 N7]]]].
    rewrite app_nil_r in D7. rewrite Nat.add_0_r in S7.
    destruct (env_applyEdit env) eqn:Ae.
    + destruct (applyFix_applied v7 sid document context (replacement p) Ae)
        as [R8 [F8 [G8 [N8 [D8 S8]]]]].
      pose proof (applyFix_chats env v7 document context (replacement p)) as C8.
      rewrite (surjective_pairing (applyFix env v7 document context (replacement p))),
              R8.
      set (v8 := fst (applyFix env v7 document context (replacement p))) in *.
      rewrite F7 in F8.
      pose proof (say_proceeds env v8 sid Store.tool
                    (renderToolMessage "write_file" (doc_fsPath document)
                                       (replacement p)) F8) as E9.
      pose proof (say_metadata env v8 sid Store.tool
                    (renderToolMessage "write_file" (doc_fsPath document)
                                       (replacement p))) as K9.
      pose proof (say_chats env v8 sid Store.tool
                    (renderToolMessage "write_file" (doc_fsPath document)
                                       (replacement p))) as C9.
      set (v9 := say env v8 sid Store.tool
                   (renderToolMessage "write_file" (doc_fsPath document)
                                      (replacement p))) in *.
      pose proof (say_proceeds env v9 sid Store.agent
                    "✅ Fix applied. Please review and run your tests." (proj1 E9))
        as E10.
      pose proof (say_metadata env v9 sid Store.agent
                    "✅ Fix applied. Please review and run your tests.") as K10.
      pose proof (say_chats env v9 sid Store.agent
                    "✅ Fix applied. Please review and run your tests.") as C10.
      set (v10 := say env v9 sid Store.agent
                    "✅ Fix applied. Please review and run your tests.") in *.
      pose proof (updateSessionStatus_proceeds env v10 sid Store.completed (proj1 E10))
        as E11.
      pose proof (updateSessionStatus_metadata env v10 sid Store.completed) as K11.
      assert (C11 : chats (updateSessionStatus env v10 sid Store.completed) = chats v10)
        by reflexivity.
      cbn [fst snd].
      destruct (proceeds_trans sid _ _ _ E9 (proceeds_trans sid _ _ _ E10 E11))
        as [F11 [_ [D11 [S11 N11]]]].
      split; [exact F11|].
      split; [rewrite C11, C10, C9, C8, C7, C6; exact C3|].
      split; [rewrite N11, N8; exact N7|].
      assert (K : option_map Store.sess_metadata
                    (Store.getSession
                       (manager (updateSessionStatus env v10 sid Store.completed)) sid)
                  = option_map Store.sess_metadata (Store.getSession (manager v6) sid)).
      { rewrite K11, K10, K9, G8. exact K7. }
      split; [rewrite (metadataAt_same _ _ sid _ K); exact Mp|].
      split; [reflexivity|].
      split; [rewrite D11, D8, D7; reflexivity|].
      split; [rewrite S11, S8, S7; lia|].
      apply say_then_status. exact (proj1 E9).
    + rewrite (applyFix_rejected v7 document context (replacement p) Ae).
      cbn [fst snd].
      split; [exact F7|]. split; [rewrite C7, C6; exact C3|].
      split; [exact N7|].
      split; [rewrite (metadataAt_same _ _ sid _ K7); exact Mp|].
      split; [reflexivity|]. split; [exact D7 | exact S7].
  - pose proof (say_proceeds env v6 sid Store.agent
                  "⏸️ Fix application cancelled by user." (proj1 E6)) as E7.
    pose proof (say_metadata env v6 sid Store.agent
                  "⏸️ Fix application cancelled by user.") as K7.
    pose proof (say_chats env v6 sid Store.agent
                  "⏸️ Fix application cancelled by user.") as C7.
    set (v7 := say env v6 sid Store.agent "⏸️ Fix application cancelled by user.") in *.
    pose proof (updateSessionStatus_proceeds env v7 sid Store.completed (proj1 E7)) as E8.
    pose proof (updateSessionStatus_metadata env v7 sid Store.completed) as K8.
    assert (C8 : chats (updateSessionStatus env v7 sid Store.completed) = chats v7)
      by reflexivity.
    cbn [fst snd].
    destruct (advances_proceeds sid _ _ _ _ _ _ E16 (proceeds_trans sid _ _ _ E7 E8))
      as [F8 [_ [D8 [S8 N8]]]].
    rewrite app_nil_r in D8. rewrite Nat.add_0_r in S8.
    split; [exact F8|]. split; [rewrite C8, C7, C6; exact C3|].
    split; [exact N8|].
    assert (K : option_map Store.sess_metadata
                  (Store.getSession
                     (manager (updateSessionStatus env v7 sid Store.completed)) sid)
                = option_map Store.sess_metadata (Store.getSession (manager v6) sid))
      by (rewrite K8; exact K7).
    split; [rewrite (metadataAt_same _ _ sid _ K); exact Mp|].
    split; [reflexivity|]. split; [exact D8|]. split; [exact S8|].
    apply say_then_status. exact (proj1 E6).
Qed.

Lemma direct_start (w : World) (document : TextDocument) (diagnostic : Diagnostic) :
  exists w4,
    found w4 (Store.sess_id (snd (FixAgentDirect.run env w document diagnostic))) = true /\
    chats w4 = chats w /\ edits w4 = edits w /\ saves w4 = saves w /\
    notices w4 = notices w /\
    fst (FixAgentDirect.run env w document diagnostic)
    = match FixAgentDirect.tryRun env w4
              (Store.sess_id (snd (FixAgentDirect.run env w document diagnostic)))
              document diagnostic with
      | (w5, Returned _) => w5
      | (w5, Threw e) =>
          updateSessionStatus env
            (say env (logError w5 "FixAgent failed")
               (Store.sess_id (snd (FixAgentDirect.run env w document diagnostic)))
               Store.agent (failedText e))
            (Store.sess_id (snd (FixAgentDirect.run env w document diagnostic)))
            Store.error
      end.
Proof.
  unfold FixAgentDirect.run.
  pose proof (createSession_found env w Store.FIX
                (Some (buildSessionTitle document diagnostic))
                (Some [("filePath", Some (doc_fsPath document));
                       ("diagnosticCode", diag_code diagnostic);
                       ("vulnerabilityMessage", Some (diag_message diagnostic))]))
    as [F0 [C0 D0]].
  pose proof (createSession_surface env w Store.FIX
                (Some (buildSessionTitle document diagnostic))
                (Some [("filePath", Some (doc_fsPath document));
                       ("diagnosticCode", diag_code diagnostic);
                       ("vulnerabilityMessage", Some (diag_message diagnostic))]))
    as [S0 N0].
  destruct (createSession env w Store.FIX
              (Some (buildSessionTitle document diagnostic))
              (Some [("filePath", Some (doc_fsPath document));
                     ("diagnosticCode", diag_code diagnostic);
                     ("vulnerabilityMessage", Some (diag_message diagnostic))]))
    as [w1 session].
  cbn [fst snd] in F0, C0, D0, S0, N0.
  set (sid := Store.sess_id session) in *.
  assert (E1 : proceeds sid (reveal w1)
                 (updateSessionStatus env (reveal w1) sid Store.running))
    by (apply updateSessionStatus_proceeds; exact F0).
  set (w2 := updateSessionStatus env (reveal w1) sid Store.running) in *.
  pose proof (say_proceeds env w2 sid Store.agent
                ("🚀 Starting AI-assisted fix for **" ++ doc_baseName document
                 ++ "** at line " ++ Js.intToString (diag_startLine diagnostic + 1) ++ ".")
                (proj1 E1)) as E2.
  set (w3 := say env w2 sid Store.agent
               ("🚀 Starting AI-assisted fix for **" ++ doc_baseName document
                ++ "** at line " ++ Js.intToString (diag_startLine diagnostic + 1) ++ "."))
    in *.
  pose proof (say_proceeds env w3 sid Store.agent
                ("⚠️ Issue detected: " ++ diag_message diagnostic) (proj1 E2)) as E3.
  set (w4 := say env w3 sid Store.agent
               ("⚠️ Issue detected: " ++ diag_message diagnostic)) in *.
  pose proof (proceeds_trans sid _ _ _ E1 (proceeds_trans sid _ _ _ E2 E3))
    as [F4 [_ [D4 [S4 N4]]]].
  assert (C4 : chats w4 = chats w).
  { unfold w4, w3. rewrite !say_chats. exact C0. }
  exists w4.
  assert (Sn : snd (let (w5, o) := FixAgentDirect.tryRun env w4 sid document diagnostic in
                    match o with
                    | Returned _ => (w5, session)
                    | Threw e =>
                        (updateSessionStatus env
                           (say env (logError w5 "FixAgent failed") sid Store.agent
                              ("❌ Failed to complete the fix: " ++ e)) sid Store.error,
                         session)
                    end) = session)
    by (destruct (FixAgentDirect.tryRun env w4 sid document diagnostic)
          as [w5 [u|e]]; reflexivity).
  rewrite Sn. fold sid.
  split; [exact F4|]. split; [exact C4|].
  split; [rewrite D4; exact D0|]. split; [rewrite S4; exact S0|].
  split; [rewrite N4; exact N0|].
  destruct (FixAgentDirect.tryRun env w4 sid document diagnostic) as [w5 [u|e]];
    reflexivity.
Qed.

(** X27. The agent without review ([src/chat/fixAgent.ts]) makes exactly
    one call of the provider and applies what it proposes on the consent
    of the user alone.  If the call throws or yields no replacement, the
    session ends in the status [error] with the error, nothing is applied
    and no notice is shown.  Otherwise the raw answer is stored as
    [fixProposal] and the user is asked once: on [Apply Fix], exactly one
    edit replaces the context lines with the replacement and the document
    is saved, or, if the editor rejects the edit, the session ends in the
    status [error]; on any other choice nothing is applied and the session
    ends [completed] with the message that the user cancelled. *)
Theorem direct_run_outcomes :
  forall (w : World) (document : TextDocument) (diagnostic : Diagnostic),
    let w' := fst (FixAgentDirect.run env w document diagnostic) in
    let sid := Store.sess_id (snd (FixAgentDirect.run env w document diagnostic)) in
    chats w' = (chats w ++ [directPropose document diagnostic])%list /\
    match proposalOf (answerOf env (List.length (chats w))
                        (directPropose document diagnostic)) with
    | Threw e =>
        edits w' = edits w /\ saves w' = saves w /\ notices w' = notices w /\
        sessionEndOf w' sid = Some (Store.error, Some (failedText e))
    | Returned p =>
        notices w' = (notices w ++ [consentNotice])%list /\
        metadataAt w' sid "fixProposal" = Some (Some (raw p)) /\
        if Store.optEqb (env_userChoice env) (Some APPLY_ACTION) then
          if env_applyEdit env then
            edits w' = (edits w ++ [contextEdit document diagnostic
                                                (replacement p)])%list /\
            saves w' = saves w + 1 /\
            sessionEndOf w' sid = Some (Store.completed, Some appliedText)
          else
            edits w' = edits w /\ saves w' = saves w /\
            sessionEndOf w' sid
            = Some (Store.error,
                    Some (failedText "VS Code rejected the workspace edit."))
        else
          edits w' = edits w /\ saves w' = saves w /\
          sessionEndOf w' sid = Some (Store.completed, Some cancelledText)
    end.
Proof.
  intros w document diagnostic. cbv zeta.
  destruct (direct_start w document diagnostic) as [w4 [F4 [C4 [D4 [S4 [N4 Run]]]]]].
  set (sid := Store.sess_id (snd (FixAgentDirect.run env w document diagnostic))) in *.
  pose proof (direct_tryRun w4 sid document diagnostic F4) as T.
  rewrite C4 in T.
  destruct (proposalOf (answerOf env (List.length (chats w))
                          (directPropose document diagnostic))) as [p|e].
  - destruct T as [F [C [N [Mp B]]]].
    rewrite (surjective_pairing (FixAgentDirect.tryRun env w4 sid document diagnostic))
      in Run.
    set (v := fst (FixAgentDirect.tryRun env w4 sid document diagnostic)) in *.
    destruct (Store.optEqb (env_userChoice env) (Some APPLY_ACTION));
      [destruct (env_applyEdit env)|].
    + destruct B as [Sn [D [S End]]]. rewrite Sn in Run. rewrite Run.
      rewrite C, N, N4, D, S, D4, S4. repeat split; trivial.
    + destruct B as [Sn [D S]]. rewrite Sn in Run. rewrite Run.
      destruct (failure_end env v sid "VS Code rejected the workspace edit." F)
        as [Cf [Df [Sf [Nf End]]]].
      assert (K : forall key,
                 metadataAt
                   (updateSessionStatus env
                      (say env (logError v "FixAgent failed") sid Store.agent
                         (failedText "VS Code rejected the workspace edit."))
                      sid Store.error) sid key
                 = metadataAt v sid key).
      { intro key. apply metadataAt_same.
        rewrite updateSessionStatus_metadata, say_metadata. reflexivity. }
      rewrite !K, Cf, Df, Sf, Nf, C, N, N4, D, S, D4, S4. repeat split; trivial.
    + destruct B as [Sn [D [S End]]]. rewrite Sn in Run. rewrite Run.
      rewrite C, N, N4, D, S, D4, S4. repeat split; trivial.
  - destruct T as [v [L [[F [_ [D [S N]]]] C]]]. rewrite Run, L.
    destruct (failure_end env v sid e F) as [Cf [Df [Sf [Nf End]]]].
    rewrite Cf, Df, Sf, Nf, C, D, S, N, D4, S4, N4. repeat split; trivial.
Qed.

End DirectAgent.

(** ** The analyzer: duplicates, priorities and line numbers *)

Section AnalyzerMore.

Import Analyzer.
Import Notions.

Lemma mapGet_mapSet {V : Type} (k k' : string) (v : V) (m : JsMap V) :
  mapGet k' (mapSet k v m) = if String.eqb k k' then Some v else mapGet k' m.
Proof.
  induction m as [|[k0 v0] r IH]; cbn [mapSet mapGet].
  - reflexivity.
  - destruct (String.eqb k0 k) eqn:E; cbn [mapGet].
    + apply String.eqb_eq in E. subst k0. destruct (String.eqb k k'); reflexivity.
    + destruct (String.eqb k0 k') eqn:E'; [|exact IH].
      apply String.eqb_eq in E'. subst k0. rewrite String.eqb_sym, E. reflexivity.
Qed.

Lemma keys_mapSet {V : Type} (k : string) (v : V) (m : JsMap V) :
  map fst (mapSet k v m)
  = match mapGet k m with
    | Some _ => map fst m
    | None => (map fst m ++ [k])%list
    end.
Proof.
  induction m as [|[k0 v0] r IH]; cbn [mapSet mapGet map fst app]; [reflexivity|].
  destruct (String.eqb k0 k); cbn [map fst]; [reflexivity|].
  rewrite IH. destruct (mapGet k r); reflexivity.
Qed.

Lemma mapGet_In {V : Type} (k : string) (v : V) (m : JsMap V) :
  mapGet k m = Some v -> In (k, v) m.
Proof.
  induction m as [|[k0 v0] r IH]; cbn [mapGet]; [discriminate|].
  destruct (String.eqb k0 k) eqn:E.
  - intro H. injection H as <-. apply String.eqb_eq in E. subst. left. reflexivity.
  - intro H. right. exact (IH H).
Qed.

Lemma mapGet_None {V : Type} (k : string) (m : JsMap V) :
  mapGet k m = None -> ~ In k (map fst m).
Proof.
  induction m as [|[k0 v0] r IH]; cbn [mapGet map fst]; [intros _ []|].
  destruct (String.eqb k0 k) eqn:E; [discriminate|].
  intros H [H0 | H0]; [|exact (IH H H0)].
  subst. rewrite String.eqb_refl in E. discriminate.
Qed.

Lemma In_mapGet {V : Type} (k : string) (v : V) (m : JsMap V) :
  NoDup (map fst m) -> In (k, v) m -> mapGet k m = Some v.
Proof.
  induction m as [|[k0 v0] r IH]; cbn [mapGet map fst]; [intros _ []|].
  intros N [H | H].
  - injection H as -> ->. rewrite String.eqb_refl. reflexivity.
  - inversion N as [|? ? N1 N2]; subst.
    destruct (String.eqb k0 k) eqn:E.
    + apply String.eqb_eq in E. subst. exfalso. apply N1.
      exact (in_map fst _ _ H).
    + exact (IH N2 H).
Qed.

Lemma In_mapSet {V : Type} (k k' : string) (v v' : V) (m : JsMap V) :
  In (k', v') (mapSet k v m) -> (k' = k /\ v' = v) \/ In (k', v') m.
Proof.
  induction m as [|[k0 v0] r IH]; cbn [mapSet].
  - intros [H | []]. injection H as <- <-. left. split; reflexivity.
  - destruct (String.eqb k0 k) eqn:E.
    + intros [H | H].
      * injection H as <- <-. apply String.eqb_eq in E. left. split; [exact E|reflexivity].
      * right. right. exact H.
    + intros [H | H].
      * right. left. exact H.
      * destruct (IH H) as [H0 | H0]; [left; exact H0 | right; right; exact H0].
Qed.

Lemma NoDup_mapSet {V : Type} (k : string) (v : V) (m : JsMap V) :
  NoDup (map fst m) -> NoDup (map fst (mapSet k v m)).
Proof.
  intro N. rewrite keys_mapSet. destruct (mapGet k m) eqn:G; [exact N|].
  apply NoDup_app; [exact N | repeat constructor; intros [] |].
  intros x Hx [<- | []]. exact (mapGet_None _ _ G Hx).
Qed.

Lemma remembered_step (seen : list Vulnerability) (m : JsMap Vulnerability)
  (v : Vulnerability) :
  remembered seen m -> remembered (seen ++ [v]) (remember m v).
Proof.
  intros [N [Hm Hs]].
  assert (Keep : forall v0, In v0 seen -> keyOf v0 <> keyOf v ->
                   exists u, mapGet (keyOf v0) (mapSet (keyOf v) v m) = Some u /\
                             (confidence v0 <= confidence u)%Z).
  { intros v0 H0 Hne. rewrite mapGet_mapSet.
    destruct (String.eqb (keyOf v) (keyOf v0)) eqn:E;
      [apply String.eqb_eq in E; congruence|]. exact (Hs v0 H0). }
  assert (Entries : forall k u, In (k, u) (mapSet (keyOf v) v m) ->
                      keyOf u = k /\ In u (seen ++ [v])).
  { intros k u H. destruct (In_mapSet _ _ _ _ _ H) as [[-> ->] | H0].
    - split; [reflexivity|]. apply in_or_app. right. left. reflexivity.
    - destruct (Hm k u H0) as [A B]. split; [exact A|]. apply in_or_app. left. exact B. }
  unfold remember.
  destruct (mapGet (keyOf v) m) as [existing|] eqn:G.
  - destruct (confidence existing <? confidence v)%Z eqn:L.
    + apply Z.ltb_lt in L. split; [apply NoDup_mapSet; exact N|]. split; [exact Entries|].
      intros v0 H0. apply in_app_or in H0.
      destruct (String.eqb (keyOf v) (keyOf v0)) eqn:E.
      * apply String.eqb_eq in E. exists v. rewrite mapGet_mapSet, <- E, String.eqb_refl.
        split; [reflexivity|].
        destruct H0 as [H0 | [<- | []]]; [|lia].
        destruct (Hs v0 H0) as [u [Gu Lu]]. rewrite <- E, G in Gu.
        injection Gu as <-. lia.
      * destruct H0 as [H0 | [<- | []]];
          [|rewrite String.eqb_refl in E; discriminate].
        apply Keep; [exact H0|]. intro Hk. rewrite Hk, String.eqb_refl in E.
        discriminate.
    + apply Z.ltb_ge in L. split; [exact N|]. split.
      * intros k u H. destruct (Hm k u H) as [A B]. split; [exact A|].
        apply in_or_app. left. exact B.
      * intros v0 H0. apply in_app_or in H0.
        destruct H0 as [H0 | [<- | []]]; [exact (Hs v0 H0)|].
        exists existing. split; [exact G | exact L].
  - split; [apply NoDup_mapSet; exact N|]. split; [exact Entries|].
    intros v0 H0. apply in_app_or in H0.
    destruct (String.eqb (keyOf v) (keyOf v0)) eqn:E.
    + apply String.eqb_eq in E. exists v. rewrite mapGet_mapSet, <- E, String.eqb_refl.
      split; [reflexivity|].
      destruct H0 as [H0 | [<- | []]]; [|lia].
      destruct (Hs v0 H0) as [u [Gu _]]. rewrite <- E, G in Gu. discriminate.
    + destruct H0 as [H0 | [<- | []]];
        [|rewrite String.eqb_refl in E; discriminate].
      apply Keep; [exact H0|]. intro Hk. rewrite Hk, String.eqb_refl in E.
      discriminate.
Qed.

Lemma remembered_fold (vs : list Vulnerability) :
  forall (seen : list Vulnerability) (m : JsMap Vulnerability),
    remembered seen m -> remembered (seen ++ vs) (fold_left remember vs m).
Proof.
  induction vs as [|v r IH]; intros seen m H; cbn [fold_left].
  - rewrite app_nil_r. exact H.
  - pose proof (IH _ _ (remembered_step seen m v H)) as K.
    rewrite <- app_assoc in K. exact K.
Qed.

Lemma remembered_all (vs : list Vulnerability) :
  remembered vs (fold_left remember vs []).
Proof.
  apply (remembered_fold vs [] []). split; [constructor|].
  split; [intros k u []|intros v []].
Qed.

Lemma insertSorted_perm {A : Type} (compare : A -> A -> Z) (x : A) (l : list A) :
  Permutation (insertSorted compare x l) (x :: l).
Proof.
  induction l as [|y r IH]; cbn [insertSorted]; [apply Permutation_refl|].
  destruct (0 <? compare x y)%Z; [|apply Permutation_refl].
  apply (perm_trans (perm_skip y IH)). apply perm_swap.
Qed.

Lemma sortStable_perm {A : Type} (compare : A -> A -> Z) (l : list A) :
  Permutation (sortStable compare l) l.
Proof.
  induction l as [|x r IH]; cbn [sortStable fold_right]; [apply perm_nil|].
  apply (perm_trans (insertSorted_perm compare x _)). apply perm_skip. exact IH.
Qed.

Lemma sortStable_sorted_id {A : Type} (compare : A -> A -> Z) (l : list A) :
  StronglySorted (fun a b => (compare a b <= 0)%Z) l -> sortStable compare l = l.
Proof.
  induction 1 as [|x l S IH F]; [reflexivity|].
  cbn [sortStable fold_right]. fold (sortStable compare l). rewrite IH.
  destruct l as [|y r]; [reflexivity|]. cbn [insertSorted].
  inversion F as [|? ? Hxy _]; subst.
  destruct (0 <? compare x y)%Z eqn:E; [apply Z.ltb_lt in E; lia | reflexivity].
Qed.

Lemma plain_rank (v : Vulnerability) :
  plainSeverity v -> severityRank (severity v) = Some (rankOf v).
Proof.
  unfold plainSeverity, rankOf, severityRank. intro H.
  destruct (String.eqb (severity v) "critical"); [reflexivity|].
  destruct (String.eqb (severity v) "high"); [reflexivity|].
  destruct (String.eqb (severity v) "medium"); [reflexivity|].
  destruct (String.eqb (severity v) "low"); [reflexivity|].
  rewrite H. reflexivity.
Qed.

Lemma notAfter_ordered (a b : Vulnerability) :
  plainSeverity a -> plainSeverity b -> (notAfter a b <-> ordered a b).
Proof.
  intros Ha Hb. unfold notAfter, ordered, compareVulnerabilities.
  rewrite (plain_rank a Ha), (plain_rank b Hb).
  destruct (rankOf a =? rankOf b)%Z eqn:E; cbn [negb].
  - apply Z.eqb_eq in E. split; [intro H; right; split; [exact E | lia]|].
    intros [H | [_ H]]; lia.
  - apply Z.eqb_neq in E. split; [intro H; left; lia|].
    intros [H | [H _]]; [lia | contradiction].
Qed.

Lemma insertSorted_sorted (x : Vulnerability) (l : list Vulnerability) :
  plainSeverity x ->
  Forall plainSeverity l ->
  StronglySorted notAfter l ->
  StronglySorted notAfter (insertSorted compareVulnerabilities x l).
Proof.
  intros Hx Hl S. induction S as [|y r S IH F]; cbn [insertSorted].
  - constructor; constructor.
  - inversion Hl as [|? ? Hy Hr]; subst.
    destruct (0 <? compareVulnerabilities x y)%Z eqn:E.
    + apply Z.ltb_lt in E. constructor; [exact (IH Hr)|].
      apply (Permutation_Forall (Permutation_sym
                                   (insertSorted_perm compareVulnerabilities x r))).
      constructor; [|exact F].
      apply (notAfter_ordered y x Hy Hx).
      assert (N : ~ ordered x y).
      { intro O. apply (notAfter_ordered x y Hx Hy) in O. unfold notAfter in O. lia. }
      unfold ordered in *. lia.
    + apply Z.ltb_ge in E. constructor; [constructor; assumption|].
      constructor; [exact E|].
      rewrite Forall_forall in F, Hr |- *. intros z Hz.
      apply (notAfter_ordered x z Hx (Hr z Hz)).
      pose proof (proj1 (notAfter_ordered x y Hx Hy) E) as O1.
      pose proof (proj1 (notAfter_ordered y z Hy (Hr z Hz)) (F z Hz)) as O2.
      unfold ordered in *. lia.
Qed.

Lemma sortStable_sorted (l : list Vulnerability) :
  Forall plainSeverity l ->
  StronglySorted notAfter (sortStable compareVulnerabilities l).
Proof.
  induction l as [|x r IH]; intro H; cbn [sortStable fold_right]; [constructor|].
  inversion H as [|? ? Hx Hr]; subst.
  apply insertSorted_sorted; [exact Hx | | exact (IH Hr)].
  apply (Permutation_Forall (Permutation_sym (sortStable_perm _ r))). exact Hr.
Qed.

Lemma kept_from_input (vs : list Vulnerability) (u : Vulnerability) :
  In u (deduplicateAndPrioritize vs) <->
  In (keyOf u, u) (fold_left remember vs []).
Proof.
  unfold deduplicateAndPrioritize, mapValues.
  destruct (remembered_all vs) as [_ [Hm _]].
  split.
  - intro H. apply (Permutation_in _ (sortStable_perm _ _)) in H.
    apply in_map_iff in H. destruct H as [[k u'] [E H]]. cbn [snd] in E. subst u'.
    destruct (Hm k u H) as [<- _]. exact H.
  - intro H. apply (Permutation_in _ (Permutation_sym (sortStable_perm _ _))).
    apply in_map_iff. exists (keyOf u, u). split; [reflexivity | exact H].
Qed.

Lemma kept_keys (vs : list Vulnerability) :
  map keyOf (mapValues (fold_left remember vs []))
  = map fst (fold_left remember vs []).
Proof.
  destruct (remembered_all vs) as [_ [Hm _]]. unfold mapValues.
  induction (fold_left remember vs []) as [|[k u] r IH]; [reflexivity|].
  cbn [map fst snd]. rewrite (proj1 (Hm k u (or_introl eq_refl))). f_equal.
  apply IH. intros k' u' H. apply Hm. right. exact H.
Qed.

Lemma firstBest_later (seen : list Vulnerability) (u v : Vulnerability) :
  firstBest seen u ->
  (keyOf v = keyOf u -> (confidence v <= confidence u)%Z) ->
  firstBest (seen ++ [v]) u.
Proof.
  intros [before [after [E [B A]]]] H. exists before, (after ++ [v])%list.
  split; [rewrite E, <- app_assoc; reflexivity|]. split; [exact B|].
  intros w Hw Hk. apply in_app_or in Hw.
  destruct Hw as [Hw | [<- | []]]; [exact (A w Hw Hk) | exact (H Hk)].
Qed.

Lemma firstBest_step (seen : list Vulnerability) (m : JsMap Vulnerability)
  (v : Vulnerability) :
  remembered seen m ->
  (forall k u, In (k, u) m -> firstBest seen u) ->
  forall k u, In (k, u) (remember m v) -> firstBest (seen ++ [v]) u.
Proof.
  intros [N [Hm Hs]] Hf.
  assert (New : (forall w, In w seen -> keyOf w = keyOf v ->
                           (confidence w < confidence v)%Z) ->
                firstBest (seen ++ [v]) v).
  { intro H. exists seen, []. split; [reflexivity|]. split; [exact H|]. intros w []. }
  assert (Set' : (forall w, In w seen -> keyOf w = keyOf v ->
                            (confidence w < confidence v)%Z) ->
                 forall k u, In (k, u) (mapSet (keyOf v) v m) ->
                             firstBest (seen ++ [v]) u).
  { intros H k u Hin.
    pose proof (In_mapGet _ _ _ (NoDup_mapSet (keyOf v) v m N) Hin) as G.
    rewrite mapGet_mapSet in G.
    destruct (String.eqb (keyOf v) k) eqn:E.
    - injection G as <-. exact (New H).
    - apply mapGet_In in G. apply (firstBest_later _ _ _ (Hf k u G)).
      intro Hk. destruct (Hm k u G) as [K _]. rewrite Hk, K, String.eqb_refl in E.
      discriminate. }
  unfold remember. destruct (mapGet (keyOf v) m) as [existing|] eqn:G.
  - destruct (confidence existing <? confidence v)%Z eqn:L.
    + apply Z.ltb_lt in L. apply Set'. intros w Hw Hk.
      destruct (Hs w Hw) as [u' [Gu Lu]]. rewrite Hk, G in Gu. injection Gu as <-. lia.
    + apply Z.ltb_ge in L. intros k u Hin.
      apply (firstBest_later _ _ _ (Hf k u Hin)). intro Hk.
      destruct (Hm k u Hin) as [K _].
      pose proof (In_mapGet _ _ _ N Hin) as Gk. rewrite <- K, <- Hk, G in Gk.
      injection Gk as <-. exact L.
  - apply Set'. intros w Hw Hk.
    destruct (Hs w Hw) as [u' [Gu _]]. rewrite Hk, G in Gu. discriminate.
Qed.

Lemma firstBest_fold (vs : list Vulnerability) :
  forall (seen : list Vulnerability) (m : JsMap Vulnerability),
    remembered seen m ->
    (forall k u, In (k, u) m -> firstBest seen u) ->
    forall k u, In (k, u) (fold_left remember vs m) -> firstBest (seen ++ vs) u.
Proof.
  induction vs as [|v r IH]; intros seen m R F k u H; cbn [fold_left] in H.
  - rewrite app_nil_r. exact (F k u H).
  - pose proof (IH (seen ++ [v])%list (remember m v) (remembered_step seen m v R)
                  (firstBest_step seen m v R F) k u H) as K.
    rewrite <- app_assoc in K. exact K.
Qed.

(** X28. [deduplicateAndPrioritize] keeps one finding for each key
    [line-column-type]: the findings of the result have distinct keys,
    each of them is a finding of the input, and every finding of the
    input has its key in the result, with a confidence that is not
    smaller.  The finding kept for a key is the first one of the largest
    confidence: a later finding of the key replaces it only with a
    strictly larger confidence, so the findings of its key before it in
    the input have a smaller confidence and the ones after it have no
    larger one.  When no severity names an inherited member of the
    object, the result is in the order of the severities [critical],
    [high], [medium], [low], any other; findings of the same severity are
    in the order of falling confidence. *)
Theorem deduplicateAndPrioritize_result :
  forall vs : list Vulnerability,
    NoDup (map keyOf (deduplicateAndPrioritize vs)) /\
    (forall u, In u (deduplicateAndPrioritize vs) -> In u vs) /\
    (forall v, In v vs ->
               exists u, In u (deduplicateAndPrioritize vs) /\
                         keyOf u = keyOf v /\
                         (confidence v <= confidence u)%Z) /\
    (forall u, In u (deduplicateAndPrioritize vs) -> firstBest vs u) /\
    (Forall plainSeverity vs -> StronglySorted ordered (deduplicateAndPrioritize vs)).
Proof.
  intro vs. destruct (remembered_all vs) as [N [Hm Hs]].
  split; [|split; [|split; [|split]]].
  - apply (Permutation_NoDup
             (Permutation_map keyOf
                (Permutation_sym (sortStable_perm compareVulnerabilities _)))).
    rewrite kept_keys. exact N.
  - intros u H. apply kept_from_input in H. exact (proj2 (Hm _ _ H)).
  - intros v H. destruct (Hs v H) as [u [G L]]. exists u.
    pose proof (mapGet_In _ _ _ G) as I. destruct (Hm _ _ I) as [K _].
    split; [apply kept_from_input; rewrite K; exact I|]. split; [exact K | exact L].
  - intros u H. apply kept_from_input in H.
    assert (R0 : remembered [] []).
    { split; [constructor|]. split; [intros k w []|intros w []]. }
    exact (firstBest_fold vs [] [] R0 (fun k w (F : In (k, w) []) => match F with end)
             _ _ H).
  - intro P.
    assert (Pk : Forall plainSeverity (mapValues (fold_left remember vs []))).
    { rewrite Forall_forall in P |- *. intros u H. unfold mapValues in H.
      apply in_map_iff in H. destruct H as [[k u'] [E H]]. cbn [snd] in E. subst u'.
      exact (P u (proj2 (Hm k u H))). }
    pose proof (sortStable_sorted _ Pk) as S.
    fold (deduplicateAndPrioritize vs) in S.
    assert (Po : Forall plainSeverity (deduplicateAndPrioritize vs)).
    { apply (Permutation_Forall (Permutation_sym (sortStable_perm _ _))). exact Pk. }
    revert S Po. generalize (deduplicateAndPrioritize vs). intros l S.
    induction S as [|x r S IH F]; intro Po; constructor.
    + apply IH. inversion Po; assumption.
    + inversion Po as [|? ? Hx Hr]; subst. rewrite Forall_forall in F, Hr |- *.
      intros z Hz. exact (proj1 (notAfter_ordered x z Hx (Hr z Hz)) (F z Hz)).
Qed.

Example deduplicate_evaluated :
  deduplicateAndPrioritize
    [sampleVulnerability "xss" "medium" 3 800;
     sampleVulnerability "sql" "critical" 7 750;
     sampleVulnerability "xss" "medium" 3 900;
     sampleVulnerability "crypto" "medium" 5 950]
  = [sampleVulnerability "sql" "critical" 7 750;
     sampleVulnerability "crypto" "medium" 5 950;
     sampleVulnerability "xss" "medium" 3 900].
Proof.
  vm_compute. reflexivity.
Qed.

Lemma remember_fresh (l : list Vulnerability) :
  forall m : JsMap Vulnerability,
    NoDup (map fst m ++ map keyOf l) ->
    fold_left remember l m = (m ++ map (fun v => (keyOf v, v)) l)%list.
Proof.
  induction l as [|v r IH]; intros m N; cbn [fold_left map].
  - rewrite app_nil_r. reflexivity.
  - cbn [map] in N.
    assert (G : mapGet (keyOf v) m = None).
    { destruct (mapGet (keyOf v) m) as [u|] eqn:G; [|reflexivity].
      exfalso. apply mapGet_In in G. apply (in_map fst) in G. cbn [fst] in G.
      apply NoDup_remove_2 in N. apply N. apply in_or_app. left. exact G. }
    unfold remember at 2. rewrite G.
    assert (E : mapSet (keyOf v) v m = (m ++ [(keyOf v, v)])%list).
    { clear N IH. induction m as [|[k0 v0] m IH]; cbn [mapSet app]; [reflexivity|].
      cbn [mapGet] in G. destruct (String.eqb k0 (keyOf v)); [discriminate|].
      rewrite (IH G). reflexivity. }
    rewrite E, IH.
    + rewrite <- app_assoc. reflexivity.
    + rewrite map_app, <- app_assoc. cbn [map fst app].
      apply (Permutation_NoDup (l := map fst m ++ keyOf v :: map keyOf r)); [|exact N].
      apply Permutation_refl.
Qed.

Lemma deduplicateAndPrioritize_sorted_keys (vs : list Vulnerability) :
  Forall plainSeverity vs ->
  NoDup (map fst (@nil (string * Vulnerability))
         ++ map keyOf (deduplicateAndPrioritize vs)) /\
  StronglySorted (fun a b => (compareVulnerabilities a b <= 0)%Z)
    (deduplicateAndPrioritize vs).
Proof.
  intro P. destruct (remembered_all vs) as [N [Hm _]]. split.
  - cbn [map app].
    apply (Permutation_NoDup
             (Permutation_map keyOf
                (Permutation_sym (sortStable_perm compareVulnerabilities _)))).
    rewrite kept_keys. exact N.
  - apply sortStable_sorted.
    rewrite Forall_forall in P |- *. intros u H. unfold mapValues in H.
    apply in_map_iff in H. destruct H as [[k u'] [E H]]. cbn [snd] in E. subst u'.
    exact (P u (proj2 (Hm k u H))).
Qed.

(** X29. [deduplicateAndPrioritize] is idempotent: applied to its own
    result it changes nothing, neither the findings nor their order. *)
Theorem deduplicateAndPrioritize_idempotent :
  forall vs : list Vulnerability,
    Forall plainSeverity vs ->
    deduplicateAndPrioritize (deduplicateAndPrioritize vs)
    = deduplicateAndPrioritize vs.
Proof.
  intros vs P.
  destruct (deduplicateAndPrioritize_sorted_keys vs P) as [N S].
  unfold deduplicateAndPrioritize at 1.
  rewrite (remember_fresh _ [] N). cbn [app]. unfold mapValues.
  rewrite map_map. cbn [snd]. rewrite map_id.
  apply sortStable_sorted_id. exact S.
Qed.

Lemma deduplicateAndPrioritize_idempotent_witness :
  Forall plainSeverity
    [sampleVulnerability "xss" "medium" 3 800;
     sampleVulnerability "sql" "critical" 7 750;
     sampleVulnerability "xss" "medium" 3 900] /\
  deduplicateAndPrioritize
    (deduplicateAndPrioritize
       [sampleVulnerability "xss" "medium" 3 800;
        sampleVulnerability "sql" "critical" 7 750;
        sampleVulnerability "xss" "medium" 3 900])
  = deduplicateAndPrioritize
      [sampleVulnerability "xss" "medium" 3 800;
       sampleVulnerability "sql" "critical" 7 750;
       sampleVulnerability "xss" "medium" 3 900].
Proof.
  assert (P : Forall plainSeverity
                [sampleVulnerability "xss" "medium" 3 800;
                 sampleVulnerability "sql" "critical" 7 750;
                 sampleVulnerability "xss" "medium" 3 900])
    by (constructor; [reflexivity|];
        constructor; [reflexivity|];
        constructor; [reflexivity|]; constructor).
  split; [exact P|]. exact (deduplicateAndPrioritize_idempotent _ P).
Defined.

Lemma splitLines_count (s : string) :
  List.length (Js.splitLines s) = 1 + lineFeeds s.
Proof.
  induction s as [|c r IH]; [reflexivity|]. cbn [Js.splitLines lineFeeds].
  destruct (Ascii.eqb c (ascii_of_nat 10)).
  - cbn [List.length]. rewrite IH. reflexivity.
  - destruct (Js.splitLines r) as [|l ls]; [discriminate IH|].
    cbn [List.length] in *. exact IH.
Qed.

Lemma lineFeeds_take (s : string) :
  forall i j, i <= j -> lineFeeds (Js.take i s) <= lineFeeds (Js.take j s).
Proof.
  induction s as [|c r IH]; intros [|i] [|j] H; cbn [Js.take lineFeeds]; try lia.
  specialize (IH i j ltac:(lia)). lia.
Qed.

Lemma take_whole (s : string) (n : nat) : String.length s <= n -> Js.take n s = s.
Proof.
  revert n. induction s as [|c r IH]; intros [|n] H; cbn [Js.take String.length] in *;
    try reflexivity; try lia.
  rewrite IH by lia. reflexivity.
Qed.

Lemma getLineNumber_take (code : string) (index : nat) :
  getLineNumber code index = 1 + lineFeeds (Js.take index code).
Proof.
  unfold getLineNumber, Js.slice. rewrite Nat.sub_0_r, splitLines_count.
  destruct code; reflexivity.
Qed.

(** X30. [getLineNumber] counts lines from 1: the line number of an index
    is one more than the number of line feeds before it.  It is 1 at the
    start of the code, it does not fall when the index grows, it never
    exceeds the number of lines of the code and reaches it at the end of
    the code. *)
Theorem getLineNumber_counts :
  forall (code : string) (index : nat),
    getLineNumber code index = 1 + lineFeeds (Js.take index code) /\
    getLineNumber code 0 = 1 /\
    (forall later, index <= later ->
                   getLineNumber code index <= getLineNumber code later) /\
    getLineNumber code index <= List.length (Js.splitLines code) /\
    (String.length code <= index ->
     getLineNumber code index = List.length (Js.splitLines code)).
Proof.
  intros code index. rewrite splitLines_count.
  split; [apply getLineNumber_take|]. split.
  - rewrite getLineNumber_take. destruct code; reflexivity.
  - split; [|split].
    + intros later H. rewrite !getLineNumber_take.
      pose proof (lineFeeds_take code index later H). lia.
    + rewrite getLineNumber_take.
      pose proof (lineFeeds_take code index (Nat.max index (String.length code))
                    ltac:(lia)) as H.
      rewrite (take_whole code (Nat.max index (String.length code))) in H by lia. lia.
    + intro H. rewrite getLineNumber_take, (take_whole code index H). reflexivity.
Qed.

End AnalyzerMore.
